(* ===== verification/_CoqProject ===== *)
-Q . S2P
Prelude.v
Purgeable.v
Codecs.v
Common.v
Concrete.v
Config.v
Deposits.v
L1Info.v
HeadInfo.v
State.v
BatcherTransactions.v
Channels.v
SingleBatch.v
SpanBatch.v
SpanEncoding.v
Batches.v
Engine.v
Ecotone.v
Attributes.v
Pipeline.v
Assembly.v
Derivation.v
Progress.v
EngineDriver.v
Json.v
EngineApi.v
EngineServer.v
Blobs.v
ChainWatcher.v
Gossip.v
Driver.v
Node.v
SafeChain.v
Liveness.v
Network.v
Rpc.v
Runner.v
Settings.v
Telemetry.v
Program.v
Conformance.v
