(* ===== verification/Prelude.v ===== *)
(** * A verification of Magi, an OP Stack rollup node

    Magi (src/, in Rust) follows an L2 chain: it reads the blocks of L1, derives from
    what the batcher posted there the attributes of the L2 blocks, has an execution
    client build them over the engine API, and so moves the unsafe, safe and finalized
    heads of L2.  Between two L1 blocks it extends the unsafe head with signed blocks from
    a gossip network.  This library models that program and proves what it does.

    ** The parts, in the order of the data

    - The L1 side.  [ChainWatcher.v] is src/src/l1/chain_watcher.rs: the task that reads L1
      block by block, follows finality and the system configuration, and detects reorgs;
      its turns are [try_ingest_block].  [Blobs.v] is src/src/l1/blob_fetcher.rs and
      src/src/l1/blob_encoding.rs.  [L1Info.v] is src/src/l1/l1_info.rs and
      src/src/l1/config_updates.rs.
    - The derivation, src/src/derive/.  [Purgeable.v] has the iterator class and its
      contracts, against which a stage is proved for any previous stage.
      [BatcherTransactions.v], [Channels.v], [Batches.v] and [Attributes.v] are the stages
      of src/src/derive/stages/ with the same names; [SingleBatch.v] and [SpanBatch.v] the
      two batch formats with their block inputs, [SpanEncoding.v] the encoder of the second
      one from the specification; [Deposits.v] the lower half of attributes.rs; [Ecotone.v]
      the upgrade transactions.  [State.v] is src/src/derive/state.rs, the cache of L1 and L2
      blocks that the driver writes and the stages read.  [Pipeline.v] is
      src/src/derive/mod.rs, the four stages composed;
      [Assembly.v] follows the frames of a channel through the first two of them, and
      [Derivation.v] posted batches through all.
    - The driver, src/src/driver/.  [EngineDriver.v] is engine_driver.rs, the heads and the
      exchanges with the client that move them; [HeadInfo.v] is types.rs and info.rs, the
      head read back from a block; [Driver.v] is mod.rs, the loop ([turn] is one round).
      [Progress.v] has the measures that bound the pipeline, for [Liveness.v].
    - The execution client.  [Engine.v] has the types and the trait of src/src/engine/ as a
      class with the mock as an instance; [EngineApi.v] the JSON-RPC client that is the
      other instance (api.rs, auth.rs, types.rs), on the JSON values of [Json.v];
      [EngineServer.v] a server of the engine API, written from its specification, that the
      client is proved against.
    - The network, src/src/network/.  [Gossip.v] has the block handler, the dispatch of
      messages and the node records; [Network.v] the start of the service and the two tasks
      it leaves running, the discovery of peers and the swarm, whose steps interleave
      ([network_step]).
    - The rest.  [Common.v] is src/src/common/, [Config.v] src/src/config/mod.rs, [Codecs.v]
      the codecs of libraries, [Rpc.v] src/src/rpc/mod.rs and src/src/version/mod.rs,
      [Runner.v] src/src/runner/mod.rs, the start of a node with checkpoint sync,
      [Settings.v] the serde forms of the configuration, the merge of its providers and the
      command line (src/bin/magi.rs), and [Telemetry.v] src/src/telemetry/, the log and the
      gauges.
    - The whole.  [Node.v] puts the driver, the watcher and the gossip task together, as a
      relation [node_step] whose steps interleave, and states what the parts promise
      together; [SafeChain.v] follows posted blocks to the safe head; [Liveness.v] shows
      that the loop does not get stuck.  [Program.v] composes
      the pieces of the two programs: the driver made from a configuration, its loop as the
      task of the runner, the RPC server, and the main functions of src/bin/magi.rs and
      src/bin/network.rs.
    - The checks on real data.  [Concrete.v] computes five libraries (Keccak, RLP, LEB128,
      zlib, SHA-256), and [Conformance.v] runs on them the unit tests of the repository.

    ** How code becomes a definition

    A struct is a record and an enum an inductive type, with the fields of the source; a
    field whose name is taken by another record has a prefix.  A method is a definition
    of its name, prefixed by its type where the name is not unique.  A call that can fail
    gives an [outcome]: [Ok], [Err] for an error, [Panic] for a panic, [Diverge] for a loop
    whose fuel ran out.  A method with [&mut self] is an action [M S A]: it gives an outcome
    and the new state, also on an error, as Rust keeps the mutations made before an early
    return.  Integers are [Z] with the wrap-around of their width written out ([u64_add],
    [i64], ...): the arithmetic is that of a release build, where overflow wraps; an index,
    a slice, an [unwrap], a division and the conversion of a large number panic as in any
    build.  Bytes and hashes are lists of [Z].  A [BTreeMap] or [HashMap] is a [gmap], with
    the least key found by [first_key] where the code uses the order.  A queue with its
    sender and its receiver in two components is one field that both read and write, and
    the lock around the shared state is the argument of the calls made while it is held.

    ** Fuel

    A loop of the source is structural recursion, or [loop] with fuel.  The fuel of the
    stages is one more than what the loop consumes (the bytes left, the channels, the
    frames, the batches, the cached blocks), and the theorems of the stage give the result
    of the loop, which excludes [Diverge]: [decode_batches_encode], [derive_batch_spec],
    [Channels_next_safe] and the lemmas [BatcherTransaction_new_Ok] and
    [update_l1_info_spec].  The loop [drain] of the driver ends when the pipeline has
    nothing to give; its fuel is an argument.  [advance_safe_head_spec] says that with
    enough of it the call succeeds exactly when the loop has a finite run that does,
    [posted_span_becomes_safe] gives a bound for one batch, and [turn_ends] shows that in
    every reachable state, for a client that answers and keeps to the timestamps it is
    given, there is an amount from which on more makes no difference and the result is not
    [Diverge].  The loops that wait for another process ([await_engine_ready],
    [await_available], [await_synced]) have no bound.  The tasks that never end run for a
    list of events ([driver_loop]) or as a relation ([network_run], a list of turns with
    what drove each of them and what it did).

    ** What the libraries promise

    Code that is not of the repository is a class that the definitions take: [Keccak],
    [Codec] (ABI and RLP encoding), [RlpDecoder], [Varint], [VarintEncode], [Zlib],
    [TransactionRlp], [ToBeBytes8], [Snappy], [Ssz], [Ecdsa], [Sha256], [EthersSerde],
    [AlloySerde], [Figment], [Jwt], [Tracing], [AnsiTerm].
    A law of a class states documented behaviour: a decoder reads what the encoder writes,
    a hash has its length.  The other processes are classes over a type of their states, and
    may answer anything: [Engine] and [BlockProvider] (the client), [L1Provider], [Http] and
    [Beacon] (the L1 nodes), [Transport] (HTTP and the clock), [ProofProvider],
    [InnerProvider], [Nodes] (RPC nodes), [HttpClients], [RpcServer],
    [PrometheusExporter], [Libp2p] and [Discv5] (the network stack, [ServiceStart] for the
    driver).  [Builder] is the contract of a client that builds what it is asked for, and
    [Punctual], [ToBeBytes8Ends], [ServiceStartEnds] and [NetworkEnds] say of calls that
    they return; [EthersSerdeDocumented] and [JwtVerify] say what the strings of a request
    look like, for the server.  Every class has an instance that the witnesses evaluate the
    definitions with; for Keccak, RLP, LEB128 and zlib there is the computed one of
    [Concrete.v].  No hash is assumed to be free of collisions: the theorems that need it
    name the two inputs that would collide.

    One library call is decisive.  attributes.rs converts the gas limit, 256 bits, into 8
    bytes, and the documentation of that call ([to_be_bytes] of ruint) says that it panics
    ([ToBeBytes8Documented]).  The theorems on the derivation do not assume that it
    succeeds: they say what happens for each outcome of it ([converted_gas]), and by the
    documentation every call that derives a block panics ([derive_attributes_documented],
    [derived_blocks_documented]).

    ** The theorems

    - What the node does with L1 data: [posted_span_becomes_safe] (up to the first block
      whose gas limit is not converted), [turn_ends], [advance_safe_head_spec],
      [turn_finalizes], [reorg_restarts], and the invariant [node_reachable] of every
      interleaving.
    - The heads move only where they may: [handle_attributes_safe], [advance_unsafe_head_safe],
      [checkpoint_sync_safe].
    - The derivation: [posted_batches_derived] (the blocks that a batcher posts come out as
      attributes), [pipeline_reachable], [derive_epoch], [Batches_next_spec],
      [derive_batch_spec], [single_batch_status_spec], [span_batch_status_accepts],
      [empty_input_final], [Channels_next_safe], [Channels_prune_least],
      [State_reachable_consistent].
    - Formats: [Frame_from_data_inverse], [collect_reassembles], [decode_batches_encode],
      [SpanBatch_decode_wf], [decode_blob_data_encode], [UserDeposited_reads_event],
      [head_info_of_derived_block]; and [derived_transactions_genuine], that the transactions
      the node makes itself are those of the specification of the chain, field by field.
    - The L1 watcher: [watcher_reachable], [system_config_tracks], [get_deposits_spec],
      [get_batcher_transactions_spec].
    - The other interfaces: [engine_api_transparent] (the JSON-RPC client in front of a
      server of the engine API behaves as the engine behind it), [BlockHandler_handle_safe],
      [network_run_safe], [output_at_block_binds], [Config_new_spec].
    - What goes wrong: [gossip_stops_node] (one malformed gossip message ends the process),
      [full_sync_run] (a failed driver exits with code 0, in its own shutdown),
      [checkpoint_search_stuck], and among the lemmas [config_updates_missed],
      [third_topic_ignored], [EngineApi_new_url], [discovery_gone_spins], [span_batch_dropped_on_base], [empty_input_overtaken],
      [file_chain_overrides].
    - The unit tests: [channels_tests_pass] and the theorems after it in [Conformance.v].

    ** What is not modelled

    What is of libraries: the parsing of arguments, TOML and JSON text, HTTP, gossipsub,
    discv5, the server that takes RPC requests; they are the classes above.  The six tests
    that ask live nodes.  Time is an argument, and the pauses are not steps.  In the watcher
    a full channel does not block the task.

    ** Plan

    [posted_batches_derived] is about one channel at a time and [posted_span_becomes_safe]
    about one span batch, from an idle pipeline.  What is left are channels whose frames
    interleave, and with them a refinement of the batch queue by the derivation of the
    specification. *)
From stdpp Require Export prelude gmap strings.
From Stdlib Require Export ZArith Lia.

Open Scope Z_scope.

(** ** Outcomes

    What a Rust call does: it returns ([Ok]), it returns an [eyre] error
    ([Err]), or it panics ([Panic]: an index out of range, an [unwrap] of
    [None], a division by zero).  [Diverge] is what a loop whose fuel ran out
    returns, so that a theorem [... <> Diverge] states termination. *)

Inductive outcome (A : Type) : Type :=
| Ok (a : A)
| Err (e : string)
| Panic
| Diverge.

Arguments Ok {A} a.
Arguments Err {A} e.
Arguments Panic {A}.
Arguments Diverge {A}.

#[export] Instance outcome_eq_dec `{EqDecision A} : EqDecision (outcome A).
Proof. solve_decision. Defined.

#[export] Instance outcome_ret : MRet outcome := fun A a => Ok a.

#[export] Instance outcome_bind : MBind outcome := fun A B f m =>
  match m with
  | Ok a => f a
  | Err e => Err e
  | Panic => Panic
  | Diverge => Diverge
  end.

#[export] Instance outcome_fmap : FMap outcome := fun A B f m =>
  match m with
  | Ok a => Ok (f a)
  | Err e => Err e
  | Panic => Panic
  | Diverge => Diverge
  end.

(** [Option::ok_or] and [Option::unwrap]. *)
Definition ok_or {A} (o : option A) (e : string) : outcome A :=
  match o with Some a => Ok a | None => Err e end.

Definition unwrap {A} (o : option A) : outcome A :=
  match o with Some a => Ok a | None => Panic end.

(** The results of a run up to the first that is no value, and how the run ends. *)
Fixpoint ok_prefix {A} (l : list (outcome A)) : list A * outcome unit :=
  match l with
  | [] => ([], Ok tt)
  | Ok a :: l => let '(k, r) := ok_prefix l in (a :: k, r)
  | Err e :: _ => ([], Err e)
  | Panic :: _ => ([], Panic)
  | Diverge :: _ => ([], Diverge)
  end.

(** [Result::ok]. *)
Definition ok {A} (o : outcome A) : option A :=
  match o with Ok a => Some a | _ => None end.

(** ** State with outcomes

    A method with a [&mut self] receiver.  The state is returned on every
    outcome, as a Rust object keeps the mutations made before an early
    return. *)

Definition M (S A : Type) : Type := S -> outcome A * S.

#[export] Instance M_ret S : MRet (M S) := fun A a s => (Ok a, s).

#[export] Instance M_bind S : MBind (M S) := fun A B f m s =>
  match m s with
  | (Ok a, s') => f a s'
  | (Err e, s') => (Err e, s')
  | (Panic, s') => (Panic, s')
  | (Diverge, s') => (Diverge, s')
  end.

Definition gets {S A} (f : S -> A) : M S A := fun s => (Ok (f s), s).
Definition modify {S} (f : S -> S) : M S unit := fun s => (Ok tt, f s).
Definition lift {S A} (o : outcome A) : M S A := fun s => (o, s).

(** Run an action on a part of the state. *)
Definition zoom {S T A} (get : S -> T) (set : T -> S -> S) (m : M T A) : M S A :=
  fun s => let '(r, t) := m (get s) in (r, set t s).

(** Evaluate the binds of an action applied to a state. *)
Tactic Notation "run_M" "in" hyp(H) :=
  unfold mbind, M_bind, gets, lift, modify, zoom, mret, M_ret in H; cbn beta iota in H.
Tactic Notation "run_M" := unfold mbind, M_bind, gets, lift, modify, zoom, mret, M_ret; cbn beta iota.

(** ** What an action leaves alone

    [preserves f m]: on every outcome of [m] the part [f] of the state is what it
    was. *)

Definition preserves {S A T} (f : S -> T) (m : M S A) : Prop := forall s, f (m s).2 = f s.

(** ** What ends

    [ends m]: the action answers from every state.  [terminates f s]: with enough fuel
    the action [f] answers from [s], and more fuel gives the same answer. *)

Definition ends {S A} (m : M S A) : Prop := forall s, (m s).1 <> Diverge.

Definition terminates {S A} (f : nat -> M S A) (s : S) : Prop :=
  exists n r s', r <> Diverge /\ forall fuel, (n <= fuel)%nat -> f fuel s = (r, s').

(** ** Loops

    [loop fuel body s] runs a Rust [loop] or [while]: [body] either goes on
    with a new state ([inl]) or breaks with a result ([inr]). *)

Fixpoint loop {S A} (fuel : nat) (body : S -> outcome (S + A)) (s : S) : outcome A :=
  match fuel with
  | O => Diverge
  | S n =>
      r ← body s;
      match r with
      | inl s' => loop n body s'
      | inr a => Ok a
      end
  end.

(** ** Machine integers *)

Definition u16 (z : Z) : Z := z mod 65536.
Definition u32 (z : Z) : Z := z mod 4294967296.
Definition u64 (z : Z) : Z := z mod 18446744073709551616.
Definition i64 (z : Z) : Z :=
  (z + 9223372036854775808) mod 18446744073709551616 - 9223372036854775808.

Definition in_u16 (z : Z) : Prop := 0 <= z < 65536.
Definition in_u32 (z : Z) : Prop := 0 <= z < 4294967296.
Definition in_u64 (z : Z) : Prop := 0 <= z < 18446744073709551616.

(** Arithmetic of the release profile: [+], [-] and [*] wrap around. *)
Definition u64_add (a b : Z) : Z := u64 (a + b).
Definition u64_sub (a b : Z) : Z := u64 (a - b).
Definition u64_mul (a b : Z) : Z := u64 (a * b).
Definition u64_saturating_sub (a b : Z) : Z := Z.max 0 (a - b).

(** [/] on unsigned integers panics on a zero divisor. *)
Definition u64_div (a b : Z) : outcome Z :=
  if b =? 0 then Panic else Ok (a / b).

(** ** Bytes and slices

    A byte is a [Z] in [0, 256); a [usize] index is a [Z]. *)

Abbreviation bytes := (list Z).

Definition byte_ok (b : Z) : Prop := 0 <= b < 256.
Abbreviation bytes_ok := (Forall byte_ok).

#[export] Instance byte_ok_dec b : Decision (byte_ok b).
Proof. unfold byte_ok. apply _. Defined.

#[export] Instance in_u64_dec z : Decision (in_u64 z).
Proof. unfold in_u64. apply _. Defined.

#[export] Instance in_u32_dec z : Decision (in_u32 z).
Proof. unfold in_u32. apply _. Defined.

#[export] Instance in_u16_dec z : Decision (in_u16 z).
Proof. unfold in_u16. apply _. Defined.

Definition len {A} (l : list A) : Z := Z.of_nat (length l).

(** [&l[i..j]], [&l[i..]] and [l[i]] panic out of range; [l.get(i..j)] does not. *)
Definition get_slice {A} (l : list A) (i j : Z) : option (list A) :=
  if (0 <=? i) && (i <=? j) && (j <=? len l)
  then Some (take (Z.to_nat (j - i)) (drop (Z.to_nat i) l))
  else None.

Definition slice {A} (l : list A) (i j : Z) : outcome (list A) :=
  unwrap (get_slice l i j).

Definition slice_from {A} (l : list A) (i : Z) : outcome (list A) :=
  slice l i (len l).

Definition index {A} (l : list A) (i : Z) : outcome A :=
  if 0 <=? i then unwrap (l !! Z.to_nat i) else Panic.

(** [from_be_bytes] and [to_be_bytes]. *)
Definition from_be (bs : bytes) : Z := foldl (fun acc b => acc * 256 + b) 0 bs.

Fixpoint to_be (n : nat) (z : Z) : bytes :=
  match n with
  | O => []
  | S n => to_be n (z / 256) ++ [z mod 256]
  end.

(** The bytes of an ASCII string. *)
Definition string_bytes (s : string) : bytes :=
  (fun c => Z.of_N (Ascii.N_of_ascii c)) <$> String.list_ascii_of_string s.

(** [U256::as_u64] of ethers panics on a value that does not fit. *)
Definition as_u64 (z : Z) : outcome Z :=
  if z <? 18446744073709551616 then Ok z else Panic.

(** ** BTreeMap

    A [BTreeMap<u64, V>] is a [gmap Z V]; its order shows only in
    [first_key_value] (the least key) and [pop_first]. *)

Definition first_key {V} (m : gmap Z V) : option Z :=
  match map_to_list m with
  | [] => None
  | kv :: l => Some (foldr (fun kv' k => Z.min kv'.1 k) kv.1 l)
  end.

Definition first_key_value {V} (m : gmap Z V) : option (Z * V) :=
  k ← first_key m; v ← m !! k; Some (k, v).

Definition pop_first {V} (m : gmap Z V) : gmap Z V :=
  match first_key m with Some k => delete k m | None => m end.

(** ** Hints and tactics *)

Create HintDb magi discriminated.
#[export] Hint Constants Opaque : magi.

(** Split a hypothesis [m ≫= f = Ok _] (or [f <$> m = Ok _]) into its parts. *)
Lemma bind_Ok {A B} (m : outcome A) (f : A -> outcome B) (b : B) :
  m ≫= f = Ok b <-> exists a, m = Ok a /\ f a = Ok b.
Proof. destruct m; cbn; naive_solver. Qed.

Lemma fmap_Ok {A B} (m : outcome A) (f : A -> B) (b : B) :
  f <$> m = Ok b <-> exists a, m = Ok a /\ f a = b.
Proof. destruct m; cbn; naive_solver. Qed.

Lemma ok_prefix_Ok {A} (l : list (outcome A)) k : ok_prefix l = (k, Ok tt) -> l = Ok <$> k.
Proof.
  revert k. induction l as [|[a|e| |] l IH]; intros k; cbn [ok_prefix]; [by intros [= <-]| |done..].
  destruct (ok_prefix l) as [k' r]. intros [= <- ->]. by rewrite (IH k').
Qed.

(** The computation rules, as equations: rewriting with them keeps the proof
    terms of long chains cheap to check. *)
Lemma bind_ret {A B} (a : A) (f : A -> outcome B) : Ok a ≫= f = f a.
Proof. done. Qed.

Lemma fmap_ret {A B} (a : A) (f : A -> B) : f <$> Ok a = Ok (f a).
Proof. done. Qed.

(** No step of a computation runs out of fuel. *)
Lemma bind_not_Diverge {A B} (m : outcome A) (f : A -> outcome B) :
  m <> Diverge -> (forall a, m = Ok a -> f a <> Diverge) -> m ≫= f <> Diverge.
Proof. destruct m; cbn; auto. Qed.

Lemma fmap_not_Diverge {A B} (m : outcome A) (f : A -> B) : m <> Diverge -> f <$> m <> Diverge.
Proof. by destruct m. Qed.

Lemma mapM_not_Diverge {A B} (f : A -> outcome B) (l : list A) : (forall x, f x <> Diverge) -> mapM f l <> Diverge.
Proof.
  intros Hf. induction l as [|x l IH]; [done|]. cbn [mapM]. apply bind_not_Diverge; [apply Hf|]. intros y _.
  by apply bind_not_Diverge.
Qed.

Lemma unwrap_not_Diverge {A} (o : option A) : unwrap o <> Diverge.
Proof. by destruct o. Qed.

Lemma ok_or_not_Diverge {A} (o : option A) e : ok_or o e <> Diverge.
Proof. by destruct o. Qed.

Lemma slice_not_Diverge {A} (l : list A) i j : slice l i j <> Diverge.
Proof. apply unwrap_not_Diverge. Qed.

Lemma slice_from_not_Diverge {A} (l : list A) i : slice_from l i <> Diverge.
Proof. apply unwrap_not_Diverge. Qed.

Lemma index_not_Diverge {A} (l : list A) i : index l i <> Diverge.
Proof. unfold index. destruct (0 <=? i); [apply unwrap_not_Diverge|done]. Qed.

Lemma u64_div_not_Diverge a b : u64_div a b <> Diverge.
Proof. unfold u64_div. by destruct (b =? 0). Qed.

#[export] Hint Resolve fmap_not_Diverge unwrap_not_Diverge ok_or_not_Diverge slice_not_Diverge
  slice_from_not_Diverge index_not_Diverge u64_div_not_Diverge : magi.

(** Walk through a chain of binds and tests that cannot diverge. *)
Ltac not_Diverge :=
  repeat first
    [ done
    | progress auto with magi nocore
    | apply bind_not_Diverge; [solve [auto with magi nocore]|intros ? _]
    | apply bind_not_Diverge; [|intros ? _]
    | case_match ].

(** Split an action [m ≫= k] that was run. *)
Lemma M_bind_Ok {S A B} (m : M S A) (k : A -> M S B) s b s' :
  (m ≫= k) s = (Ok b, s') <-> exists a s1, m s = (Ok a, s1) /\ k a s1 = (Ok b, s').
Proof. run_M. destruct (m s) as [[a| | |] s1]; naive_solver. Qed.

Lemma M_bind_Err {S A B} (m : M S A) (k : A -> M S B) s e s' :
  (m ≫= k) s = (Err e, s') <-> m s = (Err e, s') \/ exists a s1, m s = (Ok a, s1) /\ k a s1 = (Err e, s').
Proof. run_M. destruct (m s) as [[a| | |] s1]; naive_solver. Qed.

Lemma M_bind_cases {S A B} (m : M S A) (k : A -> M S B) s r s' :
  (m ≫= k) s = (r, s') ->
  (exists a s1, m s = (Ok a, s1) /\ k a s1 = (r, s')) \/
  (exists r0, m s = (r0, s') /\ (forall a, r0 <> Ok a) /\ (forall b, r <> Ok b)).
Proof. run_M. destruct (m s) as [[a| | |] s1]; [naive_solver| | |]; intros [= <- <-]; right; by eexists. Qed.

Section preserves.
Context {S T : Type} (f : S -> T).

Lemma preserves_eq {A} (m : M S A) s r s' : preserves f m -> m s = (r, s') -> f s' = f s.
Proof. intros Hm E. specialize (Hm s). by rewrite E in Hm. Qed.

Lemma preserves_bind {A B} (m : M S A) (k : A -> M S B) :
  preserves f m -> (forall a, preserves f (k a)) -> preserves f (m ≫= k).
Proof.
  intros Hm Hk s. specialize (Hm s). run_M. destruct (m s) as [[a| | |] s'] eqn:E; try done.
  cbn in Hm. by rewrite (Hk a s').
Qed.

Lemma preserves_gets {A} (g : S -> A) : preserves f (gets g).
Proof. done. Qed.

Lemma preserves_lift {A} (o : outcome A) : preserves f (lift o).
Proof. done. Qed.

Lemma preserves_ret {A} (a : A) : preserves f (mret a).
Proof. done. Qed.

Lemma preserves_modify (g : S -> S) : (forall s, f (g s) = f s) -> preserves f (modify g).
Proof. intros Hg s. apply Hg. Qed.

Lemma preserves_zoom {U A} (get : S -> U) (set : U -> S -> S) (m : M U A) :
  (forall u s, f (set u s) = f s) -> preserves f (zoom get set m).
Proof. intros Hset s. unfold zoom. destruct (m (get s)). apply Hset. Qed.
End preserves.

#[export] Hint Resolve preserves_gets preserves_lift preserves_ret preserves_modify preserves_zoom : magi.

Section ends.
Context {S A : Type}.
Implicit Types m : M S A.

Lemma ends_bind {B} m (k : A -> M S B) : ends m -> (forall a, ends (k a)) -> ends (m ≫= k).
Proof. intros Hm Hk s. specialize (Hm s). run_M. destruct (m s) as [[a| | |] s']; try done. apply Hk. Qed.

Lemma ends_gets (g : S -> A) : ends (gets g).
Proof. done. Qed.

Lemma ends_lift (o : outcome A) : o <> Diverge -> ends (lift (S := S) o).
Proof. by intros Ho s. Qed.

Lemma ends_ret (a : A) : ends (S := S) (mret a).
Proof. done. Qed.

Lemma ends_modify (g : S -> S) : ends (modify g).
Proof. done. Qed.

Lemma ends_zoom {T} (get : T -> S) (set : S -> T -> T) m : ends m -> ends (zoom get set m).
Proof. intros Hm t. specialize (Hm (get t)). unfold zoom. by destruct (m (get t)). Qed.

Lemma terminates_const m s : ends m -> terminates (fun _ => m) s.
Proof. intros Hm. specialize (Hm s). destruct (m s) as [r s'] eqn:E. by exists 0%nat, r, s'. Qed.

Lemma terminates_bind {B} (f : nat -> M S A) (g : nat -> A -> M S B) s :
  terminates f s -> (forall fuel a s', f fuel s = (Ok a, s') -> terminates (fun n => g n a) s') ->
  terminates (fun n => f n ≫= g n) s.
Proof.
  intros (n & r & s1 & Hr & Hf) Hg. run_M.
  destruct r as [a|e| |]; [|exists n, (Err e), s1|exists n, Panic, s1|done];
    [|by (split; [done|]); intros fuel Hn; rewrite (Hf fuel Hn)..].
  destruct (Hg n a s1 (Hf n ltac:(lia))) as (n' & r & s2 & Hr' & Hg'). exists (max n n'), r, s2. split; [done|].
  intros fuel Hn. rewrite (Hf fuel) by lia. apply Hg'. lia.
Qed.
End ends.

#[export] Hint Resolve ends_gets ends_lift ends_ret ends_modify ends_zoom : magi.

(** Walk through the binds and tests of an action that ends. *)
Ltac ends :=
  repeat first
    [ done
    | progress eauto with magi nocore
    | apply ends_bind; [solve [eauto with magi nocore]|intros ?]
    | case_match ].

(** A decidable proposition about constants, by evaluation. *)
Ltac by_compute := refine (bool_decide_unpack _ _); vm_compute; exact I.

Ltac simpl_outcome :=
  repeat match goal with
  | H : Ok _ = Ok _ |- _ => injection H as H; try subst
  | H : Err _ = Ok _ |- _ => discriminate H
  | H : Panic = Ok _ |- _ => discriminate H
  | H : Diverge = Ok _ |- _ => discriminate H
  | H : Ok _ = Err _ |- _ => discriminate H
  | H : _ ≫= _ = Ok _ |- _ => apply bind_Ok in H; destruct H as (? & ? & H)
  | H : _ <$> _ = Ok _ |- _ => apply fmap_Ok in H; destruct H as (? & ? & H)
  | H : mret _ = Ok _ |- _ => cbn in H
  | H : Some _ = Some _ |- _ => injection H as H; try subst
  end.

(** ** Loops *)

Section loop_lemmas.
Context {S A : Type} (body : S -> outcome (S + A)).

(** A loop whose state has a decreasing measure ends within its fuel. *)
Lemma loop_terminates (I : S -> Prop) (mu : S -> nat) (fuel : nat) (s : S) :
  (forall s, I s -> body s <> Diverge) ->
  (forall s s', I s -> body s = Ok (inl s') -> I s' /\ (mu s' < mu s)%nat) ->
  I s -> (mu s < fuel)%nat -> loop fuel body s <> Diverge.
Proof.
  intros Hb Hdec. revert s. induction fuel as [|n IH]; intros s Hs Hmu; [lia|].
  cbn. specialize (Hb s Hs). specialize (Hdec s).
  destruct (body s) as [[s'|a]|e| |]; cbn; try done.
  destruct (Hdec s') as [Hs' Hlt]; [done|done|]. apply IH; [done|lia].
Qed.

(** What every exit of a loop satisfies, from an invariant of its body. *)
Lemma loop_invariant (I : S -> Prop) (Q : A -> Prop) (fuel : nat) (s : S) (a : A) :
  (forall s s', I s -> body s = Ok (inl s') -> I s') ->
  (forall s a, I s -> body s = Ok (inr a) -> Q a) ->
  I s -> loop fuel body s = Ok a -> Q a.
Proof.
  intros Hstep Hexit. revert s. induction fuel as [|n IH]; intros s Hs Hl; [done|].
  cbn in Hl. destruct (body s) as [[s'|a']|e| |] eqn:E; cbn in Hl; simpl_outcome; eauto.
Qed.

(** A loop that neither fails nor panics in its body does not fail. *)
Lemma loop_Ok (I : S -> Prop) (mu : S -> nat) (fuel : nat) (s : S) :
  (forall s, I s -> exists r, body s = Ok r) ->
  (forall s s', I s -> body s = Ok (inl s') -> I s' /\ (mu s' < mu s)%nat) ->
  I s -> (mu s < fuel)%nat -> exists a, loop fuel body s = Ok a.
Proof.
  intros Hb Hdec. revert s. induction fuel as [|n IH]; intros s Hs Hmu; [lia|].
  cbn. destruct (Hb s Hs) as [[s'|a] Hr]; rewrite Hr; cbn; [|eauto].
  destruct (Hdec s s' Hs Hr) as [Hs' Hlt]. apply IH; [done|lia].
Qed.
End loop_lemmas.

(** ** Machine integers *)

Lemma u64_small z : in_u64 z -> u64 z = z.
Proof. unfold in_u64, u64. intros. apply Z.mod_small. lia. Qed.

Lemma u32_small z : in_u32 z -> u32 z = z.
Proof. unfold in_u32, u32. intros. apply Z.mod_small. lia. Qed.

Lemma u16_small z : in_u16 z -> u16 z = z.
Proof. unfold in_u16, u16. intros. apply Z.mod_small. lia. Qed.

Lemma u64_range z : in_u64 (u64 z).
Proof. apply Z.mod_pos_bound. lia. Qed.

Lemma u64_add_small a b : in_u64 (a + b) -> u64_add a b = a + b.
Proof. apply u64_small. Qed.

Lemma u64_sub_small a b : in_u64 (a - b) -> u64_sub a b = a - b.
Proof. apply u64_small. Qed.

Lemma u64_mul_small a b : in_u64 (a * b) -> u64_mul a b = a * b.
Proof. apply u64_small. Qed.

#[export] Hint Resolve u64_small u64_range : magi.

(** Rewrite the wrapping operations away where a bound is in the context. *)
Ltac unwrap_u64 :=
  repeat first
    [ rewrite u64_add_small by (unfold in_u64 in *; lia)
    | rewrite u64_sub_small by (unfold in_u64 in *; lia)
    | rewrite u64_mul_small by (unfold in_u64 in *; lia)
    | rewrite u64_small by (unfold in_u64 in *; lia) ].

(** ** Slices *)

Section slices.
Context {A : Type}.
Implicit Types (l k p m q : list A) (P : A -> Prop).

Lemma len_nonneg l : 0 <= len l.
Proof. unfold len. lia. Qed.

Lemma len_app l k : len (l ++ k) = len l + len k.
Proof. unfold len. rewrite length_app. lia. Qed.

Lemma len_cons (x : A) l : len (x :: l) = 1 + len l.
Proof. unfold len. cbn [length]. lia. Qed.

Lemma len_nil : len ([] : list A) = 0.
Proof. done. Qed.

Lemma get_slice_Some l i j s :
  get_slice l i j = Some s <->
  0 <= i <= j /\ j <= len l /\ s = take (Z.to_nat (j - i)) (drop (Z.to_nat i) l).
Proof.
  unfold get_slice.
  destruct (Z.leb_spec 0 i), (Z.leb_spec i j), (Z.leb_spec j (len l)); cbn; split;
    try (intros [= <-]; split_and!; lia || done); try (intros (?&?&->); lia || done);
    try done.
Qed.

Lemma get_slice_None l i j :
  get_slice l i j = None <-> ~ (0 <= i <= j /\ j <= len l).
Proof.
  unfold get_slice.
  destruct (Z.leb_spec 0 i), (Z.leb_spec i j), (Z.leb_spec j (len l)); cbn; split;
    try done; intros; lia.
Qed.

Lemma slice_Ok l i j s :
  slice l i j = Ok s <->
  0 <= i <= j /\ j <= len l /\ s = take (Z.to_nat (j - i)) (drop (Z.to_nat i) l).
Proof.
  rewrite <- get_slice_Some. unfold slice. destruct (get_slice l i j); cbn; naive_solver.
Qed.

Lemma get_slice_slice l i j s : slice l i j = Ok s -> get_slice l i j = Some s.
Proof. unfold slice. by destruct (get_slice l i j); cbn; intros; simplify_eq. Qed.

Lemma slice_len l i j s : slice l i j = Ok s -> len s = j - i.
Proof.
  intros (?&?&->)%slice_Ok. unfold len in *.
  rewrite length_take, length_drop. lia.
Qed.

(** Slicing a list given as a concatenation, the form the decoders meet. *)
Lemma slice_app_exact p m q i j :
  i = len p -> j = len p + len m -> slice (p ++ m ++ q) i j = Ok m.
Proof.
  intros -> ->. apply slice_Ok. rewrite !len_app.
  pose proof (len_nonneg p). pose proof (len_nonneg m). pose proof (len_nonneg q).
  split_and!; [lia|lia|lia|].
  replace (Z.to_nat (len p)) with (length p) by (unfold len; lia).
  replace (Z.to_nat (len p + len m - len p)) with (length m) by (unfold len; lia).
  by rewrite drop_app_length, take_app_length.
Qed.

Lemma slice_app_prefix m q j : j = len m -> slice (m ++ q) 0 j = Ok m.
Proof. apply (slice_app_exact [] m q 0 j). done. Qed.

Lemma slice_app_skip p q i j :
  len p <= i -> slice (p ++ q) i j = slice q (i - len p) (j - len p).
Proof.
  intros Hi. pose proof (len_nonneg p). unfold slice, get_slice. rewrite len_app.
  replace (0 <=? i - len p) with (0 <=? i) by (destruct (Z.leb_spec 0 i), (Z.leb_spec 0 (i - len p)); lia).
  replace (i - len p <=? j - len p) with (i <=? j)
    by (destruct (Z.leb_spec i j), (Z.leb_spec (i - len p) (j - len p)); lia).
  replace (j - len p <=? len q) with (j <=? len p + len q)
    by (destruct (Z.leb_spec j (len p + len q)), (Z.leb_spec (j - len p) (len q)); lia).
  replace (j - len p - (i - len p)) with (j - i) by lia.
  rewrite drop_app_ge by (unfold len in *; lia).
  by replace (Z.to_nat i - length p)%nat with (Z.to_nat (i - len p)) by (unfold len in *; lia).
Qed.

Lemma slice_all l j : j = len l -> slice l 0 j = Ok l.
Proof. intros. rewrite <- (app_nil_r l) at 1. by apply slice_app_prefix. Qed.

(** The same with an index that is not literally zero. *)
Lemma slice_app_at m q i j : i = 0 -> j = len m -> slice (m ++ q) i j = Ok m.
Proof. intros ->. apply slice_app_prefix. Qed.

Lemma slice_all_at l i j : i = 0 -> j = len l -> slice l i j = Ok l.
Proof. intros ->. apply slice_all. Qed.

Lemma slice_from_app p q i : i = len p -> slice_from (p ++ q) i = Ok q.
Proof.
  intros ->. unfold slice_from. rewrite <- (app_nil_r q) at 1.
  apply slice_app_exact; [done|]. by rewrite len_app.
Qed.

Lemma slice_from_Ok l i s : slice_from l i = Ok s -> l = take (Z.to_nat i) l ++ s /\ 0 <= i <= len l.
Proof.
  intros (?&?&->)%slice_Ok. split; [|lia].
  rewrite (take_ge (drop _ _)); [by rewrite take_drop|].
  unfold len in *. rewrite length_drop. lia.
Qed.

(** Adjacent slices put a prefix back together. *)
Lemma take_slice l i j s :
  slice l i j = Ok s -> take (Z.to_nat j) l = take (Z.to_nat i) l ++ s.
Proof.
  intros (?&?&->)%slice_Ok.
  replace (Z.to_nat j) with (Z.to_nat i + Z.to_nat (j - i))%nat by lia.
  by rewrite take_take_drop.
Qed.

Lemma take_index l i x :
  index l i = Ok x -> take (Z.to_nat (i + 1)) l = take (Z.to_nat i) l ++ [x].
Proof.
  unfold index. destruct (Z.leb_spec 0 i); [|done].
  destruct (l !! Z.to_nat i) eqn:E; cbn; [|done]. intros [= ->].
  replace (Z.to_nat (i + 1)) with (S (Z.to_nat i)) by lia.
  by rewrite (take_S_r _ _ x).
Qed.

Lemma slice_sub l i j s P :
  slice l i j = Ok s -> Forall P l -> Forall P s.
Proof. intros (?&?&->)%slice_Ok Hl. by apply Forall_take, Forall_drop. Qed.

Lemma index_Ok l i x : index l i = Ok x <-> 0 <= i /\ l !! Z.to_nat i = Some x.
Proof.
  unfold index. destruct (Z.leb_spec 0 i); [|split; [done|lia]].
  destruct (l !! Z.to_nat i); cbn; naive_solver.
Qed.

Lemma index_app_mid p x q i : i = len p -> index (p ++ x :: q) i = Ok x.
Proof.
  intros ->. apply index_Ok. split; [apply len_nonneg|].
  unfold len. rewrite Nat2Z.id. by apply list_lookup_middle.
Qed.

Lemma index_total l i : 0 <= i < len l -> exists x, index l i = Ok x.
Proof.
  intros [? Hi]. destruct (lookup_lt_is_Some_2 l (Z.to_nat i)) as [x Hx]; [unfold len in *; lia|].
  exists x. by apply index_Ok.
Qed.

Lemma slice_total l i j : 0 <= i <= j -> j <= len l -> exists s, slice l i j = Ok s.
Proof. intros. eexists. apply slice_Ok. eauto. Qed.

Lemma index_Panic l i : ~ 0 <= i < len l -> index l i = Panic.
Proof.
  intros Hi. unfold index. destruct (Z.leb_spec 0 i); [|done].
  rewrite lookup_ge_None_2; [done|]. unfold len in *. lia.
Qed.
End slices.

(** Evaluate slices of a concatenation of pieces of known length. *)
Ltac slice_concat :=
  repeat first
    [ rewrite slice_app_at by (autorewrite with magi_len in *; lia)
    | rewrite slice_all_at by (autorewrite with magi_len in *; lia)
    | rewrite slice_app_skip by (autorewrite with magi_len in *; lia)
    | rewrite bind_ret
    | rewrite fmap_ret ].

(** ** Big-endian integers *)

Lemma from_be_app_acc bs acc :
  foldl (fun acc b => acc * 256 + b) acc bs = acc * 256 ^ len bs + from_be bs.
Proof.
  unfold from_be. revert acc. induction bs as [|b bs IH]; intros acc; cbn [foldl].
  - rewrite len_nil. lia.
  - rewrite IH, (IH (0 * 256 + b)), len_cons, Z.pow_add_r by (pose proof (len_nonneg bs); lia). lia.
Qed.

Lemma from_be_app bs cs : from_be (bs ++ cs) = from_be bs * 256 ^ len cs + from_be cs.
Proof. unfold from_be at 1. rewrite foldl_app. by rewrite from_be_app_acc. Qed.

Lemma from_be_bound bs : bytes_ok bs -> 0 <= from_be bs < 256 ^ len bs.
Proof.
  induction bs as [|b bs IH] using rev_ind; intros Hok; [done|].
  apply Forall_app in Hok as [Hok Hb]. rewrite Forall_singleton in Hb. unfold byte_ok in Hb.
  rewrite from_be_app, len_app. specialize (IH Hok).
  change (len [b]) with 1. change (from_be [b]) with b.
  pose proof (len_nonneg bs). rewrite Z.pow_add_r, Z.pow_1_r by lia. lia.
Qed.

Lemma length_to_be n z : length (to_be n z) = n.
Proof. revert z. induction n as [|n IH]; intros z; [done|]. cbn. rewrite length_app, IH. cbn. lia. Qed.

Lemma len_to_be n z : len (to_be n z) = Z.of_nat n.
Proof. unfold len. by rewrite length_to_be. Qed.

Lemma bytes_ok_to_be n z : bytes_ok (to_be n z).
Proof.
  revert z. induction n as [|n IH]; intros z; [constructor|]. cbn.
  apply Forall_app. split; [done|]. apply Forall_singleton. apply Z.mod_pos_bound. lia.
Qed.

Lemma from_be_to_be n z : from_be (to_be n z) = z mod 256 ^ Z.of_nat n.
Proof.
  revert z. induction n as [|n IH]; intros z; [by rewrite Z.mod_1_r|].
  cbn [to_be]. rewrite from_be_app, IH. change (len [z mod 256]) with 1.
  change (from_be [z mod 256]) with (z mod 256).
  replace (256 ^ Z.of_nat (S n)) with (256 * 256 ^ Z.of_nat n)
    by (rewrite Nat2Z.inj_succ, Z.pow_succ_r by lia; lia).
  rewrite Z.rem_mul_r by lia. lia.
Qed.

Lemma from_be_to_be_id n z : 0 <= z < 256 ^ Z.of_nat n -> from_be (to_be n z) = z.
Proof. intros. rewrite from_be_to_be. by apply Z.mod_small. Qed.

Lemma to_be_from_be bs : bytes_ok bs -> to_be (length bs) (from_be bs) = bs.
Proof.
  induction bs as [|b bs IH] using rev_ind; intros Hok; [done|].
  apply Forall_app in Hok as [Hok Hb]. rewrite Forall_singleton in Hb. unfold byte_ok in Hb.
  rewrite length_app. cbn [length]. rewrite Nat.add_1_r. cbn [to_be].
  rewrite from_be_app. change (len [b]) with 1. change (from_be [b]) with b.
  rewrite Z.pow_1_r.
  replace ((from_be bs * 256 + b) / 256) with (from_be bs)
    by (rewrite Z.div_add_l, Z.div_small by lia; lia).
  replace ((from_be bs * 256 + b) mod 256) with b
    by (rewrite Z.add_comm, Z.mod_add, Z.mod_small by lia; lia).
  by rewrite IH.
Qed.

Lemma to_be_from_be_len n bs : bytes_ok bs -> len bs = Z.of_nat n -> to_be n (from_be bs) = bs.
Proof. intros Hok Hl. replace n with (length bs) by (unfold len in Hl; lia). by apply to_be_from_be. Qed.

#[export] Hint Rewrite @len_app @len_cons @len_nil len_to_be @length_app length_to_be : magi_len.

#[global] Arguments to_be : simpl never.
#[global] Arguments from_be : simpl never.
#[global] Arguments len {A} l : simpl never.
#[global] Arguments slice {A} l i j : simpl never.
#[global] Arguments slice_from {A} l i : simpl never.
#[global] Arguments index {A} l i : simpl never.
#[global] Arguments u16 : simpl never.
#[global] Arguments u32 : simpl never.
#[global] Arguments u64 : simpl never.

(** ** BTreeMap *)

Section btree.
Context {V : Type}.
Implicit Types m : gmap Z V.

Lemma foldr_min_spec (l : list (Z * V)) (k0 : Z) :
  let k := foldr (fun kv k => Z.min kv.1 k) k0 l in
  (k = k0 \/ exists v, (k, v) ∈ l) /\ k <= k0 /\ forall kv, kv ∈ l -> k <= kv.1.
Proof.
  induction l as [|[k v] l (IHin & IHle & IHall)]; cbn.
  - split_and!; [by left|done|]. intros kv Hkv. by apply not_elem_of_nil in Hkv.
  - split_and!; [|lia|].
    + destruct (Z.min_spec k (foldr (fun kv k => Z.min kv.1 k) k0 l)) as [[_ ->]|[_ ->]].
      * right. exists v. by left.
      * destruct IHin as [?|[v' ?]]; [by left|]. right. exists v'. by right.
    + intros kv [->|Hin]%elem_of_cons; [cbn; lia|]. specialize (IHall kv Hin). lia.
Qed.

Lemma first_key_Some m k :
  first_key m = Some k <-> is_Some (m !! k) /\ forall k', is_Some (m !! k') -> k <= k'.
Proof.
  assert (Hsome : forall k, first_key m = Some k ->
    is_Some (m !! k) /\ forall k', is_Some (m !! k') -> k <= k').
  { intros k1. unfold first_key. destruct (map_to_list m) as [|[k0 v0] l] eqn:El; [done|].
    intros [= <-]. destruct (foldr_min_spec l k0) as (Hin & Hle & Hall).
    assert (Hm : forall k v, m !! k = Some v <-> (k, v) ∈ (k0, v0) :: l)
      by (intros; rewrite <- El; by rewrite elem_of_map_to_list). cbn.
    split.
    - destruct Hin as [-> | [v Hv]]; eexists; apply Hm; [by left|by right].
    - intros k' [v' Hv']. apply Hm in Hv'. apply elem_of_cons in Hv' as [[= -> ->]|Hv']; [done|].
      apply (Hall _ Hv'). }
  split; [auto|]. intros [[v Hv] Hmin].
  destruct (first_key m) as [k1|] eqn:E.
  - destruct (Hsome k1 eq_refl) as [H1 H2]. f_equal. specialize (H2 k ltac:(eauto)).
    specialize (Hmin k1 H1). lia.
  - unfold first_key in E. destruct (map_to_list m) eqn:El; [|done].
    apply map_to_list_empty_iff in El. subst. by rewrite lookup_empty in Hv.
Qed.

Lemma first_key_None m : first_key m = None <-> m = ∅.
Proof.
  unfold first_key. split.
  - destruct (map_to_list m) eqn:El; [|done]. by apply map_to_list_empty_iff in El.
  - intros ->. by rewrite map_to_list_empty.
Qed.

Lemma first_key_value_Some m k v :
  first_key_value m = Some (k, v) <->
  m !! k = Some v /\ forall k', is_Some (m !! k') -> k <= k'.
Proof.
  unfold first_key_value. destruct (first_key m) as [k1|] eqn:E; cbn.
  - apply first_key_Some in E as [[v1 Hv1] Hmin]. rewrite Hv1. cbn. split.
    + intros [= <- <-]. done.
    + intros [Hv Hk]. assert (k = k1) as -> by
        (specialize (Hk k1 ltac:(eauto)); specialize (Hmin k ltac:(eauto)); lia).
      congruence.
  - apply first_key_None in E. subst. rewrite lookup_empty. naive_solver.
Qed.

Lemma first_key_value_None m : first_key_value m = None <-> m = ∅.
Proof.
  split; [|intros ->; done].
  unfold first_key_value. destruct (first_key m) as [k|] eqn:E; cbn.
  - apply first_key_Some in E as [[v Hv] _]. by rewrite Hv.
  - intros _. by apply first_key_None.
Qed.

Lemma pop_first_size m k v :
  first_key_value m = Some (k, v) -> pop_first m = delete k m /\ (size (pop_first m) < size m)%nat.
Proof.
  intros Hf. assert (Hk : first_key m = Some k).
  { apply first_key_Some. apply first_key_value_Some in Hf as [? ?]. eauto. }
  unfold pop_first. rewrite Hk. split; [done|].
  apply first_key_value_Some in Hf as [Hv _].
  rewrite map_size_delete_Some by eauto.
  assert (size m <> 0%nat); [|lia]. intros ?%map_size_empty_inv. subst.
  by rewrite lookup_empty in Hv.
Qed.
End btree.

(** ** Sums *)

Definition zsum (l : list Z) : Z := foldr Z.add 0 l.

Lemma zsum_cons x l : zsum (x :: l) = x + zsum l.
Proof. done. Qed.

#[global] Arguments zsum : simpl never.

Lemma zsum_app l k : zsum (l ++ k) = zsum l + zsum k.
Proof. induction l as [|x l IH]; cbn [app]; rewrite ?zsum_cons; [done|lia]. Qed.

Lemma zsum_nonneg l : Forall (fun x => 0 <= x) l -> 0 <= zsum l.
Proof. induction 1; rewrite ?zsum_cons; [done|lia]. Qed.

Lemma u64_add_u64 a b : u64_add (u64 a) b = u64 (a + b).
Proof. unfold u64_add, u64. by rewrite Z.add_mod_idemp_l. Qed.

Lemma foldl_u64_add l a : foldl u64_add (u64 a) l = u64 (a + zsum l).
Proof.
  revert a. induction l as [|x l IH]; intros a; cbn [foldl]; [by rewrite Z.add_0_r|].
  rewrite u64_add_u64, IH, zsum_cons. f_equal. lia.
Qed.

(** ** Concatenation *)

Lemma join_cons {A} (l : list A) (ls : list (list A)) : mjoin (l :: ls) = l ++ mjoin ls.
Proof. done. Qed.

Lemma join_app {A} (ls ks : list (list A)) : mjoin (ls ++ ks) = mjoin ls ++ mjoin ks.
Proof. induction ls as [|l ls IH]; [done|]. cbn [app]. by rewrite !join_cons, IH, app_assoc. Qed.
