(* ===== verification/Purgeable.v ===== *)
(** The iterator interface of the derivation stages (src/src/derive/purgeable.rs).

    Every stage of the pipeline is an [Iterator] that can be purged, and the
    next stage is generic in it ([Channels<I>], [Batches<I>], the boxed iterator
    of [Attributes]).  The stages that look at the derivation [State] do so
    through an [Arc<RwLock<State>>] they share with the driver; the driver writes
    it between two calls of the pipeline and never during one, so a call gets
    what the lock holds as the argument of type [R]. *)
From S2P Require Import Prelude.

Class PurgeableIterator (R I Item : Type) := {
  next : R -> M I (option Item);
  purge : R -> I -> I
}.

(** A promise a stage makes to the stage after it: a predicate on the stage's
    state that [next] and [purge] keep, and a property of every item that
    [next] yields while it holds. *)
Class IteratorContract {R I Item : Type} (it : PurgeableIterator R I Item)
    (Inv : I -> Prop) (Post : Item -> Prop) := {
  next_inv : forall r s o s', Inv s -> next r s = (o, s') -> Inv s';
  next_post : forall r s x s', Inv s -> next r s = (Ok (Some x), s') -> Post x;
  purge_inv : forall r s, Inv s -> Inv (purge r s)
}.

(** A stage that always answers while the predicate holds: no loop of its own or of
    the stages before it goes on forever. *)
Class IteratorEnds {R I Item : Type} (it : PurgeableIterator R I Item) (Inv : I -> Prop) := {
  next_ends : forall r s, Inv s -> (next r s).1 <> Diverge
}.

(** A stage that consumes: every call leaves it with no more to do than before,
    measured by [mu], and a call that yields an item with less, by the weight of the
    item and one. *)
Class IteratorShrinks {R I Item : Type} (it : PurgeableIterator R I Item) (mu : I -> nat)
    (weight : Item -> nat) := {
  next_shrinks : forall r s o s', next r s = (o, s') ->
    match o with
    | Ok (Some x) => (weight x + mu s' < mu s)%nat
    | _ => (mu s' <= mu s)%nat
    end
}.
