(* ===== verification/Codecs.v ===== *)
(** The codecs of the libraries magi calls: the ABI encoder, the RLP encoder and
    decoder, variable-length integers and zlib.

    They are parameters of the development, as type classes.  A law states the
    documented behaviour of the library, and only what a theorem needs; every
    class has an instance to evaluate the development with. *)
From S2P Require Import Prelude.

(** ** Data *)

(** [ethabi::Token], the two kinds the code builds. *)
Inductive Token :=
| Token_Uint (z : Z)
| Token_FixedBytes (bs : bytes).

(** [ethers::types::transaction::eip2930::AccessList]: addresses with their storage
    keys. *)
Abbreviation AccessList := (list (bytes * list bytes)).

(** The calls the code makes on an [RlpStream]. *)
Inductive RlpOp :=
| append_raw (bs : bytes) (item_count : Z)
| begin_list (len : Z)
| begin_unbounded_list
| finalize_unbounded_list
| append_bytes (bs : bytes)
| append_uint (z : Z)
| append_bool (b : bool)
| append_access_list (l : AccessList).

(** ** Encoders *)

Definition token_word (t : Token) : bytes :=
  match t with Token_Uint z => to_be 32 z | Token_FixedBytes bs => bs end.

Definition token_static (t : Token) : Prop :=
  match t with Token_Uint _ => True | Token_FixedBytes bs => len bs = 32 end.

(** [ethabi::encode], [ethabi::decode] of one [bytes] value, and
    [RlpStream::out] after a sequence of calls.  The law is the ABI
    specification of the static types: one word per token. *)
Class Codec := {
  abi_encode : list Token -> bytes;
  abi_decode_bytes : bytes -> option bytes;
  rlp_out : list RlpOp -> bytes;
  abi_encode_static : forall tokens,
    Forall token_static tokens -> abi_encode tokens = mjoin (token_word <$> tokens)
}.

(** ** Decoders *)

(** [Rlp::new(bytes)] followed by a method; [None] is a [DecoderError].
    [payload_info] is the header length and the value length; [val_at_uint] is told the
    bytes of its type, and a longer integer is an error; [list_at] has the items of
    the list, each an RLP of its own that the type of the items decodes. *)
Class RlpDecoder := {
  payload_info : bytes -> option (nat * nat);
  as_val_bytes : bytes -> option bytes;
  val_at_uint : Z -> bytes -> nat -> option Z;
  val_at_h256 : bytes -> nat -> option bytes;
  val_at_bytes : bytes -> nat -> option bytes;
  val_at_access_list : bytes -> nat -> option AccessList;
  list_at : bytes -> nat -> option (list bytes)
}.

(** [unsigned_varint::decode::u64]: the integer and the rest of the input.  Its
    law: the integer is a [u64], and at least one byte is consumed. *)
Class Varint := {
  uvarint : bytes -> option (Z * bytes);
  uvarint_consumes : forall d n rest,
    uvarint d = Some (n, rest) -> in_u64 n /\ exists p, p <> [] /\ d = p ++ rest
}.

(** The bytes a [libflate::zlib::Decoder] yields before the end of the stream or
    the first error; [None] if the header is invalid. *)
Class Zlib := {
  zlib_decode : bytes -> option bytes
}.

(** ** Example codecs

    The ABI encoding, an RLP-like stream that concatenates its items, varints of a
    single byte, and no compression. *)

Definition example_rlp_op (op : RlpOp) : bytes :=
  match op with
  | append_raw bs _ => bs
  | begin_list n => [192 + n]
  | begin_unbounded_list => [192]
  | finalize_unbounded_list => []
  | append_bytes bs => len bs :: bs
  | append_uint z => to_be 32 z
  | append_bool b => [if b then 1 else 0]
  | append_access_list l => mjoin ((fun a => a.1 ++ mjoin a.2) <$> l)
  end.

Definition example_codec : Codec := {|
  abi_encode := fun tokens => mjoin (token_word <$> tokens);
  abi_decode_bytes := fun d => n ← get_slice d 32 64; get_slice d 64 (64 + from_be n);
  rlp_out := fun ops => mjoin (example_rlp_op <$> ops);
  abi_encode_static := fun tokens _ => eq_refl
|}.

Definition example_uvarint (d : bytes) : option (Z * bytes) :=
  match d with
  | b :: rest => if (0 <=? b) && (b <? 128) then Some (b, rest) else None
  | [] => None
  end.

Lemma example_uvarint_consumes d n rest :
  example_uvarint d = Some (n, rest) -> in_u64 n /\ exists p, p <> [] /\ d = p ++ rest.
Proof.
  destruct d as [|b d]; [done|]. cbn. destruct (Z.leb_spec 0 b), (Z.ltb_spec b 128); try done.
  intros [= <- <-]. split; [unfold in_u64; lia|]. by exists [b].
Qed.

Definition example_varint : Varint := {|
  uvarint := example_uvarint;
  uvarint_consumes := example_uvarint_consumes
|}.

Definition example_zlib : Zlib := {| zlib_decode := Some |}.
