(* ===== verification/Common.v ===== *)
(** Common types (src/src/common/): block info, epochs, raw transactions, and the
    decoder of the L1 attributes deposited transaction that every L2 block
    starts with.

    Blocks and transactions are types of ethers; the records here hold the fields
    the code reads.  A 32-byte hash and a 20-byte address are byte lists, a
    [U256] is its value. *)
From S2P Require Import Prelude.

(** ** Data *)

Record BlockInfo := {
  bi_hash : bytes;
  bi_number : Z;
  bi_parent_hash : bytes;
  bi_timestamp : Z
}.

Record Epoch := {
  ep_number : Z;
  ep_hash : bytes;
  ep_timestamp : Z
}.

#[export] Instance BlockInfo_eq_dec : EqDecision BlockInfo.
Proof. solve_decision. Defined.

#[export] Instance Epoch_eq_dec : EqDecision Epoch.
Proof. solve_decision. Defined.

(** [RawTransaction(pub Vec<u8>)]. *)
Abbreviation RawTransaction := bytes (only parsing).

(** [ethers::types::Transaction].  [tx_hash] and [tx_rlp] are what its methods
    [hash()] and [rlp()] return. *)
Record Transaction := {
  tx_input : bytes;
  tx_from : bytes;
  tx_to : option bytes;
  tx_type : option Z;
  tx_hash : bytes;
  tx_rlp : bytes;
  tx_blob_hashes : list bytes
}.

(** [ethers::types::Block<Transaction>]. *)
Record Block := {
  blk_number : option Z;
  blk_hash : option bytes;
  blk_parent_hash : bytes;
  blk_timestamp : Z;
  blk_transactions : list Transaction;
  blk_mix_hash : option bytes;
  blk_author : option bytes;
  blk_gas_limit : Z;
  blk_gas_used : Z;
  blk_base_fee_per_gas : option Z;
  blk_parent_beacon_block_root : option bytes;
  blk_state_root : bytes;
  blk_receipts_root : bytes;
  blk_logs_bloom : option bytes;
  blk_extra_data : bytes;
  blk_blob_gas_used : option Z;
  blk_excess_blob_gas : option Z
}.

Record AttributesDepositedCall := {
  call_number : Z;
  call_timestamp : Z;
  call_basefee : Z;
  call_hash : bytes;
  call_sequence_number : Z;
  call_batcher_hash : bytes;
  call_fee_overhead : Z;
  call_fee_scalar : Z;
  call_blob_base_fee_scalar : option Z;
  call_blob_base_fee : option Z
}.

(** ** Hashing

    [keccak256] is a library function: the development holds for any function
    from byte strings to 32 bytes. *)

Class Keccak := {
  keccak256 : bytes -> bytes;
  keccak256_length : forall bs, length (keccak256 bs) = 32%nat;
  keccak256_bytes : forall bs, bytes_ok (keccak256 bs)
}.

(** [H256::from_low_u64_be]. *)
Definition H256_from_low_u64_be (z : Z) : bytes := to_be 32 z.

Definition H256_zero : bytes := replicate 32 0.
Definition Address_zero : bytes := replicate 20 0.

(** ** Operations *)

(** [impl TryFrom<Block<Transaction>> for BlockInfo]. *)
Definition BlockInfo_try_from (block : Block) : outcome BlockInfo :=
  number ← ok_or (blk_number block) "block not included";
  hash ← ok_or (blk_hash block) "block not included";
  timestamp ← as_u64 (blk_timestamp block);
  Ok {| bi_number := number;
        bi_hash := hash;
        bi_parent_hash := blk_parent_hash block;
        bi_timestamp := timestamp |}.

(** [impl From<&AttributesDepositedCall> for Epoch]. *)
Definition Epoch_from (call : AttributesDepositedCall) : Epoch :=
  {| ep_number := call_number call;
     ep_timestamp := call_timestamp call;
     ep_hash := call_hash call |}.

Definition L1_INFO_BEDROCK_LEN : Z := 4 + 32 * 8.
Definition L1_INFO_BEDROCK_SIGNATURE : string :=
  "setL1BlockValues(uint64,uint64,uint256,bytes32,uint64,bytes32,uint256,uint256)".

Definition L1_INFO_ECOTONE_LEN : Z := 4 + 32 * 5.
Definition L1_INFO_ECOTONE_SIGNATURE : string := "setL1BlockValuesEcotone()".

Section calls.
Context `{Keccak}.

Definition SET_L1_BLOCK_VALUES_BEDROCK_SELECTOR : bytes :=
  take 4 (keccak256 (string_bytes L1_INFO_BEDROCK_SIGNATURE)).

Definition SET_L1_BLOCK_VALUES_ECOTONE_SELECTOR : bytes :=
  take 4 (keccak256 (string_bytes L1_INFO_ECOTONE_SIGNATURE)).

(** [AttributesDepositedCall::try_from_bedrock]; the cursor of the source moves
    over the fields one after the other. *)
Definition try_from_bedrock (calldata : bytes) : outcome AttributesDepositedCall :=
  if negb (len calldata =? L1_INFO_BEDROCK_LEN) then Err "invalid calldata length" else
  let cursor := 0 in
  selector ← slice calldata cursor (cursor + 4);
  if negb (bool_decide (selector = SET_L1_BLOCK_VALUES_BEDROCK_SELECTOR))
  then Err "invalid selector" else
  let cursor := cursor + 4 in
  number ← from_be <$> slice calldata cursor (cursor + 32);
  number ← as_u64 number;
  let cursor := cursor + 32 in
  timestamp ← from_be <$> slice calldata cursor (cursor + 32);
  timestamp ← as_u64 timestamp;
  let cursor := cursor + 32 in
  basefee ← from_be <$> slice calldata cursor (cursor + 32);
  let cursor := cursor + 32 in
  hash ← slice calldata cursor (cursor + 32);
  let cursor := cursor + 32 in
  sequence_number ← from_be <$> slice calldata cursor (cursor + 32);
  sequence_number ← as_u64 sequence_number;
  let cursor := cursor + 32 in
  batcher_hash ← slice calldata cursor (cursor + 32);
  let cursor := cursor + 32 in
  fee_overhead ← from_be <$> slice calldata cursor (cursor + 32);
  let cursor := cursor + 32 in
  fee_scalar ← from_be <$> slice calldata cursor (cursor + 32);
  Ok {| call_number := number;
        call_timestamp := timestamp;
        call_basefee := basefee;
        call_hash := hash;
        call_sequence_number := sequence_number;
        call_batcher_hash := batcher_hash;
        call_fee_overhead := fee_overhead;
        call_fee_scalar := fee_scalar;
        call_blob_base_fee_scalar := None;
        call_blob_base_fee := None |}.

(** [AttributesDepositedCall::try_from_ecotone]. *)
Definition try_from_ecotone (calldata : bytes) : outcome AttributesDepositedCall :=
  if negb (len calldata =? L1_INFO_ECOTONE_LEN) then Err "invalid calldata length" else
  let cursor := 0 in
  selector ← slice calldata cursor (cursor + 4);
  if negb (bool_decide (selector = SET_L1_BLOCK_VALUES_ECOTONE_SELECTOR))
  then Err "invalid selector" else
  let cursor := cursor + 4 in
  fee_scalar ← from_be <$> slice calldata cursor (cursor + 4);
  let cursor := cursor + 4 in
  blob_base_fee_scalar ← from_be <$> slice calldata cursor (cursor + 4);
  let cursor := cursor + 4 in
  sequence_number ← from_be <$> slice calldata cursor (cursor + 8);
  let cursor := cursor + 8 in
  timestamp ← from_be <$> slice calldata cursor (cursor + 8);
  let cursor := cursor + 8 in
  number ← from_be <$> slice calldata cursor (cursor + 8);
  let cursor := cursor + 8 in
  basefee ← from_be <$> slice calldata cursor (cursor + 32);
  let cursor := cursor + 32 in
  blob_base_fee ← from_be <$> slice calldata cursor (cursor + 32);
  let cursor := cursor + 32 in
  hash ← slice calldata cursor (cursor + 32);
  let cursor := cursor + 32 in
  batcher_hash ← slice calldata cursor (cursor + 32);
  Ok {| call_number := number;
        call_timestamp := timestamp;
        call_basefee := basefee;
        call_hash := hash;
        call_sequence_number := sequence_number;
        call_batcher_hash := batcher_hash;
        call_fee_scalar := fee_scalar;
        call_blob_base_fee := Some blob_base_fee;
        call_blob_base_fee_scalar := Some blob_base_fee_scalar;
        call_fee_overhead := 0 |}.
End calls.

(** ** The calldata formats

    The encoders are the tables in the doc comments of the two decoders. *)

Section formats.
Context `{Keccak}.

Definition encode_bedrock (c : AttributesDepositedCall) : bytes :=
  SET_L1_BLOCK_VALUES_BEDROCK_SELECTOR ++ to_be 32 (call_number c) ++ to_be 32 (call_timestamp c) ++
  to_be 32 (call_basefee c) ++ call_hash c ++ to_be 32 (call_sequence_number c) ++
  call_batcher_hash c ++ to_be 32 (call_fee_overhead c) ++ to_be 32 (call_fee_scalar c).

Definition encode_ecotone (c : AttributesDepositedCall) : bytes :=
  SET_L1_BLOCK_VALUES_ECOTONE_SELECTOR ++ to_be 4 (call_fee_scalar c) ++
  to_be 4 (default 0 (call_blob_base_fee_scalar c)) ++ to_be 8 (call_sequence_number c) ++
  to_be 8 (call_timestamp c) ++ to_be 8 (call_number c) ++ to_be 32 (call_basefee c) ++
  to_be 32 (default 0 (call_blob_base_fee c)) ++ call_hash c ++ call_batcher_hash c.

Definition in_u256 (z : Z) : Prop := 0 <= z < 256 ^ 32.

#[export] Instance in_u256_dec z : Decision (in_u256 z).
Proof. unfold in_u256. apply _. Defined.

Record call_ok (c : AttributesDepositedCall) : Prop := {
  call_ok_number : in_u64 (call_number c);
  call_ok_timestamp : in_u64 (call_timestamp c);
  call_ok_sequence_number : in_u64 (call_sequence_number c);
  call_ok_basefee : in_u256 (call_basefee c);
  call_ok_hash : len (call_hash c) = 32 /\ bytes_ok (call_hash c);
  call_ok_batcher_hash : len (call_batcher_hash c) = 32 /\ bytes_ok (call_batcher_hash c)
}.

Record bedrock_ok (c : AttributesDepositedCall) : Prop := {
  bedrock_ok_call : call_ok c;
  bedrock_ok_overhead : in_u256 (call_fee_overhead c);
  bedrock_ok_scalar : in_u256 (call_fee_scalar c);
  bedrock_ok_blob : call_blob_base_fee_scalar c = None /\ call_blob_base_fee c = None
}.

Record ecotone_ok (c : AttributesDepositedCall) : Prop := {
  ecotone_ok_call : call_ok c;
  ecotone_ok_overhead : call_fee_overhead c = 0;
  ecotone_ok_scalar : in_u32 (call_fee_scalar c);
  ecotone_ok_blob : exists s f, call_blob_base_fee_scalar c = Some s /\ in_u32 s /\
    call_blob_base_fee c = Some f /\ in_u256 f
}.

Lemma len_bedrock_selector : len SET_L1_BLOCK_VALUES_BEDROCK_SELECTOR = 4.
Proof. unfold len, SET_L1_BLOCK_VALUES_BEDROCK_SELECTOR. by rewrite length_take, keccak256_length. Qed.

Lemma len_ecotone_selector : len SET_L1_BLOCK_VALUES_ECOTONE_SELECTOR = 4.
Proof. unfold len, SET_L1_BLOCK_VALUES_ECOTONE_SELECTOR. by rewrite length_take, keccak256_length. Qed.

Lemma as_u64_Ok z n : as_u64 z = Ok n <-> z = n /\ z < 18446744073709551616.
Proof. unfold as_u64. destruct (Z.ltb_spec z 18446744073709551616); naive_solver lia. Qed.

Lemma as_u64_small z : in_u64 z -> as_u64 z = Ok z.
Proof. unfold in_u64. intros. apply as_u64_Ok. lia. Qed.

Lemma from_be_to_be_u256 z : in_u256 z -> from_be (to_be 32 z) = z.
Proof. apply (from_be_to_be_id 32). Qed.

Lemma in_u64_u256 z : in_u64 z -> in_u256 z.
Proof. unfold in_u64, in_u256. change (256 ^ 32) with (2 ^ 256). lia. Qed.

Lemma from_be_to_be_u64 z : in_u64 z -> from_be (to_be 8 z) = z.
Proof. apply (from_be_to_be_id 8). Qed.

Lemma from_be_to_be_u32 z : in_u32 z -> from_be (to_be 4 z) = z.
Proof. apply (from_be_to_be_id 4). Qed.

Lemma try_from_bedrock_encode c : bedrock_ok c -> try_from_bedrock (encode_bedrock c) = Ok c.
Proof.
  intros [[Hn Ht Hs Hf [Hh _] [Hb _]] Ho Hc [Hbs Hbf]].
  unfold try_from_bedrock, encode_bedrock. pose proof len_bedrock_selector as Hsel.
  rewrite (proj2 (Z.eqb_eq _ _)) by (autorewrite with magi_len; unfold L1_INFO_BEDROCK_LEN; lia).
  cbn [negb]. slice_concat. rewrite bool_decide_eq_true_2 by done. cbn [negb]. slice_concat.
  rewrite !from_be_to_be_u256 by auto using in_u64_u256.
  repeat first [rewrite as_u64_small by done|rewrite bind_ret]. destruct c; cbn in *; by subst.
Qed.

Lemma try_from_ecotone_encode c : ecotone_ok c -> try_from_ecotone (encode_ecotone c) = Ok c.
Proof.
  intros [[Hn Ht Hs Hf [Hh _] [Hb _]] Ho Hc (s & f & Hbs & Hus & Hbf & Huf)].
  unfold try_from_ecotone, encode_ecotone. pose proof len_ecotone_selector as Hsel.
  rewrite Hbs, Hbf. cbn [default from_option].
  rewrite (proj2 (Z.eqb_eq _ _)) by (autorewrite with magi_len; unfold L1_INFO_ECOTONE_LEN; lia).
  cbn [negb]. slice_concat. rewrite bool_decide_eq_true_2 by done. cbn [negb]. slice_concat.
  rewrite !from_be_to_be_u256, !from_be_to_be_u64, !from_be_to_be_u32 by done.
  destruct c; cbn in *; by subst.
Qed.

(** What a slice of fixed width of the calldata decodes to. *)
Lemma slice_uint d i j w s :
  bytes_ok d -> slice d i j = Ok s -> j - i = Z.of_nat w ->
  0 <= from_be s < 256 ^ Z.of_nat w /\ to_be w (from_be s) = s.
Proof.
  intros Hd Hs Hw. pose proof (slice_sub _ _ _ _ _ Hs Hd) as Ho. apply slice_len in Hs.
  split; [|apply to_be_from_be_len; [done|lia]].
  rewrite <- Hw, <- Hs. by apply from_be_bound.
Qed.

Lemma slice_word d i s :
  bytes_ok d -> slice d i (i + 32) = Ok s -> len s = 32 /\ bytes_ok s.
Proof. intros Hd Hs. split; [apply slice_len in Hs; lia|by eapply slice_sub]. Qed.

Lemma take_len {A} (l : list A) i : len l = i -> take (Z.to_nat i) l = l.
Proof. unfold len. intros <-. rewrite take_ge; [done|lia]. Qed.

(** Put the facts about one slice of the calldata in the context. *)
Ltac slice_field Hd H w :=
  let B := fresh "B" in let T := fresh "T" in
  destruct (slice_uint _ _ _ w _ Hd H ltac:(lia)) as [B T];
  cbn [Z.of_nat Pos.of_succ_nat Pos.succ] in B;
  apply take_slice in H; rewrite <- T in H.

Ltac slice_word_field Hd H :=
  let B := fresh "B" in let O := fresh "O" in
  pose proof (slice_word _ _ _ Hd H) as [B O]; apply take_slice in H.

Lemma try_from_bedrock_Ok d c :
  bytes_ok d -> try_from_bedrock d = Ok c -> bedrock_ok c /\ d = encode_bedrock c.
Proof.
  intros Hd E. unfold try_from_bedrock in E.
  destruct (Z.eqb_spec (len d) L1_INFO_BEDROCK_LEN) as [Hl|]; [|done].
  cbn [negb] in E. apply bind_Ok in E as (sel & Hsel & E).
  destruct (bool_decide_reflect (sel = SET_L1_BLOCK_VALUES_BEDROCK_SELECTOR)) as [->|]; [|done].
  cbn [negb] in E.
  apply bind_Ok in E as (? & (b1 & H1 & <-)%fmap_Ok & E).
  apply bind_Ok in E as (n & [<- U1]%as_u64_Ok & E).
  apply bind_Ok in E as (? & (b2 & H2 & <-)%fmap_Ok & E).
  apply bind_Ok in E as (n & [<- U2]%as_u64_Ok & E).
  apply bind_Ok in E as (? & (b3 & H3 & <-)%fmap_Ok & E).
  apply bind_Ok in E as (hash & H4 & E).
  apply bind_Ok in E as (? & (b5 & H5 & <-)%fmap_Ok & E).
  apply bind_Ok in E as (n & [<- U5]%as_u64_Ok & E).
  apply bind_Ok in E as (batcher & H6 & E).
  apply bind_Ok in E as (? & (b7 & H7 & <-)%fmap_Ok & E).
  apply bind_Ok in E as (? & (b8 & H8 & <-)%fmap_Ok & E).
  injection E as <-.
  slice_field Hd H1 32%nat. slice_field Hd H2 32%nat. slice_field Hd H3 32%nat.
  slice_word_field Hd H4. slice_field Hd H5 32%nat. slice_word_field Hd H6.
  slice_field Hd H7 32%nat. slice_field Hd H8 32%nat.
  split; [repeat (split; cbn); unfold in_u64, in_u256 in *; done || lia|].
  apply take_slice in Hsel. rewrite <- (take_len d _ Hl) at 1.
  unfold L1_INFO_BEDROCK_LEN. change (4 + 32 * 8) with (0 + 4 + 32 + 32 + 32 + 32 + 32 + 32 + 32 + 32).
  rewrite H8, H7, H6, H5, H4, H3, H2, H1, Hsel. unfold encode_bedrock; cbn [call_number call_timestamp
    call_basefee call_hash call_sequence_number call_batcher_hash call_fee_overhead call_fee_scalar].
  by rewrite take_0, <- !app_assoc.
Qed.

Lemma try_from_ecotone_Ok d c :
  bytes_ok d -> try_from_ecotone d = Ok c -> ecotone_ok c /\ d = encode_ecotone c.
Proof.
  intros Hd E. unfold try_from_ecotone in E.
  destruct (Z.eqb_spec (len d) L1_INFO_ECOTONE_LEN) as [Hl|]; [|done].
  cbn [negb] in E. apply bind_Ok in E as (sel & Hsel & E).
  destruct (bool_decide_reflect (sel = SET_L1_BLOCK_VALUES_ECOTONE_SELECTOR)) as [->|]; [|done].
  cbn [negb] in E.
  apply bind_Ok in E as (? & (b1 & H1 & <-)%fmap_Ok & E).
  apply bind_Ok in E as (? & (b2 & H2 & <-)%fmap_Ok & E).
  apply bind_Ok in E as (? & (b3 & H3 & <-)%fmap_Ok & E).
  apply bind_Ok in E as (? & (b4 & H4 & <-)%fmap_Ok & E).
  apply bind_Ok in E as (? & (b5 & H5 & <-)%fmap_Ok & E).
  apply bind_Ok in E as (? & (b6 & H6 & <-)%fmap_Ok & E).
  apply bind_Ok in E as (? & (b7 & H7 & <-)%fmap_Ok & E).
  apply bind_Ok in E as (hash & H8 & E).
  apply bind_Ok in E as (batcher & H9 & E).
  injection E as <-.
  slice_field Hd H1 4%nat. slice_field Hd H2 4%nat. slice_field Hd H3 8%nat.
  slice_field Hd H4 8%nat. slice_field Hd H5 8%nat. slice_field Hd H6 32%nat.
  slice_field Hd H7 32%nat. slice_word_field Hd H8. slice_word_field Hd H9.
  split; [repeat (split; cbn); unfold in_u64, in_u32, in_u256 in *; try done; try lia; eauto 10|].
  apply take_slice in Hsel. rewrite <- (take_len d _ Hl) at 1.
  unfold L1_INFO_ECOTONE_LEN. change (4 + 32 * 5) with (0 + 4 + 4 + 4 + 8 + 8 + 8 + 32 + 32 + 32 + 32).
  rewrite H9, H8, H7, H6, H5, H4, H3, H2, H1, Hsel. unfold encode_ecotone; cbn [call_number call_timestamp
    call_basefee call_hash call_sequence_number call_batcher_hash call_fee_overhead call_fee_scalar
    call_blob_base_fee call_blob_base_fee_scalar default from_option id].
  by rewrite take_0, <- !app_assoc.
Qed.

(** The 32-byte word at an offset of the calldata. *)
Definition word (d : bytes) (i : Z) : bytes := take 32 (drop (Z.to_nat i) d).

Lemma slice_is_word d i : 0 <= i -> i + 32 <= len d -> slice d i (i + 32) = Ok (word d i).
Proof.
  intros. apply slice_Ok. split_and!; [lia..|]. unfold word.
  by replace (Z.to_nat (i + 32 - i)) with 32%nat by lia.
Qed.

Lemma as_u64_Panic z : as_u64 z = Panic <-> 18446744073709551616 <= z.
Proof. unfold as_u64. destruct (Z.ltb_spec z 18446744073709551616); naive_solver lia. Qed.

Lemma as_u64_cases z : {z < 18446744073709551616 /\ as_u64 z = Ok z} + {18446744073709551616 <= z /\ as_u64 z = Panic}.
Proof. destruct (Z_lt_dec z 18446744073709551616); [left|right]; split; rewrite ?as_u64_Ok, ?as_u64_Panic; lia. Qed.

Lemma slice_selector (d : bytes) : 4 <= len d -> slice d 0 (0 + 4) = Ok (take 4 d).
Proof. intros. apply slice_Ok. split_and!; [lia..|by rewrite drop_0]. Qed.

Lemma try_from_bedrock_Panic d :
  try_from_bedrock d = Panic <->
  len d = L1_INFO_BEDROCK_LEN /\ take 4 d = SET_L1_BLOCK_VALUES_BEDROCK_SELECTOR /\
  Exists (fun i => 18446744073709551616 <= from_be (word d i)) [4; 36; 132].
Proof.
  unfold try_from_bedrock. destruct (Z.eqb_spec (len d) L1_INFO_BEDROCK_LEN) as [Hl|]; [|naive_solver].
  cbn [negb]. assert (len d = 260) as Hl' by done.
  rewrite slice_selector, bind_ret by lia.
  destruct (bool_decide_reflect (take 4 d = SET_L1_BLOCK_VALUES_BEDROCK_SELECTOR)); [|naive_solver].
  cbn [negb]. rewrite !slice_is_word by lia. change (0 + 4) with 4.
  rewrite !Exists_cons, Exists_nil. repeat first [rewrite bind_ret | rewrite fmap_ret].
  change (4 + 32) with 36. change (36 + 32 + 32 + 32) with 132.
  destruct (as_u64_cases (from_be (word d 4))) as [[? ->]|[? ->]]; [|split; [tauto|done]].
  repeat first [rewrite bind_ret | rewrite fmap_ret].
  destruct (as_u64_cases (from_be (word d 36))) as [[? ->]|[? ->]]; [|split; [tauto|done]].
  repeat first [rewrite bind_ret | rewrite fmap_ret].
  destruct (as_u64_cases (from_be (word d 132))) as [[? ->]|[? ->]]; [|split; [tauto|done]].
  repeat first [rewrite bind_ret | rewrite fmap_ret]. split; [done|]. lia.
Qed.

Lemma try_from_ecotone_not_Panic d : try_from_ecotone d <> Panic.
Proof.
  unfold try_from_ecotone. destruct (Z.eqb_spec (len d) L1_INFO_ECOTONE_LEN) as [Hl|]; [|done].
  cbn [negb]. assert (len d = 164) as Hl' by done.
  rewrite slice_selector, bind_ret by lia. case_match; [done|].
  repeat match goal with |- context [slice d ?i ?j] =>
    let s := fresh in destruct (slice_total d i j) as [s ->]; [lia..|] end.
  repeat first [rewrite bind_ret | rewrite fmap_ret]. done.
Qed.

(** ** Properties *)

(** [try_from_bedrock] is the inverse of the Bedrock format: it returns a call
    exactly when the calldata is the encoding of that call (whose number,
    timestamp and sequence number fit 64 bits); on calldata of the right length
    and selector whose number, timestamp or sequence number does not fit 64
    bits it panics (the down-cast [as_u64]), and on nothing else. *)
Theorem try_from_bedrock_inverse d c :
  bytes_ok d ->
  (try_from_bedrock d = Ok c <-> bedrock_ok c /\ d = encode_bedrock c) /\
  (try_from_bedrock d = Panic <->
   len d = L1_INFO_BEDROCK_LEN /\ take 4 d = SET_L1_BLOCK_VALUES_BEDROCK_SELECTOR /\
   Exists (fun i => 18446744073709551616 <= from_be (word d i)) [4; 36; 132]).
Proof.
  intros Hd. split; [split; [by apply try_from_bedrock_Ok|]|apply try_from_bedrock_Panic].
  intros [Hc ->]. by apply try_from_bedrock_encode.
Qed.

(** [try_from_ecotone] is the inverse of the Ecotone format, and it never
    panics. *)
Theorem try_from_ecotone_inverse d c :
  bytes_ok d ->
  (try_from_ecotone d = Ok c <-> ecotone_ok c /\ d = encode_ecotone c) /\
  try_from_ecotone d <> Panic.
Proof.
  intros Hd. split; [split; [by apply try_from_ecotone_Ok|]|apply try_from_ecotone_not_Panic].
  intros [Hc ->]. by apply try_from_ecotone_encode.
Qed.
End formats.

(** ** Witnesses *)

(** A hash function to evaluate the model with: the sum and the length of the
    input, in 32 bytes. *)
#[local] Instance example_keccak : Keccak := {
  keccak256 := fun bs => to_be 16 (foldl Z.add 0 bs) ++ to_be 16 (len bs);
  keccak256_length := fun bs => eq_refl;
  keccak256_bytes := fun bs => Forall_app_2 _ _ _ (bytes_ok_to_be 16 _) (bytes_ok_to_be 16 _)
}.

Definition example_call : AttributesDepositedCall :=
  {| call_number := 1000; call_timestamp := 1700000000; call_basefee := 7;
     call_hash := to_be 32 11; call_sequence_number := 3; call_batcher_hash := to_be 32 12;
     call_fee_overhead := 188; call_fee_scalar := 684000;
     call_blob_base_fee_scalar := None; call_blob_base_fee := None |}.

Definition example_ecotone_call : AttributesDepositedCall :=
  {| call_number := 1000; call_timestamp := 1700000000; call_basefee := 7;
     call_hash := to_be 32 11; call_sequence_number := 3; call_batcher_hash := to_be 32 12;
     call_fee_overhead := 0; call_fee_scalar := 684000;
     call_blob_base_fee_scalar := Some 5; call_blob_base_fee := Some 9 |}.

Lemma example_call_ok : call_ok example_call.
Proof. split; by_compute. Qed.

Lemma example_ecotone_call_ok : call_ok example_ecotone_call.
Proof. split; by_compute. Qed.

Lemma try_from_bedrock_inverse_witness :
  try_from_bedrock (encode_bedrock example_call) = Ok example_call /\
  try_from_bedrock (SET_L1_BLOCK_VALUES_BEDROCK_SELECTOR ++ replicate 256 1) = Panic.
Proof.
  split.
  - apply (try_from_bedrock_inverse (encode_bedrock example_call) example_call); [by_compute|].
    split; [|done]. split; [apply example_call_ok|by_compute..].
  - apply (try_from_bedrock_inverse (SET_L1_BLOCK_VALUES_BEDROCK_SELECTOR ++ replicate 256 1) example_call).
    + by_compute.
    + split_and!; [by vm_compute|by vm_compute|]. left. by vm_compute.
Defined.

Lemma try_from_ecotone_inverse_witness :
  try_from_ecotone (encode_ecotone example_ecotone_call) = Ok example_ecotone_call.
Proof.
  apply (try_from_ecotone_inverse (encode_ecotone example_ecotone_call) example_ecotone_call); [by_compute|].
  split; [|done]. split; [apply example_ecotone_call_ok|by_compute..|].
  exists 5, 9. by_compute.
Defined.
