(* ===== verification/Concrete.v ===== *)
(** The libraries, computed.

    The development holds for any library that keeps the laws of the classes it is a
    parameter of.  This file has an instance of four of the classes that computes what the
    library does, by its standard: Keccak-256, RLP, variable-length integers, and zlib; and
    SHA-256 with its HMAC and base64 for the tokens of the engine API.
    With them the model runs on the data of a real chain, as it does in Conformance.v.
    Nothing here models code of the repository. *)
From S2P Require Import Prelude Codecs Common.

(** ** Keccak-256

    The sponge over the permutation Keccak-f[1600]: 25 lanes of 64 bits, the lane of
    column [x] and row [y] at [x + 5 * y]. *)

Module Keccak256.

Definition ones64 : Z := 18446744073709551615.

(** A rotation to the left. *)
Definition rol (n w : Z) : Z := Z.lor (Z.land (Z.shiftl w n) ones64) (Z.shiftr w (64 - n)).

Definition lane (s : list Z) (x y : nat) : Z := nth (x mod 5 + 5 * (y mod 5)) s 0.

Definition lanes (f : nat -> nat -> Z) : list Z := map (fun i => f (i mod 5)%nat (i / 5)%nat) (seq 0 25).

Definition theta (s : list Z) : list Z :=
  let c := (fun x => foldl Z.lxor 0 (lane s x <$> seq 0 5)) <$> seq 0 5 in
  let d := (fun x => Z.lxor (nth ((x + 4) mod 5) c 0) (rol 1 (nth ((x + 1) mod 5) c 0))) <$> seq 0 5 in
  lanes (fun x y => Z.lxor (lane s x y) (nth x d 0)).

Definition offsets : list Z :=
  [0; 1; 62; 28; 27; 36; 44; 6; 55; 20; 3; 10; 43; 25; 39; 41; 45; 15; 21; 8; 18; 2; 61; 56; 14].

Definition rho (s : list Z) : list Z := zip_with rol offsets s.

Definition pi (s : list Z) : list Z := lanes (fun x y => lane s (x + 3 * y) x).

Definition chi (s : list Z) : list Z :=
  lanes (fun x y => Z.lxor (lane s x y) (Z.land (Z.lxor (lane s (x + 1) y) ones64) (lane s (x + 2) y))).

Definition iota (rc : Z) (s : list Z) : list Z :=
  match s with a :: s => Z.lxor a rc :: s | [] => [] end.

Definition round (s : list Z) (rc : Z) : list Z := iota rc (chi (pi (rho (theta s)))).

Definition round_constants : list Z :=
  [0x0000000000000001; 0x0000000000008082; 0x800000000000808a; 0x8000000080008000; 0x000000000000808b;
   0x0000000080000001; 0x8000000080008081; 0x8000000000008009; 0x000000000000008a; 0x0000000000000088;
   0x0000000080008009; 0x000000008000000a; 0x000000008000808b; 0x800000000000008b; 0x8000000000008089;
   0x8000000000008003; 0x8000000000008002; 0x8000000000000080; 0x000000000000800a; 0x800000008000000a;
   0x8000000080008081; 0x8000000000008080; 0x0000000080000001; 0x8000000080008008].

Definition permute (s : list Z) : list Z := foldl round s round_constants.

(** Blocks of 136 bytes. *)
Definition pad (bs : bytes) : bytes :=
  let q := (136 - length bs mod 136)%nat in
  if decide (q = 1%nat) then bs ++ [129] else bs ++ [1] ++ replicate (q - 2) 0 ++ [128].

Fixpoint chunks (n fuel : nat) (bs : bytes) : list bytes :=
  match fuel, bs with
  | S fuel, _ :: _ => take n bs :: chunks n fuel (drop n bs)
  | _, _ => []
  end.

(** The words of a block are little-endian. *)
Definition word (bs : bytes) : Z := from_be (reverse bs).
Definition word_bytes (w : Z) : bytes := reverse (to_be 8 w).

Definition absorb (s : list Z) (block : bytes) : list Z :=
  permute (zip_with Z.lxor s ((word <$> chunks 8 17 block) ++ replicate 8 0)).

Definition hash (bs : bytes) : bytes :=
  let p := pad bs in
  take 32 (mjoin (word_bytes <$> foldl absorb (replicate 25 0) (chunks 136 (length p) p))).

Lemma length_iota rc s : length (iota rc s) = length s.
Proof. by destruct s. Qed.

Lemma length_permute s : length (permute s) = 25%nat.
Proof.
  unfold permute.
  assert (Hl : forall l s, l <> [] -> length (foldl round s l) = 25%nat).
  { induction l as [|rc l IH] using rev_ind; [done|]. intros s0 _. rewrite foldl_app. cbn [foldl].
    unfold round. by rewrite length_iota. }
  by apply Hl.
Qed.

Lemma length_absorbed s blocks : length s = 25%nat -> length (foldl absorb s blocks) = 25%nat.
Proof.
  revert s. induction blocks as [|b blocks IH]; intros s Hs; [done|]. cbn [foldl]. apply IH, length_permute.
Qed.

Lemma length_words (l : list Z) : length (mjoin (word_bytes <$> l)) = (8 * length l)%nat.
Proof.
  induction l as [|w l IH]; [done|]. cbn [fmap list_fmap]. rewrite join_cons, length_app, IH. unfold word_bytes.
  rewrite length_reverse, length_to_be. cbn [length]. lia.
Qed.

Lemma length_hash bs : length (hash bs) = 32%nat.
Proof.
  unfold hash. cbv zeta. rewrite length_take, length_words, length_absorbed; [done|]. by rewrite length_replicate.
Qed.

Lemma hash_bytes bs : bytes_ok (hash bs).
Proof.
  unfold hash. cbv zeta. apply Forall_take. generalize (foldl absorb (replicate 25 0)). intros f.
  induction (f _) as [|w l IH]; [constructor|]. cbn [fmap list_fmap]. rewrite join_cons. apply Forall_app.
  split; [|done]. unfold word_bytes. apply Forall_reverse, bytes_ok_to_be.
Qed.

End Keccak256.

Definition keccak_256 : Keccak := {|
  keccak256 := Keccak256.hash;
  keccak256_length := Keccak256.length_hash;
  keccak256_bytes := Keccak256.hash_bytes
|}.

(** ** RLP

    An item is a string or a list of items.  [item_info] is the length of its header and
    of its value, for an item at the start of the input that is all there. *)

Module Rlp.

(** The digits of a number in base 256, with no leading zero. *)
Fixpoint digits_fuel (fuel : nat) (z : Z) : bytes :=
  match fuel with
  | O => []
  | S fuel => if z =? 0 then [] else digits_fuel fuel (z / 256) ++ [z mod 256]
  end.

(** Numbers of at most 32 bytes. *)
Definition digits (z : Z) : bytes := digits_fuel 32 z.

(** The header of a string, with [128], or of a list, with [192]. *)
Definition header (offset n : Z) : bytes :=
  if n <=? 55 then [offset + n] else let l := digits n in (offset + 55 + len l) :: l.

Definition encode_string (bs : bytes) : bytes :=
  match bs with
  | [b] => if b <? 128 then [b] else 129 :: bs
  | _ => header 128 (len bs) ++ bs
  end.

Definition encode_list (payload : bytes) : bytes := header 192 (len payload) ++ payload.

Definition encode_uint (z : Z) : bytes := encode_string (digits z).

Definition long_length (offset b : Z) (rest : bytes) : option (nat * nat) :=
  let n := Z.to_nat (b - (offset + 55)) in
  l ← get_slice rest 0 (Z.of_nat n);
  match l with
  | [] | 0 :: _ => None
  | _ => if from_be l <=? 55 then None else Some (S n, Z.to_nat (from_be l))
  end.

Definition item_header (d : bytes) : option (nat * nat) :=
  match d with
  | [] => None
  | b :: rest =>
      if b <=? 127 then Some (0%nat, 1%nat)
      else if b <=? 183 then Some (1%nat, Z.to_nat (b - 128))
      else if b <=? 191 then long_length 128 b rest
      else if b <=? 247 then Some (1%nat, Z.to_nat (b - 192))
      else long_length 192 b rest
  end.

Definition item_info (d : bytes) : option (nat * nat) :=
  '(h, v) ← item_header d;
  if (h + v <=? length d)%nat then Some (h, v) else None.

Definition is_list (d : bytes) : bool := match d with b :: _ => 192 <=? b | [] => false end.

(** The value of the item at the start of the input. *)
Definition value (d : bytes) : option bytes :=
  '(h, v) ← item_info d;
  Some (take v (drop h d)).

Definition as_string (d : bytes) : option bytes :=
  if is_list d then None else
  '(h, v) ← item_info d;
  let bs := take v (drop h d) in
  match h, bs with
  | 1%nat, [b] => if b <? 128 then None else Some bs
  | _, _ => Some bs
  end.

(** The items of a payload, as far as they can be read. *)
Fixpoint items_of (fuel : nat) (d : bytes) : list bytes :=
  match fuel, item_info d with
  | S fuel, Some (h, v) => take (h + v) d :: items_of fuel (drop (h + v) d)
  | _, _ => []
  end.

Definition items (d : bytes) : option (list bytes) :=
  if is_list d then bs ← value d; Some (items_of (length bs) bs) else None.

Definition at_ (d : bytes) (i : nat) : option bytes := l ← items d; l !! i.

(** An integer of at most [size] bytes, without leading zeros. *)
Definition as_uint (size : Z) (d : bytes) : option Z :=
  bs ← as_string d;
  match bs with 0 :: _ => None | _ => if len bs <=? size then Some (from_be bs) else None end.

Definition as_h256 (d : bytes) : option bytes :=
  bs ← as_string d;
  if len bs =? 32 then Some bs else None.

Definition as_access (d : bytes) : option (bytes * list bytes) :=
  address ← at_ d 0 ≫= as_string;
  keys ← at_ d 1 ≫= items;
  keys ← mapM as_string keys;
  Some (address, keys).

Definition as_access_list (d : bytes) : option (list (bytes * list bytes)) :=
  l ← items d;
  mapM as_access l.

(** ** The stream

    The lists that are open, the innermost one first, with the number of items that each
    still waits for, if it is bounded; the last one is the output. *)

Abbreviation Stream := (list (option Z * bytes)) (only parsing).

Fixpoint add (raw : bytes) (n : Z) (s : Stream) : Stream :=
  match s with
  | [] => []
  | (None, out) :: s => (None, out ++ raw) :: s
  | (Some k, out) :: s =>
      if k <=? n then add (encode_list (out ++ raw)) 1 s else (Some (k - n), out ++ raw) :: s
  end.

Definition encode_access_list (l : AccessList) : bytes :=
  encode_list (mjoin ((fun a : bytes * list bytes =>
    encode_list (encode_string a.1 ++ encode_list (mjoin (encode_string <$> a.2)))) <$> l)).

Definition op (s : Stream) (o : RlpOp) : Stream :=
  match o with
  | append_raw bs item_count => add bs item_count s
  | begin_list n => if n =? 0 then add (encode_list []) 1 s else (Some n, []) :: s
  | begin_unbounded_list => (None, []) :: s
  | finalize_unbounded_list => match s with (None, out) :: s => add (encode_list out) 1 s | _ => s end
  | append_bytes bs => add (encode_string bs) 1 s
  | append_uint z => add (encode_uint z) 1 s
  | append_bool b => add (encode_uint (if b then 1 else 0)) 1 s
  | append_access_list l => add (encode_access_list l) 1 s
  end.

Definition out (ops : list RlpOp) : bytes :=
  match last (foldl op [(None, [])] ops) with Some (_, bs) => bs | None => [] end.

(** ** Lemmas *)

Lemma digits_fuel_spec fuel z :
  0 <= z < 256 ^ Z.of_nat fuel ->
  from_be (digits_fuel fuel z) = z /\ bytes_ok (digits_fuel fuel z) /\
  (z = 0 -> digits_fuel fuel z = []) /\
  (0 < z -> exists b l, digits_fuel fuel z = b :: l /\ 0 < b /\ len l < Z.of_nat fuel /\ 256 ^ len l <= z).
Proof.
  revert z. induction fuel as [|fuel IH]; intros z Hz.
  - cbn in *. assert (z = 0) as -> by lia. split_and!; [done|constructor|done|lia].
  - cbn [digits_fuel]. destruct (Z.eqb_spec z 0) as [->|Hnz]; [split_and!; [done|constructor|done|lia]|].
    assert (Hq : 0 <= z / 256 < 256 ^ Z.of_nat fuel).
    { split; [apply Z.div_pos; lia|]. apply Z.div_lt_upper_bound; [lia|].
      rewrite Nat2Z.inj_succ, Z.pow_succ_r in Hz by lia. lia. }
    destruct (IH _ Hq) as (Hf & Hb & H0 & Hp). pose proof (Z.div_mod z 256 ltac:(lia)) as Hd.
    pose proof (Z.mod_pos_bound z 256 ltac:(lia)) as Hm. split_and!.
    + rewrite from_be_app, Hf. change (len [z mod 256]) with 1. change (from_be [z mod 256]) with (z mod 256). lia.
    + apply Forall_app. split; [done|]. constructor; [unfold byte_ok; lia|constructor].
    + done.
    + intros _. destruct (decide (z / 256 = 0)) as [Hz0|Hz0].
      * rewrite (H0 Hz0). exists (z mod 256), []. change (len (@nil Z)) with 0. rewrite Z.pow_0_r. split_and!; [done|lia..].
      * destruct (Hp ltac:(lia)) as (b & l & -> & Hb0 & Hl & Hle). exists b, (l ++ [z mod 256]).
        rewrite len_app. change (len [z mod 256]) with 1. pose proof (len_nonneg l).
        rewrite Z.pow_add_r by lia. change (256 ^ 1) with 256. split_and!; [done|done|lia|lia].
Qed.

(** The digits of a [u64]. *)
Lemma digits_spec z :
  in_u64 z -> from_be (digits z) = z /\ bytes_ok (digits z) /\ len (digits z) <= 8 /\
  (z = 0 -> digits z = []) /\ (0 < z -> exists b l, digits z = b :: l /\ 0 < b).
Proof.
  intros Hz. unfold in_u64 in Hz. destruct (digits_fuel_spec 32 z) as (Hf & Hb & H0 & Hp).
  { split; [lia|]. transitivity (2 ^ 64); [lia|by vm_compute]. }
  split_and!; [done|done| |done|].
  - destruct (decide (z = 0)) as [->|Hnz]; [unfold digits; rewrite H0 by done; by vm_compute|].
    destruct (Hp ltac:(lia)) as (b & l & E & _ & _ & Hle). unfold digits. rewrite E. rewrite len_cons.
    destruct (Z.leb_spec (len l) 7); [lia|]. exfalso.
    assert (256 ^ 8 <= 256 ^ len l) by (apply Z.pow_le_mono_r; lia). change (256 ^ 8) with (2 ^ 64) in *. lia.
  - intros Hz'. destruct (Hp Hz') as (b & l & E & Hb0 & _). by exists b, l.
Qed.

(** The header of a payload that is there. *)
Lemma item_header_info offset p rest :
  offset = 128 \/ offset = 192 -> in_u64 (len p) ->
  item_info (header offset (len p) ++ p ++ rest) = Some (length (header offset (len p)), length p).
Proof.
  intros Ho Hp. pose proof (len_nonneg p) as Hlen.
  assert (Hh : item_header (header offset (len p) ++ p ++ rest) = Some (length (header offset (len p)), length p)).
  { unfold header. destruct (Z.leb_spec (len p) 55) as [Hs|Hs].
    - cbn [app item_header length].
      destruct Ho as [-> | ->]; repeat match goal with |- context [?a <=? ?b] => destruct (Z.leb_spec a b); try lia end;
        do 2 f_equal; unfold len; lia.
    - destruct (digits_spec (len p) Hp) as (Hf & Hb & Hl & _ & Hd). destruct (Hd ltac:(lia)) as (b & l & E & Hb0).
      assert (Hl' : 1 <= len (digits (len p))) by (rewrite E, len_cons; pose proof (len_nonneg l); lia).
      cbn zeta. cbn [app item_header length].
      assert (Hlong : long_length offset (offset + 55 + len (digits (len p))) (digits (len p) ++ p ++ rest) =
        Some (S (length (digits (len p))), length p)).
      { unfold long_length. replace (offset + 55 + len (digits (len p)) - (offset + 55)) with (len (digits (len p))) by lia.
        rewrite Z2Nat.id by lia.
        rewrite (get_slice_slice _ 0 (len (digits (len p))) (digits (len p)))
          by (by apply slice_app_prefix).
        cbn [mbind option_bind]. rewrite Hf, E. destruct b as [|b|b]; [lia| |lia].
        destruct (Z.leb_spec (len p) 55); [lia|]. do 2 f_equal; [|unfold len; lia].
        rewrite <- E. unfold len. lia. }
      destruct Ho as [-> | ->]; repeat match goal with |- context [?a <=? ?b] => destruct (Z.leb_spec a b); try lia end;
        exact Hlong. }
  unfold item_info. rewrite Hh. cbn [mbind option_bind]. rewrite !length_app.
  by rewrite (proj2 (Nat.leb_le _ _)) by lia.
Qed.

Lemma header_cons offset n : exists b l, header offset n = b :: l.
Proof. unfold header. destruct (n <=? 55); by eexists _, _. Qed.

(** The first byte of a header says what the item is. *)
Lemma header_kind offset n b l :
  offset = 128 \/ offset = 192 -> in_u64 n -> header offset n = b :: l -> offset <= b < offset + 64 /\ 128 <= b.
Proof.
  intros Ho Hn. unfold header. destruct (Z.leb_spec n 55) as [Hs|Hs]; intros [= <- _].
  - unfold in_u64 in Hn. destruct Ho; lia.
  - destruct (digits_spec n Hn) as (_ & _ & Hl & _). pose proof (len_nonneg (digits n)). destruct Ho; lia.
Qed.

(** A string is one byte below 128, or has a header. *)
Lemma encode_string_cases x :
  (exists b, x = [b] /\ b < 128 /\ encode_string x = [b]) \/
  (encode_string x = header 128 (len x) ++ x /\ forall b, x = [b] -> 128 <= b).
Proof.
  destruct x as [|b [|c x]]; [right; by split|..|right; by split].
  cbn [encode_string]. destruct (Z.ltb_spec b 128); [left; by exists b|right]. split; [done|]. by intros ? [= <-].
Qed.

Lemma as_string_encode x rest :
  bytes_ok x -> in_u64 (len x) ->
  as_string (encode_string x ++ rest) = Some x /\
  exists h v, item_info (encode_string x ++ rest) = Some (h, v) /\ length (encode_string x) = (h + v)%nat /\
    v = length x /\ (0 < h + v)%nat.
Proof.
  intros Hx Hlen. destruct (encode_string_cases x) as [(b & -> & Hb & ->)|[E Hne]].
  - inversion Hx as [|? ? Hok _]; subst. unfold byte_ok in Hok.
    assert (Hi : item_info ([b] ++ rest) = Some (0%nat, 1%nat)).
    { unfold item_info. cbn [app item_header]. rewrite (proj2 (Z.leb_le b 127)) by lia. done. }
    split; [|by exists 0%nat, 1%nat; split_and!; [|cbn; lia..]].
    unfold as_string. rewrite Hi. cbn [app is_list]. by rewrite (proj2 (Z.leb_gt 192 b)) by lia.
  - rewrite E, <- app_assoc. pose proof (item_header_info 128 x rest (or_introl eq_refl) Hlen) as Hi.
    destruct (header_cons 128 (len x)) as (b & l & Eh).
    destruct (header_kind 128 (len x) b l (or_introl eq_refl) Hlen Eh) as [Hk _]. split.
    + unfold as_string. rewrite Hi. rewrite Eh at 1. cbn [app is_list]. rewrite (proj2 (Z.leb_gt 192 b)) by lia.
      cbn [mbind option_bind]. rewrite drop_app_length, take_app_length.
      destruct (length (header 128 (len x))) as [|[|n]]; [done| |done]. destruct x as [|c [|]]; [done| |done].
      specialize (Hne c eq_refl). by rewrite (proj2 (Z.ltb_ge c 128)) by lia.
    + eexists _, _. split; [exact Hi|]. rewrite length_app. split_and!; [done|done|]. rewrite Eh. cbn [length]. lia.
Qed.

Lemma value_encode_list p rest :
  in_u64 (len p) ->
  is_list (encode_list p ++ rest) = true /\ value (encode_list p ++ rest) = Some p /\
  exists h v, item_info (encode_list p ++ rest) = Some (h, v) /\ length (encode_list p) = (h + v)%nat /\
    v = length p /\ (0 < h + v)%nat.
Proof.
  intros Hlen. unfold encode_list. rewrite <- app_assoc.
  pose proof (item_header_info 192 p rest (or_intror eq_refl) Hlen) as Hi.
  destruct (header_cons 192 (len p)) as (b & l & Eh).
  destruct (header_kind 192 (len p) b l (or_intror eq_refl) Hlen Eh) as [Hk _]. split_and!.
  - rewrite Eh. cbn [app is_list]. apply Z.leb_le. lia.
  - unfold value. rewrite Hi. cbn [mbind option_bind]. by rewrite drop_app_length, take_app_length.
  - eexists _, _. split; [exact Hi|]. rewrite length_app. split_and!; [done|done|]. rewrite Eh. cbn [length]. lia.
Qed.

(** The encoding of one item. *)
Definition is_item (e : bytes) : Prop :=
  forall rest, exists h v, item_info (e ++ rest) = Some (h, v) /\ length e = (h + v)%nat /\ (0 < h + v)%nat.

Lemma is_item_string x : bytes_ok x -> in_u64 (len x) -> is_item (encode_string x).
Proof.
  intros Hx Hl rest. destruct (as_string_encode x rest Hx Hl) as (_ & h & v & Hi & Hlen & _ & Hp). by exists h, v.
Qed.

Lemma is_item_list p : in_u64 (len p) -> is_item (encode_list p).
Proof.
  intros Hl rest. destruct (value_encode_list p rest Hl) as (_ & _ & h & v & Hi & Hlen & _ & Hp). by exists h, v.
Qed.

Lemma items_of_encode es fuel :
  Forall is_item es -> (length (mjoin es) <= fuel)%nat -> items_of fuel (mjoin es) = es.
Proof.
  intros Hes. revert fuel. induction Hes as [|e es He _ IH]; intros fuel Hf; [by destruct fuel|].
  destruct (He (mjoin es)) as (h & v & Hi & Hlen & Hp). rewrite join_cons in *. rewrite length_app in Hf.
  destruct fuel as [|fuel]; [lia|]. cbn [items_of]. rewrite Hi, <- Hlen, take_app_length, drop_app_length.
  f_equal. apply IH. lia.
Qed.

Lemma items_encode es rest :
  Forall is_item es -> in_u64 (len (mjoin es)) -> items (encode_list (mjoin es) ++ rest) = Some es.
Proof.
  intros Hes Hl. destruct (value_encode_list (mjoin es) rest Hl) as (Hk & Hv & _). unfold items. rewrite Hk, Hv.
  cbn [mbind option_bind]. by rewrite items_of_encode.
Qed.

Lemma as_uint_encode z rest : in_u64 z -> as_uint 8 (encode_uint z ++ rest) = Some z.
Proof.
  intros Hz. destruct (digits_spec z Hz) as (Hf & Hb & Hl & H0 & Hp). unfold as_uint, encode_uint.
  pose proof (len_nonneg (digits z)). rewrite (proj1 (as_string_encode (digits z) rest Hb ltac:(unfold in_u64; lia))).
  cbn [mbind option_bind]. destruct (decide (z = 0)) as [->|Hnz]; [by rewrite H0|]. unfold in_u64 in Hz.
  destruct (Hp ltac:(lia)) as (b & l & E & Hb0). rewrite Hf, (proj2 (Z.leb_le _ _)) by lia. rewrite E. by destruct b.
Qed.

Lemma as_h256_encode x rest : bytes_ok x -> len x = 32 -> as_h256 (encode_string x ++ rest) = Some x.
Proof.
  intros Hx Hl. unfold as_h256. rewrite (proj1 (as_string_encode x rest Hx ltac:(unfold in_u64; lia))).
  cbn [mbind option_bind]. by rewrite Hl.
Qed.

(** How long encodings are, and that they are bytes. *)
Lemma len_header offset n : in_u64 n -> len (header offset n) <= 9.
Proof.
  intros Hn. unfold header. destruct (n <=? 55); [done|]. destruct (digits_spec n Hn) as (_ & _ & Hl & _).
  cbn zeta. rewrite len_cons. lia.
Qed.

Lemma len_encode_string x : in_u64 (len x) -> len (encode_string x) <= 9 + len x.
Proof.
  intros Hx. destruct (encode_string_cases x) as [(b & -> & _ & ->)|[-> _]]; [done|].
  rewrite len_app. pose proof (len_header 128 (len x) Hx). lia.
Qed.

Lemma bytes_ok_header offset n : offset = 128 \/ offset = 192 -> in_u64 n -> bytes_ok (header offset n).
Proof.
  intros Ho Hn. destruct (header_cons offset n) as (b & l & E). pose proof (header_kind offset n b l Ho Hn E) as Hk.
  rewrite E. constructor; [unfold byte_ok; destruct Ho; lia|]. unfold header in E. destruct (n <=? 55).
  - injection E as _ <-. constructor.
  - injection E as _ <-. by apply digits_spec.
Qed.

Lemma bytes_ok_encode_string x : bytes_ok x -> in_u64 (len x) -> bytes_ok (encode_string x).
Proof.
  intros Hx Hl. destruct (encode_string_cases x) as [(b & -> & _ & ->)|[-> _]]; [done|].
  apply Forall_app. split; [apply bytes_ok_header; [by left|done]|done].
Qed.

Lemma bytes_ok_encode_list p : bytes_ok p -> in_u64 (len p) -> bytes_ok (encode_list p).
Proof. intros Hp Hl. apply Forall_app. split; [apply bytes_ok_header; [by right|done]|done]. Qed.

(** What is inside an encoding is not longer. *)
Lemma len_encode_list p : len p <= len (encode_list p).
Proof. unfold encode_list. rewrite len_app. pose proof (len_nonneg (header 192 (len p))). lia. Qed.

Lemma len_le_encode_string x : len x <= len (encode_string x).
Proof.
  destruct (encode_string_cases x) as [(b & -> & _ & ->)|[-> _]]; [done|].
  rewrite len_app. pose proof (len_nonneg (header 128 (len x))). lia.
Qed.

Lemma len_in_join (x : bytes) (l : list bytes) : x ∈ l -> len x <= len (mjoin l).
Proof.
  induction 1 as [x l|x y l _ IH]; rewrite join_cons, len_app.
  - pose proof (len_nonneg (mjoin l)). lia.
  - pose proof (len_nonneg y). lia.
Qed.

(** The numbers of 256 bits. *)
Lemma digits_u256 z :
  in_u256 z -> from_be (digits z) = z /\ bytes_ok (digits z) /\ len (digits z) <= 32 /\
  (z = 0 -> digits z = []) /\ (0 < z -> exists b l, digits z = b :: l /\ 0 < b).
Proof.
  intros Hz. destruct (digits_fuel_spec 32 z Hz) as (Hf & Hb & H0 & Hp). split_and!; [done|done| |done|].
  - destruct (decide (z = 0)) as [->|Hnz]; [unfold digits; by rewrite H0|].
    destruct (Hp ltac:(unfold in_u256 in Hz; lia)) as (b & l & E & _ & Hl & _). unfold digits. rewrite E, len_cons. lia.
  - intros Hz'. destruct (Hp Hz') as (b & l & E & Hb0 & _). by exists b, l.
Qed.

Lemma as_uint_u256 z rest : in_u256 z -> as_uint 32 (encode_uint z ++ rest) = Some z.
Proof.
  intros Hz. destruct (digits_u256 z Hz) as (Hf & Hb & Hl & H0 & Hp). unfold as_uint, encode_uint.
  pose proof (len_nonneg (digits z)). rewrite (proj1 (as_string_encode (digits z) rest Hb ltac:(unfold in_u64; lia))).
  cbn [mbind option_bind]. destruct (decide (z = 0)) as [->|Hnz]; [by rewrite H0|]. unfold in_u256 in Hz.
  destruct (Hp ltac:(lia)) as (b & l & E & Hb0). rewrite Hf, (proj2 (Z.leb_le _ _)) by lia. rewrite E. by destruct b.
Qed.

Lemma is_item_u256 z : in_u256 z -> is_item (encode_uint z).
Proof.
  intros (_ & Hb & Hl & _)%digits_u256. pose proof (len_nonneg (digits z)). apply is_item_string; [done|unfold in_u64; lia].
Qed.

Lemma bytes_ok_encode_u256 z : in_u256 z -> bytes_ok (encode_uint z).
Proof.
  intros (_ & Hb & Hl & _)%digits_u256. pose proof (len_nonneg (digits z)).
  apply bytes_ok_encode_string; [done|unfold in_u64; lia].
Qed.

(** Access lists. *)
Definition encode_access (a : bytes * list bytes) : bytes :=
  encode_list (encode_string a.1 ++ encode_list (mjoin (encode_string <$> a.2))).

Definition access_ok (a : bytes * list bytes) : Prop := bytes_ok a.1 /\ Forall bytes_ok a.2.

Lemma strings_encode (l : list bytes) :
  Forall bytes_ok l -> in_u64 (len (mjoin (encode_string <$> l))) ->
  Forall is_item (encode_string <$> l) /\ mapM as_string (encode_string <$> l) = Some l /\
  bytes_ok (mjoin (encode_string <$> l)).
Proof.
  induction 1 as [|x l Hx _ IH]; intros Hl; [split_and!; constructor|].
  rewrite fmap_cons, join_cons, len_app in *. pose proof (len_nonneg (encode_string x)).
  pose proof (len_nonneg (mjoin (encode_string <$> l))). pose proof (len_le_encode_string x). pose proof (len_nonneg x).
  unfold in_u64 in Hl. destruct (IH ltac:(unfold in_u64; lia)) as (Hi & Hm & Hb). assert (Hlx : in_u64 (len x)) by (unfold in_u64; lia).
  split_and!.
  - constructor; [by apply is_item_string|done].
  - cbn [mapM]. rewrite <- (app_nil_r (encode_string x)), (proj1 (as_string_encode x [] Hx Hlx)).
    cbn [mbind option_bind]. by rewrite Hm.
  - apply Forall_app. split; [by apply bytes_ok_encode_string|done].
Qed.

Lemma as_access_encode a :
  access_ok a -> in_u64 (len (encode_access a)) ->
  as_access (encode_access a) = Some a /\ is_item (encode_access a) /\ bytes_ok (encode_access a).
Proof.
  destruct a as [x l]. intros [Hx Hl] Hlen. unfold encode_access in *. cbn [fst snd] in *.
  set (keys := mjoin (encode_string <$> l)) in *. set (p := encode_string x ++ encode_list keys) in *.
  pose proof (len_encode_list p) as Hp. pose proof (len_encode_list keys) as Hk. pose proof (len_le_encode_string x) as Hs.
  assert (Hpl : len p = len (encode_string x) + len (encode_list keys)) by apply len_app.
  pose proof (len_nonneg x). pose proof (len_nonneg keys). unfold in_u64 in Hlen.
  assert (Hkl : in_u64 (len keys)) by (unfold in_u64; lia). assert (Hxl : in_u64 (len x)) by (unfold in_u64; lia).
  assert (Hpu : in_u64 (len p)) by (unfold in_u64; lia).
  destruct (strings_encode l Hl Hkl) as (Hi & Hm & Hb). fold keys in Hb.
  assert (Hitems : items (encode_list p) = Some [encode_string x; encode_list keys]).
  { rewrite <- (app_nil_r (encode_list p)). replace p with (mjoin [encode_string x; encode_list keys])
      by (unfold p; rewrite !join_cons; change (mjoin []) with (@nil Z); by rewrite app_nil_r).
    apply items_encode.
    - repeat constructor; [by apply is_item_string|by apply is_item_list].
    - rewrite !join_cons, !len_app. change (len (mjoin [])) with 0. unfold in_u64. lia. }
  split_and!.
  - unfold as_access, at_. rewrite Hitems. cbn [mbind option_bind lookup list_lookup].
    rewrite <- (app_nil_r (encode_string x)), (proj1 (as_string_encode x [] Hx Hxl)). cbn [mbind option_bind].
    rewrite <- (app_nil_r (encode_list keys)). unfold keys. rewrite items_encode by done. cbn [mbind option_bind]. by rewrite Hm.
  - by apply is_item_list.
  - apply bytes_ok_encode_list; [|done]. apply Forall_app.
    split; [by apply bytes_ok_encode_string|by apply bytes_ok_encode_list].
Qed.

Lemma as_access_list_encode l rest :
  Forall access_ok l -> in_u64 (len (encode_access_list l)) ->
  as_access_list (encode_access_list l ++ rest) = Some l /\ is_item (encode_access_list l) /\ bytes_ok (encode_access_list l).
Proof.
  intros Hl Hlen. change (encode_access_list l) with (encode_list (mjoin (encode_access <$> l))) in *.
  pose proof (len_encode_list (mjoin (encode_access <$> l))) as Hj. pose proof (len_nonneg (mjoin (encode_access <$> l))).
  unfold in_u64 in Hlen. assert (Hju : in_u64 (len (mjoin (encode_access <$> l)))) by (unfold in_u64; lia).
  assert (Hall : Forall is_item (encode_access <$> l) /\ mapM as_access (encode_access <$> l) = Some l /\
    bytes_ok (mjoin (encode_access <$> l))).
  { clear Hj Hlen. induction Hl as [|a l Ha _ IH]; [split_and!; constructor|]. rewrite fmap_cons, join_cons, len_app in *.
    pose proof (len_nonneg (encode_access a)). pose proof (len_nonneg (mjoin (encode_access <$> l))). unfold in_u64 in Hju.
    destruct (IH ltac:(lia) ltac:(unfold in_u64; lia)) as (Hi & Hm & Hb).
    destruct (as_access_encode a Ha ltac:(unfold in_u64; lia)) as (Hd & Hia & Hba). split_and!.
    - by constructor.
    - cbn [mapM]. rewrite Hd. cbn [mbind option_bind]. by rewrite Hm.
    - by apply Forall_app. }
  destruct Hall as (Hi & Hm & Hb). split_and!; [|by apply is_item_list|by apply bytes_ok_encode_list].
  unfold as_access_list. rewrite items_encode by done. cbn [mbind option_bind]. by rewrite Hm.
Qed.

(** An unbounded list of items in the stream. *)
Definition op_item (o : RlpOp) : bytes :=
  match o with
  | append_bytes bs => encode_string bs
  | append_uint z => encode_uint z
  | append_access_list l => encode_access_list l
  | _ => []
  end.

Definition is_append (o : RlpOp) : bool :=
  match o with append_bytes _ | append_uint _ | append_access_list _ => true | _ => false end.

Lemma out_list ops :
  Forall (fun o => is_append o = true) ops ->
  out (begin_unbounded_list :: ops ++ [finalize_unbounded_list]) = encode_list (mjoin (op_item <$> ops)).
Proof.
  intros Hops. unfold out. cbn [foldl op]. rewrite foldl_app.
  assert (Hf : forall acc s, foldl op ((None, acc) :: s) ops = (None, acc ++ mjoin (op_item <$> ops)) :: s).
  { induction Hops as [|o ops Ho _ IH]; intros acc s; [by rewrite app_nil_r|]. cbn [foldl]. rewrite fmap_cons, join_cons, app_assoc.
    destruct o; try done; apply IH. }
  rewrite Hf. done.
Qed.

End Rlp.

Definition rlp_codec : Codec := {|
  abi_encode := abi_encode (Codec := example_codec);
  abi_decode_bytes := abi_decode_bytes (Codec := example_codec);
  rlp_out := Rlp.out;
  abi_encode_static := abi_encode_static (Codec := example_codec)
|}.

Definition rlp_decoder : RlpDecoder := {|
  payload_info := Rlp.item_info;
  as_val_bytes := Rlp.as_string;
  val_at_uint := fun size d i => Rlp.at_ d i ≫= Rlp.as_uint size;
  val_at_h256 := fun d i => Rlp.at_ d i ≫= Rlp.as_h256;
  val_at_bytes := fun d i => Rlp.at_ d i ≫= Rlp.as_string;
  val_at_access_list := fun d i => Rlp.at_ d i ≫= Rlp.as_access_list;
  list_at := fun d i => Rlp.at_ d i ≫= Rlp.items
|}.

(** ** Variable-length integers

    Seven bits a byte, the least significant ones first, and a last byte that is not zero
    unless it is the only one; at most ten bytes. *)

Fixpoint uvarint_from (i : Z) (n : Z) (d : bytes) : option (Z * bytes) :=
  match d with
  | [] => None
  | b :: rest =>
      let n := u64 (Z.lor n (Z.shiftl (Z.land b 127) (7 * i))) in
      if Z.land b 128 =? 0 then if (b =? 0) && (0 <? i) then None else Some (n, rest)
      else if i =? 9 then None else uvarint_from (i + 1) n rest
  end.

Lemma uvarint_from_consumes i n d m rest :
  uvarint_from i n d = Some (m, rest) -> in_u64 m /\ exists p, p <> [] /\ d = p ++ rest.
Proof.
  revert i n. induction d as [|b d IH]; intros i n; [done|]. cbn [uvarint_from]. cbv zeta.
  destruct (_ =? 0).
  - destruct ((b =? 0) && (0 <? i)); [done|]. intros [= <- <-]. split; [|by exists [b]].
    unfold u64, in_u64. apply Z.mod_pos_bound. lia.
  - destruct (i =? 9); [done|]. intros (Hm & p & _ & ->)%IH. split; [done|]. by exists (b :: p).
Qed.

(** The encoding, of a number of at most 133 bits. *)
Fixpoint encode_leb128 (fuel : nat) (z : Z) : bytes :=
  match fuel with
  | O => []
  | S fuel => if z <? 128 then [z] else (z mod 128 + 128) :: encode_leb128 fuel (z / 128)
  end.

Definition leb128 : Varint := {|
  uvarint := uvarint_from 0 0;
  uvarint_consumes := uvarint_from_consumes 0 0
|}.

Lemma low_bits b : byte_ok b -> Z.land b 127 = b mod 128 /\ (Z.land b 128 = 0 <-> b < 128).
Proof.
  intros Hb. assert (Hall : Forall (fun b => Z.land b 127 = b mod 128 /\ (Z.land b 128 = 0 <-> b < 128)) (seqZ 0 256)) by by_compute.
  rewrite Forall_forall in Hall. apply Hall. apply elem_of_seqZ. exact Hb.
Qed.

Lemma lor_shiftl n b k : 0 <= k -> 0 <= n < 2 ^ k -> Z.lor n (Z.shiftl b k) = n + b * 2 ^ k.
Proof.
  intros Hk Hn. rewrite <- Z.shiftl_mul_pow2 by done. rewrite <- Z.add_lor_land.
  replace (Z.land n (Z.shiftl b k)) with 0; [lia|]. symmetry. apply Z.bits_inj'. intros j Hj.
  rewrite Z.land_spec, Z.bits_0. destruct (Z.ltb_spec j k) as [Hjk|Hjk].
  - rewrite Z.shiftl_spec_low by done. apply andb_false_r.
  - rewrite <- (Z.mod_small n (2 ^ k)) by done. by rewrite Z.mod_pow2_bits_high by lia.
Qed.

Lemma uvarint_from_encode fuel i n z rest :
  0 <= i -> 0 < Z.of_nat fuel <= 10 - i -> 0 <= n < 2 ^ (7 * i) -> 0 <= z < 128 ^ Z.of_nat fuel ->
  n + z * 2 ^ (7 * i) < 2 ^ 64 -> i = 0 \/ 0 < z ->
  uvarint_from i n (encode_leb128 fuel z ++ rest) = Some (n + z * 2 ^ (7 * i), rest).
Proof.
  revert i n z. induction fuel as [|fuel IH]; intros i n z Hi Hf Hn Hz Hm Hnz; [change (128 ^ Z.of_nat 0) with 1 in Hz|].
  { assert (i = 0) as -> by lia. assert (z = 0) as -> by lia. lia. }
  pose proof (Z.pow_pos_nonneg 2 (7 * i) ltac:(lia) ltac:(lia)) as Hpos. cbn [encode_leb128].
  destruct (Z.ltb_spec z 128) as [Hs|Hs]; cbn [app uvarint_from]; cbv zeta.
  - destruct (low_bits z ltac:(unfold byte_ok; lia)) as [-> H0]. rewrite (Z.mod_small z) by lia.
    rewrite lor_shiftl by (done || lia). rewrite (proj2 (Z.eqb_eq _ _)) by (by apply H0).
    rewrite u64_small by (unfold in_u64; change (2 ^ 64) with 18446744073709551616 in Hm; nia).
    destruct (Z.eqb_spec z 0) as [->|]; [|done]. destruct Hnz as [->|]; [done|lia].
  - pose proof (Z.mod_pos_bound z 128 ltac:(lia)) as Hr. pose proof (Z.div_mod z 128 ltac:(lia)) as Hd.
    assert (Hq : 0 < z / 128) by (apply Z.div_str_pos; lia).
    destruct (low_bits (z mod 128 + 128) ltac:(unfold byte_ok; lia)) as [-> H0].
    replace ((z mod 128 + 128) mod 128) with (z mod 128)
      by (replace (z mod 128 + 128) with (z mod 128 + 1 * 128) by lia; rewrite Z.mod_add, Z.mod_mod by lia; done).
    rewrite (proj2 (Z.eqb_neq _ 0)) by (intros E; apply H0 in E; lia).
    destruct (Z.eqb_spec i 9) as [->|H9]; [exfalso; change (7 * 9) with 63 in *; change (2 ^ 64) with (2 * 2 ^ 63) in Hm; nia|].
    rewrite lor_shiftl by (done || lia).
    rewrite u64_small by (unfold in_u64; change (2 ^ 64) with 18446744073709551616 in Hm; nia).
    assert (Hp : 2 ^ (7 * (i + 1)) = 128 * 2 ^ (7 * i)) by (replace (7 * (i + 1)) with (7 + 7 * i) by lia; by rewrite Z.pow_add_r by lia).
    rewrite Nat2Z.inj_succ, Z.pow_succ_r in Hz by lia.
    assert (Hf0 : Z.of_nat fuel <> 0) by (intros E; rewrite E in Hz; change (128 ^ 0) with 1 in Hz; lia).
    rewrite IH; rewrite ?Hp; [do 2 f_equal; nia|lia|lia|nia| |nia|by right].
    split; [lia|]. apply Z.div_lt_upper_bound; lia.
Qed.

(** Ten bytes are enough for a [u64]. *)
Lemma uvarint_encode z rest : in_u64 z -> uvarint_from 0 0 (encode_leb128 10 z ++ rest) = Some (z, rest).
Proof.
  intros Hz. rewrite uvarint_from_encode; [|done..| | |by left].
  - f_equal. f_equal. change (2 ^ (7 * 0)) with 1. lia.
  - unfold in_u64 in Hz. split; [lia|]. transitivity (2 ^ 64); [lia|by vm_compute].
  - unfold in_u64 in Hz. change (2 ^ (7 * 0)) with 1. lia.
Qed.

(** ** Zlib

    The header of two bytes, and then DEFLATE: blocks of bytes, of a fixed code or of a
    code of their own.  What is yielded is all that comes before the end or the first
    error; the check sum is not looked at before the last byte was yielded. *)

Module Inflate.

(** The bits of a stream, each byte from its least significant bit. *)
Definition bits (d : bytes) : list bool :=
  mjoin ((fun b => Z.testbit b <$> [0; 1; 2; 3; 4; 5; 6; 7]) <$> d).

(** A number of [n] bits, from the least significant one. *)
Fixpoint take_bits (n : nat) (s : list bool) : option (Z * list bool) :=
  match n, s with
  | O, _ => Some (0, s)
  | S n, b :: s => '(z, s) ← take_bits n s; Some ((if b then 1 else 0) + 2 * z, s)
  | S _, [] => None
  end.

(** A canonical code: how many symbols have each length from 1 to 15, and the symbols by
    length. *)
Record Huffman := { counts : list Z; symbols : list Z }.

Definition huffman (lengths : list Z) : Huffman :=
  let with_length l := (fun p : nat * Z => Z.of_nat p.1) <$>
    filter (fun p : nat * Z => p.2 = l) (imap pair lengths) in
  {| counts := (fun l => len (with_length l)) <$> seqZ 1 15;
     symbols := mjoin (with_length <$> seqZ 1 15) |}.

Fixpoint symbol_from (counts symbols : list Z) (s : list bool) (code first index : Z) : option (Z * list bool) :=
  match counts, s with
  | c :: counts, b :: s =>
      let code := code + (if b : bool then 1 else 0) in
      if code - c <? first then x ← symbols !! Z.to_nat (index + (code - first)); Some (x, s)
      else symbol_from counts symbols s (2 * code) (2 * (first + c)) (index + c)
  | _, _ => None
  end.

Definition symbol (h : Huffman) (s : list bool) : option (Z * list bool) :=
  symbol_from (counts h) (symbols h) s 0 0 0.

(** The base and the number of extra bits of a length, and of a distance. *)
Definition length_codes : list (Z * Z) :=
  [(3, 0); (4, 0); (5, 0); (6, 0); (7, 0); (8, 0); (9, 0); (10, 0); (11, 1); (13, 1); (15, 1); (17, 1); (19, 2); (23, 2);
   (27, 2); (31, 2); (35, 3); (43, 3); (51, 3); (59, 3); (67, 4); (83, 4); (99, 4); (115, 4); (131, 5); (163, 5); (195, 5);
   (227, 5); (258, 0)].

Definition distance_codes : list (Z * Z) :=
  [(1, 0); (2, 0); (3, 0); (4, 0); (5, 1); (7, 1); (9, 2); (13, 2); (17, 3); (25, 3); (33, 4); (49, 4); (65, 5); (97, 5);
   (129, 6); (193, 6); (257, 7); (385, 7); (513, 8); (769, 8); (1025, 9); (1537, 9); (2049, 10); (3073, 10); (4097, 11);
   (6145, 11); (8193, 12); (12289, 12); (16385, 13); (24577, 13)].

Definition with_extra (codes : list (Z * Z)) (i : Z) (s : list bool) : option (Z * list bool) :=
  '(base, n) ← codes !! Z.to_nat i;
  '(extra, s) ← take_bits (Z.to_nat n) s;
  Some (base + extra, s).

(** The output is kept from its last byte; [n] of the bytes from [distance] back. *)
Fixpoint copy_back (n : nat) (distance : nat) (out : bytes) : option bytes :=
  match n with
  | O => Some out
  | S n => b ← out !! distance; copy_back n distance (b :: out)
  end.

(** The rest of the stream, where there was no error, and the output. *)
Abbreviation Result := (option (list bool) * bytes)%type (only parsing).

Fixpoint codes (fuel : nat) (literals distances : Huffman) (s : list bool) (out : bytes) : Result :=
  match fuel with
  | O => (None, out)
  | S fuel =>
      match symbol literals s with
      | None => (None, out)
      | Some (x, s) =>
          if x <? 256 then codes fuel literals distances s (x :: out)
          else if x =? 256 then (Some s, out)
          else
            match
              '(n, s) ← with_extra length_codes (x - 257) s;
              '(y, s) ← symbol distances s;
              '(d, s) ← with_extra distance_codes y s;
              out ← copy_back (Z.to_nat n) (Z.to_nat (d - 1)) out;
              Some (s, out)
            with
            | Some (s, out) => codes fuel literals distances s out
            | None => (None, out)
            end
      end
  end.

Definition fixed_literals : Huffman :=
  huffman (replicate 144 8 ++ replicate 112 9 ++ replicate 24 7 ++ replicate 8 8).

Definition fixed_distances : Huffman := huffman (replicate 30 5).

(** The lengths of a block's own code, themselves in a code. *)
Definition length_order : list Z := [16; 17; 18; 0; 8; 7; 9; 6; 10; 5; 11; 4; 12; 3; 13; 2; 14; 1; 15].

Fixpoint take_lengths (n : nat) (s : list bool) : option (list Z * list bool) :=
  match n with
  | O => Some ([], s)
  | S n => '(l, s) ← take_bits 3 s; '(ls, s) ← take_lengths n s; Some (l :: ls, s)
  end.

Definition in_order (lengths : list Z) : list Z :=
  (fun x => match list_find (fun p : Z * Z => p.1 = x) (zip length_order lengths) with
            | Some (_, p) => p.2
            | None => 0
            end) <$> seqZ 0 19.

Fixpoint code_lengths (fuel : nat) (h : Huffman) (total : nat) (s : list bool) (acc : list Z) : option (list Z * list bool) :=
  match fuel with
  | O => None
  | S fuel =>
      if (total <=? length acc)%nat then Some (acc, s) else
      '(x, s) ← symbol h s;
      if x <? 16 then code_lengths fuel h total s (acc ++ [x])
      else if x =? 16 then
        '(n, s) ← take_bits 2 s; l ← last acc; code_lengths fuel h total s (acc ++ replicate (3 + Z.to_nat n) l)
      else if x =? 17 then
        '(n, s) ← take_bits 3 s; code_lengths fuel h total s (acc ++ replicate (3 + Z.to_nat n) 0)
      else '(n, s) ← take_bits 7 s; code_lengths fuel h total s (acc ++ replicate (11 + Z.to_nat n) 0)
  end.

Definition own_codes (s : list bool) : option (Huffman * Huffman * list bool) :=
  '(nlen, s) ← take_bits 5 s;
  '(ndist, s) ← take_bits 5 s;
  '(ncode, s) ← take_bits 4 s;
  '(lengths, s) ← take_lengths (Z.to_nat ncode + 4) s;
  let nlen := (Z.to_nat nlen + 257)%nat in
  let total := (nlen + Z.to_nat ndist + 1)%nat in
  '(lengths, s) ← code_lengths (S total) (huffman (in_order lengths)) total s [];
  Some (huffman (take nlen lengths), huffman (drop nlen lengths), s).

(** A block of bytes, from the next byte of the stream. *)
Fixpoint stored (n : nat) (s : list bool) (out : bytes) : Result :=
  match n with
  | O => (Some s, out)
  | S n => match take_bits 8 s with Some (b, s) => stored n s (b :: out) | None => (None, out) end
  end.

Definition block (kind : Z) (s : list bool) (out : bytes) : Result :=
  if kind =? 0 then
    match '(n, s) ← take_bits 16 (drop (length s mod 8) s); '(_, s) ← take_bits 16 s; Some (n, s) with
    | Some (n, s) => stored (Z.to_nat n) s out
    | None => (None, out)
    end
  else if kind =? 1 then codes (S (length s)) fixed_literals fixed_distances s out
  else if kind =? 2 then
    match own_codes s with
    | Some (literals, distances, s) => codes (S (length s)) literals distances s out
    | None => (None, out)
    end
  else (None, out).

(** The blocks up to the last one; every block has three bits of its own. *)
Fixpoint blocks (fuel : nat) (s : list bool) (out : bytes) : bytes :=
  match fuel with
  | O => out
  | S fuel =>
      match '(final, s) ← take_bits 1 s; '(kind, s) ← take_bits 2 s; Some (final, kind, s) with
      | None => out
      | Some (final, kind, s) =>
          match block kind s out with
          | (Some s, out) => if final =? 1 then out else blocks fuel s out
          | (None, out) => out
          end
      end
  end.

Definition decode (d : bytes) : option bytes :=
  match d with
  | cmf :: flg :: d =>
      if (Z.land cmf 15 =? 8) && ((cmf * 256 + flg) mod 31 =? 0) && (Z.land flg 32 =? 0)
      then Some (reverse (blocks (S (8 * length d)) (bits d) []))
      else None
  | _ => None
  end.

End Inflate.

Definition zlib : Zlib := {| zlib_decode := Inflate.decode |}.

(** ** SHA-256, and the tokens of JWT with HMAC *)

Module Sha2.

Definition ones32 : Z := 4294967295.
Definition rotr (n w : Z) : Z := Z.lor (Z.shiftr w n) (Z.land (Z.shiftl w (32 - n)) ones32).
Definition add32 (l : list Z) : Z := foldl Z.add 0 l mod 4294967296.

(** The constants are the first 32 bits after the point of the roots of the first primes:
    the cube roots for the rounds, the square roots for the state. *)
Definition primes : list Z :=
  filter (fun p => Forall (fun d => p mod d <> 0) (seqZ 2 (p - 2))) (seqZ 2 310).

Definition root (k n : Z) : Z :=
  foldl (fun r b => let c := r + 2 ^ b in if c ^ k <=? n then c else r) 0 (reverse (seqZ 0 36)).

Definition root_bits (k p : Z) : Z := root k (p * 2 ^ (32 * k)) mod 2 ^ 32.

Definition round_constants : list Z := Eval vm_compute in root_bits 3 <$> primes.

Definition initial : list Z := Eval vm_compute in root_bits 2 <$> take 8 primes.

(** The schedule of a block, its words from the last one. *)
Fixpoint schedule (n : nat) (w : list Z) : list Z :=
  match n with
  | O => w
  | S n =>
      let x := nth 14 w 0 in
      let y := nth 1 w 0 in
      let s0 := Z.lxor (Z.lxor (rotr 7 x) (rotr 18 x)) (Z.shiftr x 3) in
      let s1 := Z.lxor (Z.lxor (rotr 17 y) (rotr 19 y)) (Z.shiftr y 10) in
      schedule n (add32 [nth 15 w 0; s0; nth 6 w 0; s1] :: w)
  end.

Definition round (s : list Z) (kw : Z * Z) : list Z :=
  match s with
  | [a; b; c; d; e; f; g; h] =>
      let s1 := Z.lxor (Z.lxor (rotr 6 e) (rotr 11 e)) (rotr 25 e) in
      let ch := Z.lxor (Z.land e f) (Z.land (Z.lxor e ones32) g) in
      let t1 := add32 [h; s1; ch; kw.1; kw.2] in
      let s0 := Z.lxor (Z.lxor (rotr 2 a) (rotr 13 a)) (rotr 22 a) in
      let maj := Z.lxor (Z.lxor (Z.land a b) (Z.land a c)) (Z.land b c) in
      [add32 [t1; s0; maj]; a; b; c; add32 [d; t1]; e; f; g]
  | s => s
  end.

Definition compress (s : list Z) (block : bytes) : list Z :=
  let w := reverse (schedule 48 (reverse (from_be <$> Keccak256.chunks 4 16 block))) in
  zip_with (fun a b => add32 [a; b]) s (foldl round s (zip round_constants w)).

Definition pad (bs : bytes) : bytes :=
  bs ++ [128] ++ replicate ((119 - length bs mod 64) mod 64) 0 ++ to_be 8 (8 * len bs).

Definition hash (bs : bytes) : bytes :=
  let p := pad bs in
  mjoin (to_be 4 <$> foldl compress initial (Keccak256.chunks 64 (length p) p)).

Definition hmac (key msg : bytes) : bytes :=
  let key := if (64 <? length key)%nat then hash key else key in
  let key := key ++ replicate (64 - length key) 0 in
  hash ((Z.lxor 0x5c <$> key) ++ hash ((Z.lxor 0x36 <$> key) ++ msg)).

(** Base64 for URLs, without padding. *)
Definition digit (d : Z) : Ascii.ascii :=
  Ascii.ascii_of_N (Z.to_N (
    if d <? 26 then d + 65 else if d <? 52 then d + 71 else if d <? 62 then d - 4 else if d =? 62 then 45 else 95)).

Fixpoint base64 (bs : bytes) : string :=
  match bs with
  | a :: b :: c :: bs =>
      String (digit (a / 4)) (String (digit (a mod 4 * 16 + b / 16))
        (String (digit (b mod 16 * 4 + c / 64)) (String (digit (c mod 64)) (base64 bs))))
  | [a; b] => String (digit (a / 4)) (String (digit (a mod 4 * 16 + b / 16)) (String (digit (b mod 16 * 4)) ""))
  | [a] => String (digit (a / 4)) (String (digit (a mod 4 * 16)) "")
  | [] => ""
  end.

End Sha2.
