(* ===== verification/Config.v ===== *)
(** The configuration (src/src/config/mod.rs): the sync modes, the parameters of a
    chain and the four built-in chains, the exchange format of [rollup.json], and
    the Ecotone predicates.

    [Config::new], which merges the command line, a TOML file and the chain, is in
    Settings.v; its result, a [Config], is an argument of the components that use it. *)
From S2P Require Import Prelude Common.

(** ** Data *)

Inductive SyncMode := Fast | Checkpoint | Challenge | Full.

#[export] Instance SyncMode_eq_dec : EqDecision SyncMode.
Proof. solve_decision. Defined.

Record SystemConfig := {
  batch_sender : bytes;
  gas_limit : Z;
  l1_fee_overhead : Z;
  l1_fee_scalar : Z;
  unsafe_block_signer : bytes
}.

#[export] Instance SystemConfig_eq_dec : EqDecision SystemConfig.
Proof. solve_decision. Defined.

Record ChainConfig := {
  network : string;
  l1_chain_id : Z;
  l2_chain_id : Z;
  l1_start_epoch : Epoch;
  l2_genesis : BlockInfo;
  system_config : SystemConfig;
  batch_inbox : bytes;
  deposit_contract : bytes;
  system_config_contract : bytes;
  max_channel_size : Z;
  channel_timeout : Z;
  seq_window_size : Z;
  max_seq_drift : Z;
  regolith_time : Z;
  canyon_time : Z;
  delta_time : Z;
  ecotone_time : Z;
  blocktime : Z;
  l2_to_l1_message_passer : bytes
}.

#[export] Instance ChainConfig_eq_dec : EqDecision ChainConfig.
Proof. solve_decision. Defined.

Record Config := {
  l1_rpc_url : string;
  l1_beacon_url : string;
  l2_rpc_url : string;
  l2_engine_url : string;
  chain : ChainConfig;
  jwt_secret : string;
  checkpoint_sync_url : option string;
  rpc_port : Z;
  rpc_addr : string;
  devnet : bool
}.

Record SystemAccounts := {
  attributes_depositor : bytes;
  attributes_predeploy : bytes;
  fee_vault : bytes
}.

(** The JSON types.  A [B256] is its bytes. *)
Record SystemConfigInfo := {
  batcher_addr : bytes;
  overhead : bytes;
  scalar : bytes;
  ext_gas_limit : Z
}.

Record ChainGenesisInfo := {
  gen_hash : bytes;
  gen_number : Z
}.

Record ExternalGenesisInfo := {
  gen_l1 : ChainGenesisInfo;
  gen_l2 : ChainGenesisInfo;
  l2_time : Z;
  gen_system_config : SystemConfigInfo
}.

Record ExternalChainConfig := {
  genesis : ExternalGenesisInfo;
  block_time : Z;
  max_sequencer_drift : Z;
  ext_seq_window_size : Z;
  ext_channel_timeout : Z;
  ext_l1_chain_id : Z;
  ext_l2_chain_id : Z;
  ext_regolith_time : Z;
  ext_canyon_time : Z;
  ext_delta_time : Z;
  ext_ecotone_time : Z;
  batch_inbox_address : bytes;
  deposit_contract_address : bytes;
  l1_system_config_address : bytes
}.

(** ** Operations *)

Definition SyncMode_from_str (s : string) : outcome SyncMode :=
  if bool_decide (s = "fast") then Ok Fast
  else if bool_decide (s = "checkpoint") then Ok Checkpoint
  else if bool_decide (s = "challenge") then Ok Challenge
  else if bool_decide (s = "full") then Ok Full
  else Err "invalid sync mode".

Definition SyncMode_fmt (m : SyncMode) : string :=
  match m with
  | Fast => "fast"
  | Checkpoint => "checkpoint"
  | Challenge => "challenge"
  | Full => "full"
  end.

Definition batcher_hash (sc : SystemConfig) : bytes := replicate 12 0 ++ batch_sender sc.

Definition is_ecotone_activation_block (c : ChainConfig) (l2_block_timestamp : Z) : bool :=
  l2_block_timestamp =? ecotone_time c.

Definition is_ecotone_but_not_first_block (c : ChainConfig) (l2_block_timestamp : Z) : bool :=
  let is_ecotone := ecotone_time c <=? l2_block_timestamp in
  is_ecotone && negb (is_ecotone_activation_block c l2_block_timestamp).

(** The helpers that parse a hexadecimal literal; the literal is written here as
    the number it denotes. *)
Definition addr (z : Z) : bytes := to_be 20 z.
Definition hash (z : Z) : bytes := to_be 32 z.
Definition optimism : ChainConfig :=
  {| network := "optimism";
     l1_chain_id := 1;
     l2_chain_id := 10;
     l1_start_epoch :=
       {| ep_hash := hash 0x438335a20d98863a4c0c97999eb2481921ccd28553eac6f913af7c12aec04108;
          ep_number := 17422590;
          ep_timestamp := 1686068903 |};
     l2_genesis :=
       {| bi_hash := hash 0xdbf6a80fef073de06add9b0d14026d6e5a86c85f6d102c36d3d8e9cf89c2afd3;
          bi_number := 105235063;
          bi_parent_hash := hash 0x21a168dfa5e727926063a28ba16fd5ee84c814e847c81a699c7a0ea551e4ca50;
          bi_timestamp := 1686068903 |};
     system_config :=
       {| batch_sender := addr 0x6887246668a3b87f54deb3b94ba47a6f63f32985;
          gas_limit := 30000000;
          l1_fee_overhead := 188;
          l1_fee_scalar := 684000;
          unsafe_block_signer := addr 0xaaaa45d9549eda09e70937013520214382ffc4a2 |};
     batch_inbox := addr 0xff00000000000000000000000000000000000010;
     deposit_contract := addr 0xbeb5fc579115071764c7423a4f12edde41f106ed;
     system_config_contract := addr 0x229047fed2591dbec1ef1118d64f7af3db9eb290;
     max_channel_size := 100000000;
     channel_timeout := 300;
     seq_window_size := 3600;
     max_seq_drift := 600;
     regolith_time := 0;
     canyon_time := 170499240;
     delta_time := 1708560000;
     ecotone_time := 1710781201;
     blocktime := 2;
     l2_to_l1_message_passer := addr 0x4200000000000000000000000000000000000016 |}.

Definition optimism_sepolia : ChainConfig :=
  {| network := "optimism-sepolia";
     l1_chain_id := 11155111;
     l2_chain_id := 11155420;
     l1_start_epoch :=
       {| ep_hash := hash 0x48f520cf4ddaf34c8336e6e490632ea3cf1e5e93b0b2bc6e917557e31845371b;
          ep_number := 4071408;
          ep_timestamp := 1691802540 |};
     l2_genesis :=
       {| bi_hash := hash 0x102de6ffb001480cc9b8b548fd05c34cd4f46ae4aa91759393db90ea0409887d;
          bi_number := 0;
          bi_parent_hash := hash 0x0000000000000000000000000000000000000000000000000000000000000000;
          bi_timestamp := 1691802540 |};
     system_config :=
       {| batch_sender := addr 0x8f23bb38f531600e5d8fddaaec41f13fab46e98c;
          gas_limit := 30000000;
          l1_fee_overhead := 188;
          l1_fee_scalar := 684000;
          unsafe_block_signer := addr 0x57cacbb0d30b01eb2462e5dc940c161aff3230d3 |};
     batch_inbox := addr 0xff00000000000000000000000000000011155420;
     deposit_contract := addr 0x16fc5058f25648194471939df75cf27a2fdc48bc;
     system_config_contract := addr 0x034edd2a225f7f429a63e0f1d2084b9e0a93b538;
     max_channel_size := 100000000;
     channel_timeout := 300;
     seq_window_size := 3600;
     max_seq_drift := 600;
     regolith_time := 0;
     canyon_time := 1699981200;
     delta_time := 1703203200;
     ecotone_time := 1708534800;
     blocktime := 2;
     l2_to_l1_message_passer := addr 0x4200000000000000000000000000000000000016 |}.

Definition base : ChainConfig :=
  {| network := "base";
     l1_chain_id := 1;
     l2_chain_id := 8453;
     l1_start_epoch :=
       {| ep_hash := hash 0x5c13d307623a926cd31415036c8b7fa14572f9dac64528e857a470511fc30771;
          ep_number := 17481768;
          ep_timestamp := 1686789347 |};
     l2_genesis :=
       {| bi_hash := hash 0xf712aa9241cc24369b143cf6dce85f0902a9731e70d66818a3a5845b296c73dd;
          bi_number := 0;
          bi_parent_hash := H256_zero;
          bi_timestamp := 1686789347 |};
     system_config :=
       {| batch_sender := addr 0x5050f69a9786f081509234f1a7f4684b5e5b76c9;
          gas_limit := 30000000;
          l1_fee_overhead := 188;
          l1_fee_scalar := 684000;
          unsafe_block_signer := addr 0xaf6e19be0f9ce7f8afd49a1824851023a8249e8a |};
     batch_inbox := addr 0xff00000000000000000000000000000000008453;
     deposit_contract := addr 0x49048044d57e1c92a77f79988d21fa8faf74e97e;
     system_config_contract := addr 0x73a79fab69143498ed3712e519a88a918e1f4072;
     max_channel_size := 100000000;
     channel_timeout := 300;
     seq_window_size := 3600;
     max_seq_drift := 600;
     regolith_time := 0;
     canyon_time := 1704992401;
     delta_time := 1708560000;
     ecotone_time := 1710781201;
     blocktime := 2;
     l2_to_l1_message_passer := addr 0x4200000000000000000000000000000000000016 |}.

Definition base_sepolia : ChainConfig :=
  {| network := "base-sepolia";
     l1_chain_id := 11155111;
     l2_chain_id := 84532;
     l1_start_epoch :=
       {| ep_hash := hash 0xcac9a83291d4dec146d6f7f69ab2304f23f5be87b1789119a0c5b1e4482444ed;
          ep_number := 4370868;
          ep_timestamp := 1695768288 |};
     l2_genesis :=
       {| bi_hash := hash 0x0dcc9e089e30b90ddfc55be9a37dd15bc551aeee999d2e2b51414c54eaf934e4;
          bi_number := 0;
          bi_parent_hash := H256_zero;
          bi_timestamp := 1695768288 |};
     system_config :=
       {| batch_sender := addr 0x6cdebe940bc0f26850285caca097c11c33103e47;
          gas_limit := 25000000;
          l1_fee_overhead := 2100;
          l1_fee_scalar := 1000000;
          unsafe_block_signer := addr 0xb830b99c95ea32300039624cb567d324d4b1d83c |};
     batch_inbox := addr 0xff00000000000000000000000000000000084532;
     deposit_contract := addr 0x49f53e41452c74589e85ca1677426ba426459e85;
     system_config_contract := addr 0xf272670eb55e895584501d564afeb048bed26194;
     max_channel_size := 100000000;
     channel_timeout := 300;
     seq_window_size := 3600;
     max_seq_drift := 600;
     regolith_time := 0;
     canyon_time := 1699981200;
     delta_time := 1703203200;
     ecotone_time := 1708534800;
     blocktime := 2;
     l2_to_l1_message_passer := addr 0x4200000000000000000000000000000000000016 |}.

Definition SystemAccounts_default : SystemAccounts :=
  {| attributes_depositor := addr 0xdeaddeaddeaddeaddeaddeaddeaddeaddead0001;
     attributes_predeploy := addr 0x4200000000000000000000000000000000000015;
     fee_vault := addr 0x4200000000000000000000000000000000000011 |}.

(** [impl From<ExternalChainConfig> for ChainConfig]. *)
Definition ChainConfig_from_external (external : ExternalChainConfig) : ChainConfig :=
  let l1 := gen_l1 (genesis external) in
  let l2 := gen_l2 (genesis external) in
  let sc := gen_system_config (genesis external) in
  {| network := "external";
     l1_chain_id := ext_l1_chain_id external;
     l2_chain_id := ext_l2_chain_id external;
     l1_start_epoch := {| ep_hash := gen_hash l1; ep_number := gen_number l1; ep_timestamp := 0 |};
     l2_genesis :=
       {| bi_hash := gen_hash l2;
          bi_number := gen_number l2;
          bi_parent_hash := H256_zero;
          bi_timestamp := l2_time (genesis external) |};
     system_config :=
       {| batch_sender := batcher_addr sc;
          gas_limit := ext_gas_limit sc;
          l1_fee_overhead := from_be (overhead sc);
          l1_fee_scalar := from_be (scalar sc);
          unsafe_block_signer := Address_zero |};
     batch_inbox := batch_inbox_address external;
     deposit_contract := deposit_contract_address external;
     system_config_contract := l1_system_config_address external;
     max_channel_size := 100000000;
     channel_timeout := ext_channel_timeout external;
     seq_window_size := ext_seq_window_size external;
     max_seq_drift := max_sequencer_drift external;
     regolith_time := ext_regolith_time external;
     canyon_time := ext_canyon_time external;
     delta_time := ext_delta_time external;
     ecotone_time := ext_ecotone_time external;
     blocktime := block_time external;
     l2_to_l1_message_passer := addr 0x4200000000000000000000000000000000000016 |}.

(** [impl From<ChainConfig> for ExternalChainConfig]; the conversion of the gas
    limit to 64 bits is unwrapped. *)
Definition ExternalChainConfig_from_chain (chain_config : ChainConfig) : outcome ExternalChainConfig :=
  let sc := system_config chain_config in
  let overhead := to_be 32 (l1_fee_overhead sc) in
  let scalar := to_be 32 (l1_fee_scalar sc) in
  gas_limit ← as_u64 (gas_limit sc);
  Ok {| genesis :=
          {| gen_l1 :=
               {| gen_hash := ep_hash (l1_start_epoch chain_config);
                  gen_number := ep_number (l1_start_epoch chain_config) |};
             gen_l2 :=
               {| gen_hash := bi_hash (l2_genesis chain_config);
                  gen_number := bi_number (l2_genesis chain_config) |};
             l2_time := bi_timestamp (l2_genesis chain_config);
             gen_system_config :=
               {| batcher_addr := batch_sender sc;
                  overhead := overhead;
                  scalar := scalar;
                  ext_gas_limit := gas_limit |} |};
        block_time := blocktime chain_config;
        max_sequencer_drift := max_seq_drift chain_config;
        ext_seq_window_size := seq_window_size chain_config;
        ext_channel_timeout := channel_timeout chain_config;
        ext_l1_chain_id := l1_chain_id chain_config;
        ext_l2_chain_id := l2_chain_id chain_config;
        ext_regolith_time := regolith_time chain_config;
        ext_canyon_time := canyon_time chain_config;
        ext_delta_time := delta_time chain_config;
        ext_ecotone_time := ecotone_time chain_config;
        batch_inbox_address := batch_inbox chain_config;
        deposit_contract_address := deposit_contract chain_config;
        l1_system_config_address := system_config_contract chain_config |}.

(** [str::to_lowercase] and [str::ends_with], on ASCII strings. *)
Definition ascii_lower (c : Ascii.ascii) : Ascii.ascii :=
  let n := Ascii.nat_of_ascii c in
  if (65 <=? n)%nat && (n <=? 90)%nat then Ascii.ascii_of_nat (n + 32) else c.

Fixpoint to_lowercase (s : string) : string :=
  match s with
  | EmptyString => EmptyString
  | String c s => String (ascii_lower c) (to_lowercase s)
  end.

Definition ends_with (s suffix : string) : bool :=
  let n := String.length s in
  let k := String.length suffix in
  (k <=? n)%nat && bool_decide (String.substring (n - k) k s = suffix).

Section from_network_name.
(** The file system and the JSON parser: the configuration a path holds, if it
    can be opened and parsed. *)
Context (read_json : string -> option ExternalChainConfig).

Definition from_json (path : string) : outcome ChainConfig :=
  external ← unwrap (read_json path);
  Ok (ChainConfig_from_external external).

Definition from_network_name (network : string) : outcome ChainConfig :=
  let network := to_lowercase network in
  if bool_decide (network = "optimism") then Ok optimism
  else if bool_decide (network = "optimism-sepolia") then Ok optimism_sepolia
  else if bool_decide (network = "base") then Ok base
  else if bool_decide (network = "base-sepolia") then Ok base_sepolia
  else if ends_with network ".json" then from_json network
  else Panic.
End from_network_name.

(** ** Lemmas *)

Definition built_in : list ChainConfig := [optimism; optimism_sepolia; base; base_sepolia].

(** What a configuration keeps of itself through the JSON format. *)
Definition forget (c : ChainConfig) : ChainConfig :=
  {| network := "external";
     l1_chain_id := l1_chain_id c;
     l2_chain_id := l2_chain_id c;
     l1_start_epoch :=
       {| ep_hash := ep_hash (l1_start_epoch c); ep_number := ep_number (l1_start_epoch c);
          ep_timestamp := 0 |};
     l2_genesis :=
       {| bi_hash := bi_hash (l2_genesis c); bi_number := bi_number (l2_genesis c);
          bi_parent_hash := H256_zero; bi_timestamp := bi_timestamp (l2_genesis c) |};
     system_config :=
       {| batch_sender := batch_sender (system_config c); gas_limit := gas_limit (system_config c);
          l1_fee_overhead := l1_fee_overhead (system_config c);
          l1_fee_scalar := l1_fee_scalar (system_config c); unsafe_block_signer := Address_zero |};
     batch_inbox := batch_inbox c;
     deposit_contract := deposit_contract c;
     system_config_contract := system_config_contract c;
     max_channel_size := 100000000;
     channel_timeout := channel_timeout c;
     seq_window_size := seq_window_size c;
     max_seq_drift := max_seq_drift c;
     regolith_time := regolith_time c;
     canyon_time := canyon_time c;
     delta_time := delta_time c;
     ecotone_time := ecotone_time c;
     blocktime := blocktime c;
     l2_to_l1_message_passer := addr 0x4200000000000000000000000000000000000016 |}.

Record external_ok (e : ExternalChainConfig) : Prop := {
  external_ok_gas : in_u64 (ext_gas_limit (gen_system_config (genesis e)));
  external_ok_overhead : len (overhead (gen_system_config (genesis e))) = 32 /\
    bytes_ok (overhead (gen_system_config (genesis e)));
  external_ok_scalar : len (scalar (gen_system_config (genesis e))) = 32 /\
    bytes_ok (scalar (gen_system_config (genesis e)))
}.

Definition fees_ok (c : ChainConfig) : Prop :=
  in_u256 (l1_fee_overhead (system_config c)) /\ in_u256 (l1_fee_scalar (system_config c)).

Lemma SyncMode_from_fmt m : SyncMode_from_str (SyncMode_fmt m) = Ok m.
Proof. by destruct m. Qed.

Lemma SyncMode_from_str_Ok s m : SyncMode_from_str s = Ok m -> s = SyncMode_fmt m.
Proof. unfold SyncMode_from_str. intros H. repeat case_bool_decide; by simplify_eq. Qed.

Lemma external_of_chain e :
  external_ok e -> ExternalChainConfig_from_chain (ChainConfig_from_external e) = Ok e.
Proof.
  intros [Hg [Lo Oo] [Ls Os]].
  unfold ExternalChainConfig_from_chain, ChainConfig_from_external. cbn.
  rewrite as_u64_small by done. cbn. rewrite !to_be_from_be_len by done.
  by destruct e as [[[] [] ? []]].
Qed.

Lemma chain_of_external c e :
  fees_ok c -> ExternalChainConfig_from_chain c = Ok e -> ChainConfig_from_external e = forget c.
Proof.
  intros [Ho Hs] H. unfold ExternalChainConfig_from_chain in H.
  apply bind_Ok in H as (g & [<- _]%as_u64_Ok & [= <-]).
  unfold ChainConfig_from_external, forget. cbn. by rewrite !from_be_to_be_u256.
Qed.

Lemma ascii_lower_idemp c : ascii_lower (ascii_lower c) = ascii_lower c.
Proof. by destruct c as [[] [] [] [] [] [] [] []]. Qed.

Lemma to_lowercase_idemp s : to_lowercase (to_lowercase s) = to_lowercase s.
Proof. induction s as [|c s IH]; cbn; [done|]. by rewrite ascii_lower_idemp, IH. Qed.

Lemma from_network_name_cases read_json s :
  (exists c, c ∈ built_in /\ to_lowercase s = network c /\ from_network_name read_json s = Ok c) \/
  (~ to_lowercase s ∈ network <$> built_in /\
   from_network_name read_json s =
     if ends_with (to_lowercase s) ".json" then from_json read_json (to_lowercase s) else Panic).
Proof.
  unfold from_network_name, built_in. rewrite !fmap_cons, !not_elem_of_cons. cbn [network optimism optimism_sepolia base base_sepolia].
  repeat case_bool_decide; [left..|right].
  - exists optimism. by split_and!; [left|..].
  - exists optimism_sepolia. by split_and!; [right; left|..].
  - exists base. by split_and!; [do 2 right; left|..].
  - exists base_sepolia. by split_and!; [do 3 right; left|..].
  - split_and!; try done. apply not_elem_of_nil.
Qed.

(** The Canyon time of the Optimism chain is earlier than its genesis block. *)
Lemma optimism_canyon_time : canyon_time optimism < bi_timestamp (l2_genesis optimism).
Proof. by vm_compute. Qed.

(** ** Properties *)

(** A sync mode is parsed from exactly the string it is displayed as. *)
Theorem SyncMode_roundtrip s m : SyncMode_from_str s = Ok m <-> s = SyncMode_fmt m.
Proof. split; [apply SyncMode_from_str_Ok|intros ->; apply SyncMode_from_fmt]. Qed.

(** The two conversions between a chain configuration and the [rollup.json]
    format: JSON to configuration to JSON is the identity; configuration to JSON
    panics when the gas limit does not fit 64 bits, and otherwise, read back,
    gives the configuration without the fields the format has no place for (the
    name, the time of the L1 start block, the parent of the L2 genesis block, the
    unsafe block signer, the channel size limit, the message passer). *)
Theorem external_roundtrip :
  (forall e, external_ok e -> ExternalChainConfig_from_chain (ChainConfig_from_external e) = Ok e) /\
  (forall c, fees_ok c ->
     match ExternalChainConfig_from_chain c with
     | Ok e => ChainConfig_from_external e = forget c /\ gas_limit (system_config c) < 2 ^ 64
     | r => r = Panic /\ 2 ^ 64 <= gas_limit (system_config c)
     end).
Proof.
  split; [apply external_of_chain|]. intros c Hc.
  destruct (ExternalChainConfig_from_chain c) as [e|e| |] eqn:E.
  - split; [by apply chain_of_external|]. unfold ExternalChainConfig_from_chain in E.
    apply bind_Ok in E as (g & [<- Hg]%as_u64_Ok & _). exact Hg.
  - unfold ExternalChainConfig_from_chain, as_u64 in E. by case_match.
  - split; [done|]. unfold ExternalChainConfig_from_chain in E.
    destruct (as_u64_cases (gas_limit (system_config c))) as [[? Hz]|[? Hz]]; [by rewrite Hz in E|done].
  - unfold ExternalChainConfig_from_chain, as_u64 in E. by case_match.
Qed.

(** A network name selects the built-in chain of that name, whatever its case;
    any other name has to be the path of a JSON file, or the program panics.  The
    path opened is the lower-cased argument, so two paths that differ in case only
    are one. *)
Theorem from_network_name_spec read_json s :
  (forall c, c ∈ built_in -> to_lowercase s = network c -> from_network_name read_json s = Ok c) /\
  (forall c, from_network_name read_json s = Ok c ->
     c ∈ built_in /\ to_lowercase s = network c \/
     network c = "external" /\ exists e, read_json (to_lowercase s) = Some e) /\
  (forall s', to_lowercase s' = to_lowercase s ->
     from_network_name read_json s' = from_network_name read_json s).
Proof.
  split_and!.
  - intros c Hc Hs. unfold from_network_name. rewrite Hs. unfold built_in in Hc.
    rewrite !elem_of_cons, elem_of_nil in Hc. destruct Hc as [->|[->|[->|[->|[]]]]]; done.
  - intros c Hc. destruct (from_network_name_cases read_json s) as [(c' & Hin & Hs & Hf)|[_ Hf]];
      rewrite Hf in Hc; [simpl_outcome; by left|]. right.
    destruct (ends_with _ _); [|done]. apply bind_Ok in Hc as (e & He & [= <-]).
    split; [done|]. exists e. by destruct (read_json _); cbn in *; simplify_eq.
  - intros s' Hs. unfold from_network_name. by rewrite Hs.
Qed.

(** ** Witnesses *)

Definition example_external : ExternalChainConfig :=
  {| genesis :=
       {| gen_l1 := {| gen_hash := hash 1; gen_number := 0 |};
          gen_l2 := {| gen_hash := hash 2; gen_number := 0 |};
          l2_time := 1685710775;
          gen_system_config :=
            {| batcher_addr := addr 0x3c44cdddb6a900fa2b585dd299e03d12fa4293bc;
               overhead := hash 0x834; scalar := hash 0xf4240; ext_gas_limit := 30000000 |} |};
     block_time := 2; max_sequencer_drift := 300; ext_seq_window_size := 200;
     ext_channel_timeout := 120; ext_l1_chain_id := 900; ext_l2_chain_id := 901;
     ext_regolith_time := 1; ext_canyon_time := 2; ext_delta_time := 3; ext_ecotone_time := 4;
     batch_inbox_address := addr 0xff00000000000000000000000000000000000000;
     deposit_contract_address := addr 0x6900000000000000000000000000000000000001;
     l1_system_config_address := addr 0x6900000000000000000000000000000000000009 |}.

Lemma external_roundtrip_witness :
  ExternalChainConfig_from_chain (ChainConfig_from_external example_external) = Ok example_external.
Proof. apply external_roundtrip. split; by_compute. Defined.

Lemma from_network_name_spec_witness :
  from_network_name (fun _ => None) "Base-SEPOLIA" = Ok base_sepolia /\
  from_network_name (fun p => if bool_decide (p = "/tmp/devnet.json") then Some example_external else None)
    "/tmp/DevNet.json" = Ok (ChainConfig_from_external example_external).
Proof.
  split.
  - apply from_network_name_spec; [by_compute|done].
  - rewrite (proj2 (proj2 (from_network_name_spec _ "/tmp/devnet.json")) "/tmp/DevNet.json" eq_refl).
    by vm_compute.
Defined.
