(* ===== verification/Deposits.v ===== *)
(** Deposited transactions (the lower half of
    src/src/derive/stages/attributes.rs): the user deposits read from L1 logs, the
    L1 attributes transaction, their conversion to deposited transactions, and the
    calldata and RLP encodings of these.

    The ABI and RLP codecs are library code (Codecs.v). *)
From S2P Require Import Prelude Codecs Common Config.

(** ** Data *)

(** [ethers::types::Log]: the fields the code reads. *)
Record Log := {
  log_topics : list bytes;
  log_data : bytes;
  log_block_number : option Z;
  log_block_hash : option bytes;
  log_log_index : option Z
}.

Record UserDeposited := {
  ud_from : bytes;
  ud_to : bytes;
  ud_mint : Z;
  ud_value : Z;
  ud_gas : Z;
  ud_is_creation : bool;
  ud_data : bytes;
  ud_l1_block_num : Z;
  ud_l1_block_hash : bytes;
  ud_log_index : Z
}.

#[export] Instance UserDeposited_eq_dec : EqDecision UserDeposited.
Proof. solve_decision. Defined.

Record DepositedTransaction := {
  dt_source_hash : bytes;
  dt_from : bytes;
  dt_to : option bytes;
  dt_mint : Z;
  dt_value : Z;
  dt_gas : Z;
  dt_is_system_tx : bool;
  dt_data : bytes
}.

Record AttributesDeposited := {
  ad_number : Z;
  ad_timestamp : Z;
  ad_base_fee : Z;
  ad_hash : bytes;
  ad_sequence_number : Z;
  ad_batcher_hash : bytes;
  ad_fee_overhead : Z;
  ad_fee_scalar : Z;
  ad_gas : Z;
  ad_is_system_tx : bool
}.

(** ** Operations *)

(** [impl From<H256> for Address]: the low 20 bytes. *)
Definition Address_from (h : bytes) : bytes := drop 12 h.

Section deposits.
Context `{Keccak, Codec}.

(** [impl TryFrom<Log> for UserDeposited]. *)
Definition UserDeposited_try_from (log : Log) : outcome UserDeposited :=
  opaque_data ← ok_or (abi_decode_bytes (log_data log)) "abi decode error";
  from ← Address_from <$> index (log_topics log) 1;
  to ← Address_from <$> index (log_topics log) 2;
  mint ← from_be <$> slice opaque_data 0 32;
  value ← from_be <$> slice opaque_data 32 64;
  gas ← from_be <$> slice opaque_data 64 72;
  is_creation ← (fun b => negb (b =? 0)) <$> index opaque_data 72;
  data ← slice_from opaque_data 73;
  l1_block_num ← ok_or (log_block_number log) "block num not found";
  l1_block_hash ← ok_or (log_block_hash log) "block hash not found";
  log_index ← unwrap (log_log_index log);
  Ok {| ud_from := from;
        ud_to := to;
        ud_mint := mint;
        ud_value := value;
        ud_gas := gas;
        ud_is_creation := is_creation;
        ud_data := data;
        ud_l1_block_num := l1_block_num;
        ud_l1_block_hash := l1_block_hash;
        ud_log_index := log_index |}.

(** [AttributesDeposited::encode]. *)
Definition AttributesDeposited_encode (a : AttributesDeposited) : bytes :=
  let tokens :=
    [Token_Uint (ad_number a);
     Token_Uint (ad_timestamp a);
     Token_Uint (ad_base_fee a);
     Token_FixedBytes (ad_hash a);
     Token_Uint (ad_sequence_number a);
     Token_FixedBytes (ad_batcher_hash a);
     Token_Uint (ad_fee_overhead a);
     Token_Uint (ad_fee_scalar a)] in
  let selector := [0x01; 0x5d; 0x8e; 0xb9] in
  let data := abi_encode tokens in
  selector ++ data.

(** [impl From<AttributesDeposited> for DepositedTransaction]. *)
Definition DepositedTransaction_from_attributes (attributes_deposited : AttributesDeposited)
    : DepositedTransaction :=
  let hash := ad_hash attributes_deposited in
  let seq := H256_from_low_u64_be (ad_sequence_number attributes_deposited) in
  let h := keccak256 (hash ++ seq) in
  let domain := H256_from_low_u64_be 1 in
  let source_hash := keccak256 (domain ++ h) in
  let from := attributes_depositor SystemAccounts_default in
  let to := Some (attributes_predeploy SystemAccounts_default) in
  let data := AttributesDeposited_encode attributes_deposited in
  {| dt_source_hash := source_hash;
     dt_from := from;
     dt_to := to;
     dt_mint := 0;
     dt_value := 0;
     dt_gas := ad_gas attributes_deposited;
     dt_is_system_tx := ad_is_system_tx attributes_deposited;
     dt_data := data |}.

(** [impl From<UserDeposited> for DepositedTransaction]; the conversion of the
    log index to bytes is big endian. *)
Definition DepositedTransaction_from_user (user_deposited : UserDeposited) : DepositedTransaction :=
  let hash := ud_l1_block_hash user_deposited in
  let log_index := to_be 32 (ud_log_index user_deposited) in
  let h := keccak256 (hash ++ log_index) in
  let domain := H256_from_low_u64_be 0 in
  let source_hash := keccak256 (domain ++ h) in
  let to := if ud_is_creation user_deposited then None else Some (ud_to user_deposited) in
  {| dt_source_hash := source_hash;
     dt_from := ud_from user_deposited;
     dt_to := to;
     dt_mint := ud_mint user_deposited;
     dt_value := ud_value user_deposited;
     dt_gas := ud_gas user_deposited;
     dt_is_system_tx := false;
     dt_data := ud_data user_deposited |}.

(** [impl Encodable for DepositedTransaction]. *)
Definition DepositedTransaction_rlp_append (tx : DepositedTransaction) : list RlpOp :=
  [append_raw [0x7E] 1;
   begin_list 8;
   append_bytes (dt_source_hash tx);
   append_bytes (dt_from tx);
   match dt_to tx with
   | Some to => append_bytes to
   | None => append_bytes []
   end;
   append_uint (dt_mint tx);
   append_uint (dt_value tx);
   append_uint (dt_gas tx);
   append_bool (dt_is_system_tx tx);
   append_bytes (dt_data tx)].

Definition rlp_bytes (tx : DepositedTransaction) : bytes := rlp_out (DepositedTransaction_rlp_append tx).
End deposits.

(** ** Lemmas *)

(** The call a set of deposited attributes stands for. *)
Definition attributes_call (a : AttributesDeposited) : AttributesDepositedCall :=
  {| call_number := ad_number a; call_timestamp := ad_timestamp a; call_basefee := ad_base_fee a;
     call_hash := ad_hash a; call_sequence_number := ad_sequence_number a;
     call_batcher_hash := ad_batcher_hash a; call_fee_overhead := ad_fee_overhead a;
     call_fee_scalar := ad_fee_scalar a; call_blob_base_fee_scalar := None;
     call_blob_base_fee := None |}.

(** The data part of a [TransactionDeposited] event, as the deposit contract packs
    it. *)
Definition opaque_data (u : UserDeposited) : bytes :=
  to_be 32 (ud_mint u) ++ to_be 32 (ud_value u) ++ to_be 8 (ud_gas u) ++
  [if ud_is_creation u then 1 else 0] ++ ud_data u.

Record user_deposited_ok (u : UserDeposited) : Prop := {
  user_deposited_ok_mint : in_u256 (ud_mint u);
  user_deposited_ok_value : in_u256 (ud_value u);
  user_deposited_ok_gas : in_u64 (ud_gas u)
}.

(** The event of a deposit. *)
Definition deposit_log (topic0 version data : bytes) (u : UserDeposited) : Log :=
  {| log_topics := [topic0; replicate 12 0 ++ ud_from u; replicate 12 0 ++ ud_to u; version];
     log_data := data;
     log_block_number := Some (ud_l1_block_num u);
     log_block_hash := Some (ud_l1_block_hash u);
     log_log_index := Some (ud_log_index u) |}.

(** These two inputs are distinct and have one hash. *)
Definition collides `{Keccak} (a b : bytes) : Prop := a <> b /\ keccak256 a = keccak256 b.

(** The two source hashes collide, in the outer hash over the domain or in the inner
    one over the deposit's identifier. *)
Definition source_hashes_collide `{Keccak} (d1 : Z) (id1 : bytes) (d2 : Z) (id2 : bytes) : Prop :=
  collides (to_be 32 d1 ++ keccak256 id1) (to_be 32 d2 ++ keccak256 id2) \/ collides id1 id2.

Section lemmas.
Context `{Keccak, Codec}.

Lemma collides_or_eq a b : keccak256 a = keccak256 b -> a = b \/ collides a b.
Proof. intros Hab. destruct (decide (a = b)); [by left|by right]. Qed.

Lemma to_be_inj n x y : 0 <= x < 256 ^ Z.of_nat n -> 0 <= y < 256 ^ Z.of_nat n -> to_be n x = to_be n y -> x = y.
Proof. intros Hx Hy E. rewrite <- (from_be_to_be_id n x), <- (from_be_to_be_id n y) by done. by rewrite E. Qed.

Lemma abi_encode_attributes a :
  len (ad_hash a) = 32 -> len (ad_batcher_hash a) = 32 ->
  AttributesDeposited_encode a = [0x01; 0x5d; 0x8e; 0xb9] ++
    to_be 32 (ad_number a) ++ to_be 32 (ad_timestamp a) ++ to_be 32 (ad_base_fee a) ++ ad_hash a ++
    to_be 32 (ad_sequence_number a) ++ ad_batcher_hash a ++ to_be 32 (ad_fee_overhead a) ++
    to_be 32 (ad_fee_scalar a).
Proof.
  intros Hh Hb. unfold AttributesDeposited_encode. rewrite abi_encode_static by (repeat constructor; done).
  cbn [fmap list_fmap mjoin list_join]. by rewrite app_nil_r.
Qed.

Lemma encode_attributes_call a :
  SET_L1_BLOCK_VALUES_BEDROCK_SELECTOR = [0x01; 0x5d; 0x8e; 0xb9] ->
  len (ad_hash a) = 32 -> len (ad_batcher_hash a) = 32 ->
  AttributesDeposited_encode a = encode_bedrock (attributes_call a).
Proof. intros Hsel Hh Hb. rewrite abi_encode_attributes by done. unfold encode_bedrock. by rewrite Hsel. Qed.

(** The calldata of the attributes transaction, decoded. *)
Lemma try_from_bedrock_attributes a :
  SET_L1_BLOCK_VALUES_BEDROCK_SELECTOR = [0x01; 0x5d; 0x8e; 0xb9] ->
  bedrock_ok (attributes_call a) ->
  try_from_bedrock (dt_data (DepositedTransaction_from_attributes a)) = Ok (attributes_call a).
Proof.
  intros Hsel Hok. pose proof Hok as [[_ _ _ _ [Hh _] [Hb _]] _ _ _]. cbn in Hh, Hb.
  cbn [dt_data DepositedTransaction_from_attributes].
  rewrite encode_attributes_call by done. by apply try_from_bedrock_encode.
Qed.

Lemma len_attributes_data a :
  len (ad_hash a) = 32 -> len (ad_batcher_hash a) = 32 ->
  len (dt_data (DepositedTransaction_from_attributes a)) = L1_INFO_BEDROCK_LEN.
Proof.
  intros Hh Hb. cbn [dt_data DepositedTransaction_from_attributes].
  rewrite abi_encode_attributes by done. autorewrite with magi_len. rewrite Hh, Hb. by vm_compute.
Qed.

Lemma slice_from_at (p q : bytes) i : i = len p -> slice_from (p ++ q) i = Ok q.
Proof. apply slice_from_app. Qed.

Lemma opaque_data_fields u :
  let d := opaque_data u in
  slice d 0 32 = Ok (to_be 32 (ud_mint u)) /\ slice d 32 64 = Ok (to_be 32 (ud_value u)) /\
  slice d 64 72 = Ok (to_be 8 (ud_gas u)) /\ index d 72 = Ok (if ud_is_creation u then 1 else 0) /\
  slice_from d 73 = Ok (ud_data u).
Proof.
  cbn zeta. unfold opaque_data. set (m := to_be 32 (ud_mint u)). set (v := to_be 32 (ud_value u)).
  set (g := to_be 8 (ud_gas u)). set (c := if ud_is_creation u then 1 else 0).
  assert (Hm : len m = 32) by apply len_to_be. assert (Hv : len v = 32) by apply len_to_be.
  assert (Hg : len g = 8) by apply len_to_be. split_and!.
  - by apply slice_app_prefix.
  - apply slice_app_exact; lia.
  - rewrite (app_assoc m v). apply slice_app_exact; rewrite len_app; lia.
  - rewrite (app_assoc m v), (app_assoc (m ++ v) g). apply index_app_mid. rewrite !len_app. lia.
  - rewrite (app_assoc m v), (app_assoc (m ++ v) g), (app_assoc ((m ++ v) ++ g)).
    apply slice_from_app. rewrite !len_app. change (len [c]) with 1. lia.
Qed.

Lemma Address_from_pad a : Address_from (replicate 12 0 ++ a) = a.
Proof. done. Qed.

Lemma UserDeposited_try_from_log t v data u :
  user_deposited_ok u -> abi_decode_bytes data = Some (opaque_data u) ->
  UserDeposited_try_from (deposit_log t v data u) = Ok u.
Proof.
  intros [Hm Hv Hg] Hd. destruct (opaque_data_fields u) as (H1 & H2 & H3 & H4 & H5).
  unfold UserDeposited_try_from, deposit_log.
  cbn [log_data log_topics log_block_number log_block_hash log_log_index].
  rewrite Hd. cbn [ok_or]. rewrite bind_ret, H1, H2, H3, H4, H5.
  change (index [t; ?x; ?y; v] 1) with (Ok (replicate 12 0 ++ ud_from u)).
  change (index [t; ?x; ?y; v] 2) with (Ok (replicate 12 0 ++ ud_to u)).
  repeat first [rewrite bind_ret | rewrite fmap_ret]. cbn [unwrap ok_or].
  repeat first [rewrite bind_ret | rewrite fmap_ret].
  rewrite !Address_from_pad, !from_be_to_be_u256, from_be_to_be_u64 by done.
  destruct u as [? ? ? ? ? [] ? ? ? ?]; done.
Qed.

Lemma UserDeposited_try_from_short log d t0 t1 t2 ts :
  log_topics log = t0 :: t1 :: t2 :: ts -> abi_decode_bytes (log_data log) = Some d -> len d < 73 ->
  UserDeposited_try_from log = Panic.
Proof.
  intros Ht Hd Hlen. unfold UserDeposited_try_from. rewrite Ht, Hd. cbn [ok_or].
  change (index (t0 :: t1 :: t2 :: ts) 1) with (Ok t1). change (index (t0 :: t1 :: t2 :: ts) 2) with (Ok t2).
  repeat first [rewrite bind_ret | rewrite fmap_ret].
  assert (Hs : forall i j, (exists s, slice d i j = Ok s) \/ slice d i j = Panic).
  { intros i j. unfold slice. destruct (get_slice d i j); cbn; eauto. }
  destruct (Hs 0 32) as [[m ->]| ->]; [|done]. destruct (Hs 32 64) as [[v ->]| ->]; [|done].
  destruct (Hs 64 72) as [[g ->]| ->]; [|done]. repeat first [rewrite fmap_ret | rewrite bind_ret].
  by rewrite index_Panic by lia.
Qed.
End lemmas.

Section properties.
Context `{Keccak, Codec}.

Lemma source_hash_inj (d1 d2 : Z) (h1 h2 i1 i2 : bytes) :
  in_u256 d1 -> in_u256 d2 -> length h1 = length h2 ->
  keccak256 (to_be 32 d1 ++ keccak256 (h1 ++ i1)) = keccak256 (to_be 32 d2 ++ keccak256 (h2 ++ i2)) ->
  d1 = d2 /\ h1 = h2 /\ i1 = i2 \/ source_hashes_collide d1 (h1 ++ i1) d2 (h2 ++ i2).
Proof.
  intros Hd1 Hd2 Hl E. destruct (collides_or_eq _ _ E) as [E1|?]; [|by right; left].
  apply app_inj_1 in E1 as [Ed Eh]; [|by rewrite !length_to_be].
  destruct (collides_or_eq _ _ Eh) as [E2|?]; [|by right; right]. left.
  apply app_inj_1 in E2 as [-> ->]; [|done]. split_and!; [|done..].
  by apply (to_be_inj 32).
Qed.

(** The L1 attributes transaction carries what it was made from: with the selector
    of [setL1BlockValues] the code hard-wires, decoding its calldata with
    [AttributesDepositedCall::try_from_bedrock], as the driver does with the blocks
    it derived, gives the L1 block, the sequence number, the batcher and the fees
    back. *)
Theorem attributes_calldata_roundtrip a :
  SET_L1_BLOCK_VALUES_BEDROCK_SELECTOR = [0x01; 0x5d; 0x8e; 0xb9] ->
  bedrock_ok (attributes_call a) ->
  try_from_bedrock (dt_data (DepositedTransaction_from_attributes a)) = Ok (attributes_call a).
Proof. apply try_from_bedrock_attributes. Qed.

(** A source hash identifies its deposit: two deposited transactions with the same
    source hash come from the same log of the same L1 block, or are the attributes
    transactions of the same L1 block and sequence number, unless the very inputs that
    were hashed collide under keccak256; in particular a user deposit and an
    attributes transaction never share one otherwise. *)
Theorem source_hash_identifies u1 u2 a1 a2 :
  in_u256 (ud_log_index u1) -> in_u256 (ud_log_index u2) ->
  in_u256 (ad_sequence_number a1) -> in_u256 (ad_sequence_number a2) ->
  length (ud_l1_block_hash u1) = 32%nat -> length (ud_l1_block_hash u2) = 32%nat ->
  length (ad_hash a1) = 32%nat -> length (ad_hash a2) = 32%nat ->
  (dt_source_hash (DepositedTransaction_from_user u1) = dt_source_hash (DepositedTransaction_from_user u2) ->
   ud_l1_block_hash u1 = ud_l1_block_hash u2 /\ ud_log_index u1 = ud_log_index u2 \/
   source_hashes_collide 0 (ud_l1_block_hash u1 ++ to_be 32 (ud_log_index u1))
     0 (ud_l1_block_hash u2 ++ to_be 32 (ud_log_index u2))) /\
  (dt_source_hash (DepositedTransaction_from_attributes a1) =
     dt_source_hash (DepositedTransaction_from_attributes a2) ->
   ad_hash a1 = ad_hash a2 /\ ad_sequence_number a1 = ad_sequence_number a2 \/
   source_hashes_collide 1 (ad_hash a1 ++ to_be 32 (ad_sequence_number a1))
     1 (ad_hash a2 ++ to_be 32 (ad_sequence_number a2))) /\
  (dt_source_hash (DepositedTransaction_from_user u1) =
     dt_source_hash (DepositedTransaction_from_attributes a1) ->
   source_hashes_collide 0 (ud_l1_block_hash u1 ++ to_be 32 (ud_log_index u1))
     1 (ad_hash a1 ++ to_be 32 (ad_sequence_number a1))).
Proof.
  intros Hi1 Hi2 Hs1 Hs2 Hu1 Hu2 Ha1 Ha2.
  assert (Hz : in_u256 0) by by vm_compute. assert (Ho : in_u256 1) by by vm_compute.
  split_and!; intros E; apply source_hash_inj in E as [(Ed & Eh & Ei)|?]; auto; try congruence.
  - left. split; [done|]. by apply (to_be_inj 32).
  - left. split; [done|]. by apply (to_be_inj 32).
Qed.

(** C39. A user deposit is read from its L1 event: the log the deposit contract emits
    decodes to the deposit; and a log whose opaque data is shorter than the 73
    bytes of the fixed fields panics instead of being refused. *)
Theorem UserDeposited_reads_event t v data u :
  user_deposited_ok u -> abi_decode_bytes data = Some (opaque_data u) ->
  UserDeposited_try_from (deposit_log t v data u) = Ok u /\
  (forall log d, log_topics log = log_topics (deposit_log t v data u) ->
     abi_decode_bytes (log_data log) = Some d -> len d < 73 -> UserDeposited_try_from log = Panic).
Proof.
  intros Hu Hd. split.
  - by apply UserDeposited_try_from_log.
  - intros log d Ht Hdl Hlen. eapply UserDeposited_try_from_short; [exact Ht|exact Hdl|exact Hlen].
Qed.
End properties.

(** ** An example hash

    A function to evaluate the development with: it keeps the sum and the length of
    its input behind the selector of [setL1BlockValues]. *)

Lemma example_selector_bytes : bytes_ok [0x01; 0x5d; 0x8e; 0xb9].
Proof. by_compute. Qed.

Definition example_keccak : Keccak := {|
  keccak256 := fun bs => [0x01; 0x5d; 0x8e; 0xb9] ++ to_be 12 (foldl Z.add 0 bs) ++ to_be 16 (len bs);
  keccak256_length := fun bs => eq_refl;
  keccak256_bytes := fun bs =>
    Forall_app_2 _ _ _ example_selector_bytes
      (Forall_app_2 _ _ _ (bytes_ok_to_be 12 _) (bytes_ok_to_be 16 _))
|}.

(** ** Witnesses *)

Definition example_attributes : AttributesDeposited :=
  {| ad_number := 1000; ad_timestamp := 1700000000; ad_base_fee := 7; ad_hash := to_be 32 11;
     ad_sequence_number := 3; ad_batcher_hash := to_be 32 12; ad_fee_overhead := 188;
     ad_fee_scalar := 684000; ad_gas := 1000000; ad_is_system_tx := false |}.

Definition example_deposit : UserDeposited :=
  {| ud_from := to_be 20 1; ud_to := to_be 20 2; ud_mint := 5; ud_value := 6; ud_gas := 21000;
     ud_is_creation := false; ud_data := [1; 2; 3]; ud_l1_block_num := 1000;
     ud_l1_block_hash := to_be 32 11; ud_log_index := 4 |}.

Lemma example_attributes_ok : bedrock_ok (attributes_call example_attributes).
Proof. split; [split|..]; by_compute. Qed.

Lemma attributes_calldata_roundtrip_witness :
  @try_from_bedrock example_keccak
    (dt_data (@DepositedTransaction_from_attributes example_keccak example_codec example_attributes)) =
  Ok (attributes_call example_attributes).
Proof.
  apply (@attributes_calldata_roundtrip example_keccak example_codec example_attributes).
  - by vm_compute.
  - exact example_attributes_ok.
Defined.

Lemma source_hash_identifies_witness :
  ud_l1_block_hash example_deposit = ud_l1_block_hash example_deposit /\
    ud_log_index example_deposit = ud_log_index example_deposit \/
  @source_hashes_collide example_keccak
    0 (ud_l1_block_hash example_deposit ++ to_be 32 (ud_log_index example_deposit))
    0 (ud_l1_block_hash example_deposit ++ to_be 32 (ud_log_index example_deposit)).
Proof.
  assert (Hi : in_u256 (ud_log_index example_deposit)) by by_compute.
  assert (Hs : in_u256 (ad_sequence_number example_attributes)) by by_compute.
  assert (Hu : length (ud_l1_block_hash example_deposit) = 32%nat) by by_compute.
  assert (Ha : length (ad_hash example_attributes) = 32%nat) by by_compute.
  exact (proj1 (@source_hash_identifies example_keccak example_codec example_deposit example_deposit
    example_attributes example_attributes Hi Hi Hs Hs Hu Hu Ha Ha) eq_refl).
Defined.

Definition example_deposit_data : bytes :=
  to_be 32 32 ++ to_be 32 (len (opaque_data example_deposit)) ++ opaque_data example_deposit.

Lemma UserDeposited_reads_event_witness :
  @UserDeposited_try_from example_codec (deposit_log (to_be 32 0) (to_be 32 0) example_deposit_data example_deposit) =
  Ok example_deposit.
Proof.
  apply (@UserDeposited_reads_event example_codec).
  - split; by vm_compute.
  - by vm_compute.
Defined.
