(* ===== verification/L1Info.v ===== *)
(** What the L1 watcher tells the derivation about an L1 block
    (src/src/l1/l1_info.rs), and the system configuration updates it reads from L1
    logs (src/src/l1/config_updates.rs). *)
From S2P Require Import Prelude Common Config Deposits.

(** ** Data *)

Record L1BlockInfo := {
  l1b_number : Z;
  l1b_hash : bytes;
  l1b_timestamp : Z;
  l1b_base_fee : Z;
  l1b_mix_hash : bytes;
  l1b_parent_beacon_block_root : option bytes
}.

Record L1Info := {
  block_info : L1BlockInfo;
  l1i_system_config : SystemConfig;
  user_deposits : list UserDeposited;
  batcher_transactions : list bytes;
  finalized : bool
}.

Inductive SystemConfigUpdate :=
| BatchSender (addr : bytes)
| Fees (overhead scalar : Z)
| Gas (gas : Z)
| UnsafeBlockSigner (addr : bytes).

#[export] Instance L1BlockInfo_eq_dec : EqDecision L1BlockInfo.
Proof. solve_decision. Defined.

#[export] Instance L1Info_eq_dec : EqDecision L1Info.
Proof. solve_decision. Defined.

#[export] Instance SystemConfigUpdate_eq_dec : EqDecision SystemConfigUpdate.
Proof. solve_decision. Defined.

(** ** Operations *)

(** [impl TryFrom<&Block<Transaction>> for L1BlockInfo]. *)
Definition L1BlockInfo_try_from (value : Block) : outcome L1BlockInfo :=
  number ← ok_or (blk_number value) "block not included";
  hash ← ok_or (blk_hash value) "block not included";
  timestamp ← as_u64 (blk_timestamp value);
  base_fee ← ok_or (blk_base_fee_per_gas value) "block is pre london";
  mix_hash ← ok_or (blk_mix_hash value) "block not included";
  Ok {| l1b_number := number;
        l1b_hash := hash;
        l1b_timestamp := timestamp;
        l1b_base_fee := base_fee;
        l1b_mix_hash := mix_hash;
        l1b_parent_beacon_block_root := blk_parent_beacon_block_root value |}.

(** [H256::to_low_u64_be]. *)
Definition to_low_u64_be (h : bytes) : Z := from_be (drop 24 h).

(** [impl TryFrom<Log> for SystemConfigUpdate]. *)
Definition SystemConfigUpdate_try_from (log : Log) : outcome SystemConfigUpdate :=
  let invalid := "invalid system config update" in
  version ← to_low_u64_be <$> ok_or (log_topics log !! 1%nat) invalid;
  if negb (version =? 0) then Err invalid else
  update_type ← to_low_u64_be <$> ok_or (log_topics log !! 2%nat) invalid;
  if update_type =? 0 then
    addr_bytes ← ok_or (get_slice (log_data log) 76 96) invalid;
    Ok (BatchSender addr_bytes)
  else if update_type =? 1 then
    fee_overhead ← ok_or (get_slice (log_data log) 64 96) invalid;
    fee_scalar ← ok_or (get_slice (log_data log) 96 128) invalid;
    Ok (Fees (from_be fee_overhead) (from_be fee_scalar))
  else if update_type =? 2 then
    gas_bytes ← ok_or (get_slice (log_data log) 64 96) invalid;
    Ok (Gas (from_be gas_bytes))
  else if update_type =? 3 then
    addr_bytes ← ok_or (get_slice (log_data log) 76 96) invalid;
    Ok (UnsafeBlockSigner addr_bytes)
  else Err invalid.

(** ** The event

    [ConfigUpdate(uint256 indexed version, uint8 indexed updateType, bytes data)]
    as the system config contract emits it: the data is the ABI encoding of a
    byte string that holds the payload. *)

Definition update_tag (u : SystemConfigUpdate) : Z :=
  match u with BatchSender _ => 0 | Fees _ _ => 1 | Gas _ => 2 | UnsafeBlockSigner _ => 3 end.

Definition update_payload (u : SystemConfigUpdate) : bytes :=
  match u with
  | BatchSender a | UnsafeBlockSigner a => replicate 12 0 ++ a
  | Fees o s => to_be 32 o ++ to_be 32 s
  | Gas g => to_be 32 g
  end.

Definition update_log (topic0 : bytes) (u : SystemConfigUpdate) : Log :=
  {| log_topics := [topic0; to_be 32 0; to_be 32 (update_tag u)];
     log_data := to_be 32 32 ++ to_be 32 (len (update_payload u)) ++ update_payload u;
     log_block_number := None; log_block_hash := None; log_log_index := None |}.

Definition update_ok (u : SystemConfigUpdate) : Prop :=
  match u with
  | BatchSender a | UnsafeBlockSigner a => len a = 20
  | Fees o s => in_u256 o /\ in_u256 s
  | Gas g => in_u256 g
  end.

(** ** Lemmas *)

Lemma to_low_u64_be_small z : in_u64 z -> to_low_u64_be (to_be 32 z) = z.
Proof.
  intros Hz. unfold to_low_u64_be, in_u64 in *.
  assert (Hs : forall n m z, drop n (to_be (n + m) z) = to_be m z).
  { intros n m. induction m as [|m IH]; intros x; [rewrite Nat.add_0_r; apply drop_ge; by rewrite length_to_be|].
    rewrite Nat.add_succ_r. unfold to_be; fold to_be. rewrite drop_app_le by (rewrite length_to_be; lia).
    by rewrite IH. }
  rewrite (Hs 24%nat 8%nat). by apply (from_be_to_be_id 8).
Qed.

Lemma update_log_address t (tag : bytes -> SystemConfigUpdate) a :
  (tag = BatchSender \/ tag = UnsafeBlockSigner) -> len a = 20 ->
  get_slice (log_data (update_log t (tag a))) 76 96 = Some a.
Proof.
  intros Htag Ha. apply get_slice_slice.
  assert (Hp : log_data (update_log t (tag a)) = (to_be 32 32 ++ to_be 32 32 ++ replicate 12 0) ++ a ++ []).
  { destruct Htag as [-> | ->]; cbn [log_data update_log update_payload];
      rewrite app_nil_r, <- !app_assoc; rewrite len_app, Ha; done. }
  rewrite Hp. by apply slice_app_exact; rewrite ?Ha.
Qed.

Lemma update_log_words t u (w rest : bytes) :
  update_payload u = w ++ rest -> len w = 32 ->
  get_slice (log_data (update_log t u)) 64 96 = Some w.
Proof.
  intros Hp Hw. apply get_slice_slice. cbn [log_data update_log]. rewrite Hp.
  generalize (len (w ++ rest)). intros n. rewrite app_assoc.
  apply slice_app_exact; autorewrite with magi_len; lia.
Qed.

Lemma update_log_second t o s :
  get_slice (log_data (update_log t (Fees o s))) 96 128 = Some (to_be 32 s).
Proof.
  apply get_slice_slice. cbn [log_data update_log update_payload].
  generalize (len (to_be 32 o ++ to_be 32 s)). intros n.
  rewrite <- (app_nil_r (to_be 32 s)), !app_assoc, <- (app_assoc _ (to_be 32 s)).
  apply slice_app_exact; autorewrite with magi_len; lia.
Qed.

Lemma SystemConfigUpdate_total log :
  (exists u, SystemConfigUpdate_try_from log = Ok u) \/
  SystemConfigUpdate_try_from log = Err "invalid system config update".
Proof.
  unfold SystemConfigUpdate_try_from.
  destruct (log_topics log !! 1%nat); cbn; [|by right].
  destruct (negb _); [by right|]. destruct (log_topics log !! 2%nat); cbn; [|by right].
  repeat (case_match; cbn); eauto.
  all: repeat match goal with |- context [ok_or ?o _] => destruct o; cbn end; eauto.
Qed.

(** ** Properties *)

(** The system config events are decoded correctly: the log the contract emits
    for an update of the batch sender, the fees, the gas limit or the unsafe block
    signer is read back as that update; and a log that is anything else is
    refused with an error, never with a panic. *)
Theorem SystemConfigUpdate_reads_event t u :
  update_ok u ->
  SystemConfigUpdate_try_from (update_log t u) = Ok u /\
  forall log, (exists u, SystemConfigUpdate_try_from log = Ok u) \/
    SystemConfigUpdate_try_from log = Err "invalid system config update".
Proof.
  intros Hu. split; [|apply SystemConfigUpdate_total].
  unfold SystemConfigUpdate_try_from. cbn [log_topics update_log lookup list_lookup ok_or].
  rewrite !fmap_ret, !bind_ret, !to_low_u64_be_small by (destruct u; unfold in_u64; cbn; lia).
  cbn [negb Z.eqb].
  destruct u as [a|o s|g|a]; cbn [update_tag Z.eqb Pos.eqb] in *; unfold update_ok in Hu.
  - by rewrite (update_log_address t BatchSender) by auto.
  - rewrite (update_log_words t (Fees o s) (to_be 32 o) (to_be 32 s)) by (done || apply len_to_be).
    rewrite update_log_second. cbn. by rewrite !from_be_to_be_u256 by tauto.
  - rewrite (update_log_words t (Gas g) (to_be 32 g) []) by (done || apply len_to_be || by rewrite app_nil_r).
    cbn. by rewrite from_be_to_be_u256.
  - by rewrite (update_log_address t UnsafeBlockSigner) by auto.
Qed.

(** ** Witnesses *)

Lemma SystemConfigUpdate_reads_event_witness :
  SystemConfigUpdate_try_from (update_log (to_be 32 1) (Fees 188 684000)) = Ok (Fees 188 684000).
Proof.
  assert (H : update_ok (Fees 188 684000)) by (split; by vm_compute).
  apply (SystemConfigUpdate_reads_event (to_be 32 1) (Fees 188 684000) H).
Defined.
