(* ===== verification/HeadInfo.v ===== *)
(** The head of the L2 chain as the driver reads it back from a block
    (src/src/driver/types.rs), and the query for the head to start from
    (src/src/driver/info.rs). *)
From S2P Require Import Prelude Common Config.

(** ** Data *)

Record HeadInfo := {
  l2_block_info : BlockInfo;
  l1_epoch : Epoch;
  sequence_number : Z
}.

#[export] Instance HeadInfo_eq_dec : EqDecision HeadInfo.
Proof. solve_decision. Defined.

(** ** Operations *)

Section head_info.
Context `{Keccak}.

Definition try_from_bedrock_block (block : Block) : outcome HeadInfo :=
  match blk_transactions block with
  | [] => Err "Could not find the L1 attributes deposited transaction"
  | first_tx :: _ =>
      let tx_calldata := tx_input first_tx in
      call ← try_from_bedrock tx_calldata;
      l2_block_info ← BlockInfo_try_from block;
      Ok {| l2_block_info := l2_block_info;
            l1_epoch := Epoch_from call;
            sequence_number := call_sequence_number call |}
  end.

Definition try_from_ecotone_block (block : Block) : outcome HeadInfo :=
  match blk_transactions block with
  | [] => Err "Could not find the L1 attributes deposited transaction"
  | first_tx :: _ =>
      let tx_calldata := tx_input first_tx in
      call ← try_from_ecotone tx_calldata;
      l2_block_info ← BlockInfo_try_from block;
      Ok {| l2_block_info := l2_block_info;
            l1_epoch := Epoch_from call;
            sequence_number := call_sequence_number call |}
  end.

Definition try_from_l2_block (config : Config) (l2_block : Block) : outcome HeadInfo :=
  timestamp ← as_u64 (blk_timestamp l2_block);
  if is_ecotone_but_not_first_block (chain config) timestamp
  then try_from_ecotone_block l2_block
  else try_from_bedrock_block l2_block.

(** [HeadInfoQuery::get_head_info]: [p] is the provider's reply to the query for the
    finalized block. *)
Definition get_head_info (p : outcome (option Block)) (config : Config) : outcome HeadInfo :=
  parsed_head_info ←
    match p with
    | Ok (Some block) =>
        match try_from_l2_block config block with
        | Ok head_info => Ok (Some head_info)
        | Err _ => Ok None
        | Panic => Panic
        | Diverge => Diverge
        end
    | Ok None | Err _ => Ok None
    | Panic => Panic
    | Diverge => Diverge
    end;
  match parsed_head_info with
  | Some head_info => Ok head_info
  | None =>
      Ok {| l2_block_info := l2_genesis (chain config);
            l1_epoch := l1_start_epoch (chain config);
            sequence_number := 0 |}
  end.
End head_info.

(** ** Lemmas *)

(** The fields of a block that a head is read from. *)
Definition block_is (block : Block) (b : BlockInfo) : Prop :=
  blk_number block = Some (bi_number b) /\ blk_hash block = Some (bi_hash b) /\
  blk_parent_hash block = bi_parent_hash b /\ blk_timestamp block = bi_timestamp b.

Lemma BlockInfo_try_from_block block b :
  in_u64 (bi_timestamp b) -> block_is block b -> BlockInfo_try_from block = Ok b.
Proof.
  intros Ht (Hn & Hh & Hp & Hts). unfold BlockInfo_try_from. rewrite Hn, Hh, Hp, Hts. cbn [ok_or].
  rewrite !bind_ret, as_u64_small by done. rewrite bind_ret. by destruct b.
Qed.
