(* ===== verification/State.v ===== *)
(** The derivation state (src/src/derive/state.rs): the cache of L1 and L2 blocks
    shared between the driver, which writes it, and the pipeline, which reads it. *)
From S2P Require Import Prelude Common Config L1Info HeadInfo.

(** ** Data *)

Record State := {
  l1_info : gmap bytes L1Info;
  l1_hashes : gmap Z bytes;
  l2_refs : gmap Z (BlockInfo * Epoch);
  safe_head : BlockInfo;
  safe_epoch : Epoch;
  current_epoch_num : Z;
  st_config : Config
}.

(** ** Operations *)

Definition l1_info_by_hash (s : State) (hash : bytes) : option L1Info := l1_info s !! hash.

Definition l1_info_by_number (s : State) (num : Z) : option L1Info :=
  hash ← l1_hashes s !! num; l1_info s !! hash.

Definition l2_info_by_timestamp (s : State) (timestamp : Z) : outcome (option (BlockInfo * Epoch)) :=
  let c := chain (st_config s) in
  q ← u64_div (u64_sub timestamp (bi_timestamp (l2_genesis c))) (blocktime c);
  let block_num := u64_add q (bi_number (l2_genesis c)) in
  Ok (l2_refs s !! block_num).

Definition epoch_of_info (info : L1Info) : Epoch :=
  {| ep_number := l1b_number (block_info info);
     ep_hash := l1b_hash (block_info info);
     ep_timestamp := l1b_timestamp (block_info info) |}.

Definition epoch_by_hash (s : State) (hash : bytes) : option Epoch :=
  epoch_of_info <$> l1_info_by_hash s hash.

Definition epoch_by_number (s : State) (num : Z) : option Epoch :=
  epoch_of_info <$> l1_info_by_number s num.

(** Record updates. *)
Definition set_l1 (info : gmap bytes L1Info) (hashes : gmap Z bytes) (s : State) : State :=
  {| l1_info := info; l1_hashes := hashes; l2_refs := l2_refs s; safe_head := safe_head s;
     safe_epoch := safe_epoch s; current_epoch_num := current_epoch_num s; st_config := st_config s |}.

Definition set_l2_refs (refs : gmap Z (BlockInfo * Epoch)) (s : State) : State :=
  {| l1_info := l1_info s; l1_hashes := l1_hashes s; l2_refs := refs; safe_head := safe_head s;
     safe_epoch := safe_epoch s; current_epoch_num := current_epoch_num s; st_config := st_config s |}.

Definition set_current_epoch_num (n : Z) (s : State) : State :=
  {| l1_info := l1_info s; l1_hashes := l1_hashes s; l2_refs := l2_refs s; safe_head := safe_head s;
     safe_epoch := safe_epoch s; current_epoch_num := n; st_config := st_config s |}.

(** The first [while let] of [prune]. *)
Definition prune_l1_body (prune_until : Z) (s : State) : outcome (State + State) :=
  match first_key_value (l1_hashes s) with
  | Some (block_num, block_hash) =>
      if prune_until <=? block_num then Ok (inr s)
      else Ok (inl (set_l1 (delete block_hash (l1_info s)) (pop_first (l1_hashes s)) s))
  | None => Ok (inr s)
  end.

(** The second [while let] of [prune]. *)
Definition prune_l2_body (prune_until : Z) (s : State) : outcome (State + State) :=
  match first_key_value (l2_refs s) with
  | Some (num, _) =>
      if prune_until <=? num then Ok (inr s)
      else Ok (inl (set_l2_refs (pop_first (l2_refs s)) s))
  | None => Ok (inr s)
  end.

Definition prune (s : State) : outcome State :=
  let c := chain (st_config s) in
  let prune_until := u64_saturating_sub (ep_number (safe_epoch s)) (seq_window_size c) in
  s ← loop (S (size (l1_hashes s))) (prune_l1_body prune_until) s;
  lookback ← u64_div (max_seq_drift c) (blocktime c);
  let prune_until := u64_sub (bi_number (safe_head s)) lookback in
  loop (S (size (l2_refs s))) (prune_l2_body prune_until) s.

Definition update_l1_info (i : L1Info) (s : State) : outcome State :=
  let s := set_current_epoch_num (l1b_number (block_info i)) s in
  let s :=
    set_l1 (<[l1b_hash (block_info i) := i]> (l1_info s))
      (<[l1b_number (block_info i) := l1b_hash (block_info i)]> (l1_hashes s)) s in
  prune s.

Definition State_update_safe_head (head : BlockInfo) (epoch : Epoch) (s : State) : State :=
  {| l1_info := l1_info s;
     l1_hashes := l1_hashes s;
     l2_refs := <[bi_number head := (head, epoch)]> (l2_refs s);
     safe_head := head;
     safe_epoch := epoch;
     current_epoch_num := current_epoch_num s;
     st_config := st_config s |}.

Definition State_purge (head : BlockInfo) (epoch : Epoch) (s : State) : State :=
  let s := set_current_epoch_num 0 s in
  let s := set_l1 ∅ ∅ s in
  State_update_safe_head head epoch s.

Section new.
Context `{Keccak}.
(** The L2 provider: its reply to the query for a block by number. *)
Context (get_block_with_txs : Z -> outcome (option Block)).

(** One iteration of the [for] of [l2_refs]. *)
Definition l2_refs_step (config : Config) (refs : outcome (gmap Z (BlockInfo * Epoch))) (i : Z)
    : outcome (gmap Z (BlockInfo * Epoch)) :=
  refs ← refs;
  match get_block_with_txs i with
  | Ok (Some l2_block) =>
      match try_from_l2_block config l2_block with
      | Ok head_info =>
          Ok (<[bi_number (l2_block_info head_info) := (l2_block_info head_info, l1_epoch head_info)]> refs)
      | Err _ => Ok refs
      | Panic => Panic
      | Diverge => Diverge
      end
  | _ => Ok refs
  end.

(** The function [l2_refs], and the numbers of the blocks that it asks for. *)
Definition l2_refs_range (head_num : Z) (config : Config) : outcome (list Z) :=
  let c := chain config in
  lookback ← u64_div (max_seq_drift c) (blocktime c);
  let start := Z.max (u64_saturating_sub head_num lookback) (bi_number (l2_genesis c)) in
  Ok (seqZ start (head_num - start + 1)).

Definition fetch_l2_refs (head_num : Z) (config : Config) : outcome (gmap Z (BlockInfo * Epoch)) :=
  range ← l2_refs_range head_num config;
  foldl (l2_refs_step config) (Ok ∅) range.

Definition State_new (finalized_head : BlockInfo) (finalized_epoch : Epoch) (config : Config) : outcome State :=
  l2_refs ← fetch_l2_refs (bi_number finalized_head) config;
  Ok {| l1_info := ∅;
        l1_hashes := ∅;
        l2_refs := l2_refs;
        safe_head := finalized_head;
        safe_epoch := finalized_epoch;
        current_epoch_num := 0;
        st_config := config |}.
End new.

(** ** Pruning *)

(** The entries from [p] on. *)
Definition from_key {V} (p : Z) (m : gmap Z V) : gmap Z V := filter (fun kv => p <= kv.1) m.

Lemma from_key_lookup {V} p (m : gmap Z V) k v : from_key p m !! k = Some v <-> m !! k = Some v /\ p <= k.
Proof. unfold from_key. by rewrite map_lookup_filter_Some. Qed.

Lemma from_key_lookup_eq {V} p (m : gmap Z V) k : from_key p m !! k = if bool_decide (p <= k) then m !! k else None.
Proof.
  apply option_eq. intros v. rewrite from_key_lookup. case_bool_decide; naive_solver.
Qed.

Lemma from_key_delete {V} p (m : gmap Z V) k : k < p -> from_key p (delete k m) = from_key p m.
Proof.
  intros Hk. apply map_eq. intros j. rewrite !from_key_lookup_eq.
  case_bool_decide; [|done]. rewrite lookup_delete_ne; [done|lia].
Qed.

Lemma from_key_first {V} p (m : gmap Z V) k v :
  first_key_value m = Some (k, v) -> p <= k -> from_key p m = m.
Proof.
  intros [_ Hmin]%first_key_value_Some Hk. apply map_eq. intros j. rewrite from_key_lookup_eq.
  case_bool_decide as Hj; [done|]. destruct (m !! j) eqn:E; [|done].
  specialize (Hmin j ltac:(eauto)). lia.
Qed.

Lemma from_key_empty {V} p : from_key p (∅ : gmap Z V) = ∅.
Proof. apply map_filter_empty. Qed.

(** The bodies, as rewriting rules. *)
Lemma prune_l2_body_eq p s :
  prune_l2_body p s =
    match first_key_value (l2_refs s) with
    | Some (num, _) =>
        if p <=? num then Ok (inr s) else Ok (inl (set_l2_refs (pop_first (l2_refs s)) s))
    | None => Ok (inr s)
    end.
Proof. done. Qed.

Lemma prune_l1_body_eq p s :
  prune_l1_body p s =
    match first_key_value (l1_hashes s) with
    | Some (block_num, block_hash) =>
        if p <=? block_num then Ok (inr s)
        else Ok (inl (set_l1 (delete block_hash (l1_info s)) (pop_first (l1_hashes s)) s))
    | None => Ok (inr s)
    end.
Proof. done. Qed.

Lemma prune_l2_loop p n s :
  (size (l2_refs s) < n)%nat ->
  loop n (prune_l2_body p) s = Ok (set_l2_refs (from_key p (l2_refs s)) s).
Proof.
  revert s. induction n as [|n IH]; intros s Hn; [lia|]. cbn [loop].
  rewrite prune_l2_body_eq. destruct (first_key_value (l2_refs s)) as [[k v]|] eqn:E.
  - destruct (Z.leb_spec p k) as [Hk|Hk]; rewrite bind_ret.
    + rewrite (from_key_first p _ k v) by done. by destruct s.
    + destruct (pop_first_size _ _ _ E) as [Hp Hlt]. rewrite IH by (cbn; lia). cbn.
      by rewrite Hp, from_key_delete.
  - apply first_key_value_None in E. rewrite bind_ret, E, from_key_empty. destruct s. cbn in *. by subst.
Qed.

(** Remove the blocks that numbers below [p] point to. *)
Definition drop_infos (p : Z) (hashes : gmap Z bytes) (info info' : gmap bytes L1Info) : Prop :=
  forall h, ((exists n, hashes !! n = Some h /\ n < p) -> info' !! h = None) /\
    (~ (exists n, hashes !! n = Some h /\ n < p) -> info' !! h = info !! h).

Lemma prune_l1_loop p n s :
  (size (l1_hashes s) < n)%nat ->
  exists info, loop n (prune_l1_body p) s = Ok (set_l1 info (from_key p (l1_hashes s)) s) /\
    drop_infos p (l1_hashes s) (l1_info s) info.
Proof.
  revert s. induction n as [|n IH]; intros s Hn; [lia|]. cbn [loop].
  rewrite prune_l1_body_eq. destruct (first_key_value (l1_hashes s)) as [[k h]|] eqn:E.
  - destruct (Z.leb_spec p k) as [Hk|Hk]; rewrite bind_ret.
    + exists (l1_info s). rewrite (from_key_first p _ k h) by done. split; [by destruct s|].
      intros h'. split; [|done]. intros (m & Hm & Hlt).
      apply first_key_value_Some in E as [_ Hmin]. specialize (Hmin m ltac:(eauto)). lia.
    + destruct (pop_first_size _ _ _ E) as [Hp Hlt].
      apply first_key_value_Some in E as [Hkh _].
      destruct (IH (set_l1 (delete h (l1_info s)) (pop_first (l1_hashes s)) s)) as (info & Hl & Hd); [cbn; lia|].
      exists info. rewrite Hl. cbn in *. rewrite Hp in *. split; [by rewrite from_key_delete|].
      intros h'. destruct (Hd h') as [Hd1 Hd2]. split.
      * intros (m & Hm & Hmp). destruct (decide (m = k)) as [->|Hne].
        -- assert (h' = h) as -> by congruence.
           destruct (info !! h) eqn:Ei; [|done]. exfalso.
           assert (Hno : ~ exists n, delete k (l1_hashes s) !! n = Some h /\ n < p) by naive_solver.
           by rewrite lookup_delete_eq in Hd2; specialize (Hd2 Hno).
        -- apply Hd1. exists m. by rewrite lookup_delete_ne.
      * intros Hno. rewrite Hd2.
        -- apply lookup_delete_ne. intros ->. apply Hno. eauto.
        -- intros (m & Hm & Hmp). apply lookup_delete_Some in Hm as [_ Hm]. eauto.
  - apply first_key_value_None in E. exists (l1_info s). rewrite bind_ret. cbn.
    split; [rewrite E, from_key_empty; destruct s; cbn in *; by subst|].
    intros h. rewrite E. split; [|done]. intros (m & Hm & _). by rewrite lookup_empty in Hm.
Qed.

(** The two horizons of [prune]. *)
Definition l1_horizon (s : State) : Z :=
  u64_saturating_sub (ep_number (safe_epoch s)) (seq_window_size (chain (st_config s))).

Definition l2_lookback (s : State) : Z := max_seq_drift (chain (st_config s)) / blocktime (chain (st_config s)).

Definition l2_horizon (s : State) : Z := u64_sub (bi_number (safe_head s)) (l2_lookback s).

(** [s'] is [s] with the entries before the two horizons removed. *)
Record pruned (s s' : State) : Prop := {
  pruned_hashes : l1_hashes s' = from_key (l1_horizon s) (l1_hashes s);
  pruned_info : drop_infos (l1_horizon s) (l1_hashes s) (l1_info s) (l1_info s');
  pruned_refs : l2_refs s' = from_key (l2_horizon s) (l2_refs s);
  pruned_rest : safe_head s' = safe_head s /\ safe_epoch s' = safe_epoch s /\
    current_epoch_num s' = current_epoch_num s /\ st_config s' = st_config s
}.

Lemma prune_Ok s :
  blocktime (chain (st_config s)) <> 0 -> exists s', prune s = Ok s' /\ pruned s s'.
Proof.
  intros Hb. unfold prune.
  destruct (prune_l1_loop (l1_horizon s) (S (size (l1_hashes s))) s) as (info & Hl & Hd); [lia|].
  unfold l1_horizon at 1 in Hl. rewrite Hl, bind_ret. cbn [st_config set_l1].
  unfold u64_div. destruct (Z.eqb_spec (blocktime (chain (st_config s))) 0); [done|].
  rewrite bind_ret, prune_l2_loop by lia. eexists. split; [done|]. by split.
Qed.

Lemma prune_zero s : blocktime (chain (st_config s)) = 0 -> prune s = Panic.
Proof.
  intros Hb. unfold prune.
  destruct (prune_l1_loop (l1_horizon s) (S (size (l1_hashes s))) s) as (info & Hl & Hd); [lia|].
  unfold l1_horizon at 1 in Hl. rewrite Hl, bind_ret. cbn [st_config set_l1]. by rewrite Hb.
Qed.

(** The state [update_l1_info] prunes. *)
Definition with_l1_info (i : L1Info) (s : State) : State :=
  set_l1 (<[l1b_hash (block_info i) := i]> (l1_info s))
    (<[l1b_number (block_info i) := l1b_hash (block_info i)]> (l1_hashes s))
    (set_current_epoch_num (l1b_number (block_info i)) s).

Lemma update_l1_info_eq i s : update_l1_info i s = prune (with_l1_info i s).
Proof. done. Qed.

(** ** Consistency

    [num_of] is the number of the block with a given hash: on L1 a hash identifies
    a block. *)

Record state_ok (num_of : bytes -> Z) (s : State) : Prop := {
  state_ok_hashes : forall n h, l1_hashes s !! n = Some h -> num_of h = n /\ is_Some (l1_info s !! h);
  state_ok_info : forall h i, l1_info s !! h = Some i ->
    l1b_hash (block_info i) = h /\ l1b_number (block_info i) = num_of h;
  state_ok_refs : forall n r, l2_refs s !! n = Some r -> bi_number r.1 = n
}.

(** What the driver does to the state. *)
Inductive state_step (num_of : bytes -> Z) : State -> State -> Prop :=
| step_update_l1_info i s s' :
    l1b_number (block_info i) = num_of (l1b_hash (block_info i)) ->
    update_l1_info i s = Ok s' -> state_step num_of s s'
| step_update_safe_head head epoch s :
    state_step num_of s (State_update_safe_head head epoch s)
| step_purge head epoch s :
    state_step num_of s (State_purge head epoch s).

Lemma state_ok_pruned num_of s s' : state_ok num_of s -> pruned s s' -> state_ok num_of s'.
Proof.
  intros [Hh Hi Hr] [Ph Pi Pr _]. split.
  - intros n h. rewrite Ph, from_key_lookup. intros [Hn Hle]. destruct (Hh n h Hn) as [Hnum Hsome].
    split; [done|]. destruct (Pi h) as [_ Pi2]. rewrite Pi2; [done|].
    intros (m & Hm & Hlt). destruct (Hh m h Hm) as [? _]. lia.
  - intros h i E. destruct (Pi h) as [Pi1 Pi2].
    destruct (decide (num_of h < l1_horizon s /\ l1_hashes s !! num_of h = Some h)) as [[Hlt Hm]|Hno].
    + rewrite Pi1 in E by eauto. done.
    + rewrite Pi2 in E by (intros (m & Hm & Hlt); destruct (Hh m h Hm) as [<- _]; naive_solver). eauto.
  - intros n r. rewrite Pr, from_key_lookup. intros [Hn _]. eauto.
Qed.

Lemma state_ok_with_l1_info num_of i s :
  l1b_number (block_info i) = num_of (l1b_hash (block_info i)) -> state_ok num_of s ->
  state_ok num_of (with_l1_info i s).
Proof.
  intros Hn [Hh Hi Hr]. split; cbn.
  - intros n h [[<- <-]|[Hne Hl]]%lookup_insert_Some; [by rewrite lookup_insert_eq|].
    destruct (Hh n h Hl) as [Hnum Hsome]. split; [done|]. by apply lookup_insert_is_Some'; right.
  - intros h j [[<- <-]|[Hne Hl]]%lookup_insert_Some; [done|eauto].
  - done.
Qed.

Lemma state_ok_update_safe_head num_of head epoch s :
  state_ok num_of s -> state_ok num_of (State_update_safe_head head epoch s).
Proof.
  intros [Hh Hi Hr]. split; cbn; [done..|].
  intros n r [[<- <-]|[_ Hl]]%lookup_insert_Some; [done|eauto].
Qed.

Lemma state_ok_step num_of s s' : state_step num_of s s' -> state_ok num_of s -> state_ok num_of s'.
Proof.
  intros [i s1 s1' Hn Hu|head epoch s1|head epoch s1] Hok.
  - rewrite update_l1_info_eq in Hu.
    destruct (decide (blocktime (chain (st_config s1)) = 0)) as [Hz|Hz].
    + rewrite prune_zero in Hu; done.
    + destruct (prune_Ok (with_l1_info i s1)) as (s2 & Hp & Hpr); [done|].
      rewrite Hp in Hu. injection Hu as <-. eapply state_ok_pruned; [|done].
      by apply state_ok_with_l1_info.
  - by apply state_ok_update_safe_head.
  - unfold State_purge. apply state_ok_update_safe_head. destruct Hok as [Hh Hi Hr].
    split; cbn; [| |done]; intros ? ? E; by rewrite lookup_empty in E.
Qed.

Section new_ok.
Context `{Keccak} (get_block_with_txs : Z -> outcome (option Block)).

Definition refs_ok (r : outcome (gmap Z (BlockInfo * Epoch))) : Prop :=
  match r with Ok m => forall n x, m !! n = Some x -> bi_number x.1 = n | _ => True end.

Lemma l2_refs_step_ok config r i : refs_ok r -> refs_ok (l2_refs_step get_block_with_txs config r i).
Proof.
  unfold l2_refs_step, refs_ok. destruct r as [m| | |]; [|done..]. intros Hm. rewrite bind_ret.
  destruct (get_block_with_txs i) as [[b|]| | |]; [|done..].
  destruct (try_from_l2_block config b); [|done..].
  intros n x [[<- <-]|[_ Hl]]%lookup_insert_Some; [done|eauto].
Qed.

Lemma State_new_ok num_of head epoch config s :
  State_new get_block_with_txs head epoch config = Ok s -> state_ok num_of s.
Proof.
  unfold State_new, fetch_l2_refs. intros E. apply bind_Ok in E as (m & Hm & [= <-]).
  apply bind_Ok in Hm as (range & _ & Hm).
  split; cbn; [intros ? ? E; by rewrite lookup_empty in E..|].
  assert (Hf : forall l r, refs_ok r -> refs_ok (foldl (l2_refs_step get_block_with_txs config) r l)).
  { induction l as [|i l IH]; intros r Hr; [done|]. cbn. by apply IH, l2_refs_step_ok. }
  specialize (Hf range (Ok ∅)).
  rewrite Hm in Hf. apply Hf. intros ? ? E; by rewrite lookup_empty in E.
Qed.
End new_ok.

(** ** Block times *)

(** The timestamp of an L2 block. *)
Definition l2_timestamp (c : ChainConfig) (n : Z) : Z :=
  bi_timestamp (l2_genesis c) + (n - bi_number (l2_genesis c)) * blocktime c.

Lemma l2_info_by_timestamp_block s n r :
  let c := chain (st_config s) in
  0 < blocktime c -> bi_number (l2_genesis c) <= n -> in_u64 n -> in_u64 (bi_number (l2_genesis c)) ->
  in_u64 (bi_timestamp (l2_genesis c)) -> in_u64 (l2_timestamp c n + r) -> 0 <= r < blocktime c ->
  l2_info_by_timestamp s (l2_timestamp c n + r) = Ok (l2_refs s !! n).
Proof.
  intros c Hb Hn Hnu Hgu Htu Hts Hr. unfold l2_info_by_timestamp. fold c.
  unfold l2_timestamp in *. unfold u64_div.
  destruct (Z.eqb_spec (blocktime c) 0); [lia|].
  set (d := n - bi_number (l2_genesis c)) in *.
  assert (0 <= d * blocktime c) by (apply Z.mul_nonneg_nonneg; unfold d; lia).
  rewrite u64_sub_small by (unfold in_u64 in *; lia).
  replace (bi_timestamp (l2_genesis c) + d * blocktime c + r - bi_timestamp (l2_genesis c))
    with (r + d * blocktime c) by lia.
  rewrite Z.div_add, Z.div_small by lia. rewrite bind_ret. cbn.
  rewrite u64_add_small by (unfold in_u64, d in *; lia). by replace (d + _) with n by (unfold d; lia).
Qed.

(** ** Properties *)

(** C25. The L1 and L2 caches are consistent in every reachable state: from the state
    the driver starts with, whatever blocks are added, safe heads set and purges
    made, the block cached for a number has that number, its hash finds it again,
    and an L2 reference is stored under its own block number. *)
Theorem State_reachable_consistent `{Keccak} num_of get_block_with_txs head epoch config s0 s :
  State_new get_block_with_txs head epoch config = Ok s0 -> rtc (state_step num_of) s0 s ->
  (forall n e, epoch_by_number s n = Some e -> ep_number e = n /\ epoch_by_hash s (ep_hash e) = Some e) /\
  (forall h e, epoch_by_hash s h = Some e -> ep_hash e = h /\ ep_number e = num_of h) /\
  (forall n r, l2_refs s !! n = Some r -> bi_number r.1 = n).
Proof.
  intros Hnew Hsteps.
  assert (Hok : state_ok num_of s).
  { apply (State_new_ok _ num_of) in Hnew. induction Hsteps as [|x y z Hxy _ IH]; [done|].
    apply IH. by eapply state_ok_step. }
  destruct Hok as [Hh Hi Hr]. unfold epoch_by_number, epoch_by_hash, l1_info_by_number, l1_info_by_hash.
  split_and!; [| |done].
  - intros n e Hn. destruct (l1_hashes s !! n) as [h|] eqn:Eh; [|done]. cbn in Hn.
    destruct (l1_info s !! h) as [i|] eqn:Ei; [|done]. cbn in Hn. injection Hn as <-.
    destruct (Hi h i Ei) as [Hhash Hnum]. destruct (Hh n h Eh) as [Hn _]. cbn.
    split; [congruence|]. by rewrite Hhash, Ei.
  - intros h e He. destruct (l1_info s !! h) as [i|] eqn:Ei; [|done]. cbn in He. injection He as <-.
    by destruct (Hi h i Ei) as [Hhash Hnum].
Qed.

(** [update_l1_info] caches the block under its number and its hash, makes its
    number the current epoch number, and then drops exactly the L1 blocks numbered
    before the safe epoch less the sequencing window, and the L2 blocks before the
    safe head less the drift window; the rest is untouched.  It panics when the
    block time of the chain is zero, and in no other case. *)
Theorem update_l1_info_spec i s :
  match update_l1_info i s with
  | Ok s' => pruned (with_l1_info i s) s' /\ current_epoch_num s' = l1b_number (block_info i)
  | r => r = Panic /\ blocktime (chain (st_config s)) = 0
  end.
Proof.
  rewrite update_l1_info_eq. destruct (decide (blocktime (chain (st_config s)) = 0)) as [Hz|Hz].
  - by rewrite prune_zero.
  - destruct (prune_Ok (with_l1_info i s)) as (s' & -> & Hp); [done|]. split; [done|].
    by destruct (pruned_rest _ _ Hp) as (_ & _ & -> & _).
Qed.

(** The L2 window near genesis.  [prune] keeps the last [max_seq_drift / blocktime]
    L2 blocks as long as the safe head has that many predecessors; when it has
    fewer, the subtraction wraps around and every L2 block is dropped, the safe head
    included. *)
Theorem prune_l2_window s s' :
  in_u64 (bi_number (safe_head s)) -> in_u64 (l2_lookback s) -> prune s = Ok s' ->
  (l2_lookback s <= bi_number (safe_head s) ->
   l2_refs s' = from_key (bi_number (safe_head s) - l2_lookback s) (l2_refs s)) /\
  (bi_number (safe_head s) < l2_lookback s ->
   forall n, n < 2 ^ 64 - l2_lookback s -> l2_refs s' !! n = None).
Proof.
  intros Hu Hl Hp.
  assert (Hr : l2_refs s' = from_key (l2_horizon s) (l2_refs s)).
  { destruct (decide (blocktime (chain (st_config s)) = 0)) as [Hz|Hz]; [by rewrite prune_zero in Hp|].
    destruct (prune_Ok s Hz) as (s2 & Hp2 & Hpr). rewrite Hp2 in Hp. injection Hp as <-. apply Hpr. }
  unfold l2_horizon in Hr. unfold in_u64 in *. split.
  - intros Hle. rewrite u64_sub_small in Hr by (unfold in_u64; lia). done.
  - intros Hlt n Hn. rewrite Hr, from_key_lookup_eq, bool_decide_eq_false_2; [done|].
    unfold u64_sub, u64.
    replace (bi_number (safe_head s) - l2_lookback s)
      with (bi_number (safe_head s) - l2_lookback s + 18446744073709551616 + (-1) * 18446744073709551616) by lia.
    rewrite Z.mod_add, Z.mod_small by lia. change (2 ^ 64) with 18446744073709551616 in Hn. lia.
Qed.

(** A timestamp in the time slot of an L2 block finds the cached entry of that
    block: the translation from timestamps to block numbers inverts
    [genesis time + (number - genesis number) * blocktime], rounding down. *)
Theorem l2_info_by_timestamp_spec s n r :
  let c := chain (st_config s) in
  0 < blocktime c -> bi_number (l2_genesis c) <= n -> in_u64 n -> in_u64 (bi_number (l2_genesis c)) ->
  in_u64 (bi_timestamp (l2_genesis c)) -> in_u64 (l2_timestamp c n + r) -> 0 <= r < blocktime c ->
  l2_info_by_timestamp s (l2_timestamp c n + r) = Ok (l2_refs s !! n).
Proof. apply l2_info_by_timestamp_block. Qed.

(** ** Witnesses *)

Definition example_config (c : ChainConfig) : Config :=
  {| l1_rpc_url := ""; l1_beacon_url := ""; l2_rpc_url := ""; l2_engine_url := ""; chain := c;
     jwt_secret := ""; checkpoint_sync_url := None; rpc_port := 9545; rpc_addr := "127.0.0.1";
     devnet := false |}.

Definition example_block_info (n : Z) : BlockInfo :=
  {| bi_hash := to_be 32 (1000 + n); bi_number := n; bi_parent_hash := to_be 32 (999 + n);
     bi_timestamp := 1686789347 + 2 * n |}.

Definition example_epoch (n : Z) : Epoch :=
  {| ep_number := n; ep_hash := to_be 32 n; ep_timestamp := 1686789000 + 12 * n |}.

Definition example_l1_info (n : Z) : L1Info :=
  {| block_info :=
       {| l1b_number := n; l1b_hash := to_be 32 n; l1b_timestamp := 1686789000 + 12 * n;
          l1b_base_fee := 7; l1b_mix_hash := to_be 32 (n + 5); l1b_parent_beacon_block_root := None |};
     l1i_system_config := system_config base;
     user_deposits := []; batcher_transactions := []; finalized := false |}.

(** A state of the Base chain whose safe head is block [n]. *)
Definition example_state (n : Z) : State :=
  {| l1_info := ∅; l1_hashes := ∅; l2_refs := {[ n := (example_block_info n, example_epoch 17481768) ]};
     safe_head := example_block_info n; safe_epoch := example_epoch 17481768;
     current_epoch_num := 0; st_config := example_config base |}.

Definition example_no_blocks (n : Z) : outcome (option Block) := Ok None.

Lemma State_reachable_consistent_witness :
  exists s0 s, @State_new example_keccak example_no_blocks (example_block_info 0) (example_epoch 17481768)
      (example_config base) = Ok s0 /\
    rtc (state_step from_be) s0 s /\ epoch_by_number s 17481769 = Some (example_epoch 17481769) /\
    epoch_by_hash s (to_be 32 17481769) = Some (example_epoch 17481769).
Proof.
  set (s0 := {| l1_info := ∅; l1_hashes := ∅; l2_refs := ∅; safe_head := example_block_info 0;
    safe_epoch := example_epoch 17481768; current_epoch_num := 0; st_config := example_config base |}).
  destruct (update_l1_info (example_l1_info 17481769) s0) as [s| | |] eqn:Eu; [|by vm_compute in Eu..].
  assert (Hnew : @State_new example_keccak example_no_blocks (example_block_info 0) (example_epoch 17481768)
      (example_config base) = Ok s0) by by vm_compute.
  assert (Hstep : rtc (state_step from_be) s0 s).
  { apply rtc_once. eapply step_update_l1_info; [|exact Eu]. by vm_compute. }
  assert (Hn : epoch_by_number s 17481769 = Some (example_epoch 17481769)).
  { vm_compute in Eu. injection Eu as <-. by vm_compute. }
  exists s0, s. split; [exact Hnew|]. split; [exact Hstep|]. split; [exact Hn|].
  apply (@State_reachable_consistent example_keccak from_be example_no_blocks _ _ _ s0 s Hnew Hstep) in Hn.
  exact (proj2 Hn).
Defined.

Lemma prune_l2_window_witness :
  exists s', prune (example_state 10) = Ok s' /\ l2_refs s' !! 10 = None.
Proof.
  destruct (prune (example_state 10)) as [s'| | |] eqn:E; [|by vm_compute in E..].
  exists s'. split; [reflexivity|].
  apply (prune_l2_window (example_state 10) s'); [by_compute|by_compute|exact E|by vm_compute|by vm_compute].
Defined.

Lemma l2_info_by_timestamp_spec_witness :
  l2_info_by_timestamp (example_state 10) (1686789347 + 21) =
    Ok (Some (example_block_info 10, example_epoch 17481768)).
Proof.
  apply (l2_info_by_timestamp_spec (example_state 10) 10 1); by_compute.
Defined.
