(* ===== verification/BatcherTransactions.v ===== *)
(** The batcher transactions stage (src/src/derive/stages/batcher_transactions.rs):
    frames, batcher transactions, the decoder of their wire format and the
    iterator that feeds the channel bank. *)
From S2P Require Import Prelude Purgeable.

(** ** Data *)

Record BatcherTransactionMessage := {
  msg_txs : list bytes;
  msg_l1_origin : Z
}.

Record Frame := {
  channel_id : Z;
  frame_number : Z;
  frame_data_len : Z;
  frame_data : bytes;
  is_last : bool;
  l1_inclusion_block : Z
}.

Record BatcherTransaction := {
  version : Z;
  frames : list Frame
}.

(** The [mpsc::Receiver] is the queue of the messages sent and not yet
    received; the sender half, in [Pipeline], appends to it. *)
Record BatcherTransactions := {
  txs : list BatcherTransaction;
  transaction_rx : list BatcherTransactionMessage
}.

#[export] Instance Frame_eq_dec : EqDecision Frame.
Proof. solve_decision. Defined.

#[export] Instance BatcherTransaction_eq_dec : EqDecision BatcherTransaction.
Proof. solve_decision. Defined.

(** ** Operations *)

(** [Frame::from_data].  The indices are [usize] and cannot overflow: the length
    of a slice is at most [isize::MAX] and the length field is 32 bits wide.  The
    second [let data] of the source shadows the parameter, so the length in the
    returned offset is that of the rest of the input, not of the frame. *)
Definition Frame_from_data (data : bytes) (offset l1_inclusion_block : Z) : outcome (Frame * Z) :=
  data ← slice_from data offset;
  if len data <? 23 then Err "invalid frame size" else
  channel_id ← from_be <$> slice data 0 16;
  frame_number ← from_be <$> slice data 16 18;
  frame_data_len ← from_be <$> slice data 18 22;
  let frame_data_end := 22 + frame_data_len in
  if len data <? frame_data_end then Err "invalid frame size" else
  frame_data ← slice data 22 frame_data_end;
  flag ← index data frame_data_end;
  if 1 <? flag then Err "invalid is_last flag" else
  let frame :=
    {| channel_id := channel_id;
       frame_number := frame_number;
       frame_data_len := frame_data_len;
       frame_data := frame_data;
       is_last := negb (flag =? 0);
       l1_inclusion_block := l1_inclusion_block |} in
  Ok (frame, offset + len data).

(** One iteration of the [while] of [BatcherTransaction::new]. *)
Definition frames_body (frame_data : bytes) (l1_origin : Z) (st : Z * list Frame)
    : outcome (Z * list Frame + list Frame) :=
  let '(offset, frames) := st in
  if offset <? len frame_data then
    '(frame, next_offset) ← Frame_from_data frame_data offset l1_origin;
    Ok (inl (next_offset, frames ++ [frame]))
  else Ok (inr frames).

Definition BatcherTransaction_new (data : bytes) (l1_origin : Z) : outcome BatcherTransaction :=
  version ← index data 0;
  frame_data ← ok_or (get_slice data 1 (len data)) "No frame data";
  frames ← loop (S (length frame_data)) (frames_body frame_data l1_origin) (0, []);
  Ok {| version := version; frames := frames |}.

(** The [for data in txs] of [process_incoming]: a transaction that does not
    decode is dropped, a panic unwinds. *)
Fixpoint process_txs (l1_origin : Z) (data : list bytes) (acc : list BatcherTransaction)
    : outcome (list BatcherTransaction) :=
  match data with
  | [] => Ok acc
  | d :: data =>
      match BatcherTransaction_new d l1_origin with
      | Ok tx => process_txs l1_origin data (acc ++ [tx])
      | Err _ => process_txs l1_origin data acc
      | Panic => Panic
      | Diverge => Diverge
      end
  end.

(** The [while let Ok(..) = self.transaction_rx.try_recv()]. *)
Fixpoint process_messages (rx : list BatcherTransactionMessage) (acc : list BatcherTransaction)
    : outcome (list BatcherTransaction) :=
  match rx with
  | [] => Ok acc
  | msg :: rx =>
      acc ← process_txs (msg_l1_origin msg) (msg_txs msg) acc;
      process_messages rx acc
  end.

Definition process_incoming : M BatcherTransactions unit := fun s =>
  match process_messages (transaction_rx s) (txs s) with
  | Ok acc => (Ok tt, {| txs := acc; transaction_rx := [] |})
  | Err e => (Err e, s)
  | Panic => (Panic, s)
  | Diverge => (Diverge, s)
  end.

(** [VecDeque::pop_front]. *)
Definition pop_front : M BatcherTransactions (option BatcherTransaction) := fun s =>
  match txs s with
  | [] => (Ok None, s)
  | tx :: rest => (Ok (Some tx), {| txs := rest; transaction_rx := transaction_rx s |})
  end.

Definition BatcherTransactions_next : M BatcherTransactions (option BatcherTransaction) :=
  process_incoming ;; pop_front.

Definition BatcherTransactions_purge (s : BatcherTransactions) : BatcherTransactions :=
  {| txs := []; transaction_rx := [] |}.

Definition BatcherTransactions_new (rx : list BatcherTransactionMessage) : BatcherTransactions :=
  {| txs := []; transaction_rx := rx |}.

#[export] Instance BatcherTransactions_iter {R} :
    PurgeableIterator R BatcherTransactions BatcherTransaction := {
  next := fun _ => BatcherTransactions_next;
  purge := fun _ => BatcherTransactions_purge
}.

(** ** The wire format

    The frame encoding of the Optimism specification
    (docs/architecture.md, batch submission wire format):
    [channel_id ++ frame_number ++ frame_data_length ++ frame_data ++ is_last]. *)

Definition encode_frame (f : Frame) : bytes :=
  to_be 16 (channel_id f) ++ to_be 2 (frame_number f) ++ to_be 4 (frame_data_len f) ++
  frame_data f ++ [if is_last f then 1 else 0].

#[global] Arguments encode_frame : simpl never.

Record frame_ok (f : Frame) : Prop := {
  frame_ok_id : 0 <= channel_id f < 256 ^ 16;
  frame_ok_number : in_u16 (frame_number f);
  frame_ok_len : frame_data_len f = len (frame_data f);
  frame_ok_len_u32 : in_u32 (frame_data_len f)
}.

Lemma len_encode_frame f : len (encode_frame f) = 23 + len (frame_data f).
Proof. unfold encode_frame. autorewrite with magi_len. lia. Qed.

Lemma Frame_from_data_encode f pre rest l1 :
  frame_ok f -> l1_inclusion_block f = l1 ->
  Frame_from_data (pre ++ encode_frame f ++ rest) (len pre) l1 =
    Ok (f, len (pre ++ encode_frame f ++ rest)).
Proof.
  intros [Hid Hnum Hlen Hu32] <-. unfold Frame_from_data.
  rewrite slice_from_app by done. cbn.
  pose proof (len_nonneg rest) as Hrest. pose proof (len_nonneg (frame_data f)) as Hdata.
  rewrite len_app, len_encode_frame.
  rewrite (proj2 (Z.ltb_ge _ 23)) by lia.
  unfold encode_frame. rewrite <- !app_assoc.
  set (a := to_be 16 _). set (b := to_be 2 _). set (c := to_be 4 _).
  assert (Ha : len a = 16) by apply len_to_be. assert (Hb : len b = 2) by apply len_to_be.
  assert (Hc : len c = 4) by apply len_to_be.
  rewrite slice_app_prefix by done. cbn.
  rewrite (slice_app_exact a b _ 16 18) by lia. cbn.
  rewrite (app_assoc a b). rewrite (slice_app_exact (a ++ b) c _ 18 22) by (rewrite len_app; lia). cbn.
  replace (from_be a) with (channel_id f) by (symmetry; by apply from_be_to_be_id).
  replace (from_be b) with (frame_number f) by (symmetry; by apply from_be_to_be_id).
  replace (from_be c) with (frame_data_len f) by (symmetry; by apply from_be_to_be_id).
  rewrite (proj2 (Z.ltb_ge _ (22 + _))) by lia.
  rewrite (app_assoc (a ++ b) c). assert (Habc : len ((a ++ b) ++ c) = 22) by (rewrite !len_app; lia).
  rewrite (slice_app_exact ((a ++ b) ++ c) (frame_data f)) by lia. cbn.
  rewrite (app_assoc ((a ++ b) ++ c)). rewrite index_app_mid by (rewrite len_app; lia). cbn.
  destruct f as [? ? ? ? [] ?]; cbn in *; do 2 f_equal;
    rewrite ?len_app, ?len_cons in *; lia.
Qed.

(** The fields cut out of the input give it back when they are encoded. *)
Lemma frame_layout d a b c e flag l1 :
  bytes_ok d -> slice d 0 16 = Ok a -> slice d 16 18 = Ok b -> slice d 18 22 = Ok c ->
  slice d 22 (22 + from_be c) = Ok e -> index d (22 + from_be c) = Ok flag -> flag <= 1 ->
  let f := {| channel_id := from_be a; frame_number := from_be b; frame_data_len := from_be c;
              frame_data := e; is_last := negb (flag =? 0); l1_inclusion_block := l1 |} in
  frame_ok f /\ d = encode_frame f ++ drop (Z.to_nat (22 + from_be c + 1)) d.
Proof.
  intros Hok Ha Hb Hc He Hflag Hle f.
  pose proof (slice_sub _ _ _ _ _ Ha Hok) as Oa. pose proof (slice_sub _ _ _ _ _ Hb Hok) as Ob.
  pose proof (slice_sub _ _ _ _ _ Hc Hok) as Oc.
  pose proof (slice_len _ _ _ _ Ha) as La. pose proof (slice_len _ _ _ _ Hb) as Lb.
  pose proof (slice_len _ _ _ _ Hc) as Lc. pose proof (slice_len _ _ _ _ He) as Le.
  pose proof (from_be_bound a Oa) as Ba. pose proof (from_be_bound b Ob) as Bb.
  pose proof (from_be_bound c Oc) as Bc. rewrite La in Ba. rewrite Lb in Bb. rewrite Lc in Bc.
  change (256 ^ (18 - 16)) with 65536 in Bb. change (256 ^ (22 - 18)) with 4294967296 in Bc.
  assert (Hfl : 0 <= flag).
  { apply index_Ok in Hflag as [_ Hl]. apply (Forall_lookup_1 _ _ _ _ Hok) in Hl.
    unfold byte_ok in Hl. lia. }
  split; [split; cbn -[from_be Z.pow]; done || lia|].
  apply take_slice in Ha, Hb, Hc, He. apply take_index in Hflag.
  rewrite <- (take_drop (Z.to_nat (22 + from_be c + 1)) d) at 1. f_equal.
  rewrite Hflag, He, Hc, Hb, Ha. unfold encode_frame, f; cbn -[take].
  rewrite !to_be_from_be_len by done. rewrite take_0. cbn [app]. rewrite <- !app_assoc.
  repeat f_equal. destruct (Z.eqb_spec flag 0); cbn; lia.
Qed.

(** What a successful decode read. *)
Lemma Frame_from_data_Ok data offset l1 f next :
  bytes_ok data -> Frame_from_data data offset l1 = Ok (f, next) ->
  exists rest, data = take (Z.to_nat offset) data ++ encode_frame f ++ rest /\
    0 <= offset <= len data /\ frame_ok f /\ l1_inclusion_block f = l1 /\ next = len data.
Proof.
  intros Hok H. unfold Frame_from_data in H.
  apply bind_Ok in H as (d & Hd & H). pose proof (slice_sub _ _ _ _ _ Hd Hok) as Hdok.
  apply slice_from_Ok in Hd as [Hdata Hoff].
  destruct (Z.ltb_spec (len d) 23); [done|].
  apply bind_Ok in H as (id & (a & Ha & <-)%fmap_Ok & H).
  apply bind_Ok in H as (num & (b & Hb & <-)%fmap_Ok & H).
  apply bind_Ok in H as (n & (c & Hc & <-)%fmap_Ok & H).
  destruct (Z.ltb_spec (len d) (22 + from_be c)); [done|].
  apply bind_Ok in H as (e & He & H). apply bind_Ok in H as (flag & Hflag & H).
  destruct (Z.ltb_spec 1 flag); [done|]. injection H as <- <-.
  edestruct (frame_layout d a b c e flag l1) as [Hf Hd]; try done.
  eexists. split_and!; [rewrite <- Hd; done|lia|lia|done|done|].
  apply (f_equal len) in Hdata. rewrite len_app in Hdata.
  unfold len at 2 in Hdata. rewrite length_take in Hdata. unfold len in *. lia.
Qed.

Lemma Frame_from_data_next data offset l1 f next :
  0 <= offset <= len data -> Frame_from_data data offset l1 = Ok (f, next) -> next = len data.
Proof.
  intros Hoff H. unfold Frame_from_data in H. apply bind_Ok in H as (d & Hd & H).
  apply slice_len in Hd. simpl_outcome. repeat (case_match; simpl_outcome); try done.
  unfold slice_from in Hd. lia.
Qed.

(** The loop of [BatcherTransaction::new] runs its body once at most. *)
Lemma BatcherTransaction_new_cons v d l1 :
  BatcherTransaction_new (v :: d) l1 =
    match d with
    | [] => Ok {| version := v; frames := [] |}
    | _ => '(f, _) ← Frame_from_data d 0 l1; Ok {| version := v; frames := [f] |}
    end.
Proof.
  unfold BatcherTransaction_new.
  replace (index (v :: d) 0) with (Ok v) by done.
  assert (get_slice (v :: d) 1 (len (v :: d)) = Some d) as ->.
  { pose proof (slice_from_app [v] d 1 eq_refl) as H. unfold slice_from, slice in H.
    cbn [app] in H. by destruct (get_slice (v :: d) 1 (len (v :: d))); cbn in H; simpl_outcome. }
  destruct d as [|b d]; [done|]. set (fd := b :: d). cbn [mbind outcome_bind ok_or].
  cbn [length loop frames_body]. change (S (length d)) with (length fd).
  assert (Hlt : 0 <? len fd = true).
  { apply Z.ltb_lt. unfold fd. rewrite len_cons. pose proof (len_nonneg d). lia. }
  rewrite Hlt. destruct (Frame_from_data fd 0 l1) as [[f next]| | |] eqn:E; try done.
  apply Frame_from_data_next in E; [|apply Z.ltb_lt in Hlt; lia]. subst next.
  cbn. by rewrite Z.ltb_irrefl.
Qed.

Lemma BatcherTransaction_new_nil l1 : BatcherTransaction_new [] l1 = Panic.
Proof. done. Qed.

(** The declared length of the frame at the front of [d]. *)
Definition declared_len (d : bytes) : Z := from_be (take 4 (drop 18 d)).

Lemma Frame_from_data_Panic data offset l1 :
  bytes_ok data -> 0 <= offset <= len data ->
  let d := drop (Z.to_nat offset) data in
  Frame_from_data data offset l1 = Panic <-> 23 <= len d /\ len d = 22 + declared_len d.
Proof.
  intros Hok Hoff d. unfold Frame_from_data.
  assert (slice_from data offset = Ok d) as ->.
  { apply slice_Ok. split_and!; [lia..|]. rewrite take_ge; [done|].
    unfold len. rewrite length_drop. lia. }
  cbn. destruct (Z.ltb_spec (len d) 23); [split; [done|lia]|].
  destruct (slice_total d 0 16) as [a Ha]; [lia..|]. rewrite Ha.
  destruct (slice_total d 16 18) as [b Hb]; [lia..|]. rewrite Hb.
  destruct (slice_total d 18 22) as [c Hc]; [lia..|]. rewrite Hc. cbn.
  assert (declared_len d = from_be c) as ->.
  { unfold declared_len. by apply slice_Ok in Hc as (?&?&->). }
  assert (0 <= from_be c) by (apply from_be_bound; eapply slice_sub; [done|by apply Forall_drop]).
  destruct (Z.ltb_spec (len d) (22 + from_be c)); [split; [done|lia]|].
  destruct (slice_total d 22 (22 + from_be c)) as [e He]; [lia..|]. rewrite He. cbn.
  destruct (decide (22 + from_be c = len d)) as [Heq|Hne].
  - rewrite index_Panic by lia. split; [lia|done].
  - destruct (index_total d (22 + from_be c)) as [flag Hf]; [lia|]. rewrite Hf. cbn.
    destruct (1 <? flag); split; done || lia.
Qed.

Lemma Frame_from_data_not_Diverge data offset l1 : Frame_from_data data offset l1 <> Diverge.
Proof.
  unfold Frame_from_data. not_Diverge.
Qed.

(** What [process_incoming] appends: the transactions that decode, in order. *)
Definition decoded (rx : list BatcherTransactionMessage) : list BatcherTransaction :=
  mjoin ((fun msg => omap (fun d => ok (BatcherTransaction_new d (msg_l1_origin msg))) (msg_txs msg)) <$> rx).

Definition no_panic (rx : list BatcherTransactionMessage) : Prop :=
  Forall (fun msg => Forall (fun d => BatcherTransaction_new d (msg_l1_origin msg) <> Panic) (msg_txs msg)) rx.

Lemma BatcherTransaction_new_not_Diverge d l1 : BatcherTransaction_new d l1 <> Diverge.
Proof.
  destruct d as [|v d]; [done|]. rewrite BatcherTransaction_new_cons. destruct d; [done|].
  pose proof (Frame_from_data_not_Diverge (z :: d) 0 l1). by destruct (Frame_from_data _ _ _) as [[]| | |].
Qed.

Lemma process_txs_Ok l1 data acc acc' :
  process_txs l1 data acc = Ok acc' <->
  Forall (fun d => BatcherTransaction_new d l1 <> Panic) data /\
  acc' = acc ++ omap (fun d => ok (BatcherTransaction_new d l1)) data.
Proof.
  revert acc. induction data as [|d data IH]; intros acc; cbn.
  - rewrite app_nil_r. naive_solver.
  - pose proof (BatcherTransaction_new_not_Diverge d l1) as Hd. rewrite Forall_cons.
    destruct (BatcherTransaction_new d l1) eqn:E; cbn; rewrite ?IH, <- ?app_assoc; naive_solver.
Qed.

Lemma process_txs_outcome l1 data acc :
  (exists acc', process_txs l1 data acc = Ok acc') \/ process_txs l1 data acc = Panic.
Proof.
  revert acc. induction data as [|d data IH]; intros acc; cbn; [eauto|].
  pose proof (BatcherTransaction_new_not_Diverge d l1) as Hd.
  destruct (BatcherTransaction_new d l1) eqn:E; naive_solver.
Qed.

Lemma process_messages_Ok rx acc acc' :
  process_messages rx acc = Ok acc' <-> no_panic rx /\ acc' = acc ++ decoded rx.
Proof.
  unfold no_panic, decoded. revert acc. induction rx as [|msg rx IH]; intros acc; cbn.
  - rewrite app_nil_r. naive_solver.
  - rewrite Forall_cons, bind_Ok. setoid_rewrite process_txs_Ok. setoid_rewrite IH.
    rewrite app_assoc. naive_solver.
Qed.

Lemma process_messages_outcome rx acc :
  (exists acc', process_messages rx acc = Ok acc') \/ process_messages rx acc = Panic.
Proof.
  revert acc. induction rx as [|msg rx IH]; intros acc; cbn; [eauto|].
  destruct (process_txs_outcome (msg_l1_origin msg) (msg_txs msg) acc) as [[acc' ->]| ->]; cbn; auto.
Qed.

(** ** The contract of the stage

    What the stage after this one relies on: every frame has a length
    that fits 32 bits next to [max] bytes and a 64-bit block number,
    as long as the messages hold bytes and are not longer than that. *)

Record frame_fits (max : Z) (f : Frame) : Prop := {
  frame_fits_len : 0 <= frame_data_len f;
  frame_fits_max : frame_data_len f + max < 4294967296;
  frame_fits_block : in_u64 (l1_inclusion_block f)
}.

Definition tx_fits (max : Z) (tx : BatcherTransaction) : Prop := Forall (frame_fits max) (frames tx).

Definition msg_fits (max : Z) (msg : BatcherTransactionMessage) : Prop :=
  in_u64 (msg_l1_origin msg) /\ Forall (fun d => bytes_ok d /\ len d + max < 4294967296) (msg_txs msg).

Definition queue_fits (max : Z) (s : BatcherTransactions) : Prop :=
  Forall (tx_fits max) (txs s) /\ Forall (msg_fits max) (transaction_rx s).

Lemma BatcherTransaction_new_fits max l1 d tx :
  in_u64 l1 -> bytes_ok d -> len d + max < 4294967296 ->
  BatcherTransaction_new d l1 = Ok tx -> tx_fits max tx.
Proof.
  intros Hl Hok Hlen H. destruct d as [|v d]; [done|]. inversion Hok as [|? ? Hv Hd]; subst.
  rewrite BatcherTransaction_new_cons in H. destruct d as [|b d']; [injection H as <-; constructor|].
  apply bind_Ok in H as ([f n] & H & [= <-]). apply Forall_singleton.
  apply Frame_from_data_Ok in H as (rest & Heq & _ & [_ _ Hfl _] & <- & _); [|done].
  apply (f_equal len) in Heq. rewrite take_0, len_app, len_app, len_encode_frame in Heq.
  rewrite len_cons in Hlen. change (len (take 0 (b :: d'))) with 0 in *.
  pose proof (len_nonneg (frame_data f)). pose proof (len_nonneg rest).
  change (len (@nil Z)) with 0 in Heq. split; [lia|lia|done].
Qed.

Lemma decoded_fits max rx : Forall (msg_fits max) rx -> Forall (tx_fits max) (decoded rx).
Proof.
  intros Hrx. apply Forall_forall. intros tx Hin. unfold decoded in Hin.
  apply list_elem_of_join in Hin as (l & Hin & (msg & -> & Hmsg)%list_elem_of_fmap).
  apply list_elem_of_omap in Hin as (d & Hd & Hok).
  rewrite Forall_forall in Hrx. destruct (Hrx msg Hmsg) as [Hl Hds].
  rewrite Forall_forall in Hds. destruct (Hds d Hd) as [Hbytes Hlen].
  apply (BatcherTransaction_new_fits max (msg_l1_origin msg) d); [done..|].
  by destruct (BatcherTransaction_new d _); cbn in Hok; simplify_eq.
Qed.

#[export] Instance BatcherTransactions_contract {R} max :
    IteratorContract (@BatcherTransactions_iter R) (queue_fits max) (tx_fits max).
Proof.
  assert (Hnext : forall s o s', queue_fits max s -> BatcherTransactions_next s = (o, s') ->
    queue_fits max s' /\ match o with Ok (Some tx) => tx_fits max tx | _ => True end).
  { intros s o s' [Htxs Hrx] H. unfold BatcherTransactions_next, process_incoming, mbind, M_bind in H.
    destruct (process_messages_outcome (transaction_rx s) (txs s)) as [[acc Hacc]|Hacc]; rewrite Hacc in H;
      [|by simplify_eq].
    apply process_messages_Ok in Hacc as [_ ->]. apply decoded_fits in Hrx.
    assert (Hall : Forall (tx_fits max) (txs s ++ decoded (transaction_rx s))) by by apply Forall_app.
    unfold pop_front in H; cbn in H.
    destruct (txs s ++ decoded (transaction_rx s)) as [|tx l]; simplify_eq; [done|].
    apply Forall_cons in Hall as [? ?]. done. }
  split.
  - intros r s o s' Hs H. by apply (Hnext s o s').
  - intros r s x s' Hs H. by apply (Hnext s _ s') in H as [_ ?].
  - intros r s _. split; constructor.
Qed.

(** ** Properties *)

(** C20. Decoding a frame is the inverse of the wire format.  [Frame::from_data]
    returns a frame exactly when the input holds its encoding at the offset; and
    the offset it returns is the end of the whole input, so what follows the
    frame is skipped. *)
Theorem Frame_from_data_inverse data offset l1 f next :
  bytes_ok data -> 0 <= offset <= len data ->
  Frame_from_data data offset l1 = Ok (f, next) <->
  frame_ok f /\ l1_inclusion_block f = l1 /\ next = len data /\
  exists pre rest, data = pre ++ encode_frame f ++ rest /\ len pre = offset.
Proof.
  intros Hok Hoff. split.
  - intros H. apply Frame_from_data_Ok in H as (rest & Hd & _ & Hf & Hl & ->); [|done].
    split_and!; [done..|]. exists (take (Z.to_nat offset) data), rest. split; [done|].
    unfold len in *. rewrite length_take. lia.
  - intros (Hf & Hl & -> & pre & rest & -> & <-). by apply Frame_from_data_encode.
Qed.

(** A batcher transaction decodes when it is a version byte alone, or a version
    byte followed by one well-formed frame; whatever follows that first frame,
    another frame included, is dropped, so a transaction carries one frame at
    most. *)
Theorem BatcherTransaction_new_Ok data l1 tx :
  bytes_ok data ->
  BatcherTransaction_new data l1 = Ok tx <->
  (exists v, data = [v] /\ tx = {| version := v; frames := [] |}) \/
  (exists v f rest, data = v :: encode_frame f ++ rest /\ frame_ok f /\
     l1_inclusion_block f = l1 /\ tx = {| version := v; frames := [f] |}).
Proof.
  intros Hok. destruct data as [|v d]; [naive_solver|].
  inversion Hok as [|? ? Hv Hd]; subst. rewrite BatcherTransaction_new_cons. split.
  - destruct d as [|b d]; [naive_solver|]. intros H. apply bind_Ok in H as ([f next] & H & [= <-]).
    apply Frame_from_data_Ok in H as (rest & Heq & _ & Hf & Hl & _); [|done].
    right. exists v, f, rest. rewrite take_0 in Heq. by rewrite Heq at 1.
  - intros [(v' & [= -> ->] & ->)|(v' & f & rest & Heq & Hf & Hl & ->)]; [done|].
    apply (inj2 cons) in Heq as [-> ->].
    pose proof (Frame_from_data_encode f [] rest l1 Hf Hl) as H. cbn [app] in H.
    change (len []) with 0 in H.
    pose proof (len_encode_frame f) as Hlen. pose proof (len_nonneg (frame_data f)).
    destruct (encode_frame f ++ rest) eqn:E; [|by rewrite H].
    apply app_eq_nil in E as [E _]. rewrite E in Hlen. unfold len in *. cbn in Hlen. lia.
Qed.

(** Decoding a batcher transaction always ends, and it panics on two inputs the
    code does not guard against: empty calldata (the version byte is read with an
    unchecked index), and a first frame cut exactly before its [is_last] byte (the
    length test leaves that byte out). *)
Theorem BatcherTransaction_new_panics data l1 :
  bytes_ok data ->
  BatcherTransaction_new data l1 <> Diverge /\
  (BatcherTransaction_new data l1 = Panic <->
   data = [] \/ exists v d, data = v :: d /\ 23 <= len d /\ len d = 22 + declared_len d).
Proof.
  intros Hok. split; [apply BatcherTransaction_new_not_Diverge|]. destruct data as [|v d]; [split; [by left|done]|].
  inversion Hok as [|? ? Hv Hd]; subst.
  pose proof (Frame_from_data_Panic d 0 l1 Hd) as HP. cbn in HP.
  rewrite drop_0 in HP. specialize (HP ltac:(pose proof (len_nonneg d); lia)).
  rewrite BatcherTransaction_new_cons. split.
  - intros H. right. exists v, d. split; [done|]. apply HP.
    destruct d; [done|]. by destruct (Frame_from_data _ _ _) as [[]| | |].
  - intros [?|(?&?&[= <- <-]&Hl)]; [done|]. apply HP in Hl. destruct d; [done|]. by rewrite Hl.
Qed.

(** The stage is a first-in first-out queue of the transactions that decode:
    [next] receives every message waiting in the channel, appends the decoded
    transactions in the order they were sent, drops those that do not decode, and
    yields the front of the queue; it panics when the decoder does. *)
Theorem BatcherTransactions_next_fifo s :
  let q := txs s ++ decoded (transaction_rx s) in
  (no_panic (transaction_rx s) ->
   BatcherTransactions_next s = (Ok (head q), {| txs := tail q; transaction_rx := [] |})) /\
  (~ no_panic (transaction_rx s) -> (BatcherTransactions_next s).1 = Panic).
Proof.
  intros q. unfold BatcherTransactions_next, process_incoming, mbind, M_bind. split.
  - intros Hn. rewrite (proj2 (process_messages_Ok _ _ q)) by done.
    unfold pop_front. cbn. by destruct q.
  - intros Hn. destruct (process_messages_outcome (transaction_rx s) (txs s)) as [[acc H]|H].
    + by apply process_messages_Ok in H as [? _].
    + by rewrite H.
Qed.

(** ** Witnesses *)

Definition example_frame : Frame :=
  {| channel_id := 5; frame_number := 258; frame_data_len := 3; frame_data := [10; 20; 30];
     is_last := true; l1_inclusion_block := 43 |}.

Lemma example_frame_ok : frame_ok example_frame.
Proof. by split; vm_compute. Qed.

Lemma Frame_from_data_inverse_witness :
  Frame_from_data ([7; 8] ++ encode_frame example_frame ++ [1]) 2 43 = Ok (example_frame, 29).
Proof.
  apply (Frame_from_data_inverse ([7; 8] ++ encode_frame example_frame ++ [1]) 2 43 example_frame 29).
  - by_compute.
  - by vm_compute.
  - split_and!; [apply example_frame_ok|done|done|]. by exists [7; 8], [1].
Defined.

Lemma BatcherTransaction_new_Ok_witness :
  BatcherTransaction_new (0 :: encode_frame example_frame ++ encode_frame example_frame) 43 =
    Ok {| version := 0; frames := [example_frame] |}.
Proof.
  apply (BatcherTransaction_new_Ok (0 :: encode_frame example_frame ++ encode_frame example_frame)).
  - by_compute.
  - right. exists 0, example_frame, (encode_frame example_frame).
    split_and!; [done|apply example_frame_ok|done|done].
Defined.

Lemma BatcherTransaction_new_panics_witness :
  BatcherTransaction_new (0 :: replicate 21 0 ++ [1; 9]) 43 = Panic.
Proof.
  apply (BatcherTransaction_new_panics (0 :: replicate 21 0 ++ [1; 9]) 43); [by_compute|].
  right. exists 0, (replicate 21 0 ++ [1; 9]). split_and!; done.
Defined.
