(* ===== verification/Channels.v ===== *)
(** The channel bank (src/src/derive/stages/channels.rs): frames are collected into
    pending channels, a channel whose frames have all been seen is assembled and
    yielded; a channel that takes too long, or the oldest ones when the bank is
    too large, are dropped.

    The stage is generic in the iterator of batcher transactions, [I]; every
    [impl] block of the source is the Section of the same parameters. *)
From stdpp Require Import sorting.
From S2P Require Import Prelude Purgeable Config BatcherTransactions.

(** ** Data *)

Record PendingChannel := {
  pc_channel_id : Z;
  pc_frames : list Frame;
  pc_size : option Z;
  pc_highest_l1_block : Z;
  pc_lowest_l1_block : Z
}.

Record Channel := {
  chan_id : Z;
  chan_data : bytes;
  chan_l1_inclusion_block : Z
}.

#[export] Instance PendingChannel_eq_dec : EqDecision PendingChannel.
Proof. solve_decision. Defined.

#[export] Instance Channel_eq_dec : EqDecision Channel.
Proof. solve_decision. Defined.

(** ** Pending channels *)

Definition PendingChannel_new (frame : Frame) : PendingChannel :=
  let size := if is_last frame then Some (u16 (frame_number frame + 1)) else None in
  {| pc_channel_id := channel_id frame;
     pc_highest_l1_block := l1_inclusion_block frame;
     pc_lowest_l1_block := l1_inclusion_block frame;
     pc_frames := [frame];
     pc_size := size |}.

Definition is_complete (pc : PendingChannel) : bool :=
  bool_decide (pc_size pc = Some (u16 (len (pc_frames pc)))).

Definition is_timed_out (pc : PendingChannel) (max_timeout : Z) : bool :=
  max_timeout <? u64_sub (pc_highest_l1_block pc) (pc_lowest_l1_block pc).

(** [slice::sort_by_key], a stable sort, as an insertion sort. *)
Fixpoint insert_by_key {A} (key : A -> Z) (x : A) (l : list A) : list A :=
  match l with
  | [] => [x]
  | y :: l => if key x <=? key y then x :: y :: l else y :: insert_by_key key x l
  end.

Definition sort_by_key {A} (key : A -> Z) (l : list A) : list A :=
  foldr (insert_by_key key) [] l.

Definition assemble (pc : PendingChannel) : bytes :=
  let frames := sort_by_key frame_number (pc_frames pc) in
  foldl (fun a b => a ++ frame_data b) [] frames.

(** [Iterator::max]. *)
Definition iter_max (l : list Z) : option Z :=
  match l with
  | [] => None
  | x :: l => Some (foldl Z.max x l)
  end.

(** The method [l1_inclusion_block]; [expect] panics on an empty channel. *)
Definition PendingChannel_l1_inclusion_block (pc : PendingChannel) : outcome Z :=
  unwrap (iter_max (l1_inclusion_block <$> pc_frames pc)).

Definition PendingChannel_push_frame (frame : Frame) (pc : PendingChannel) : PendingChannel :=
  let has_seen := existsb (fun n => n =? frame_number frame) (frame_number <$> pc_frames pc) in
  if has_seen then pc else
  let l1 := l1_inclusion_block frame in
  let highest := if pc_highest_l1_block pc <? l1 then l1 else pc_highest_l1_block pc in
  let lowest :=
    if pc_highest_l1_block pc <? l1 then pc_lowest_l1_block pc
    else if l1 <? pc_lowest_l1_block pc then l1 else pc_lowest_l1_block pc in
  {| pc_channel_id := pc_channel_id pc;
     pc_frames := pc_frames pc ++ [frame];
     pc_size := if is_last frame then Some (u16 (frame_number frame + 1)) else pc_size pc;
     pc_highest_l1_block := highest;
     pc_lowest_l1_block := lowest |}.

(** [impl From<PendingChannel> for Channel]. *)
Definition Channel_from (pc : PendingChannel) : outcome Channel :=
  l1_inclusion_block ← PendingChannel_l1_inclusion_block pc;
  Ok {| chan_id := pc_channel_id pc;
        chan_data := assemble pc;
        chan_l1_inclusion_block := l1_inclusion_block |}.

(** ** The stage *)

Record Channels (I : Type) := {
  batcher_tx_iter : I;
  pending_channels : list PendingChannel;
  frame_bank : list Frame;
  ch_max_channel_size : Z;
  ch_channel_timeout : Z
}.

Arguments Build_Channels {I}.
Arguments batcher_tx_iter {I}.
Arguments pending_channels {I}.
Arguments frame_bank {I}.
Arguments ch_max_channel_size {I}.
Arguments ch_channel_timeout {I}.

Definition Channels_new {I} (batcher_tx_iter : I) (config : Config) : Channels I :=
  {| batcher_tx_iter := batcher_tx_iter;
     pending_channels := [];
     frame_bank := [];
     ch_max_channel_size := max_channel_size (chain config);
     ch_channel_timeout := channel_timeout (chain config) |}.

Section Channels.
Context {R I : Type} `{it : PurgeableIterator R I BatcherTransaction}.
Implicit Types s : Channels I.

Definition set_pending (pcs : list PendingChannel) s : Channels I :=
  {| batcher_tx_iter := batcher_tx_iter s; pending_channels := pcs; frame_bank := frame_bank s;
     ch_max_channel_size := ch_max_channel_size s; ch_channel_timeout := ch_channel_timeout s |}.

Definition set_bank (bank : list Frame) s : Channels I :=
  {| batcher_tx_iter := batcher_tx_iter s; pending_channels := pending_channels s; frame_bank := bank;
     ch_max_channel_size := ch_max_channel_size s; ch_channel_timeout := ch_channel_timeout s |}.

Definition set_iter (i : I) s : Channels I :=
  {| batcher_tx_iter := i; pending_channels := pending_channels s; frame_bank := frame_bank s;
     ch_max_channel_size := ch_max_channel_size s; ch_channel_timeout := ch_channel_timeout s |}.

(** [Channels::push_frame]. *)
Definition Channels_push_frame (frame : Frame) s : Channels I :=
  match list_find (fun c => pc_channel_id c = channel_id frame) (pending_channels s) with
  | Some (pending_index, pc) =>
      let pc := PendingChannel_push_frame frame pc in
      if is_timed_out pc (ch_channel_timeout s)
      then set_pending (delete pending_index (pending_channels s)) s
      else set_pending (<[pending_index := pc]> (pending_channels s)) s
  | None =>
      let pending := PendingChannel_new frame in
      set_pending (pending_channels s ++ [pending]) s
  end.

Definition fill_bank (r : R) : M (Channels I) unit :=
  next_batcher_tx ← zoom batcher_tx_iter set_iter (next r);
  match next_batcher_tx with
  | Some tx => modify (fun s => set_bank (frame_bank s ++ frames tx) s)
  | None => mret tt
  end.

Definition fetch_ready_channel (id : Z) s : outcome (option Channel * Channels I) :=
  match list_find (fun c => pc_channel_id c = id /\ is_complete c = true) (pending_channels s) with
  | Some (index, pc) =>
      ch ← Channel_from pc;
      Ok (Some ch, set_pending (delete index (pending_channels s)) s)
  | None => Ok (None, s)
  end.

(** [Channels::remove]. *)
Definition Channels_remove s : option PendingChannel * Channels I :=
  match pending_channels s with
  | [] => (None, s)
  | pc :: pcs => (Some pc, set_pending pcs s)
  end.

(** [Channels::total_size]: both sums are of type [u32]. *)
Definition total_size (pcs : list PendingChannel) : Z :=
  foldl (fun a n => u32 (a + n)) 0
    ((fun p => foldl (fun a f => u32 (a + frame_data_len f)) 0 (pc_frames p)) <$> pcs).

Definition prune_body s : outcome (Channels I + Channels I) :=
  if ch_max_channel_size s <? total_size (pending_channels s)
  then
    let '(pc, s) := Channels_remove s in
    _ ← unwrap pc;
    Ok (inl s)
  else Ok (inr s).

(** [Channels::prune]. *)
Definition Channels_prune s : outcome (Channels I) :=
  loop (S (length (pending_channels s))) prune_body s.

(** One iteration of the [while] of [process_frames]. *)
Definition process_frames_body s : outcome (Channels I + option Channel * Channels I) :=
  match frame_bank s with
  | [] => Ok (inr (None, s))
  | frame :: bank =>
      let s := set_bank bank s in
      let frame_channel_id := channel_id frame in
      let s := Channels_push_frame frame s in
      s ← Channels_prune s;
      '(channel, s) ← fetch_ready_channel frame_channel_id s;
      match channel with
      | Some channel => Ok (inr (Some channel, s))
      | None => Ok (inl s)
      end
  end.

Definition process_bank : M (Channels I) (option Channel) := fun s =>
  match loop (S (length (frame_bank s))) process_frames_body s with
  | Ok (channel, s) => (Ok channel, s)
  | Err e => (Err e, s)
  | Panic => (Panic, s)
  | Diverge => (Diverge, s)
  end.

Definition process_frames (r : R) : M (Channels I) (option Channel) :=
  fill_bank r ;; process_bank.

Definition Channels_purge (r : R) s : Channels I :=
  {| batcher_tx_iter := purge r (batcher_tx_iter s);
     pending_channels := [];
     frame_bank := [];
     ch_max_channel_size := ch_max_channel_size s;
     ch_channel_timeout := ch_channel_timeout s |}.

#[export] Instance Channels_iter : PurgeableIterator R (Channels I) Channel := {
  next := process_frames;
  purge := Channels_purge
}.
End Channels.

(** ** Sorting by a key *)

Section sort.
Context {A : Type} (key : A -> Z).
Implicit Types l : list A.

Abbreviation key_le := (fun x y => key x <= key y).

Lemma insert_by_key_perm x l : insert_by_key key x l ≡ₚ x :: l.
Proof.
  induction l as [|y l IH]; [done|]. cbn [insert_by_key].
  destruct (key x <=? key y); [done|]. rewrite IH. by apply Permutation_swap.
Qed.

Lemma sort_by_key_perm l : sort_by_key key l ≡ₚ l.
Proof. induction l as [|x l IH]; [done|]. cbn. by rewrite insert_by_key_perm, IH. Qed.

Lemma insert_by_key_sorted x l : StronglySorted key_le l -> StronglySorted key_le (insert_by_key key x l).
Proof.
  induction 1 as [|y l Hl IH Hy]; cbn; [repeat constructor|].
  destruct (Z.leb_spec (key x) (key y)).
  - constructor; [by constructor|]. constructor; [done|]. eapply Forall_impl; [exact Hy|]. cbn. lia.
  - constructor; [done|]. rewrite insert_by_key_perm. constructor; [lia|done].
Qed.

Lemma sort_by_key_sorted l : StronglySorted key_le (sort_by_key key l).
Proof. induction l; cbn; [constructor|by apply insert_by_key_sorted]. Qed.

(** A list with distinct keys has one sorted rearrangement. *)
Lemma sort_by_key_unique l k :
  NoDup (key <$> l) -> StronglySorted key_le k -> l ≡ₚ k -> sort_by_key key l = k.
Proof.
  intros Hnd Hk Hp. pose proof (sort_by_key_perm l) as Hs.
  apply (StronglySorted_unique_strong key_le); [|apply sort_by_key_sorted|done|by rewrite Hs].
  intros x y Hx Hy Hxy Hyx. rewrite Hs in Hx. rewrite <- Hp in Hy.
  apply list_elem_of_lookup in Hx as [i Hi]. apply list_elem_of_lookup in Hy as [j Hj].
  assert (i = j) as ->; [|congruence].
  eapply (NoDup_lookup (key <$> l)); [done|by rewrite list_lookup_fmap, Hi|].
  rewrite list_lookup_fmap, Hj. cbn. f_equal. lia.
Qed.

Lemma sort_by_key_proper l k :
  NoDup (key <$> l) -> l ≡ₚ k -> sort_by_key key l = sort_by_key key k.
Proof.
  intros Hnd Hp. apply sort_by_key_unique; [done|apply sort_by_key_sorted|].
  by rewrite Hp, sort_by_key_perm.
Qed.
End sort.

Lemma assemble_mjoin pc :
  assemble pc = mjoin (frame_data <$> sort_by_key frame_number (pc_frames pc)).
Proof.
  unfold assemble. generalize (sort_by_key frame_number (pc_frames pc)). intros l.
  assert (Hacc : forall a, foldl (fun a b => a ++ frame_data b) a l = a ++ mjoin (frame_data <$> l)).
  { induction l as [|f l IH]; intros a; cbn; [by rewrite app_nil_r|]. by rewrite IH, app_assoc. }
  by rewrite Hacc.
Qed.

(** ** The invariant of a pending channel *)

Record pc_ok (pc : PendingChannel) : Prop := {
  pc_ok_frames : pc_frames pc <> [];
  pc_ok_numbers : NoDup (frame_number <$> pc_frames pc);
  pc_ok_id : Forall (fun f => channel_id f = pc_channel_id pc) (pc_frames pc);
  pc_ok_blocks : Forall (fun f => pc_lowest_l1_block pc <= l1_inclusion_block f <= pc_highest_l1_block pc)
    (pc_frames pc);
  pc_ok_highest : pc_highest_l1_block pc ∈ l1_inclusion_block <$> pc_frames pc;
  pc_ok_lowest : pc_lowest_l1_block pc ∈ l1_inclusion_block <$> pc_frames pc;
  pc_ok_size :
    match pc_size pc with
    | None => Forall (fun f => is_last f = false) (pc_frames pc)
    | Some n => Exists (fun f => is_last f = true /\ n = u16 (frame_number f + 1)) (pc_frames pc)
    end
}.

Lemma pc_ok_new f : pc_ok (PendingChannel_new f).
Proof.
  split; cbn.
  - done.
  - apply NoDup_singleton.
  - by apply Forall_singleton.
  - apply Forall_singleton. lia.
  - by left.
  - by left.
  - destruct (is_last f) eqn:E; [by left|by apply Forall_singleton].
Qed.

Lemma has_seen_spec f (l : list Frame) :
  existsb (fun n => n =? frame_number f) (frame_number <$> l) = true <->
  frame_number f ∈ frame_number <$> l.
Proof.
  rewrite existsb_exists. setoid_rewrite Z.eqb_eq. split.
  - intros (x & Hx & <-). by apply list_elem_of_In.
  - intros Hf. exists (frame_number f). split; [by apply list_elem_of_In|done].
Qed.

Lemma push_frame_seen f pc :
  frame_number f ∈ frame_number <$> pc_frames pc -> PendingChannel_push_frame f pc = pc.
Proof. intros Hf%has_seen_spec. unfold PendingChannel_push_frame. by rewrite Hf. Qed.

(** The two ways [push_frame] goes. *)
Lemma push_frame_cases f pc :
  (frame_number f ∈ frame_number <$> pc_frames pc /\ PendingChannel_push_frame f pc = pc) \/
  (~ frame_number f ∈ frame_number <$> pc_frames pc /\
   pc_frames (PendingChannel_push_frame f pc) = pc_frames pc ++ [f] /\
   pc_size (PendingChannel_push_frame f pc) =
     (if is_last f then Some (u16 (frame_number f + 1)) else pc_size pc)).
Proof.
  destruct (decide (frame_number f ∈ frame_number <$> pc_frames pc)) as [Hin|Hin];
    [left; auto using push_frame_seen|right]. split; [done|].
  unfold PendingChannel_push_frame. rewrite <- has_seen_spec in Hin. by apply not_true_is_false in Hin as ->.
Qed.

Lemma push_frame_blocks f pc :
  pc_lowest_l1_block pc <= pc_highest_l1_block pc ->
  ~ frame_number f ∈ frame_number <$> pc_frames pc ->
  pc_highest_l1_block (PendingChannel_push_frame f pc) = Z.max (pc_highest_l1_block pc) (l1_inclusion_block f) /\
  pc_lowest_l1_block (PendingChannel_push_frame f pc) = Z.min (pc_lowest_l1_block pc) (l1_inclusion_block f).
Proof.
  intros Hle Hin. unfold PendingChannel_push_frame.
  rewrite <- has_seen_spec in Hin. apply not_true_is_false in Hin as ->. cbn.
  destruct (Z.ltb_spec (pc_highest_l1_block pc) (l1_inclusion_block f)); [lia|].
  destruct (Z.ltb_spec (l1_inclusion_block f) (pc_lowest_l1_block pc)); lia.
Qed.

Lemma push_frame_id f pc : pc_channel_id (PendingChannel_push_frame f pc) = pc_channel_id pc.
Proof. unfold PendingChannel_push_frame. by case_match. Qed.

Lemma pc_ok_low_high pc : pc_ok pc -> pc_lowest_l1_block pc <= pc_highest_l1_block pc.
Proof.
  intros Hok. destruct (pc_frames pc) as [|f l] eqn:E; [by destruct (pc_ok_frames _ Hok)|].
  pose proof (pc_ok_blocks _ Hok) as Hb. rewrite E in Hb. inversion Hb; subst. lia.
Qed.

Lemma pc_ok_push_frame f pc :
  pc_ok pc -> channel_id f = pc_channel_id pc -> pc_ok (PendingChannel_push_frame f pc).
Proof.
  intros Hok Hid. pose proof (pc_ok_low_high _ Hok) as Hle.
  destruct (push_frame_cases f pc) as [[_ ->]|(Hin & Hf & Hsz)]; [done|].
  destruct (push_frame_blocks f pc Hle Hin) as [Hhi Hlo].
  destruct Hok as [Hne Hnd Hids Hb Hh Hl Hs].
  split; rewrite ?Hf, ?Hhi, ?Hlo, ?Hsz, ?push_frame_id, ?fmap_app.
  - by destruct (pc_frames pc).
  - apply NoDup_app. split_and!; [done| |apply NoDup_singleton].
    intros x Hx ->%list_elem_of_singleton. done.
  - apply Forall_app. by rewrite Forall_singleton.
  - apply Forall_app. rewrite Forall_singleton. split; [|lia].
    eapply Forall_impl; [exact Hb|]. cbn. lia.
  - apply elem_of_app. destruct (Z.max_spec (pc_highest_l1_block pc) (l1_inclusion_block f)) as [[_ ->]|[_ ->]].
    + right. by left.
    + by left.
  - apply elem_of_app. destruct (Z.min_spec (pc_lowest_l1_block pc) (l1_inclusion_block f)) as [[_ ->]|[_ ->]].
    + by left.
    + right. by left.
  - destruct (is_last f) eqn:E; [apply Exists_app; right; by left|].
    destruct (pc_size pc); [apply Exists_app; by left|]. apply Forall_app. by rewrite Forall_singleton.
Qed.

Lemma foldl_max_spec (l : list Z) x :
  (foldl Z.max x l = x \/ foldl Z.max x l ∈ l) /\ x <= foldl Z.max x l /\
  forall y, y ∈ l -> y <= foldl Z.max x l.
Proof.
  revert x. induction l as [|z l IH]; intros x; cbn.
  - split_and!; [by left|lia|]. intros y []%elem_of_nil.
  - destruct (IH (Z.max x z)) as (Hin & Hle & Hall). split_and!; [|lia|].
    + destruct Hin as [-> | ?]; [|by right; right].
      destruct (Z.max_spec x z) as [[_ ->]|[_ ->]]; [right; by left|by left].
    + intros y [-> |Hy]%elem_of_cons; [lia|auto].
Qed.

(** The inclusion block of a channel is the highest block seen. *)
Lemma l1_inclusion_block_highest pc :
  pc_ok pc -> PendingChannel_l1_inclusion_block pc = Ok (pc_highest_l1_block pc).
Proof.
  intros Hok. pose proof (pc_ok_frames _ Hok) as Hne. pose proof (pc_ok_highest _ Hok) as Hhi.
  pose proof (pc_ok_blocks _ Hok) as Hb.
  unfold PendingChannel_l1_inclusion_block. destruct (pc_frames pc) as [|f l]; [done|]. cbn.
  f_equal. destruct (foldl_max_spec (l1_inclusion_block <$> l) (l1_inclusion_block f)) as (Hin & Hle & Hall).
  rewrite fmap_cons, elem_of_cons in Hhi. inversion Hb as [|? ? Hf Hl]; subst.
  assert (foldl Z.max (l1_inclusion_block f) (l1_inclusion_block <$> l) <= pc_highest_l1_block pc).
  { destruct Hin as [-> | (g & -> & Hg)%list_elem_of_fmap]; [lia|].
    rewrite Forall_forall in Hl. apply Hl in Hg. lia. }
  destruct Hhi as [?|Hhi%Hall]; lia.
Qed.

Lemma Channel_from_ok pc :
  pc_ok pc ->
  Channel_from pc = Ok {| chan_id := pc_channel_id pc; chan_data := assemble pc;
                          chan_l1_inclusion_block := pc_highest_l1_block pc |}.
Proof. intros Hok. unfold Channel_from. by rewrite l1_inclusion_block_highest. Qed.

(** ** Reassembly *)

(** The frames of one channel, in order. *)
Definition channel_frames (id : Z) (fs : list Frame) : Prop :=
  forall i f, fs !! i = Some f ->
    channel_id f = id /\ frame_number f = Z.of_nat i /\ is_last f = bool_decide (S i = length fs).

(** The bank's view of a channel whose frames arrive in the order [l]. *)
Definition collect (f : Frame) (l : list Frame) : PendingChannel :=
  foldl (fun pc f => PendingChannel_push_frame f pc) (PendingChannel_new f) l.

Lemma StronglySorted_lookup {A} (P : A -> A -> Prop) (l : list A) :
  (forall i j x y, (i < j)%nat -> l !! i = Some x -> l !! j = Some y -> P x y) -> StronglySorted P l.
Proof.
  induction l as [|x l IH]; intros Hl; constructor.
  - apply IH. intros i j y z Hij Hi Hj. apply (Hl (S i) (S j)); [lia|done|done].
  - apply Forall_forall. intros y [j Hj]%list_elem_of_lookup. by apply (Hl 0%nat (S j)); [lia|..].
Qed.

Section reassembly.
Context (id : Z) (fs : list Frame).
Hypothesis Hfs : channel_frames id fs.
Hypothesis Hshort : len fs < 65536.

Lemma channel_frames_inj f g : f ∈ fs -> g ∈ fs -> frame_number f = frame_number g -> f = g.
Proof.
  intros [i Hi]%list_elem_of_lookup [j Hj]%list_elem_of_lookup Hn.
  destruct (Hfs _ _ Hi) as (_ & Hi' & _), (Hfs _ _ Hj) as (_ & Hj' & _).
  assert (i = j) as -> by lia. congruence.
Qed.

Lemma channel_frames_last f : f ∈ fs -> is_last f = true -> u16 (frame_number f + 1) = len fs.
Proof.
  intros [i Hi]%list_elem_of_lookup Hl. destruct (Hfs _ _ Hi) as (_ & Hn & Hlast).
  rewrite Hl in Hlast. symmetry in Hlast. apply bool_decide_eq_true in Hlast.
  rewrite u16_small; unfold len, in_u16 in *; lia.
Qed.

Lemma channel_frames_sorted : StronglySorted (fun f g => frame_number f <= frame_number g) fs.
Proof.
  apply StronglySorted_lookup.
  intros i j f g Hij Hi Hj. destruct (Hfs _ _ Hi) as (_ & -> & _), (Hfs _ _ Hj) as (_ & -> & _). lia.
Qed.

Lemma channel_frames_NoDup : NoDup (frame_number <$> fs).
Proof.
  apply NoDup_alt. intros i j n Hi Hj.
  apply list_lookup_fmap_Some in Hi as (f & -> & Hi), Hj as (g & Hn & Hj).
  destruct (Hfs _ _ Hi) as (_ & Hi' & _), (Hfs _ _ Hj) as (_ & Hj' & _). lia.
Qed.

(** What a pending channel knows after the frames [l] have arrived. *)
Record seen (pc : PendingChannel) (l : list Frame) : Prop := {
  seen_NoDup : NoDup (frame_number <$> pc_frames pc);
  seen_frames : forall g, g ∈ pc_frames pc <-> g ∈ l;
  seen_size : pc_size pc = if existsb is_last l then Some (len fs) else None
}.

Lemma seen_new f : f ∈ fs -> seen (PendingChannel_new f) [f].
Proof.
  intros Hf. split; cbn; [apply NoDup_singleton|done|]. rewrite orb_false_r.
  destruct (is_last f) eqn:E; [|done]. by rewrite channel_frames_last.
Qed.

Lemma seen_push pc l f :
  f ∈ fs -> l ⊆ fs -> seen pc l -> seen (PendingChannel_push_frame f pc) (l ++ [f]).
Proof.
  intros Hf Hl [Hnd Hin Hsz]. destruct (push_frame_cases f pc) as [[Hs ->]|(Hs & Hfr & Hsz')].
  - apply list_elem_of_fmap in Hs as (g & Hn & Hg). apply Hin in Hg as Hgl.
    assert (f = g) as <- by (apply channel_frames_inj; auto).
    split; [done| |].
    + intros h. rewrite elem_of_app, list_elem_of_singleton, Hin. naive_solver.
    + rewrite Hsz, existsb_app. cbn. rewrite orb_false_r.
      destruct (existsb is_last l) eqn:E; [done|]. destruct (is_last f) eqn:Ef; [|done].
      exfalso. apply not_true_iff_false in E. apply E, existsb_exists.
      exists f. split; [by apply list_elem_of_In|done].
  - split.
    + rewrite Hfr, fmap_app. apply NoDup_app. split_and!; [done| |apply NoDup_singleton].
      by intros x Hx ->%list_elem_of_singleton.
    + intros h. by rewrite Hfr, !elem_of_app, Hin.
    + rewrite Hsz', Hsz, existsb_app. cbn. rewrite orb_false_r.
      destruct (is_last f) eqn:Ef; [by rewrite orb_true_r, channel_frames_last|by rewrite orb_false_r].
Qed.

Lemma seen_collect f l : f ∈ fs -> l ⊆ fs -> seen (collect f l) (f :: l).
Proof.
  intros Hf. induction l as [|g l IH] using rev_ind; intros Hl; [by apply seen_new|].
  unfold collect. rewrite foldl_app. cbn. apply (seen_push _ (f :: l)).
  - set_solver.
  - set_solver.
  - apply IH. set_solver.
Qed.

Lemma seen_all pc l : l ⊆ fs -> fs ⊆ l -> seen pc l -> pc_frames pc ≡ₚ fs.
Proof.
  intros Hl Hall [Hnd Hin _]. apply NoDup_Permutation.
  - by eapply NoDup_fmap_1.
  - eapply NoDup_fmap_1, channel_frames_NoDup.
  - set_solver.
Qed.

Lemma seen_complete pc l :
  fs <> [] -> l ⊆ fs -> seen pc l -> is_complete pc = true <-> fs ⊆ l.
Proof.
  intros Hne Hl Hseen. pose proof Hseen as [Hnd Hin Hsz]. unfold is_complete. rewrite bool_decide_eq_true, Hsz.
  assert (Hsub : pc_frames pc ⊆+ fs).
  { apply NoDup_submseteq; [by eapply NoDup_fmap_1|]. intros g Hg. apply Hl. by apply Hin. }
  pose proof (submseteq_length _ _ Hsub) as Hlen. split.
  - destruct (existsb is_last l); [|done]. intros [= Heq].
    rewrite u16_small in Heq by (unfold len, in_u16 in *; lia).
    apply submseteq_length_Permutation in Hsub; [|unfold len in *; lia].
    intros g Hg. apply Hin. by rewrite Hsub.
  - intros Hall. pose proof (seen_all pc l Hl Hall Hseen) as Hp.
    assert (existsb is_last l = true) as ->.
    { destruct (last fs) as [g|] eqn:E; [|by apply last_None in E].
      apply existsb_exists. exists g. rewrite last_lookup in E. split.
      - apply list_elem_of_In, Hall. by eapply list_elem_of_lookup_2.
      - destruct (Hfs _ _ E) as (_ & _ & ->). apply bool_decide_eq_true. destruct fs; [done|cbn; lia]. }
    f_equal. unfold len in *. rewrite Hp, u16_small; [done|unfold in_u16; lia].
Qed.

Lemma seen_assemble pc l :
  l ⊆ fs -> fs ⊆ l -> seen pc l -> assemble pc = mjoin (frame_data <$> fs).
Proof.
  intros Hl Hall Hseen. rewrite assemble_mjoin. do 2 f_equal.
  apply sort_by_key_unique; [apply (seen_NoDup _ _ Hseen)|apply channel_frames_sorted|by eapply seen_all].
Qed.
End reassembly.

(** ** The size of the bank *)

Definition pc_bytes (pc : PendingChannel) : Z := zsum (frame_data_len <$> pc_frames pc).
Definition bank_bytes (pcs : list PendingChannel) : Z := zsum (pc_bytes <$> pcs).

Lemma u32_add_u32 a b : u32 (u32 a + b) = u32 (a + b).
Proof. unfold u32. by rewrite Z.add_mod_idemp_l. Qed.

Lemma u32_add_u32_r a b : u32 (a + u32 b) = u32 (a + b).
Proof. unfold u32. by rewrite Z.add_mod_idemp_r. Qed.

Lemma foldl_u32 {A} (g : A -> Z) (l : list A) a :
  foldl (fun a x => u32 (a + g x)) (u32 a) l = u32 (a + zsum (g <$> l)).
Proof.
  revert a. induction l as [|x l IH]; intros a; cbn [foldl fmap list_fmap]; [by rewrite Z.add_0_r|].
  rewrite u32_add_u32, IH, zsum_cons. f_equal. lia.
Qed.

(** The code's total is the number of bytes, in 32 bits. *)
Lemma total_size_u32 pcs : total_size pcs = u32 (bank_bytes pcs).
Proof.
  unfold total_size. change 0 with (u32 0) at 1.
  rewrite (foldl_u32 (fun n => n)), list_fmap_id, Z.add_0_l. unfold bank_bytes.
  assert (Hpc : forall p, foldl (fun a f => u32 (a + frame_data_len f)) 0 (pc_frames p) = u32 (pc_bytes p)).
  { intros p. change 0 with (u32 0) at 1. by rewrite foldl_u32. }
  induction pcs as [|p pcs IH]; [done|]. rewrite !fmap_cons, !zsum_cons, Hpc, u32_add_u32.
  by rewrite <- u32_add_u32_r, IH, u32_add_u32_r.
Qed.

(** What [prune] leaves: drop the oldest channel until the rest fits. *)
Fixpoint drop_oldest (max : Z) (pcs : list PendingChannel) : list PendingChannel :=
  if max <? total_size pcs then match pcs with [] => [] | _ :: pcs => drop_oldest max pcs end else pcs.

Lemma drop_oldest_suffix max pcs : exists dropped, pcs = dropped ++ drop_oldest max pcs.
Proof.
  induction pcs as [|pc pcs [d IH]]; cbn; [exists []; by case_match|].
  destruct (max <? _); [exists (pc :: d); by rewrite IH at 1|by exists []].
Qed.

Lemma drop_oldest_fits max pcs : 0 <= max -> total_size (drop_oldest max pcs) <= max.
Proof.
  intros Hmax. induction pcs as [|pc pcs IH]; cbn [drop_oldest]; [by case_match|].
  destruct (Z.ltb_spec max (total_size (pc :: pcs))); [done|lia].
Qed.

(** No channel is dropped without need. *)
Lemma drop_oldest_least max pcs d1 d2 :
  pcs = d1 ++ d2 -> (length (drop_oldest max pcs) < length d2)%nat -> max < total_size d2.
Proof.
  revert d1. induction pcs as [|pc pcs IH]; intros d1 Heq Hlt.
  - symmetry in Heq. apply app_eq_nil in Heq as [-> ->]. cbn in Hlt. case_match; cbn in Hlt; lia.
  - cbn [drop_oldest] in Hlt. destruct (Z.ltb_spec max (total_size (pc :: pcs))).
    + destruct d1 as [|x d1]; cbn in Heq; [by subst|]. injection Heq as -> Heq. eauto.
    + apply (f_equal length) in Heq. rewrite length_app in Heq. cbn in *. lia.
Qed.

Section bank.
Context {R I : Type} `{it : PurgeableIterator R I BatcherTransaction}.
Implicit Types s : Channels I.

Lemma prune_body_eq s :
  0 <= ch_max_channel_size s ->
  prune_body s =
    if ch_max_channel_size s <? total_size (pending_channels s)
    then Ok (inl (set_pending (tail (pending_channels s)) s)) else Ok (inr s).
Proof.
  intros Hmax. unfold prune_body, Channels_remove.
  destruct (pending_channels s); cbn; [|done]. change (total_size []) with 0.
  destruct (Z.ltb_spec (ch_max_channel_size s) 0); [lia|done].
Qed.

Lemma prune_loop_drop_oldest n s :
  0 <= ch_max_channel_size s -> (length (pending_channels s) < n)%nat ->
  loop n prune_body s = Ok (set_pending (drop_oldest (ch_max_channel_size s) (pending_channels s)) s).
Proof.
  revert s. induction n as [|n IH]; intros s Hmax Hn; [lia|].
  cbn [loop]. rewrite prune_body_eq by done.
  destruct s as [i pcs bank max timeout]; cbn [ch_max_channel_size pending_channels] in *.
  destruct pcs as [|pc pcs]; cbn [drop_oldest].
  - change (total_size []) with 0. destruct (Z.ltb_spec max 0); [lia|done].
  - destruct (max <? total_size (pc :: pcs)); [|done]. rewrite bind_ret, IH; [done|done|].
    cbn in *. lia.
Qed.

Lemma prune_drop_oldest s :
  0 <= ch_max_channel_size s ->
  Channels_prune s = Ok (set_pending (drop_oldest (ch_max_channel_size s) (pending_channels s)) s).
Proof. intros. unfold Channels_prune. apply prune_loop_drop_oldest; [done|lia]. Qed.
End bank.

(** ** The invariant of the bank *)

Definition within_timeout (timeout : Z) (pc : PendingChannel) : Prop :=
  pc_highest_l1_block pc - pc_lowest_l1_block pc <= timeout.

Record pending_ok (max timeout : Z) (pcs : list PendingChannel) : Prop := {
  pending_ok_ids : NoDup (pc_channel_id <$> pcs);
  pending_ok_pcs : Forall pc_ok pcs;
  pending_ok_time : Forall (within_timeout timeout) pcs;
  pending_ok_frames : Forall (fun pc => Forall (frame_fits max) (pc_frames pc)) pcs
}.

Lemma bank_bytes_app l k : bank_bytes (l ++ k) = bank_bytes l + bank_bytes k.
Proof. unfold bank_bytes. by rewrite fmap_app, zsum_app. Qed.

Lemma bank_bytes_cons pc pcs : bank_bytes (pc :: pcs) = pc_bytes pc + bank_bytes pcs.
Proof. done. Qed.

Lemma pc_bytes_nonneg max pc : Forall (frame_fits max) (pc_frames pc) -> 0 <= pc_bytes pc.
Proof.
  unfold pc_bytes. induction 1 as [|f l Hf Hl IH]; [done|].
  rewrite fmap_cons, zsum_cons. destruct Hf. lia.
Qed.

Lemma bank_bytes_nonneg max timeout pcs : pending_ok max timeout pcs -> 0 <= bank_bytes pcs.
Proof.
  intros [_ _ _ Hf]. induction Hf as [|pc pcs Hpc Hpcs IH]; [done|].
  rewrite bank_bytes_cons. apply pc_bytes_nonneg in Hpc. lia.
Qed.

Lemma pending_ok_nil max timeout : pending_ok max timeout [].
Proof. split; constructor. Qed.

Lemma pending_ok_cons max timeout pc pcs :
  pending_ok max timeout (pc :: pcs) <->
  (~ pc_channel_id pc ∈ pc_channel_id <$> pcs /\ pc_ok pc /\ within_timeout timeout pc /\
   Forall (frame_fits max) (pc_frames pc)) /\ pending_ok max timeout pcs.
Proof.
  split.
  - intros [Hid Hpc Ht Hf]. rewrite fmap_cons, NoDup_cons in Hid.
    rewrite Forall_cons in Hpc, Ht, Hf. split; [naive_solver|split; naive_solver].
  - intros [(? & ? & ? & ?) [Hid Hpc Ht Hf]]. split; rewrite ?fmap_cons, ?NoDup_cons, ?Forall_cons; auto.
Qed.

(** The order of the channels does not matter to the invariant, nor to the size. *)
#[export] Instance pending_ok_proper max timeout : Proper ((≡ₚ) ==> iff) (pending_ok max timeout).
Proof.
  intros l k Hp. split; intros [Hid Hpc Ht Hf]; (split; [by rewrite Hp in * || rewrite <- Hp in *|..]);
    by rewrite Hp in * || rewrite <- Hp in *.
Qed.

#[export] Instance bank_bytes_proper : Proper ((≡ₚ) ==> eq) bank_bytes.
Proof.
  intros l k Hp. induction Hp; rewrite ?bank_bytes_cons; lia.
Qed.

Lemma insert_delete_perm {A} (l : list A) i x y : l !! i = Some x -> <[i := y]> l ≡ₚ y :: delete i l.
Proof.
  revert i. induction l as [|z l IH]; intros [|i] Hi; cbn in *; simplify_eq; [done|].
  rewrite (IH i Hi). apply Permutation_swap.
Qed.

Lemma pending_ok_suffix max timeout d pcs : pending_ok max timeout (d ++ pcs) -> pending_ok max timeout pcs.
Proof. induction d as [|pc d IH]; [done|]. cbn. rewrite pending_ok_cons. tauto. Qed.

Lemma push_frame_fits max f pc :
  Forall (frame_fits max) (pc_frames pc) -> frame_fits max f ->
  Forall (frame_fits max) (pc_frames (PendingChannel_push_frame f pc)) /\
  pc_bytes (PendingChannel_push_frame f pc) <= pc_bytes pc + frame_data_len f.
Proof.
  intros Hpc Hf. pose proof (frame_fits_len _ _ Hf).
  destruct (push_frame_cases f pc) as [[_ ->]|(_ & Hfr & _)]; [split; [done|lia]|].
  unfold pc_bytes. rewrite Hfr, fmap_app, zsum_app, Forall_app, Forall_singleton.
  split; [done|]. cbn. rewrite zsum_cons. change (zsum []) with 0. lia.
Qed.

(** The time out test, without the wrap of the subtraction. *)
Lemma is_timed_out_spec max timeout pc :
  pc_ok pc -> Forall (frame_fits max) (pc_frames pc) ->
  is_timed_out pc timeout = false <-> within_timeout timeout pc.
Proof.
  intros Hok Hf. unfold is_timed_out, within_timeout. rewrite Z.ltb_ge.
  pose proof (pc_ok_low_high _ Hok).
  assert (Hu : forall b, b ∈ l1_inclusion_block <$> pc_frames pc -> in_u64 b).
  { intros b (f & -> & Hin)%list_elem_of_fmap. rewrite Forall_forall in Hf. by apply Hf. }
  pose proof (Hu _ (pc_ok_highest _ Hok)) as Hh. pose proof (Hu _ (pc_ok_lowest _ Hok)) as Hl.
  unfold in_u64 in *. rewrite u64_sub_small by (unfold in_u64; lia). lia.
Qed.

Section bank_invariant.
Context {R I : Type} `{it : PurgeableIterator R I BatcherTransaction}.
Implicit Types s : Channels I.

Record bank_ok s : Prop := {
  bank_ok_max : 0 <= ch_max_channel_size s;
  bank_ok_timeout : 0 <= ch_channel_timeout s;
  bank_ok_pending : pending_ok (ch_max_channel_size s) (ch_channel_timeout s) (pending_channels s);
  bank_ok_size : bank_bytes (pending_channels s) <= ch_max_channel_size s;
  bank_ok_bank : Forall (frame_fits (ch_max_channel_size s)) (frame_bank s)
}.

(** A new frame: nothing but its channel changes. *)
Lemma push_frame_pending f s :
  bank_ok s -> frame_fits (ch_max_channel_size s) f ->
  let pcs := pending_channels (Channels_push_frame f s) in
  Channels_push_frame f s = set_pending pcs s /\
  pending_ok (ch_max_channel_size s) (ch_channel_timeout s) pcs /\
  bank_bytes pcs <= bank_bytes (pending_channels s) + frame_data_len f.
Proof.
  intros [_ Ht Hp _ _] Hf. unfold Channels_push_frame.
  destruct (list_find _ _) as [[i pc]|] eqn:E.
  - apply list_find_Some in E as (Hi & Hid & _).
    pose proof Hp as Hp'. rewrite (delete_Permutation _ _ _ Hi), pending_ok_cons in Hp'.
    destruct Hp' as [(Hnot & Hpc & Hw & Hfr) Hrest].
    destruct (push_frame_fits _ _ _ Hfr Hf) as [Hfr' Hb].
    pose proof (pc_ok_push_frame f pc Hpc (eq_sym Hid)) as Hpc'.
    pose proof (pc_bytes_nonneg _ _ Hfr). pose proof (frame_fits_len _ _ Hf).
    pose proof (bank_bytes_proper _ _ (delete_Permutation _ _ _ Hi)) as Hsum. rewrite bank_bytes_cons in Hsum.
    destruct (is_timed_out _ _) eqn:Et; cbn; (split; [done|]).
    + split; [done|lia].
    + apply (is_timed_out_spec _ _ _ Hpc' Hfr') in Et.
      rewrite (insert_delete_perm _ _ _ _ Hi), bank_bytes_cons, pending_ok_cons, push_frame_id.
      split; [done|lia].
  - apply list_find_None in E. cbn. split; [done|].
    rewrite (Permutation_app_comm (pending_channels s)). cbn [app].
    rewrite bank_bytes_cons, pending_ok_cons. split; [|unfold pc_bytes; cbn; rewrite zsum_cons; change (zsum []) with 0; lia].
    split; [|done]. split_and!; [|apply pc_ok_new|unfold within_timeout; cbn; lia|by apply Forall_singleton].
    intros (pc & Hpc & Hin)%list_elem_of_fmap. rewrite Forall_forall in E. by apply (E pc Hin).
Qed.

(** Pruning restores the size bound. *)
Lemma drop_oldest_ok max timeout pcs :
  0 <= max -> pending_ok max timeout pcs -> bank_bytes pcs < 4294967296 ->
  pending_ok max timeout (drop_oldest max pcs) /\ bank_bytes (drop_oldest max pcs) <= max.
Proof.
  intros Hmax Hp Hb. pose proof (drop_oldest_fits max pcs Hmax) as Hfit.
  destruct (drop_oldest_suffix max pcs) as [d Hd].
  assert (Hp' : pending_ok max timeout (drop_oldest max pcs)).
  { rewrite Hd in Hp. by apply pending_ok_suffix in Hp. }
  split; [done|]. rewrite total_size_u32, u32_small in Hfit; [done|].
  pose proof (bank_bytes_nonneg _ _ _ Hp'). unfold in_u32. split; [done|].
  assert (0 <= bank_bytes d).
  { apply (bank_bytes_nonneg max timeout). rewrite Hd in Hp.
    rewrite Permutation_app_comm in Hp. by apply pending_ok_suffix in Hp. }
  rewrite Hd, bank_bytes_app in Hb. lia.
Qed.

(** A channel the stage may yield. *)
Definition channel_post (max timeout : Z) (ch : Channel) : Prop :=
  exists pc, pc_ok pc /\ is_complete pc = true /\ within_timeout timeout pc /\
    Forall (frame_fits max) (pc_frames pc) /\
    ch = {| chan_id := pc_channel_id pc; chan_data := assemble pc;
            chan_l1_inclusion_block := pc_highest_l1_block pc |}.

(** What only [new] and the iterator before this one change. *)
Definition same_params s s' : Prop :=
  batcher_tx_iter s' = batcher_tx_iter s /\
  ch_max_channel_size s' = ch_max_channel_size s /\ ch_channel_timeout s' = ch_channel_timeout s.

Lemma fetch_ready_channel_ok id s :
  bank_ok s -> exists o s', fetch_ready_channel id s = Ok (o, s') /\ bank_ok s' /\
    frame_bank s' = frame_bank s /\ same_params s s' /\
    match o with
    | None => s' = s
    | Some ch => chan_id ch = id /\ channel_post (ch_max_channel_size s) (ch_channel_timeout s) ch
    end.
Proof.
  intros Hok. pose proof Hok as [Hm Ht Hp Hb Hf]. unfold fetch_ready_channel.
  destruct (list_find _ _) as [[i pc]|] eqn:E; [|by exists None, s].
  apply list_find_Some in E as (Hi & [Hid Hc] & _).
  pose proof (bank_bytes_proper _ _ (delete_Permutation _ _ _ Hi)) as Hsum. rewrite bank_bytes_cons in Hsum.
  rewrite (delete_Permutation _ _ _ Hi), pending_ok_cons in Hp. destruct Hp as [(_ & Hpc & Hw & Hfr) Hrest].
  pose proof (pc_bytes_nonneg _ _ Hfr).
  rewrite Channel_from_ok by done. rewrite bind_ret. do 2 eexists.
  split; [done|]. split; [by split; cbn; try done; lia|]. split_and!; try done. by exists pc.
Qed.

Lemma process_frames_body_ok s :
  bank_ok s -> exists r, process_frames_body s = Ok r /\
  match r with
  | inl s' => exists f bank, frame_bank s = f :: bank /\ frame_bank s' = bank /\
      bank_ok s' /\ same_params s s'
  | inr (None, s') => frame_bank s = [] /\ s' = s
  | inr (Some ch, s') => exists f bank, frame_bank s = f :: bank /\ frame_bank s' = bank /\
      bank_ok s' /\ same_params s s' /\ chan_id ch = channel_id f /\
      channel_post (ch_max_channel_size s) (ch_channel_timeout s) ch
  end.
Proof.
  intros Hok. unfold process_frames_body. destruct (frame_bank s) as [|f bank] eqn:Eb; [by exists (inr (None, s))|].
  pose proof Hok as [Hm Ht Hp Hb Hbank]. rewrite Eb, Forall_cons in Hbank. destruct Hbank as [Hf Hbank].
  assert (Hok1 : bank_ok (set_bank bank s)) by (split; done).
  destruct (push_frame_pending f (set_bank bank s) Hok1 Hf) as (Hs & Hp2 & Hb2).
  rewrite Hs. set (pcs := pending_channels (Channels_push_frame _ _)) in *. cbn in Hp2, Hb2.
  rewrite prune_drop_oldest by done. rewrite bind_ret. cbn.
  destruct (drop_oldest_ok _ _ pcs Hm Hp2) as [Hp3 Hb3]; [destruct Hf; lia|].
  destruct (fetch_ready_channel_ok (channel_id f)
    (set_pending (drop_oldest (ch_max_channel_size s) pcs) (set_pending pcs (set_bank bank s))))
    as (o & s' & Hr & Hok' & Hbk & (Hit & Hmax' & Hto') & Hpost); [by split|].
  rewrite Hr, bind_ret. destruct o as [ch|].
  - eexists. split; [done|]. exists f, bank. destruct Hpost. by split_and!.
  - eexists. split; [done|]. exists f, bank. by split_and!.
Qed.


Definition bank_result s (o : option Channel) s' : Prop :=
  bank_ok s' /\ same_params s s' /\
  match o with
  | None => frame_bank s' = []
  | Some ch => channel_post (ch_max_channel_size s) (ch_channel_timeout s) ch /\
      exists fs f, frame_bank s = fs ++ f :: frame_bank s' /\ chan_id ch = channel_id f
  end.

Lemma process_loop_ok n s :
  (length (frame_bank s) < n)%nat -> bank_ok s ->
  exists o s', loop n process_frames_body s = Ok (o, s') /\ bank_result s o s'.
Proof.
  revert s. induction n as [|n IH]; intros s Hlt Hok; [lia|]. cbn [loop].
  destruct (process_frames_body_ok s Hok) as ([s1|[[ch|] s1]] & Hr & Hcase); rewrite Hr, bind_ret.
  - destruct Hcase as (f & bank & Hb & Hb1 & Hok1 & (Hp1 & Hp2 & Hp3)).
    rewrite Hb in Hlt. cbn in Hlt.
    destruct (IH s1) as (o & s' & Hl & Hok' & (Hq1 & Hq2 & Hq3) & Hpost); [by rewrite Hb1; lia|done|].
    rewrite Hp2, Hp3 in Hpost.
    exists o, s'. split; [exact Hl|]. split; [done|]. split; [split_and!; congruence|].
    destruct o as [ch|]; [|done]. destruct Hpost as (Hpost & fs & f' & Hfs & Hid). split; [done|].
    exists (f :: fs), f'. by rewrite Hb, <- Hb1, Hfs.
  - destruct Hcase as (f & bank & Hb & Hb1 & Hok1 & Hp & Hid & Hpost).
    exists (Some ch), s1. split; [done|]. split; [done|]. split; [done|]. split; [done|].
    exists [], f. by rewrite Hb1.
  - destruct Hcase as [Hb ->]. by exists None, s.
Qed.

(** [process_bank] ends, without a panic. *)
Lemma process_bank_ok s :
  bank_ok s -> exists o s', process_bank s = (Ok o, s') /\ bank_result s o s'.
Proof.
  intros Hok. unfold process_bank.
  destruct (process_loop_ok (S (length (frame_bank s))) s) as (o & s' & Hl & Hres); [lia|done|].
  exists o, s'. by rewrite Hl.
Qed.

Lemma fill_bank_eq r s :
  fill_bank r s =
    match next r (batcher_tx_iter s) with
    | (Ok (Some tx), i) => (Ok tt, set_bank (frame_bank s ++ frames tx) (set_iter i s))
    | (Ok None, i) => (Ok tt, set_iter i s)
    | (Err e, i) => (Err e, set_iter i s)
    | (Panic, i) => (Panic, set_iter i s)
    | (Diverge, i) => (Diverge, set_iter i s)
    end.
Proof.
  unfold fill_bank, zoom, mbind, M_bind.
  destruct (next r (batcher_tx_iter s)) as [[[tx|]| | |] i]; done.
Qed.

Lemma process_frames_ok r s tx i :
  bank_ok s -> next r (batcher_tx_iter s) = (Ok tx, i) ->
  Forall (frame_fits (ch_max_channel_size s)) (default [] (frames <$> tx)) ->
  exists o s', process_frames r s = (Ok o, s') /\
    bank_result (set_bank (frame_bank s ++ default [] (frames <$> tx)) (set_iter i s)) o s'.
Proof.
  intros [Hm Ht Hp Hb Hf] Hi Htx. unfold process_frames, mbind at 1, M_bind. rewrite fill_bank_eq, Hi.
  set (s1 := set_bank _ _). assert (Hok : bank_ok s1) by (split; try done; by apply Forall_app).
  destruct (process_bank_ok s1 Hok) as (o & s' & Hs & Hres).
  exists o, s'. split; [|done]. rewrite <- Hs. unfold s1.
  destruct tx as [tx|]; [done|]. cbn. by rewrite app_nil_r.
Qed.

(** The contract of the stage, from the contract of the iterator before it. *)
Definition channels_inv (Inv : I -> Prop) (max timeout : Z) s : Prop :=
  Inv (batcher_tx_iter s) /\ bank_ok s /\ ch_max_channel_size s = max /\ ch_channel_timeout s = timeout.

Lemma process_frames_inv (Inv : I -> Prop) max timeout `{!IteratorContract it Inv (tx_fits max)} r s o s' :
  channels_inv Inv max timeout s -> process_frames r s = (o, s') ->
  channels_inv Inv max timeout s' /\ match o with Ok (Some ch) => channel_post max timeout ch | _ => True end.
Proof.
  intros (Hi & Hok & <- & <-) H. destruct (next r (batcher_tx_iter s)) as [ro i] eqn:En.
  pose proof (next_inv _ _ _ _ Hi En) as Hinv.
  destruct ro as [tx|e| |].
  - destruct (process_frames_ok r s tx i Hok En) as (o' & s1 & Hs & Hok' & (Hp1 & Hp2 & Hp3) & Hres).
    { destruct tx as [tx|]; [|constructor].
      change (tx_fits (ch_max_channel_size s) tx). exact (next_post _ _ _ _ Hi En). }
    rewrite Hs in H. simplify_eq. split; [|destruct o'; [by destruct Hres|done]].
    split; [by rewrite Hp1|]. split; [done|]. by rewrite Hp2, Hp3.
  - unfold process_frames, mbind, M_bind in H. rewrite fill_bank_eq, En in H. simplify_eq.
    by destruct Hok.
  - unfold process_frames, mbind, M_bind in H. rewrite fill_bank_eq, En in H. simplify_eq.
    by destruct Hok.
  - unfold process_frames, mbind, M_bind in H. rewrite fill_bank_eq, En in H. simplify_eq.
    by destruct Hok.
Qed.

#[export] Instance Channels_contract (Inv : I -> Prop) max timeout `{!IteratorContract it Inv (tx_fits max)} :
    IteratorContract Channels_iter (channels_inv Inv max timeout) (channel_post max timeout).
Proof.
  split.
  - intros r s o s' Hs H. by destruct (process_frames_inv Inv max timeout r s o s' Hs H).
  - intros r s x s' Hs H. by destruct (process_frames_inv Inv max timeout r s _ s' Hs H).
  - intros r s (Hi & [Hm Ht _ _ _] & <- & <-). split_and!; [by apply purge_inv| |done|done].
    split; cbn; [done|done|apply pending_ok_nil|done|constructor].
Qed.
End bank_invariant.

Lemma channels_inv_new {I} (Inv : I -> Prop) i config :
  Inv i -> 0 <= max_channel_size (chain config) -> 0 <= channel_timeout (chain config) ->
  channels_inv Inv (max_channel_size (chain config)) (channel_timeout (chain config)) (Channels_new i config).
Proof.
  intros Hi Hm Ht. split_and!; [done| |done|done].
  split; cbn; [done|done|apply pending_ok_nil|done|constructor].
Qed.

(** ** The bank as a map *)

Definition bank_map (pcs : list PendingChannel) : gmap Z PendingChannel :=
  list_to_map ((fun pc => (pc_channel_id pc, pc)) <$> pcs).

#[global] Arguments bank_map : simpl never.

Lemma bank_map_fst pcs : ((fun pc => (pc_channel_id pc, pc)) <$> pcs).*1 = pc_channel_id <$> pcs.
Proof. by rewrite <- list_fmap_compose. Qed.

Lemma bank_map_perm l k : NoDup (pc_channel_id <$> l) -> l ≡ₚ k -> bank_map l = bank_map k.
Proof. intros Hnd Hp. apply list_to_map_proper; [by rewrite bank_map_fst|by rewrite Hp]. Qed.

Lemma bank_map_None id pcs : bank_map pcs !! id = None <-> ~ id ∈ pc_channel_id <$> pcs.
Proof. unfold bank_map. by rewrite <- not_elem_of_list_to_map, bank_map_fst. Qed.

(** What the arrival of a frame makes of its channel. *)
Definition arrive (timeout : Z) (f : Frame) (o : option PendingChannel) : option PendingChannel :=
  let pc := match o with Some pc => PendingChannel_push_frame f pc | None => PendingChannel_new f end in
  if is_timed_out pc timeout then None else Some pc.

Lemma partial_alter_insert_fresh {V} (g : option V -> option V) (m : gmap Z V) i x :
  m !! i = None -> partial_alter g i (<[i := x]> m) = match g (Some x) with Some y => <[i := y]> m | None => m end.
Proof.
  intros Hi. apply map_eq. intros j. destruct (decide (i = j)) as [<-|Hne].
  - rewrite lookup_partial_alter, decide_True, lookup_insert, decide_True by done.
    destruct (g (Some x)); [by rewrite lookup_insert, decide_True|done].
  - rewrite lookup_partial_alter_ne, lookup_insert_ne by done.
    destruct (g (Some x)); [by rewrite lookup_insert_ne|done].
Qed.

Lemma push_frame_bank_map {I} f (s : Channels I) :
  0 <= ch_channel_timeout s -> NoDup (pc_channel_id <$> pending_channels s) ->
  bank_map (pending_channels (Channels_push_frame f s)) =
    partial_alter (arrive (ch_channel_timeout s) f) (channel_id f) (bank_map (pending_channels s)).
Proof.
  intros Ht Hnd. unfold Channels_push_frame. destruct (list_find _ _) as [[i pc]|] eqn:E.
  - apply list_find_Some in E as (Hi & Hid & _).
    pose proof (delete_Permutation _ _ _ Hi) as Hp. pose proof Hnd as Hnd'. rewrite Hp in Hnd'.
    cbn in Hnd'. apply NoDup_cons in Hnd' as [Hnot Hnd'].
    rewrite (bank_map_perm _ _ Hnd Hp). unfold bank_map at 2. cbn. rewrite Hid in *.
    rewrite partial_alter_insert_fresh by by apply bank_map_None. cbn.
    unfold arrive. destruct (is_timed_out _ _); [done|]. cbn.
    rewrite (bank_map_perm _ (PendingChannel_push_frame f pc :: delete i (pending_channels s))).
    + unfold bank_map. cbn. by rewrite push_frame_id, Hid.
    + rewrite (insert_delete_perm _ _ _ _ Hi), fmap_cons, push_frame_id, Hid. by constructor.
    + by apply insert_delete_perm with (x := pc).
  - apply list_find_None in E. cbn.
    assert (Hnot : ~ channel_id f ∈ pc_channel_id <$> pending_channels s).
    { intros (pc & Hpc & Hin)%list_elem_of_fmap. rewrite Forall_forall in E. by apply (E pc Hin). }
    rewrite (bank_map_perm _ (PendingChannel_new f :: pending_channels s)).
    + unfold bank_map at 1. cbn. change (list_to_map _) with (bank_map (pending_channels s)).
      apply map_eq. intros j. destruct (decide (channel_id f = j)) as [<-|Hne].
      * rewrite lookup_partial_alter, decide_True, lookup_insert, decide_True by done.
        rewrite (proj2 (bank_map_None _ _) Hnot). unfold arrive, is_timed_out. cbn.
        rewrite u64_sub_small, Z.sub_diag by (rewrite Z.sub_diag; done).
        destruct (Z.ltb_spec (ch_channel_timeout s) 0); [lia|done].
      * by rewrite lookup_partial_alter_ne, lookup_insert_ne.
    + rewrite fmap_app. cbn. rewrite Permutation_app_comm. cbn. by constructor.
    + by rewrite Permutation_app_comm.
Qed.

(** ** Completeness *)

Lemma NoDup_range_perm (l : list Z) (n : nat) :
  NoDup l -> length l = n -> Forall (fun x => 0 <= x < Z.of_nat n) l -> l ≡ₚ seqZ 0 (Z.of_nat n).
Proof.
  intros Hnd Hlen Hall. apply submseteq_length_Permutation.
  - apply NoDup_submseteq; [done|]. intros x Hx. apply elem_of_seqZ.
    rewrite Forall_forall in Hall. apply Hall in Hx. lia.
  - rewrite length_seqZ. lia.
Qed.

(** The frames of a complete channel are those numbered from zero to the last
    one, unless a number is beyond the last. *)
Lemma complete_numbers pc :
  pc_ok pc -> Forall (fun f => in_u16 (frame_number f)) (pc_frames pc) -> len (pc_frames pc) < 65536 ->
  is_complete pc = true ->
  exists n, pc_size pc = Some n /\ len (pc_frames pc) = n /\
    (Forall (fun f => frame_number f < n) (pc_frames pc) -> frame_number <$> pc_frames pc ≡ₚ seqZ 0 n).
Proof.
  intros Hok Hnum Hlen Hc. unfold is_complete in Hc. apply bool_decide_eq_true in Hc.
  rewrite u16_small in Hc by (pose proof (len_nonneg (pc_frames pc)); unfold in_u16; lia).
  eexists. split; [exact Hc|]. split; [done|]. intros Hall.
  apply NoDup_range_perm; [apply (pc_ok_numbers _ Hok)|by rewrite length_fmap|].
  apply Forall_fmap. rewrite Forall_forall in *. intros f Hf. cbn.
  split; [apply (Hnum f Hf)|exact (Hall f Hf)].
Qed.

(** ** Properties *)

(** C17. Reassembly.  Whatever the order in which the frames of one channel arrive,
    and however often a frame is repeated, the pending channel is complete exactly
    when all the frames have arrived, and the data assembled then is the
    concatenation of the frames' data in the order of their numbers. *)
Theorem collect_reassembles id fs f l :
  channel_frames id fs -> len fs < 65536 -> f :: l ⊆ fs ->
  (is_complete (collect f l) = true <-> fs ⊆ f :: l) /\
  (is_complete (collect f l) = true -> assemble (collect f l) = mjoin (frame_data <$> fs)).
Proof.
  intros Hfs Hlen Hl.
  assert (Hseen : seen fs (collect f l) (f :: l)) by (eapply (seen_collect id); [done|done|set_solver..]).
  assert (Hiff : is_complete (collect f l) = true <-> fs ⊆ f :: l).
  { eapply (seen_complete id); try done. intros ->. set_solver. }
  split; [done|]. intros Hc%Hiff. by eapply (seen_assemble id).
Qed.

(** Completeness is a count of frames: a channel reported as complete has as
    many frames as the number of its last frame says, and if no frame is numbered
    beyond the last they are exactly the frames 0, 1, ..., n-1.  A frame numbered
    beyond the last is not refused, and such a channel is complete with a frame
    missing. *)
Theorem is_complete_frames :
  (forall pc, pc_ok pc -> Forall (fun f => in_u16 (frame_number f)) (pc_frames pc) ->
     len (pc_frames pc) < 65536 -> is_complete pc = true ->
     exists n, pc_size pc = Some n /\ len (pc_frames pc) = n /\
       (Forall (fun f => frame_number f < n) (pc_frames pc) -> frame_number <$> pc_frames pc ≡ₚ seqZ 0 n)) /\
  (exists f g, let pc := collect f [g] in
     pc_ok pc /\ is_complete pc = true /\ ~ 0 ∈ frame_number <$> pc_frames pc).
Proof.
  split; [apply complete_numbers|].
  exists {| channel_id := 5; frame_number := 1; frame_data_len := 0; frame_data := []; is_last := true;
            l1_inclusion_block := 0 |},
         {| channel_id := 5; frame_number := 7; frame_data_len := 0; frame_data := []; is_last := false;
            l1_inclusion_block := 0 |}.
  split; [by apply pc_ok_push_frame; [apply pc_ok_new|]|]. split; [done|].
  apply (bool_decide_unpack _). by vm_compute.
Qed.

(** The bank is a map from channel ids: a frame is added to the channel of its
    id, which is created if there is none and dropped if the frame makes it span
    more L1 blocks than the timeout; no other channel is touched. *)
Theorem Channels_push_frame_routes {I} f (s : Channels I) :
  bank_ok s ->
  bank_map (pending_channels (Channels_push_frame f s)) =
    partial_alter (arrive (ch_channel_timeout s) f) (channel_id f) (bank_map (pending_channels s)).
Proof. intros [_ Ht Hp _ _]. apply push_frame_bank_map; [done|apply Hp]. Qed.

(** C19. Pruning never fails.  It drops the oldest channels, and the least number of
    them, until the total size the code computes is within the limit. *)
Theorem Channels_prune_least {I} (s : Channels I) :
  0 <= ch_max_channel_size s ->
  exists dropped pcs, pending_channels s = dropped ++ pcs /\
    Channels_prune s = Ok (set_pending pcs s) /\
    total_size pcs <= ch_max_channel_size s /\
    forall d1 d2, pending_channels s = d1 ++ d2 -> (length pcs < length d2)%nat ->
      ch_max_channel_size s < total_size d2.
Proof.
  intros Hmax. destruct (drop_oldest_suffix (ch_max_channel_size s) (pending_channels s)) as [d Hd].
  exists d, (drop_oldest (ch_max_channel_size s) (pending_channels s)). split_and!; [done| | |].
  - by apply prune_drop_oldest.
  - by apply drop_oldest_fits.
  - intros d1 d2 Hs. by apply (drop_oldest_least _ _ d1).
Qed.

(** C18. Safety of the stage.  While the bank is well formed (distinct channel ids, no
    frame twice in a channel, every channel within the timeout, at most
    [max_channel_size] bytes) and the next batcher transaction has frames that fit,
    [next] ends without a panic and the bank is well formed again.  It yields a
    channel only when the frame just taken completed it, and [None] only when the
    frame bank is empty. *)
Theorem Channels_next_safe {R I} `{it : PurgeableIterator R I BatcherTransaction} r (s : Channels I) tx i :
  bank_ok s -> next r (batcher_tx_iter s) = (Ok tx, i) ->
  Forall (frame_fits (ch_max_channel_size s)) (default [] (frames <$> tx)) ->
  exists o s', process_frames r s = (Ok o, s') /\
    bank_result (set_bank (frame_bank s ++ default [] (frames <$> tx)) (set_iter i s)) o s'.
Proof. apply process_frames_ok. Qed.

(** ** Witnesses *)

(** Three frames of a channel, as a batcher would send them. *)
Definition example_frames : list Frame :=
  [{| channel_id := 5; frame_number := 0; frame_data_len := 2; frame_data := [1; 2]; is_last := false;
      l1_inclusion_block := 43 |};
   {| channel_id := 5; frame_number := 1; frame_data_len := 1; frame_data := [3]; is_last := false;
      l1_inclusion_block := 45 |};
   {| channel_id := 5; frame_number := 2; frame_data_len := 2; frame_data := [4; 5]; is_last := true;
      l1_inclusion_block := 44 |}].

Definition example_frame_at (i : nat) : Frame := nth i example_frames example_frame.

Lemma example_channel_frames : channel_frames 5 example_frames.
Proof. intros [|[|[|i]]] f Hf; cbn in Hf; by simplify_eq. Qed.

Lemma collect_reassembles_witness :
  assemble (collect (example_frame_at 2) [example_frame_at 0; example_frame_at 2; example_frame_at 1]) = [1; 2; 3; 4; 5].
Proof.
  assert (H : example_frame_at 2 :: [example_frame_at 0; example_frame_at 2; example_frame_at 1] ⊆ example_frames)
    by by_compute.
  apply (collect_reassembles 5 example_frames _ _ example_channel_frames eq_refl H).
  apply (collect_reassembles 5 example_frames _ _ example_channel_frames eq_refl H). by_compute.
Defined.

Definition example_bank : Channels BatcherTransactions :=
  {| batcher_tx_iter := BatcherTransactions_new
       [{| msg_txs := [0 :: encode_frame (example_frame_at 2)]; msg_l1_origin := 44 |}];
     pending_channels := [collect (example_frame_at 0) [example_frame_at 1]];
     frame_bank := [];
     ch_max_channel_size := 100;
     ch_channel_timeout := 2 |}.

Lemma example_bank_ok : bank_ok example_bank.
Proof.
  assert (Hfits : Forall (frame_fits 100) [example_frame_at 0; example_frame_at 1])
    by (repeat constructor; by vm_compute).
  split; cbn [ch_max_channel_size ch_channel_timeout pending_channels frame_bank example_bank]; try done.
  apply pending_ok_cons. split; [|apply pending_ok_nil]. split_and!.
  - apply not_elem_of_nil.
  - apply pc_ok_push_frame; [apply pc_ok_new|done].
  - by vm_compute.
  - exact Hfits.
Qed.

Lemma Channels_push_frame_routes_witness :
  bank_map (pending_channels (Channels_push_frame (example_frame_at 2) example_bank)) =
    {[ 5 := collect (example_frame_at 0) [example_frame_at 1; example_frame_at 2] ]}.
Proof.
  rewrite (Channels_push_frame_routes (example_frame_at 2) example_bank example_bank_ok).
  by vm_compute.
Defined.

Lemma Channels_prune_least_witness :
  exists dropped pcs, pending_channels example_bank = dropped ++ pcs /\
    Channels_prune example_bank = Ok (set_pending pcs example_bank) /\ total_size pcs <= 100.
Proof.
  destruct (Channels_prune_least example_bank) as (d & pcs & Hd & Hp & Ht & _); [done|].
  exists d, pcs. split_and!; assumption.
Defined.

(** The third frame completes the channel. *)
Lemma Channels_next_safe_witness :
  exists o s', process_frames tt example_bank = (Ok o, s') /\ bank_ok s'.
Proof.
  destruct (Channels_next_safe tt example_bank
    (Some {| version := 0; frames := [example_frame_at 2] |}) (BatcherTransactions_new []))
    as (o & s' & H & Hok & _).
  - exact example_bank_ok.
  - by vm_compute.
  - repeat constructor; by vm_compute.
  - exists o, s'. split; [exact H|exact Hok].
Defined.
