(* ===== verification/SingleBatch.v ===== *)
(** Block inputs (src/src/derive/stages/block_input.rs) and single batches
    (src/src/derive/stages/single_batch.rs). *)
From S2P Require Import Prelude Codecs Common State.

(** ** Data *)

(** [BlockInput<E>], with [E] the number of an epoch or an [Epoch]. *)
Record BlockInput (E : Type) := {
  bin_timestamp : Z;
  bin_epoch : E;
  bin_transactions : list RawTransaction;
  bin_l1_inclusion_block : Z
}.

Arguments Build_BlockInput {E}.
Arguments bin_timestamp {E}.
Arguments bin_epoch {E}.
Arguments bin_transactions {E}.
Arguments bin_l1_inclusion_block {E}.

#[export] Instance BlockInput_eq_dec `{EqDecision E} : EqDecision (BlockInput E).
Proof. solve_decision. Defined.

Record SingleBatch := {
  sb_parent_hash : bytes;
  sb_epoch_num : Z;
  sb_epoch_hash : bytes;
  sb_timestamp : Z;
  sb_transactions : list RawTransaction;
  sb_l1_inclusion_block : Z
}.

#[export] Instance SingleBatch_eq_dec : EqDecision SingleBatch.
Proof. solve_decision. Defined.

(** ** Operations *)

Definition with_full_epoch (state : State) (input : BlockInput Z) : outcome (BlockInput Epoch) :=
  epoch ← ok_or (epoch_by_number state (bin_epoch input)) "epoch not found";
  Ok {| bin_timestamp := bin_timestamp input;
        bin_epoch := epoch;
        bin_transactions := bin_transactions input;
        bin_l1_inclusion_block := bin_l1_inclusion_block input |}.

(** [Decodable] for [RawTransaction]. *)
Definition RawTransaction_decode `{RlpDecoder} (rlp : bytes) : outcome RawTransaction :=
  tx_bytes ← ok_or (as_val_bytes rlp) "rlp";
  Ok tx_bytes.

Definition SingleBatch_decode `{RlpDecoder} (rlp : bytes) (l1_inclusion_block : Z) : outcome SingleBatch :=
  parent_hash ← ok_or (val_at_h256 rlp 0) "rlp";
  epoch_num ← ok_or (val_at_uint 8 rlp 1) "rlp";
  epoch_hash ← ok_or (val_at_h256 rlp 2) "rlp";
  timestamp ← ok_or (val_at_uint 8 rlp 3) "rlp";
  transactions ← ok_or (list_at rlp 4) "rlp" ≫= mapM RawTransaction_decode;
  Ok {| sb_parent_hash := parent_hash;
        sb_epoch_num := epoch_num;
        sb_epoch_hash := epoch_hash;
        sb_timestamp := timestamp;
        sb_transactions := transactions;
        sb_l1_inclusion_block := l1_inclusion_block |}.

Definition has_invalid_transactions (batch : SingleBatch) : bool :=
  existsb (fun tx => match tx with [] => true | b :: _ => b =? 0x7E end) (sb_transactions batch).

Definition block_input (batch : SingleBatch) : BlockInput Z :=
  {| bin_timestamp := sb_timestamp batch;
     bin_epoch := sb_epoch_num batch;
     bin_transactions := sb_transactions batch;
     bin_l1_inclusion_block := sb_l1_inclusion_block batch |}.
