(* ===== verification/SpanBatch.v ===== *)
(** Span batches (src/src/derive/stages/span_batch.rs): the decoder of the
    columnar format, the transactions it rebuilds, and the L2 blocks of a batch. *)
From S2P Require Import Prelude Codecs Common Concrete Config State SingleBatch.

(** ** Data *)

Record SpanBatch := {
  sp_rel_timestamp : Z;
  sp_l1_origin_num : Z;
  sp_parent_check : bytes;
  sp_l1_origin_check : bytes;
  sp_block_count : Z;
  sp_origin_bits : list bool;
  sp_block_tx_counts : list Z;
  sp_transactions : list RawTransaction;
  sp_l1_inclusion_block : Z
}.

#[export] Instance SpanBatch_eq_dec : EqDecision SpanBatch.
Proof. solve_decision. Defined.

Inductive TxData :=
| Legacy (value gas_price : Z) (data : bytes)
| Type1 (value gas_price : Z) (data : bytes) (access_list : AccessList)
| Type2 (value max_fee max_priority_fee : Z) (data : bytes) (access_list : AccessList).

(** ** Columns *)

Definition take_data (data : bytes) (length : Z) : outcome (bytes * bytes) :=
  a ← slice data 0 length;
  b ← slice_from data length;
  Ok (a, b).

(** The bits of a byte, from the least significant one. *)
Definition byte_bits (byte : Z) : list bool :=
  (fun i => Z.land (Z.shiftr byte i) 1 =? 1) <$> [0; 1; 2; 3; 4; 5; 6; 7].

Definition decode_bitlist (data : bytes) (len : Z) : outcome (list bool * bytes) :=
  let len_up := u64_add len 7 / 8 in
  '(bytes, data) ← take_data data len_up;
  let bitlist := mjoin (byte_bits <$> rev bytes) in
  bitlist ← slice bitlist 0 len;
  Ok (bitlist, data).

Section varints.
Context `{Varint}.

(** The [for _ in 0..count] of the two functions below: [unwrap] of each varint. *)
Fixpoint decode_uvarints (count : nat) (data_ref : bytes) (acc : list Z) : outcome (list Z * bytes) :=
  match count with
  | O => Ok (acc, data_ref)
  | S count =>
      '(n, d) ← unwrap (uvarint data_ref);
      decode_uvarints count d (acc ++ [n])
  end.

Definition decode_block_tx_counts (data : bytes) (block_count : Z) : outcome (list Z * bytes) :=
  decode_uvarints (Z.to_nat block_count) data [].

Definition decode_uvarint_list (data : bytes) (count : Z) : outcome (list Z * bytes) :=
  decode_uvarints (Z.to_nat count) data [].
End varints.

Definition decode_u256 (data : bytes) : outcome (Z * bytes) :=
  '(bytes, data) ← take_data data 32;
  Ok (from_be bytes, data).

Fixpoint decode_signatures_loop (tx_count : nat) (data_ref : bytes) (sigs : list (Z * Z))
    : outcome (list (Z * Z) * bytes) :=
  match tx_count with
  | O => Ok (sigs, data_ref)
  | S tx_count =>
      '(r, d) ← decode_u256 data_ref;
      '(s, d) ← decode_u256 d;
      decode_signatures_loop tx_count d (sigs ++ [(r, s)])
  end.

Definition decode_signatures (data : bytes) (tx_count : Z) : outcome (list (Z * Z) * bytes) :=
  decode_signatures_loop (Z.to_nat tx_count) data [].

Definition decode_address (data : bytes) : outcome (bytes * bytes) := take_data data 20.

Fixpoint decode_tos_loop (count : nat) (data_ref : bytes) (tos : list bytes) : outcome (list bytes * bytes) :=
  match count with
  | O => Ok (tos, data_ref)
  | S count =>
      '(addr, d) ← decode_address data_ref;
      decode_tos_loop count d (tos ++ [addr])
  end.

Definition decode_tos (data : bytes) (count : Z) : outcome (list bytes * bytes) :=
  decode_tos_loop (Z.to_nat count) data [].

(** ** Transactions *)

Section transactions.
Context `{RlpDecoder, Varint, Codec}.

(** [rlp.payload_info().unwrap().total()]. *)
Definition rlp_total (rlp : bytes) : outcome Z :=
  '(header_len, value_len) ← unwrap (payload_info rlp);
  Ok (Z.of_nat header_len + Z.of_nat value_len).

(** One iteration of [decode_tx_data]: the transaction and the bytes it takes. *)
Definition decode_tx_data_step (data_ref : bytes) : outcome (Z * TxData) :=
  tag ← index data_ref 0;
  if tag =? 1 then
    rlp ← slice_from data_ref 1;
    value ← unwrap (val_at_uint 32 rlp 0);
    gas_price ← unwrap (val_at_uint 32 rlp 1);
    data ← unwrap (val_at_bytes rlp 2);
    access_list ← unwrap (val_at_access_list rlp 3);
    total ← rlp_total rlp;
    Ok (total + 1, Type1 value gas_price data access_list)
  else if tag =? 2 then
    rlp ← slice_from data_ref 1;
    value ← unwrap (val_at_uint 32 rlp 0);
    max_priority_fee ← unwrap (val_at_uint 32 rlp 1);
    max_fee ← unwrap (val_at_uint 32 rlp 2);
    data ← unwrap (val_at_bytes rlp 3);
    access_list ← unwrap (val_at_access_list rlp 4);
    total ← rlp_total rlp;
    Ok (total + 1, Type2 value max_fee max_priority_fee data access_list)
  else
    rlp ← slice_from data_ref 0;
    value ← unwrap (val_at_uint 32 rlp 0);
    gas_price ← unwrap (val_at_uint 32 rlp 1);
    data ← unwrap (val_at_bytes rlp 2);
    total ← rlp_total rlp;
    Ok (total, Legacy value gas_price data).

Fixpoint decode_tx_data_loop (tx_count : nat) (data_ref : bytes) (tx_datas : list TxData)
    : outcome (list TxData * bytes) :=
  match tx_count with
  | O => Ok (tx_datas, data_ref)
  | S tx_count =>
      '(next, data) ← decode_tx_data_step data_ref;
      data_ref ← slice_from data_ref next;
      decode_tx_data_loop tx_count data_ref (tx_datas ++ [data])
  end.

Definition decode_tx_data (data : bytes) (tx_count : Z) : outcome (list TxData * bytes) :=
  decode_tx_data_loop (Z.to_nat tx_count) data [].

(** The columns of the transactions of a batch. *)
Record TxColumns := {
  contract_creation_bits : list bool;
  y_parity_bits : list bool;
  signatures : list (Z * Z);
  tos : list bytes;
  tx_datas : list TxData;
  tx_nonces : list Z;
  tx_gas_limits : list Z;
  protected_bits : list bool
}.

(** The [to] field, and the index of the next one. *)
Definition append_to (c : TxColumns) (i tos_i : Z) : outcome (RlpOp * Z) :=
  creation ← index (contract_creation_bits c) i;
  if creation : bool then Ok (append_bytes [], tos_i)
  else
    to ← index (tos c) tos_i;
    Ok (append_bytes to, tos_i + 1).

(** One iteration of the [for] of [decode_transactions]. *)
Definition decode_transactions_step (chain_id : Z) (c : TxColumns) (i legacy_i tos_i : Z)
    : outcome (RawTransaction * Z * Z) :=
  tx_data ← index (tx_datas c) i;
  nonce ← index (tx_nonces c) i;
  gas_limit ← index (tx_gas_limits c) i;
  '(to, tos_i) ← append_to c i tos_i;
  parity_bit ← index (y_parity_bits c) i;
  let parity := if parity_bit : bool then 1 else 0 in
  match tx_data with
  | Legacy value gas_price data =>
      protected_bit ← index (protected_bits c) legacy_i;
      let v :=
        if protected_bit : bool
        then u64_add (u64_add (u64_mul chain_id 2) 35) parity
        else u64_add 27 parity in
      '(r, s) ← index (signatures c) i;
      Ok (rlp_out
            [begin_unbounded_list; append_uint nonce; append_uint gas_price; append_uint gas_limit; to;
             append_uint value; append_bytes data; append_uint v; append_uint r; append_uint s;
             finalize_unbounded_list],
          legacy_i + 1, tos_i)
  | Type1 value gas_price data access_list =>
      '(r, s) ← index (signatures c) i;
      Ok (1 :: rlp_out
            [begin_unbounded_list; append_uint chain_id; append_uint nonce; append_uint gas_price;
             append_uint gas_limit; to; append_uint value; append_bytes data;
             append_access_list access_list; append_uint parity; append_uint r; append_uint s;
             finalize_unbounded_list],
          legacy_i, tos_i)
  | Type2 value max_fee max_priority_fee data access_list =>
      '(r, s) ← index (signatures c) i;
      Ok (2 :: rlp_out
            [begin_unbounded_list; append_uint chain_id; append_uint nonce; append_uint max_priority_fee;
             append_uint max_fee; append_uint gas_limit; to; append_uint value; append_bytes data;
             append_access_list access_list; append_uint parity; append_uint r; append_uint s;
             finalize_unbounded_list],
          legacy_i, tos_i)
  end.

Fixpoint decode_transactions_loop (chain_id : Z) (c : TxColumns) (n : nat) (i legacy_i tos_i : Z)
    (txs : list RawTransaction) : outcome (list RawTransaction) :=
  match n with
  | O => Ok txs
  | S n =>
      '(tx, legacy_i, tos_i) ← decode_transactions_step chain_id c i legacy_i tos_i;
      decode_transactions_loop chain_id c n (i + 1) legacy_i tos_i (txs ++ [tx])
  end.

Definition is_legacy (tx : TxData) : bool := match tx with Legacy _ _ _ => true | _ => false end.

Definition decode_transactions (chain_id : Z) (data : bytes) (tx_count : Z)
    : outcome (list RawTransaction * bytes) :=
  '(contract_creation_bits, data) ← decode_bitlist data tx_count;
  '(y_parity_bits, data) ← decode_bitlist data tx_count;
  '(signatures, data) ← decode_signatures data tx_count;
  let tos_count := len (filter (fun b : bool => b = false) contract_creation_bits) in
  '(tos, data) ← decode_tos data tos_count;
  '(tx_datas, data) ← decode_tx_data data tx_count;
  '(tx_nonces, data) ← decode_uvarint_list data tx_count;
  '(tx_gas_limits, data) ← decode_uvarint_list data tx_count;
  let legacy_tx_count := len (filter (fun tx => is_legacy tx = true) tx_datas) in
  '(protected_bits, data) ← decode_bitlist data legacy_tx_count;
  let c :=
    {| contract_creation_bits := contract_creation_bits; y_parity_bits := y_parity_bits;
       signatures := signatures; tos := tos; tx_datas := tx_datas; tx_nonces := tx_nonces;
       tx_gas_limits := tx_gas_limits; protected_bits := protected_bits |} in
  txs ← decode_transactions_loop chain_id c (Z.to_nat tx_count) 0 0 0 [];
  Ok (txs, data).

(** [Iterator::sum] of [u64]s. *)
Definition u64_sum (l : list Z) : Z := foldl u64_add 0 l.

Definition SpanBatch_decode (data : bytes) (l1_inclusion_block chain_id : Z) : outcome SpanBatch :=
  '(rel_timestamp, data) ← ok_or (uvarint data) "varint";
  '(l1_origin_num, data) ← ok_or (uvarint data) "varint";
  '(parent_check, data) ← take_data data 20;
  '(l1_origin_check, data) ← take_data data 20;
  '(block_count, data) ← ok_or (uvarint data) "varint";
  '(origin_bits, data) ← decode_bitlist data block_count;
  '(block_tx_counts, data) ← decode_block_tx_counts data block_count;
  let total_txs := u64_sum block_tx_counts in
  '(transactions, _) ← decode_transactions chain_id data total_txs;
  Ok {| sp_rel_timestamp := rel_timestamp;
        sp_l1_origin_num := l1_origin_num;
        sp_parent_check := parent_check;
        sp_l1_origin_check := l1_origin_check;
        sp_block_count := block_count;
        sp_block_tx_counts := block_tx_counts;
        sp_origin_bits := origin_bits;
        sp_transactions := transactions;
        sp_l1_inclusion_block := l1_inclusion_block |}.
End transactions.

(** ** Blocks *)

(** [origin_bits.iter().map(..).sum::<u64>()]. *)
Definition origin_sum (batch : SpanBatch) : Z :=
  u64_sum ((fun b : bool => if b then 1 else 0) <$> sp_origin_bits batch).

(** The [for i in 0..block_count] of [block_inputs]; the indices are [usize]. *)
Fixpoint block_inputs_loop (batch : SpanBatch) (config : Config) (n : nat) (i epoch_num tx_index : Z)
    (inputs : list (BlockInput Z)) : outcome (list (BlockInput Z)) :=
  match n with
  | O => Ok inputs
  | S n =>
      origin_bit ← index (sp_origin_bits batch) i;
      let epoch_num := if origin_bit : bool then u64_add epoch_num 1 else epoch_num in
      tx_end ← index (sp_block_tx_counts batch) i;
      transactions ← slice (sp_transactions batch) tx_index (u64_add tx_index tx_end);
      let tx_index := u64_add tx_index tx_end in
      let timestamp :=
        u64_add (u64_add (sp_rel_timestamp batch) (bi_timestamp (l2_genesis (chain config))))
          (u64_mul i (blocktime (chain config))) in
      let block_input :=
        {| bin_timestamp := timestamp;
           bin_epoch := epoch_num;
           bin_transactions := transactions;
           bin_l1_inclusion_block := sp_l1_inclusion_block batch |} in
      block_inputs_loop batch config n (i + 1) epoch_num tx_index (inputs ++ [block_input])
  end.

Definition block_inputs (batch : SpanBatch) (config : Config) : outcome (list (BlockInput Z)) :=
  let init_epoch_num := u64_sub (sp_l1_origin_num batch) (origin_sum batch) in
  block_inputs_loop batch config (Z.to_nat (sp_block_count batch)) 0 init_epoch_num 0 [].

Definition start_epoch_num (batch : SpanBatch) : outcome Z :=
  first ← index (sp_origin_bits batch) 0;
  Ok (u64_add (u64_sub (sp_l1_origin_num batch) (origin_sum batch)) (if first : bool then 1 else 0)).

(** ** Bit lists *)

(** The first [n] bits of a number. *)
Definition bits_of (z : Z) (n : Z) : list bool := (fun i => Z.testbit z i) <$> seqZ 0 n.

Lemma land_shiftr_1 z i : 0 <= i -> (Z.land (Z.shiftr z i) 1 =? 1) = Z.testbit z i.
Proof.
  intros Hi. change 1 with (Z.ones 1) at 1. rewrite Z.land_ones by lia. change (2 ^ 1) with 2.
  rewrite <- Z.bit0_mod, Z.shiftr_spec, Z.add_0_l by lia.
  by destruct (Z.testbit z i).
Qed.

Lemma byte_bits_of b : byte_bits b = bits_of b 8.
Proof. unfold byte_bits, bits_of. cbn [fmap list_fmap seqZ]. cbn. by rewrite !land_shiftr_1. Qed.

Lemma testbit_byte x b i :
  byte_ok b -> 0 <= i -> Z.testbit (x * 256 + b) i = if i <? 8 then Z.testbit b i else Z.testbit x (i - 8).
Proof.
  intros Hb Hi. unfold byte_ok in Hb. replace (x * 256) with (Z.shiftl x 8) by (rewrite Z.shiftl_mul_pow2 by lia; lia).
  destruct (Z.ltb_spec i 8).
  - rewrite <- (Z.mod_pow2_bits_low _ 8) by lia.
    rewrite Z.shiftl_mul_pow2 by lia. rewrite Z.add_comm, Z.mod_add by lia.
    by rewrite (Z.mod_small b) by lia.
  - rewrite <- (Z.sub_add 8 i) at 1. rewrite <- Z.shiftr_spec by lia.
    rewrite Z.shiftr_div_pow2, Z.shiftl_mul_pow2 by lia.
    rewrite Z.div_add_l, Z.div_small by lia. f_equal. lia.
Qed.

Lemma bits_of_app_byte x b n :
  byte_ok b -> 0 <= n -> bits_of (x * 256 + b) (8 + n) = bits_of b 8 ++ bits_of x n.
Proof.
  intros Hb Hn. unfold bits_of. rewrite seqZ_app by lia. rewrite fmap_app. f_equal.
  - apply list_fmap_ext. intros i k Hk. apply lookup_seqZ in Hk as [-> Hk].
    rewrite testbit_byte by (done || lia). destruct (Z.ltb_spec (0 + Z.of_nat i) 8); [done|lia].
  - rewrite Z.add_0_l. replace (seqZ 8 n) with ((fun k => k + 8) <$> seqZ 0 n).
    + rewrite <- list_fmap_compose. apply list_fmap_ext. intros i k Hk. apply lookup_seqZ in Hk as [-> Hk]. cbn.
      rewrite testbit_byte by (done || lia). destruct (Z.ltb_spec (0 + Z.of_nat i + 8) 8); [lia|]. f_equal. lia.
    + apply list_eq. intros i. rewrite list_lookup_fmap. destruct (decide (Z.of_nat i < n)).
      * rewrite !lookup_seqZ_lt by lia. cbn. f_equal. lia.
      * by rewrite !lookup_seqZ_ge by lia.
Qed.

Lemma bitlist_of_bytes bs :
  bytes_ok bs -> mjoin (byte_bits <$> rev bs) = bits_of (from_be bs) (8 * len bs).
Proof.
  induction bs as [|b bs IH] using rev_ind; intros Hok; [done|].
  apply Forall_app in Hok as [Hok Hb]. rewrite Forall_singleton in Hb.
  rewrite rev_unit, fmap_cons, join_cons, IH, byte_bits_of by done.
  rewrite from_be_app, len_app. change (len [b]) with 1. change (from_be [b]) with b. rewrite Z.pow_1_r.
  replace (8 * (len bs + 1)) with (8 + 8 * len bs) by lia.
  rewrite bits_of_app_byte; [done|done|]. pose proof (len_nonneg bs). lia.
Qed.

Lemma take_bits_of z n m : 0 <= m <= n -> take (Z.to_nat m) (bits_of z n) = bits_of z m.
Proof.
  intros Hm. unfold bits_of. rewrite <- fmap_take. f_equal.
  replace n with (m + (n - m)) by lia. rewrite seqZ_app by lia.
  rewrite take_app_le by (rewrite length_seqZ; lia). by rewrite take_ge by (rewrite length_seqZ; lia).
Qed.

Lemma length_bits_of z n : 0 <= n -> len (bits_of z n) = n.
Proof. intros. unfold len, bits_of. rewrite length_fmap, length_seqZ. lia. Qed.

Lemma take_data_Ok data n a b :
  take_data data n = Ok (a, b) <-> 0 <= n <= len data /\ a = take (Z.to_nat n) data /\ b = drop (Z.to_nat n) data.
Proof.
  unfold take_data. rewrite bind_Ok. setoid_rewrite slice_Ok. setoid_rewrite bind_Ok. unfold slice_from.
  setoid_rewrite slice_Ok. split.
  - intros (x & (? & ? & ->) & y & (? & ? & ->) & [= <- <-]).
    rewrite drop_0, Z.sub_0_r. split_and!; [lia|lia|done|].
    rewrite take_ge; [done|]. rewrite length_drop. unfold len in *. lia.
  - intros ([? ?] & -> & ->). eexists. split; [split_and!; [lia|lia|lia|done]|].
    eexists. split; [split_and!; [lia|lia|lia|done]|]. rewrite drop_0, Z.sub_0_r.
    rewrite (take_ge (drop _ _)); [done|]. rewrite length_drop. unfold len in *. lia.
Qed.

Lemma take_data_Panic data n : take_data data n = Panic \/ exists a b, take_data data n = Ok (a, b).
Proof.
  unfold take_data, slice_from, slice. destruct (get_slice data 0 n); cbn; [|by left].
  destruct (get_slice data n (len data)); cbn; eauto.
Qed.

(** The number of bytes of a bit list. *)
Definition bitlist_bytes (n : Z) : Z := (n + 7) / 8.

Lemma bitlist_bytes_bound n : 0 <= n -> n <= 8 * bitlist_bytes n.
Proof. intros. unfold bitlist_bytes. pose proof (Z.div_mod (n + 7) 8). pose proof (Z.mod_pos_bound (n + 7) 8). lia. Qed.

Lemma decode_bitlist_Ok data n bits rest :
  bytes_ok data -> 0 <= n -> n + 7 < 2 ^ 64 ->
  decode_bitlist data n = Ok (bits, rest) <->
  bitlist_bytes n <= len data /\ bits = bits_of (from_be (take (Z.to_nat (bitlist_bytes n)) data)) n /\
  rest = drop (Z.to_nat (bitlist_bytes n)) data.
Proof.
  intros Hok Hn Hmax. unfold decode_bitlist. change (2 ^ 64) with 18446744073709551616 in Hmax.
  rewrite u64_add_small by (unfold in_u64; lia). fold (bitlist_bytes n).
  pose proof (bitlist_bytes_bound n Hn) as Hb.
  assert (Hslice : bitlist_bytes n <= len data ->
    slice (mjoin (byte_bits <$> rev (take (Z.to_nat (bitlist_bytes n)) data))) 0 n =
    Ok (bits_of (from_be (take (Z.to_nat (bitlist_bytes n)) data)) n)).
  { intros Hle. rewrite bitlist_of_bytes by by apply Forall_take.
    assert (Hlen : len (take (Z.to_nat (bitlist_bytes n)) data) = bitlist_bytes n)
      by (unfold len in *; rewrite length_take; lia).
    rewrite Hlen. apply slice_Ok. rewrite length_bits_of by lia. split_and!; [lia..|].
    rewrite drop_0, Z.sub_0_r, take_bits_of; [done|lia]. }
  rewrite bind_Ok. split.
  - intros ([b d] & (Hle & -> & ->)%take_data_Ok & H). rewrite Hslice in H by lia.
    rewrite bind_ret in H. injection H as <- <-. split_and!; [lia|done|done].
  - intros (Hle & -> & ->). exists (take (Z.to_nat (bitlist_bytes n)) data, drop (Z.to_nat (bitlist_bytes n)) data).
    split; [apply take_data_Ok; split_and!; [lia|lia|done|done]|]. by rewrite Hslice, bind_ret.
Qed.

Lemma decode_bitlist_len data n bits rest :
  decode_bitlist data n = Ok (bits, rest) -> len bits = n.
Proof.
  unfold decode_bitlist. intros H. apply bind_Ok in H as ([b d] & _ & H).
  apply bind_Ok in H as (bl & Hs & [= <- <-]). apply slice_len in Hs. lia.
Qed.

(** The length of every column is its count. *)
Section counts.
Context `{RlpDecoder, Varint, Codec}.

Lemma decode_uvarints_Ok n data acc l rest :
  decode_uvarints n data acc = Ok (l, rest) ->
  exists new, l = acc ++ new /\ length new = n /\ Forall in_u64 new.
Proof.
  revert data acc. induction n as [|n IH]; intros data acc E; cbn in E.
  - injection E as <- <-. exists []. by rewrite app_nil_r.
  - apply bind_Ok in E as ([x d] & Hu & E). apply IH in E as (new & -> & Hlen & Hf).
    exists (x :: new). rewrite <- app_assoc. split_and!; [done|cbn; lia|].
    constructor; [|done]. destruct (uvarint data) as [[? ?]|] eqn:Ev; cbn in Hu; simplify_eq.
    by apply uvarint_consumes in Ev as [? _].
Qed.

Lemma decode_transactions_loop_length chain_id c n i legacy_i tos_i txs txs' :
  decode_transactions_loop chain_id c n i legacy_i tos_i txs = Ok txs' -> length txs' = (length txs + n)%nat.
Proof.
  revert i legacy_i tos_i txs. induction n as [|n IH]; intros i legacy_i tos_i txs E; cbn in E.
  - injection E as <-. lia.
  - apply bind_Ok in E as ([[tx li] ti] & _ & E). apply IH in E. rewrite length_app in E. cbn in E. lia.
Qed.

Lemma decode_transactions_length chain_id data n txs rest :
  decode_transactions chain_id data n = Ok (txs, rest) -> 0 <= n -> len txs = n.
Proof.
  unfold decode_transactions. intros E Hn.
  apply bind_Ok in E as ([? ?] & _ & E). apply bind_Ok in E as ([? ?] & _ & E).
  apply bind_Ok in E as ([? ?] & _ & E). apply bind_Ok in E as ([? ?] & _ & E).
  apply bind_Ok in E as ([? ?] & _ & E). apply bind_Ok in E as ([? ?] & _ & E).
  apply bind_Ok in E as ([? ?] & _ & E). apply bind_Ok in E as ([? ?] & _ & E).
  apply bind_Ok in E as (txs' & Hl & [= <- <-]).
  apply decode_transactions_loop_length in Hl. unfold len. cbn in Hl. lia.
Qed.

(** What the decoder guarantees about the shape of a batch. *)
Record span_shape (b : SpanBatch) : Prop := {
  span_shape_bits : len (sp_origin_bits b) = sp_block_count b;
  span_shape_counts : len (sp_block_tx_counts b) = sp_block_count b;
  span_shape_u64 : Forall in_u64 (sp_block_tx_counts b);
  span_shape_txs : len (sp_transactions b) = u64 (zsum (sp_block_tx_counts b));
  span_shape_checks : len (sp_parent_check b) = 20 /\ len (sp_l1_origin_check b) = 20;
  span_shape_numbers : in_u64 (sp_rel_timestamp b) /\ in_u64 (sp_l1_origin_num b) /\ in_u64 (sp_block_count b)
}.

Lemma SpanBatch_decode_shape data l1 chain_id b :
  SpanBatch_decode data l1 chain_id = Ok b -> span_shape b /\ sp_l1_inclusion_block b = l1.
Proof.
  unfold SpanBatch_decode. intros E.
  apply bind_Ok in E as ([rel d1] & E1 & E). apply bind_Ok in E as ([org d2] & E2 & E).
  apply bind_Ok in E as ([pc d3] & E3 & E). apply bind_Ok in E as ([oc d4] & E4 & E).
  apply bind_Ok in E as ([bc d5] & E5 & E). apply bind_Ok in E as ([bits d6] & E6 & E).
  apply bind_Ok in E as ([cs d7] & E7 & E). apply bind_Ok in E as ([txs d8] & E8 & E).
  injection E as <-.
  assert (Hu : forall d n r, ok_or (uvarint d) "varint" = Ok (n, r) -> in_u64 n).
  { intros d n r Hd. destruct (uvarint d) as [[? ?]|] eqn:Ev; cbn in Hd; simplify_eq.
    by apply uvarint_consumes in Ev as [? _]. }
  assert (Ht : forall d x r, take_data d 20 = Ok (x, r) -> len x = 20).
  { intros d x r (Hl & -> & _)%take_data_Ok. unfold len in *. rewrite length_take. lia. }
  apply Hu in E1, E2, E5. apply Ht in E3, E4. apply decode_bitlist_len in E6.
  apply decode_uvarints_Ok in E7 as (new & -> & Hlen & Hf).
  unfold u64_sum in E8. change 0 with (u64 0) in E8 at 1. rewrite foldl_u64_add, Z.add_0_l in E8.
  apply decode_transactions_length in E8; [|apply u64_range].
  split; [|done]. split; cbn; auto. unfold len. cbn. unfold in_u64 in *. lia.
Qed.
End counts.

(** ** Blocks of a batch *)

Definition ones (bits : list bool) : Z := zsum ((fun b : bool => if b then 1 else 0) <$> bits).

Lemma ones_app l k : ones (l ++ k) = ones l + ones k.
Proof. unfold ones. by rewrite fmap_app, zsum_app. Qed.

Lemma ones_bound l : 0 <= ones l <= len l.
Proof.
  unfold ones. induction l as [|b l IH]; [done|]. rewrite fmap_cons, zsum_cons, len_cons. destruct b; lia.
Qed.

(** The [i]-th block of a batch: its slot after the start of the batch, the origin
    advanced by the bits up to its own, its share of the transactions. *)
Definition span_input (batch : SpanBatch) (config : Config) (i : nat) : BlockInput Z :=
  {| bin_timestamp :=
       u64 (sp_rel_timestamp batch + bi_timestamp (l2_genesis (chain config)) + Z.of_nat i * blocktime (chain config));
     bin_epoch := u64 (sp_l1_origin_num batch - ones (drop (S i) (sp_origin_bits batch)));
     bin_transactions :=
       take (Z.to_nat (sp_block_tx_counts batch !!! i))
         (drop (Z.to_nat (zsum (take i (sp_block_tx_counts batch)))) (sp_transactions batch));
     bin_l1_inclusion_block := sp_l1_inclusion_block batch |}.

Lemma zsum_take_le l i : Forall in_u64 l -> 0 <= zsum (take i l) <= zsum l.
Proof.
  intros Hl. assert (Hn : Forall (fun x => 0 <= x) l) by (eapply Forall_impl; [exact Hl|]; unfold in_u64; cbn; lia).
  rewrite <- (take_drop i l) at 3. rewrite zsum_app.
  pose proof (zsum_nonneg (take i l) ltac:(by apply Forall_take)).
  pose proof (zsum_nonneg (drop i l) ltac:(by apply Forall_drop)). lia.
Qed.

Lemma zsum_take_S l i x : l !! i = Some x -> zsum (take (S i) l) = zsum (take i l) + x.
Proof. intros Hi. rewrite (take_S_r _ _ _ Hi), zsum_app, zsum_cons. change (zsum []) with 0. lia. Qed.

Lemma ones_take_S l i (b : bool) : l !! i = Some b -> ones (take (S i) l) = ones (take i l) + (if b then 1 else 0).
Proof. intros Hi. rewrite (take_S_r _ _ _ Hi), ones_app. by destruct b. Qed.

Lemma ones_drop l i : ones (drop i l) = ones l - ones (take i l).
Proof. rewrite <- (take_drop i l) at 2. rewrite ones_app. lia. Qed.

Lemma u64_sub_u64 a b : u64_sub a (u64 b) = u64 (a - b).
Proof. unfold u64_sub, u64. by rewrite Zminus_mod_idemp_r. Qed.

Lemma origin_sum_ones b : origin_sum b = u64 (ones (sp_origin_bits b)).
Proof. unfold origin_sum, u64_sum, ones. change 0 with (u64 0) at 1. by rewrite foldl_u64_add. Qed.

Section block_inputs.
Context (batch : SpanBatch) (config : Config).
Hypothesis Hshape : span_shape batch.
Hypothesis Hsum : zsum (sp_block_tx_counts batch) < 18446744073709551616.

Lemma block_inputs_loop_spec n i epoch tx_index inputs :
  Z.of_nat (i + n) = sp_block_count batch ->
  epoch = u64 (sp_l1_origin_num batch - ones (sp_origin_bits batch) + ones (take i (sp_origin_bits batch))) ->
  tx_index = zsum (take i (sp_block_tx_counts batch)) ->
  block_inputs_loop batch config n (Z.of_nat i) epoch tx_index inputs =
    Ok (inputs ++ (span_input batch config <$> seq i n)).
Proof.
  destruct Hshape as [Hbits Hcounts Hu64 Htxs _ _].
  revert i epoch tx_index inputs. induction n as [|n IH]; intros i epoch tx_index inputs Hin -> ->; cbn [block_inputs_loop].
  { by rewrite app_nil_r. }
  unfold len in Hbits, Hcounts.
  destruct (lookup_lt_is_Some_2 (sp_origin_bits batch) i ltac:(lia)) as [b Hb].
  destruct (lookup_lt_is_Some_2 (sp_block_tx_counts batch) i ltac:(lia)) as [c Hc].
  assert (Hib : index (sp_origin_bits batch) (Z.of_nat i) = Ok b)
    by (apply index_Ok; rewrite Nat2Z.id; split; [lia|done]).
  assert (Hic : index (sp_block_tx_counts batch) (Z.of_nat i) = Ok c)
    by (apply index_Ok; rewrite Nat2Z.id; split; [lia|done]).
  rewrite Hib, bind_ret, Hic, bind_ret.
  pose proof (zsum_take_le _ (S i) Hu64) as Hle. rewrite (zsum_take_S _ _ _ Hc) in Hle.
  pose proof (zsum_take_le _ i Hu64) as Hle0.
  pose proof (Forall_lookup_1 _ _ _ _ Hu64 Hc) as Hcu. unfold in_u64 in Hcu.
  pose proof (zsum_take_le _ (length (sp_block_tx_counts batch)) Hu64) as Hall.
  rewrite u64_small in Htxs by (unfold in_u64; lia).
  rewrite (u64_add_small (zsum _) c) by (unfold in_u64; lia).
  assert (Hs : slice (sp_transactions batch) (zsum (take i (sp_block_tx_counts batch)))
      (zsum (take i (sp_block_tx_counts batch)) + c) =
    Ok (bin_transactions (span_input batch config i))).
  { apply slice_Ok. split_and!; [lia|lia|lia|]. cbn.
    rewrite (list_lookup_total_correct _ _ _ Hc). do 2 f_equal. lia. }
  rewrite Hs, bind_ret. replace (Z.of_nat i + 1) with (Z.of_nat (S i)) by lia.
  rewrite IH; [|lia| |by rewrite (zsum_take_S _ _ _ Hc)].
  - rewrite <- app_assoc. cbn [app seq]. rewrite fmap_cons. do 3 f_equal. unfold span_input at 2.
    f_equal.
    + unfold u64_add, u64_mul, u64. by rewrite Z.add_mod_idemp_l, Z.add_mod_idemp_r by lia.
    + rewrite ones_drop, (ones_take_S _ _ _ Hb). destruct b; rewrite ?u64_add_u64; f_equal; lia.
  - rewrite (ones_take_S _ _ _ Hb). destruct b; rewrite ?u64_add_u64; f_equal; lia.
Qed.

Lemma block_inputs_eq :
  block_inputs batch config = Ok (span_input batch config <$> seq 0 (Z.to_nat (sp_block_count batch))).
Proof.
  unfold block_inputs. rewrite (block_inputs_loop_spec _ 0); [done| | |done].
  - pose proof (span_shape_numbers _ Hshape) as (_ & _ & Hc). unfold in_u64 in Hc. lia.
  - rewrite origin_sum_ones, u64_sub_u64. change (ones (take 0 _)) with 0. f_equal. lia.
Qed.

Lemma span_inputs_transactions n :
  (n <= length (sp_block_tx_counts batch))%nat ->
  mjoin (bin_transactions <$> (span_input batch config <$> seq 0 n)) =
    take (Z.to_nat (zsum (take n (sp_block_tx_counts batch)))) (sp_transactions batch).
Proof.
  destruct Hshape as [_ _ Hu64 _ _ _].
  induction n as [|n IH]; intros Hn; [done|].
  rewrite seq_S, !fmap_app, join_app, IH by lia. cbn [fmap list_fmap Nat.add]. rewrite join_cons.
  change (mjoin []) with (@nil RawTransaction). rewrite app_nil_r.
  destruct (lookup_lt_is_Some_2 (sp_block_tx_counts batch) n ltac:(lia)) as [c Hc].
  rewrite (zsum_take_S _ _ _ Hc). unfold span_input; cbn [bin_transactions].
  rewrite (list_lookup_total_correct _ _ _ Hc).
  pose proof (Forall_lookup_1 _ _ _ _ Hu64 Hc) as Hcu. unfold in_u64 in Hcu.
  pose proof (zsum_take_le _ n Hu64).
  rewrite Z2Nat.inj_add by lia. by rewrite take_take_drop.
Qed.
End block_inputs.

(** ** Termination *)

Section termination.
Context `{RlpDecoder, Varint, Codec}.

Lemma take_data_not_Diverge data n : take_data data n <> Diverge.
Proof. destruct (take_data_Panic data n) as [->|(a & b & ->)]; done. Qed.

#[local] Hint Resolve take_data_not_Diverge : magi.

Lemma decode_bitlist_not_Diverge data n : decode_bitlist data n <> Diverge.
Proof. unfold decode_bitlist. not_Diverge. Qed.

Lemma decode_uvarints_not_Diverge n data acc : decode_uvarints n data acc <> Diverge.
Proof.
  revert data acc. induction n as [|n IH]; intros data acc; [done|]. cbn [decode_uvarints]. not_Diverge.
Qed.

Lemma decode_signatures_loop_not_Diverge n data acc : decode_signatures_loop n data acc <> Diverge.
Proof.
  revert data acc. induction n as [|n IH]; intros data acc; [done|].
  cbn [decode_signatures_loop]. unfold decode_u256. not_Diverge.
Qed.

Lemma decode_tos_loop_not_Diverge n data acc : decode_tos_loop n data acc <> Diverge.
Proof.
  revert data acc. induction n as [|n IH]; intros data acc; [done|].
  cbn [decode_tos_loop]. unfold decode_address. not_Diverge.
Qed.

Lemma decode_tx_data_step_not_Diverge data : decode_tx_data_step data <> Diverge.
Proof. unfold decode_tx_data_step, rlp_total. not_Diverge. Qed.

#[local] Hint Resolve decode_bitlist_not_Diverge decode_uvarints_not_Diverge
  decode_signatures_loop_not_Diverge decode_tos_loop_not_Diverge decode_tx_data_step_not_Diverge : magi.

Lemma decode_tx_data_loop_not_Diverge n data acc : decode_tx_data_loop n data acc <> Diverge.
Proof.
  revert data acc. induction n as [|n IH]; intros data acc; [done|].
  cbn [decode_tx_data_loop]. not_Diverge.
Qed.

Lemma decode_transactions_step_not_Diverge chain_id c i li ti :
  decode_transactions_step chain_id c i li ti <> Diverge.
Proof. unfold decode_transactions_step, append_to. not_Diverge. Qed.

#[local] Hint Resolve decode_tx_data_loop_not_Diverge decode_transactions_step_not_Diverge : magi.

Lemma decode_transactions_loop_not_Diverge chain_id c n i li ti txs :
  decode_transactions_loop chain_id c n i li ti txs <> Diverge.
Proof.
  revert i li ti txs. induction n as [|n IH]; intros i li ti txs; [done|].
  cbn [decode_transactions_loop]. not_Diverge.
Qed.

#[local] Hint Resolve decode_transactions_loop_not_Diverge : magi.

Lemma SpanBatch_decode_not_Diverge data l1 chain_id : SpanBatch_decode data l1 chain_id <> Diverge.
Proof.
  unfold SpanBatch_decode, decode_transactions, decode_signatures, decode_tos, decode_tx_data,
    decode_uvarint_list, decode_block_tx_counts. not_Diverge.
Qed.
End termination.

Lemma block_inputs_loop_not_Diverge batch config n i epoch_num tx_index inputs :
  block_inputs_loop batch config n i epoch_num tx_index inputs <> Diverge.
Proof.
  revert i epoch_num tx_index inputs.
  induction n as [|n IH]; intros i epoch_num tx_index inputs; [done|]. cbn [block_inputs_loop]. not_Diverge.
Qed.

Lemma block_inputs_not_Diverge batch config : block_inputs batch config <> Diverge.
Proof. apply block_inputs_loop_not_Diverge. Qed.

#[export] Hint Resolve SpanBatch_decode_not_Diverge block_inputs_not_Diverge : magi.

(** ** Properties *)

(** Bit lists.  [decode_bitlist] takes the [(n + 7) / 8] bytes of a bit list off
    the input and returns the lowest [n] bits of the big-endian number they make,
    from the least significant one; it returns nothing else, and panics when the
    input is too short. *)
Theorem decode_bitlist_spec data n :
  bytes_ok data -> 0 <= n -> n + 7 < 2 ^ 64 ->
  decode_bitlist data n =
    if bool_decide (bitlist_bytes n <= len data)
    then Ok (bits_of (from_be (take (Z.to_nat (bitlist_bytes n)) data)) n,
             drop (Z.to_nat (bitlist_bytes n)) data)
    else Panic.
Proof.
  intros Hok Hn Hmax. case_bool_decide as Hle.
  - by apply decode_bitlist_Ok.
  - unfold decode_bitlist. change (2 ^ 64) with 18446744073709551616 in Hmax.
    rewrite u64_add_small by (unfold in_u64; lia).
    destruct (take_data_Panic data (bitlist_bytes n)) as [Hp|(a & b & Hp)].
    + unfold bitlist_bytes in Hp. by rewrite Hp.
    + apply take_data_Ok in Hp as (? & _). lia.
Qed.

(** C26. A span batch that decodes is well formed: it has one origin bit and one
    transaction count per block, as many transactions as the counts add up to (in
    64 bits), 20-byte checks, and 64-bit numbers; the block it was included in is
    the one given. *)
Theorem SpanBatch_decode_wf `{RlpDecoder, Varint, Codec} data l1_inclusion_block chain_id b :
  SpanBatch_decode data l1_inclusion_block chain_id = Ok b ->
  span_shape b /\ sp_l1_inclusion_block b = l1_inclusion_block.
Proof. apply SpanBatch_decode_shape. Qed.

(** The blocks of a well-formed span batch.  [block_inputs] returns without a
    panic one block per block of the batch; block [i] is [i] block times after the
    first, its epoch is the last origin less the origin bits after it (so that the
    last block has the batch's L1 origin), and the blocks share out the
    transactions of the batch in order, none lost and none repeated. *)
Theorem block_inputs_spec batch config :
  span_shape batch -> zsum (sp_block_tx_counts batch) < 18446744073709551616 ->
  exists inputs, block_inputs batch config = Ok inputs /\
    len inputs = sp_block_count batch /\
    mjoin (bin_transactions <$> inputs) = sp_transactions batch /\
    (forall i input, inputs !! i = Some input ->
       bin_timestamp input =
         u64 (sp_rel_timestamp batch + bi_timestamp (l2_genesis (chain config)) + Z.of_nat i * blocktime (chain config)) /\
       bin_epoch input = u64 (sp_l1_origin_num batch - ones (drop (S i) (sp_origin_bits batch))) /\
       sp_block_tx_counts batch !! i = Some (len (bin_transactions input)) /\
       bin_l1_inclusion_block input = sp_l1_inclusion_block batch) /\
    (forall input, last inputs = Some input -> bin_epoch input = sp_l1_origin_num batch).
Proof.
  intros Hshape Hsum. pose proof Hshape as [Hbits Hcounts Hu64 Htxs _ (_ & Horg & Hbc)].
  pose proof (zsum_take_le _ (length (sp_block_tx_counts batch)) Hu64) as Hall. rewrite take_ge in Hall by lia.
  rewrite u64_small in Htxs by (unfold in_u64; lia). unfold in_u64 in Hbc.
  eexists. split; [by apply block_inputs_eq|]. split_and!.
  - unfold len. rewrite length_fmap, length_seq. lia.
  - rewrite span_inputs_transactions by (done || (unfold len in *; lia)).
    rewrite (take_ge (sp_block_tx_counts batch)) by (unfold len in *; lia).
    rewrite take_ge; [done|]. unfold len in Htxs. lia.
  - intros i input Hi. apply list_lookup_fmap_Some in Hi as (j & -> & [-> Hj]%lookup_seq). cbn [Nat.add].
    split_and!; [done|done| |done].
    destruct (lookup_lt_is_Some_2 (sp_block_tx_counts batch) i ltac:(unfold len in *; lia)) as [c Hc].
    rewrite Hc. f_equal. cbn. rewrite (list_lookup_total_correct _ _ _ Hc).
    pose proof (Forall_lookup_1 _ _ _ _ Hu64 Hc) as Hcu. unfold in_u64 in Hcu.
    pose proof (zsum_take_le _ i Hu64). pose proof (zsum_take_le _ (S i) Hu64) as HS.
    rewrite (zsum_take_S _ _ _ Hc) in HS. unfold len in *. rewrite length_take, length_drop. lia.
  - intros input Hl. rewrite last_lookup, length_fmap, length_seq in Hl.
    apply list_lookup_fmap_Some in Hl as (j & -> & [-> Hj]%lookup_seq). cbn.
    rewrite drop_ge by (unfold len in *; lia). change (ones []) with 0. rewrite Z.sub_0_r. by apply u64_small.
Qed.

(** ** Witnesses *)

Definition example_span (bits : list bool) (origin rel : Z) : SpanBatch :=
  {| sp_rel_timestamp := rel; sp_l1_origin_num := origin; sp_parent_check := to_be 20 1;
     sp_l1_origin_check := to_be 20 2; sp_block_count := len bits; sp_origin_bits := bits;
     sp_block_tx_counts := (fun b : bool => if b then 1 else 0) <$> bits;
     sp_transactions := (fun _ => [9]) <$> filter (fun b : bool => b = true) bits;
     sp_l1_inclusion_block := 100 |}.

Lemma decode_bitlist_spec_witness :
  decode_bitlist [1; 130; 7] 9 = Ok ([false; true; false; false; false; false; false; true; true], [7]).
Proof. rewrite (decode_bitlist_spec [1; 130; 7] 9); [by vm_compute|by_compute|by vm_compute|by vm_compute]. Defined.

(** Two blocks with no transaction. *)
Definition example_span_data : bytes := [10; 7] ++ to_be 20 1 ++ to_be 20 2 ++ [2; 2; 0; 0].

Lemma SpanBatch_decode_wf_witness :
  exists b, @SpanBatch_decode rlp_decoder example_varint example_codec example_span_data 100 8453 = Ok b /\
    span_shape b /\ sp_origin_bits b = [false; true].
Proof.
  destruct (@SpanBatch_decode rlp_decoder example_varint example_codec example_span_data 100 8453)
    as [b| | |] eqn:E; [|by vm_compute in E..].
  exists b. split; [reflexivity|]. split.
  - apply (@SpanBatch_decode_wf rlp_decoder example_varint example_codec example_span_data 100 8453 b E).
  - vm_compute in E. injection E as <-. reflexivity.
Defined.

Lemma block_inputs_spec_witness :
  exists inputs, block_inputs (example_span [false; true; true] 7 10) (example_config base) = Ok inputs /\
    len inputs = 3 /\ mjoin (bin_transactions <$> inputs) = [[9]; [9]].
Proof.
  destruct (block_inputs_spec (example_span [false; true; true] 7 10) (example_config base))
    as (inputs & H1 & H2 & H3 & _).
  - split; by_compute.
  - by vm_compute.
  - exists inputs. split; [exact H1|]. split; [exact H2|exact H3].
Defined.
