(* ===== verification/SpanEncoding.v ===== *)
(** The format of span batches, from the side that writes them.

    The OP Stack specification ("Span-batches") says how a batcher posts the blocks of a
    range: the numbers of the batch, one bit and one count per block, and the signed
    transactions of all blocks by column.  This file is that encoder, on real RLP and
    LEB128, and shows that the decoder of src/src/derive/stages/span_batch.rs inverts it:
    what the stage makes of the bytes are the blocks that were posted, with the signed
    transactions as they are hashed and executed. *)
From S2P Require Import Prelude Codecs Common Concrete Config State SingleBatch SpanBatch.

#[local] Existing Instances rlp_decoder leb128 rlp_codec.

(** ** What is posted *)

(** A signed transaction; the parity is that of the point of the signature, and
    [st_protected] is the replay protection of EIP-155, of legacy transactions. *)
Record SignedTx := {
  st_data : TxData;
  st_nonce : Z;
  st_gas_limit : Z;
  st_to : option bytes;
  st_protected : bool;
  st_parity : bool;
  st_r : Z;
  st_s : Z
}.

(** A block: whether its L1 origin is the next one, and its transactions. *)
Record SpanBlock := {
  blk_origin_bit : bool;
  blk_txs : list SignedTx
}.

Record SpanData := {
  sd_rel_timestamp : Z;
  sd_l1_origin_num : Z;
  sd_parent_check : bytes;
  sd_l1_origin_check : bytes;
  sd_blocks : list SpanBlock
}.

Definition sd_txs (sd : SpanData) : list SignedTx := mjoin (blk_txs <$> sd_blocks sd).

(** ** The transaction on its own *)

Definition parity_number (tx : SignedTx) : Z := if st_parity tx then 1 else 0.

Definition legacy_v (chain_id : Z) (tx : SignedTx) : Z :=
  (if st_protected tx then chain_id * 2 + 35 else 27) + parity_number tx.

(** The bytes of a signed transaction (EIP-2718, EIP-155, EIP-2930, EIP-1559). *)
Definition tx_wire (chain_id : Z) (tx : SignedTx) : RawTransaction :=
  let to := Rlp.encode_string (default [] (st_to tx)) in
  match st_data tx with
  | Legacy value gas_price data =>
      Rlp.encode_list (mjoin
        [Rlp.encode_uint (st_nonce tx); Rlp.encode_uint gas_price; Rlp.encode_uint (st_gas_limit tx); to;
         Rlp.encode_uint value; Rlp.encode_string data; Rlp.encode_uint (legacy_v chain_id tx);
         Rlp.encode_uint (st_r tx); Rlp.encode_uint (st_s tx)])
  | Type1 value gas_price data access_list =>
      1 :: Rlp.encode_list (mjoin
        [Rlp.encode_uint chain_id; Rlp.encode_uint (st_nonce tx); Rlp.encode_uint gas_price;
         Rlp.encode_uint (st_gas_limit tx); to; Rlp.encode_uint value; Rlp.encode_string data;
         Rlp.encode_access_list access_list; Rlp.encode_uint (parity_number tx);
         Rlp.encode_uint (st_r tx); Rlp.encode_uint (st_s tx)])
  | Type2 value max_fee max_priority_fee data access_list =>
      2 :: Rlp.encode_list (mjoin
        [Rlp.encode_uint chain_id; Rlp.encode_uint (st_nonce tx); Rlp.encode_uint max_priority_fee;
         Rlp.encode_uint max_fee; Rlp.encode_uint (st_gas_limit tx); to; Rlp.encode_uint value;
         Rlp.encode_string data; Rlp.encode_access_list access_list; Rlp.encode_uint (parity_number tx);
         Rlp.encode_uint (st_r tx); Rlp.encode_uint (st_s tx)])
  end.

(** ** The columns *)

(** The number whose bits these are, from the least significant one. *)
Fixpoint bits_number (bits : list bool) : Z :=
  match bits with
  | [] => 0
  | b :: bits => (if b then 1 else 0) + 2 * bits_number bits
  end.

Definition encode_bitlist (bits : list bool) : bytes :=
  to_be (Z.to_nat (bitlist_bytes (len bits))) (bits_number bits).

Definition encode_uvarints (l : list Z) : bytes := mjoin (encode_leb128 10 <$> l).

Definition encode_signatures (l : list (Z * Z)) : bytes :=
  mjoin ((fun rs : Z * Z => to_be 32 rs.1 ++ to_be 32 rs.2) <$> l).

Definition tx_data_items (td : TxData) : list bytes :=
  match td with
  | Legacy value gas_price data =>
      [Rlp.encode_uint value; Rlp.encode_uint gas_price; Rlp.encode_string data]
  | Type1 value gas_price data access_list =>
      [Rlp.encode_uint value; Rlp.encode_uint gas_price; Rlp.encode_string data;
       Rlp.encode_access_list access_list]
  | Type2 value max_fee max_priority_fee data access_list =>
      [Rlp.encode_uint value; Rlp.encode_uint max_priority_fee; Rlp.encode_uint max_fee;
       Rlp.encode_string data; Rlp.encode_access_list access_list]
  end.

Definition tx_data_type (td : TxData) : bytes :=
  match td with Legacy _ _ _ => [] | Type1 _ _ _ _ => [1] | Type2 _ _ _ _ _ => [2] end.

Definition encode_tx_data (td : TxData) : bytes :=
  tx_data_type td ++ Rlp.encode_list (mjoin (tx_data_items td)).

Definition legacy_txs (txs : list SignedTx) : list SignedTx := filter (fun tx => is_legacy (st_data tx) = true) txs.

Definition encode_transactions (txs : list SignedTx) : bytes :=
  encode_bitlist ((fun tx => bool_decide (st_to tx = None)) <$> txs) ++
  encode_bitlist (st_parity <$> txs) ++
  encode_signatures ((fun tx => (st_r tx, st_s tx)) <$> txs) ++
  mjoin (omap st_to txs) ++
  mjoin (encode_tx_data <$> (st_data <$> txs)) ++
  encode_uvarints (st_nonce <$> txs) ++
  encode_uvarints (st_gas_limit <$> txs) ++
  encode_bitlist (st_protected <$> legacy_txs txs).

Definition tx_counts (sd : SpanData) : list Z := (fun blk => len (blk_txs blk)) <$> sd_blocks sd.

Definition encode_span (sd : SpanData) : bytes :=
  encode_leb128 10 (sd_rel_timestamp sd) ++
  encode_leb128 10 (sd_l1_origin_num sd) ++
  sd_parent_check sd ++
  sd_l1_origin_check sd ++
  encode_leb128 10 (len (sd_blocks sd)) ++
  encode_bitlist (blk_origin_bit <$> sd_blocks sd) ++
  encode_uvarints (tx_counts sd) ++
  encode_transactions (sd_txs sd).

(** ** What can be posted *)

Definition data_ok (td : TxData) : Prop :=
  in_u64 (len (encode_tx_data td)) /\
  match td with
  | Legacy value gas_price data => in_u256 value /\ in_u256 gas_price /\ bytes_ok data
  | Type1 value gas_price data access_list =>
      in_u256 value /\ in_u256 gas_price /\ bytes_ok data /\ Forall Rlp.access_ok access_list
  | Type2 value max_fee max_priority_fee data access_list =>
      in_u256 value /\ in_u256 max_fee /\ in_u256 max_priority_fee /\ bytes_ok data /\ Forall Rlp.access_ok access_list
  end.

Record tx_ok (tx : SignedTx) : Prop := {
  tx_data_ok : data_ok (st_data tx);
  tx_numbers_ok : in_u64 (st_nonce tx) /\ in_u64 (st_gas_limit tx);
  tx_to_ok : forall a, st_to tx = Some a -> len a = 20 /\ bytes_ok a;
  tx_signature_ok : in_u256 (st_r tx) /\ in_u256 (st_s tx)
}.

Record span_ok (sd : SpanData) : Prop := {
  span_numbers_ok : in_u64 (sd_rel_timestamp sd) /\ in_u64 (sd_l1_origin_num sd);
  span_checks_ok : len (sd_parent_check sd) = 20 /\ len (sd_l1_origin_check sd) = 20;
  span_bytes_ok : bytes_ok (sd_parent_check sd) /\ bytes_ok (sd_l1_origin_check sd);
  span_size_ok : 1 + len (encode_span sd) < 2 ^ 64;
  span_blocks_ok : len (sd_blocks sd) + 7 < 2 ^ 64;
  span_count_ok : len (sd_txs sd) + 7 < 2 ^ 64;
  span_txs_ok : Forall tx_ok (sd_txs sd)
}.

(** The batch that the decoder is to give. *)
Definition span_of (chain_id l1_inclusion_block : Z) (sd : SpanData) : SpanBatch :=
  {| sp_rel_timestamp := sd_rel_timestamp sd;
     sp_l1_origin_num := sd_l1_origin_num sd;
     sp_parent_check := sd_parent_check sd;
     sp_l1_origin_check := sd_l1_origin_check sd;
     sp_block_count := len (sd_blocks sd);
     sp_origin_bits := blk_origin_bit <$> sd_blocks sd;
     sp_block_tx_counts := tx_counts sd;
     sp_transactions := tx_wire chain_id <$> sd_txs sd;
     sp_l1_inclusion_block := l1_inclusion_block |}.

(** The block that is posted at a place, as an input of the queue. *)
Definition posted_block (chain_id l1_inclusion_block : Z) (config : Config) (sd : SpanData) (i : nat) (blk : SpanBlock)
    : BlockInput Z :=
  {| bin_timestamp :=
       u64 (sd_rel_timestamp sd + bi_timestamp (l2_genesis (chain config)) + Z.of_nat i * blocktime (chain config));
     bin_epoch := u64 (sd_l1_origin_num sd - ones (drop (S i) (blk_origin_bit <$> sd_blocks sd)));
     bin_transactions := tx_wire chain_id <$> blk_txs blk;
     bin_l1_inclusion_block := l1_inclusion_block |}.

(** ** The columns are read back *)

Lemma take_data_app a rest n : n = len a -> take_data (a ++ rest) n = Ok (a, rest).
Proof.
  intros ->. apply take_data_Ok. rewrite len_app. unfold len. rewrite Nat2Z.id, take_app_length, drop_app_length.
  split_and!; [lia|lia|done|done].
Qed.

Lemma bits_of_number bits : bits_of (bits_number bits) (len bits) = bits.
Proof.
  induction bits as [|b bits IH]; [done|]. rewrite len_cons. unfold bits_of. rewrite seqZ_app by (pose proof (len_nonneg bits); lia).
  rewrite fmap_app. change (seqZ 0 1) with [0]. cbn [fmap list_fmap app bits_number]. f_equal.
  - rewrite Z.bit0_odd, Z.odd_add_mul_2. by destruct b.
  - etransitivity; [|exact IH]. unfold bits_of. rewrite <- (fmap_add_seqZ 1 0). rewrite <- list_fmap_compose.
    apply list_fmap_ext. intros i k [-> Hk]%lookup_seqZ. unfold compose.
    replace (1 + (0 + Z.of_nat i)) with (Z.succ (0 + Z.of_nat i)) by lia.
    destruct b; [by rewrite (Z.add_comm 1), Z.testbit_odd_succ by lia|by rewrite Z.add_0_l, Z.double_bits_succ by lia].
Qed.

Lemma bits_number_bound bits : 0 <= bits_number bits < 2 ^ len bits.
Proof.
  induction bits as [|b bits IH]; [done|]. rewrite len_cons, Z.pow_add_r by (lia || apply len_nonneg). cbn [bits_number].
  destruct b; lia.
Qed.

Lemma decode_bitlist_encode bits rest :
  len bits + 7 < 2 ^ 64 -> decode_bitlist (encode_bitlist bits ++ rest) (len bits) = Ok (bits, rest).
Proof.
  intros Hl. pose proof (len_nonneg bits). unfold decode_bitlist. change (2 ^ 64) with 18446744073709551616 in Hl.
  rewrite u64_add_small by (unfold in_u64; lia). fold (bitlist_bytes (len bits)).
  pose proof (bitlist_bytes_bound (len bits) ltac:(done)) as Hb.
  assert (Hlen : len (encode_bitlist bits) = bitlist_bytes (len bits)) by (unfold encode_bitlist; rewrite len_to_be; lia).
  rewrite take_data_app by done. rewrite bind_ret.
  rewrite bitlist_of_bytes by apply bytes_ok_to_be. rewrite Hlen. unfold encode_bitlist. rewrite from_be_to_be_id.
  - assert (Hs : slice (bits_of (bits_number bits) (8 * bitlist_bytes (len bits))) 0 (len bits) = Ok bits).
    { apply slice_Ok. rewrite length_bits_of by lia. split_and!; [lia..|].
      by rewrite drop_0, Z.sub_0_r, take_bits_of, bits_of_number by lia. }
    by rewrite Hs.
  - pose proof (bits_number_bound bits). split; [lia|]. eapply Z.lt_le_trans; [apply bits_number_bound|].
    rewrite Z2Nat.id by lia. change 256 with (2 ^ 8). rewrite <- Z.pow_mul_r by lia. apply Z.pow_le_mono_r; lia.
Qed.

Lemma decode_uvarints_encode l rest acc :
  Forall in_u64 l -> decode_uvarints (length l) (encode_uvarints l ++ rest) acc = Ok (acc ++ l, rest).
Proof.
  intros Hl. revert acc. induction Hl as [|z l Hz _ IH]; intros acc; [by rewrite app_nil_r|].
  cbn [length decode_uvarints]. unfold encode_uvarints. rewrite fmap_cons, join_cons, <- app_assoc.
  cbn [uvarint leb128]. rewrite uvarint_encode by done. cbn [unwrap]. rewrite bind_ret. fold (encode_uvarints l).
  by rewrite IH, <- app_assoc.
Qed.

Lemma decode_signatures_encode l rest acc :
  Forall (fun rs : Z * Z => in_u256 rs.1 /\ in_u256 rs.2) l ->
  decode_signatures_loop (length l) (encode_signatures l ++ rest) acc = Ok (acc ++ l, rest).
Proof.
  intros Hl. revert acc. induction Hl as [|[r s] l [Hr Hs] _ IH]; intros acc; [by rewrite app_nil_r|].
  cbn [length decode_signatures_loop]. unfold encode_signatures, decode_u256. rewrite fmap_cons, join_cons, <- !app_assoc.
  cbn [fst snd] in *. rewrite take_data_app by by rewrite len_to_be. rewrite !bind_ret.
  rewrite take_data_app by by rewrite len_to_be. rewrite !bind_ret. rewrite !from_be_to_be_u256 by done.
  fold (encode_signatures l). by rewrite IH, <- app_assoc.
Qed.

Lemma decode_tos_encode l rest acc :
  Forall (fun a => len a = 20) l -> decode_tos_loop (length l) (mjoin l ++ rest) acc = Ok (acc ++ l, rest).
Proof.
  intros Hl. revert acc. induction Hl as [|a l Ha _ IH]; intros acc; [by rewrite app_nil_r|].
  cbn [length decode_tos_loop]. unfold decode_address. rewrite join_cons, <- app_assoc, take_data_app by done.
  rewrite bind_ret. by rewrite IH, <- app_assoc.
Qed.

(** An item alone. *)
Lemma uint_item z : in_u256 z -> Rlp.as_uint 32 (Rlp.encode_uint z) = Some z.
Proof. intros Hz. rewrite <- (app_nil_r (Rlp.encode_uint z)). by apply Rlp.as_uint_u256. Qed.

Lemma string_item x : bytes_ok x -> in_u64 (len x) -> Rlp.as_string (Rlp.encode_string x) = Some x.
Proof. intros Hx Hl. rewrite <- (app_nil_r (Rlp.encode_string x)). by apply Rlp.as_string_encode. Qed.

Lemma access_list_item l :
  Forall Rlp.access_ok l -> in_u64 (len (Rlp.encode_access_list l)) ->
  Rlp.as_access_list (Rlp.encode_access_list l) = Some l.
Proof. intros Hl Hn. rewrite <- (app_nil_r (Rlp.encode_access_list l)). by apply Rlp.as_access_list_encode. Qed.

(** The calldata and the access list of a transaction are no longer than its encoding. *)
Lemma tx_data_sizes td :
  data_ok td -> in_u64 (len (mjoin (tx_data_items td))) /\
  forall x, x ∈ tx_data_items td -> in_u64 (len x).
Proof.
  intros [Hl _]. unfold encode_tx_data in Hl. rewrite len_app in Hl.
  pose proof (Rlp.len_encode_list (mjoin (tx_data_items td))). pose proof (len_nonneg (tx_data_type td)).
  pose proof (len_nonneg (mjoin (tx_data_items td))). unfold in_u64 in *. split; [lia|].
  intros x Hx%Rlp.len_in_join. pose proof (len_nonneg x). lia.
Qed.

Lemma string_size x : in_u64 (len (Rlp.encode_string x)) -> in_u64 (len x).
Proof. pose proof (Rlp.len_le_encode_string x). pose proof (len_nonneg x). unfold in_u64. lia. Qed.

Lemma tx_data_items_ok td : data_ok td -> Forall Rlp.is_item (tx_data_items td).
Proof.
  intros Hd. destruct (tx_data_sizes td Hd) as [_ Hs]. destruct Hd as [_ Hd].
  assert (Hstr : forall x, Rlp.encode_string x ∈ tx_data_items td -> bytes_ok x -> Rlp.is_item (Rlp.encode_string x))
    by (intros x Hx Hb; apply Rlp.is_item_string; [done|by apply string_size, Hs]).
  assert (Hacc : forall l, Rlp.encode_access_list l ∈ tx_data_items td -> Forall Rlp.access_ok l ->
    Rlp.is_item (Rlp.encode_access_list l)) by (intros l Hx Hb; apply (Rlp.as_access_list_encode l []); [done|by apply Hs]).
  destruct td; cbn [tx_data_items] in *; destruct_and?;
    repeat (apply Forall_cons; split); try apply Forall_nil_2; try by apply Rlp.is_item_u256.
  all: first [apply Hstr; [set_solver|done]|apply Hacc; [set_solver|done]].
Qed.

(** The list of a transaction's data, read from the front of the rest. *)
Lemma tx_data_list td rest :
  data_ok td ->
  (forall i, Rlp.at_ (Rlp.encode_list (mjoin (tx_data_items td)) ++ rest) i = tx_data_items td !! i) /\
  rlp_total (Rlp.encode_list (mjoin (tx_data_items td)) ++ rest) = Ok (len (Rlp.encode_list (mjoin (tx_data_items td)))).
Proof.
  intros Hd. destruct (tx_data_sizes td Hd) as [Hl _]. split.
  - intros i. unfold Rlp.at_. by rewrite Rlp.items_encode by (done || by apply tx_data_items_ok).
  - destruct (Rlp.value_encode_list _ rest Hl) as (_ & _ & h & v & Hi & Hlen & _). unfold rlp_total.
    cbn [payload_info rlp_decoder]. rewrite Hi. cbn [unwrap]. rewrite bind_ret. f_equal. unfold len. lia.
Qed.

Lemma decode_tx_data_step_encode td rest :
  data_ok td -> decode_tx_data_step (encode_tx_data td ++ rest) = Ok (len (encode_tx_data td), td).
Proof.
  intros Hd. pose proof (tx_data_sizes td Hd) as [Hl Hs]. destruct (tx_data_list td rest Hd) as [Hat Ht]. destruct Hd as [_ Hd].
  assert (Hstr : forall x, Rlp.encode_string x ∈ tx_data_items td -> bytes_ok x -> Rlp.as_string (Rlp.encode_string x) = Some x)
    by (intros x Hx Hb; apply string_item; [done|by apply string_size, Hs]).
  assert (Hacc : forall l, Rlp.encode_access_list l ∈ tx_data_items td -> Forall Rlp.access_ok l ->
    Rlp.as_access_list (Rlp.encode_access_list l) = Some l) by (intros l Hx Hb; apply access_list_item; [done|by apply Hs]).
  unfold decode_tx_data_step, encode_tx_data. rewrite <- app_assoc.
  cbn [val_at_uint val_at_bytes val_at_access_list rlp_decoder].
  destruct td; destruct_and?; cbn [tx_data_type].
  - assert (H0 : forall d : bytes, slice_from d 0 = Ok d) by (intros d; exact (slice_from_app [] d 0 eq_refl)).
    rewrite app_nil_l, H0.
    destruct (Rlp.header_cons 192 (len (mjoin (tx_data_items (Legacy value gas_price data))))) as (b & l & Eh).
    pose proof (Rlp.header_kind 192 _ b l (or_intror eq_refl) Hl Eh) as [Hk _].
    assert (Hi : index (Rlp.encode_list (mjoin (tx_data_items (Legacy value gas_price data))) ++ rest) 0 = Ok b)
      by (unfold Rlp.encode_list; by rewrite Eh).
    rewrite Hi, bind_ret, (proj2 (Z.eqb_neq b 1)), (proj2 (Z.eqb_neq b 2)), bind_ret by lia. rewrite !Hat.
    cbn [tx_data_items lookup list_lookup mbind option_bind]. rewrite !uint_item, Hstr by (done || set_solver).
    cbn [unwrap]. rewrite !bind_ret. cbn [tx_data_items] in Ht. by rewrite Ht.
  - change (index ([1] ++ ?x) 0) with (Ok 1). rewrite bind_ret. cbn [Z.eqb Pos.eqb].
    rewrite (slice_from_app [1] _ 1 eq_refl), bind_ret, !Hat.
    cbn [tx_data_items lookup list_lookup mbind option_bind]. rewrite !uint_item, Hstr, Hacc by (done || set_solver).
    cbn [unwrap]. rewrite !bind_ret. cbn [tx_data_items] in Ht. rewrite Ht, bind_ret, len_app. do 2 f_equal.
    change (len [1]) with 1. lia.
  - change (index ([2] ++ ?x) 0) with (Ok 2). rewrite bind_ret. cbn [Z.eqb Pos.eqb].
    rewrite (slice_from_app [2] _ 1 eq_refl), bind_ret, !Hat.
    cbn [tx_data_items lookup list_lookup mbind option_bind]. rewrite !uint_item, Hstr, Hacc by (done || set_solver).
    cbn [unwrap]. rewrite !bind_ret. cbn [tx_data_items] in Ht. rewrite Ht, bind_ret, len_app. do 2 f_equal.
    change (len [2]) with 1. lia.
Qed.

Lemma decode_tx_data_encode l rest acc :
  Forall data_ok l -> decode_tx_data_loop (length l) (mjoin (encode_tx_data <$> l) ++ rest) acc = Ok (acc ++ l, rest).
Proof.
  intros Hl. revert acc. induction Hl as [|td l Htd _ IH]; intros acc; [by rewrite app_nil_r|].
  cbn [length decode_tx_data_loop]. rewrite fmap_cons, join_cons, <- app_assoc, decode_tx_data_step_encode by done.
  rewrite bind_ret, slice_from_app by done. rewrite bind_ret. by rewrite IH, <- app_assoc.
Qed.

(** ** The transactions are put together again *)

Definition columns (txs : list SignedTx) : TxColumns :=
  {| contract_creation_bits := (fun tx => bool_decide (st_to tx = None)) <$> txs;
     y_parity_bits := st_parity <$> txs;
     signatures := (fun tx => (st_r tx, st_s tx)) <$> txs;
     tos := omap st_to txs;
     tx_datas := st_data <$> txs;
     tx_nonces := st_nonce <$> txs;
     tx_gas_limits := st_gas_limit <$> txs;
     protected_bits := st_protected <$> legacy_txs txs |}.

Lemma index_column {A} (f : SignedTx -> A) pre tx post :
  index (f <$> pre ++ tx :: post) (len pre) = Ok (f tx).
Proof. rewrite fmap_app, fmap_cons. apply index_app_mid. unfold len. by rewrite length_fmap. Qed.

Lemma append_to_column pre tx post :
  append_to (columns (pre ++ tx :: post)) (len pre) (len (omap st_to pre)) =
    Ok (append_bytes (default [] (st_to tx)), len (omap st_to (pre ++ [tx]))).
Proof.
  unfold append_to. cbn [contract_creation_bits tos columns]. rewrite index_column, bind_ret, !omap_app, len_app. cbn [omap list_omap].
  destruct (st_to tx) as [a|]; cbn [bool_decide]; [rewrite bool_decide_eq_false_2 by done|rewrite bool_decide_eq_true_2 by done].
  - rewrite index_app_mid by done. by rewrite bind_ret.
  - change (len (@nil bytes)) with 0. by rewrite Z.add_0_r.
Qed.

Lemma decode_transactions_step_column chain_id pre tx post :
  0 <= chain_id /\ chain_id * 2 + 36 < 2 ^ 64 ->
  decode_transactions_step chain_id (columns (pre ++ tx :: post)) (len pre) (len (legacy_txs pre)) (len (omap st_to pre)) =
    Ok (tx_wire chain_id tx, len (legacy_txs (pre ++ [tx])), len (omap st_to (pre ++ [tx]))).
Proof.
  intros [Hc0 Hc]. unfold decode_transactions_step. rewrite append_to_column.
  cbn [tx_datas tx_nonces tx_gas_limits y_parity_bits signatures protected_bits columns].
  rewrite !index_column, !bind_ret. unfold tx_wire, legacy_txs. rewrite !filter_app. cbn [rlp_out rlp_codec].
  destruct (st_data tx) as [value gas_price data|value gas_price data l|value max_fee max_prio data l] eqn:Ed.
  - rewrite (filter_cons_True _ tx), (filter_cons_True _ tx []) by by rewrite Ed.
    rewrite fmap_app, fmap_cons, index_app_mid by (unfold len; by rewrite length_fmap). rewrite bind_ret, len_app.
    assert (Hv : (if st_protected tx then u64_add (u64_add (u64_mul chain_id 2) 35) (if st_parity tx then 1 else 0)
      else u64_add 27 (if st_parity tx then 1 else 0)) = legacy_v chain_id tx).
    { unfold legacy_v, parity_number.
      destruct (st_protected tx), (st_parity tx); [| |done..].
      all: rewrite u64_mul_small by (unfold in_u64; lia). all: rewrite (u64_add_small _ 35) by (unfold in_u64; lia).
      all: by rewrite u64_add_small by (unfold in_u64; lia). }
    rewrite Hv, bind_ret. do 3 f_equal.
    apply (Rlp.out_list [append_uint _; append_uint _; append_uint _; append_bytes _; append_uint _; append_bytes _;
      append_uint _; append_uint _; append_uint _]). by repeat constructor.
  - rewrite (filter_cons_False _ tx []) by by rewrite Ed. rewrite bind_ret, app_nil_r. do 4 f_equal.
    apply (Rlp.out_list [append_uint _; append_uint _; append_uint _; append_uint _; append_bytes _; append_uint _;
      append_bytes _; append_access_list _; append_uint _; append_uint _; append_uint _]). by repeat constructor.
  - rewrite (filter_cons_False _ tx []) by by rewrite Ed. rewrite bind_ret, app_nil_r. do 4 f_equal.
    apply (Rlp.out_list [append_uint _; append_uint _; append_uint _; append_uint _; append_uint _; append_bytes _;
      append_uint _; append_bytes _; append_access_list _; append_uint _; append_uint _; append_uint _]). by repeat constructor.
Qed.

Lemma decode_transactions_loop_column chain_id pre post acc :
  0 <= chain_id /\ chain_id * 2 + 36 < 2 ^ 64 ->
  decode_transactions_loop chain_id (columns (pre ++ post)) (length post) (len pre) (len (legacy_txs pre))
    (len (omap st_to pre)) acc = Ok (acc ++ (tx_wire chain_id <$> post)).
Proof.
  intros Hc. revert pre acc. induction post as [|tx post IH]; intros pre acc; [by rewrite !app_nil_r|].
  cbn [length decode_transactions_loop]. rewrite decode_transactions_step_column, bind_ret by done.
  specialize (IH (pre ++ [tx]) (acc ++ [tx_wire chain_id tx])). rewrite <- !app_assoc in IH. cbn [app] in IH.
  rewrite len_app in IH. change (len [tx]) with 1 in IH. by rewrite IH.
Qed.

Lemma legacy_count txs :
  len (filter (fun td => is_legacy td = true) (st_data <$> txs)) = len (st_protected <$> legacy_txs txs).
Proof.
  unfold len. rewrite length_fmap. unfold legacy_txs. f_equal. induction txs as [|tx txs IH]; [done|].
  rewrite fmap_cons, !filter_cons. destruct (decide (is_legacy (st_data tx) = true)); [|done]. cbn [length]. by rewrite IH.
Qed.

Lemma tos_count txs :
  len (filter (fun b : bool => b = false) ((fun tx => bool_decide (st_to tx = None)) <$> txs)) = len (omap st_to txs).
Proof.
  induction txs as [|tx txs IH]; [done|]. rewrite fmap_cons. cbn [omap list_omap]. rewrite filter_cons.
  destruct (st_to tx) as [a|]; [rewrite bool_decide_eq_false_2 by done|rewrite bool_decide_eq_true_2 by done]; cbn [decide].
  - destruct (decide (false = false)); [|done]. rewrite !len_cons. by rewrite IH.
  - by destruct (decide (true = false)).
Qed.

Lemma decode_transactions_encode chain_id txs rest :
  0 <= chain_id /\ chain_id * 2 + 36 < 2 ^ 64 -> Forall tx_ok txs -> len txs + 7 < 2 ^ 64 ->
  decode_transactions chain_id (encode_transactions txs ++ rest) (len txs) = Ok (tx_wire chain_id <$> txs, rest).
Proof.
  intros Hc Htxs Hlen.
  assert (Hbits : forall f r, decode_bitlist (encode_bitlist (f <$> txs) ++ r) (len txs) = Ok (f <$> txs, r)).
  { intros f r. assert (Hf : len (f <$> txs) = len txs) by (unfold len; by rewrite length_fmap).
    rewrite <- Hf at 1. apply decode_bitlist_encode. by rewrite Hf. }
  assert (Hn : forall {A} (f : SignedTx -> A), Z.to_nat (len txs) = length (f <$> txs))
    by (intros A f; unfold len; by rewrite Nat2Z.id, length_fmap).
  assert (Huv : forall f, Forall in_u64 (f <$> txs) -> forall r,
    decode_uvarint_list (encode_uvarints (f <$> txs) ++ r) (len txs) = Ok (f <$> txs, r))
    by (intros f Hf r; unfold decode_uvarint_list; rewrite (Hn _ f); by apply (decode_uvarints_encode _ _ [])).
  unfold decode_transactions, encode_transactions. rewrite <- !app_assoc.
  rewrite Hbits, bind_ret, Hbits, bind_ret.
  unfold decode_signatures. rewrite (Hn _ (fun tx => (st_r tx, st_s tx))), (decode_signatures_encode _ _ []), bind_ret.
  2: { apply Forall_fmap. eapply Forall_impl; [exact Htxs|]. by intros tx []. }
  rewrite tos_count. unfold decode_tos. rewrite (Nat2Z.id _ : Z.to_nat (len (omap st_to txs)) = _).
  rewrite (decode_tos_encode _ _ []), bind_ret.
  2: { apply Forall_forall. intros a (tx & Htx & Ha)%list_elem_of_omap. rewrite Forall_forall in Htxs.
       by eapply tx_to_ok; [apply Htxs|]. }
  unfold decode_tx_data. rewrite (Hn _ st_data), (decode_tx_data_encode _ _ []), bind_ret.
  2: { apply Forall_fmap. eapply Forall_impl; [exact Htxs|]. by intros tx []. }
  rewrite Huv, bind_ret. 2: { apply Forall_fmap. eapply Forall_impl; [exact Htxs|]. by intros tx [_ []]. }
  rewrite Huv, bind_ret. 2: { apply Forall_fmap. eapply Forall_impl; [exact Htxs|]. by intros tx [_ []]. }
  rewrite !app_nil_l, legacy_count, decode_bitlist_encode, bind_ret.
  2: { eapply Z.le_lt_trans; [|exact Hlen]. unfold len, legacy_txs. rewrite length_fmap.
       pose proof (length_filter (fun tx => is_legacy (st_data tx) = true) txs). lia. }
  pose proof (decode_transactions_loop_column chain_id [] txs [] Hc) as Hl. rewrite !length_fmap.
  cbn [app] in Hl. unfold columns in Hl. by setoid_rewrite Hl.
Qed.

(** ** The batch is read back *)

Lemma zsum_tx_counts sd : zsum (tx_counts sd) = len (sd_txs sd).
Proof.
  unfold tx_counts, sd_txs. induction (sd_blocks sd) as [|blk l IH]; [done|].
  by rewrite !fmap_cons, join_cons, len_app, zsum_cons, IH.
Qed.

Lemma tx_counts_ok sd : span_ok sd -> Forall in_u64 (tx_counts sd).
Proof.
  intros [_ _ _ _ _ Hc _]. unfold tx_counts, sd_txs in *. induction (sd_blocks sd) as [|blk l IH]; [constructor|].
  rewrite !fmap_cons in *. rewrite join_cons, len_app in Hc. pose proof (len_nonneg (blk_txs blk)).
  pose proof (len_nonneg (mjoin (blk_txs <$> l))). constructor; [unfold in_u64; lia|apply IH; lia].
Qed.

Lemma SpanBatch_decode_encode chain_id l1_inclusion_block sd :
  0 <= chain_id /\ chain_id * 2 + 36 < 2 ^ 64 -> span_ok sd ->
  SpanBatch_decode (encode_span sd) l1_inclusion_block chain_id = Ok (span_of chain_id l1_inclusion_block sd).
Proof.
  intros Hc Hsd. pose proof (tx_counts_ok sd Hsd) as Hcounts. destruct Hsd as [[Hrel Horg] [Hpc Hoc] _ _ Hb Hn Htxs].
  pose proof (len_nonneg (sd_blocks sd)). pose proof (len_nonneg (sd_txs sd)).
  assert (Hlen : forall {A} (f : SpanBlock -> A), len (f <$> sd_blocks sd) = len (sd_blocks sd))
    by (intros; unfold len; by rewrite length_fmap).
  unfold SpanBatch_decode, encode_span. cbn [uvarint leb128].
  do 2 (rewrite uvarint_encode by done; cbn [ok_or]; rewrite bind_ret).
  do 2 (rewrite take_data_app by done; rewrite bind_ret).
  rewrite uvarint_encode by (unfold in_u64; lia). cbn [ok_or]. rewrite bind_ret.
  rewrite <- (Hlen _ blk_origin_bit) at 1. rewrite decode_bitlist_encode, bind_ret by (by rewrite Hlen).
  assert (Hcnt : forall r, decode_block_tx_counts (encode_uvarints (tx_counts sd) ++ r) (len (sd_blocks sd)) = Ok (tx_counts sd, r)).
  { intros r. unfold decode_block_tx_counts. replace (Z.to_nat (len (sd_blocks sd))) with (length (tx_counts sd))
      by (unfold tx_counts, len; rewrite length_fmap; lia). by apply (decode_uvarints_encode _ _ []). }
  rewrite Hcnt, bind_ret.
  replace (u64_sum (tx_counts sd)) with (len (sd_txs sd)).
  2: { unfold u64_sum. change 0 with (u64 0) at 1. rewrite foldl_u64_add, zsum_tx_counts, u64_small by (unfold in_u64; lia). lia. }
  rewrite <- (app_nil_r (encode_transactions _)), decode_transactions_encode by done. by rewrite bind_ret.
Qed.

Lemma span_of_shape chain_id l1_inclusion_block sd : span_ok sd -> span_shape (span_of chain_id l1_inclusion_block sd).
Proof.
  intros Hsd. pose proof (tx_counts_ok sd Hsd) as Hcounts. destruct Hsd as [[Hrel Horg] Hck _ _ Hb Hn _].
  pose proof (len_nonneg (sd_blocks sd)). pose proof (len_nonneg (sd_txs sd)).
  split; cbn [span_of sp_origin_bits sp_block_count sp_block_tx_counts sp_transactions sp_parent_check sp_l1_origin_check
    sp_rel_timestamp sp_l1_origin_num].
  - unfold len. by rewrite length_fmap.
  - unfold len, tx_counts. by rewrite length_fmap.
  - done.
  - rewrite zsum_tx_counts, u64_small by (unfold in_u64; lia). unfold len. by rewrite length_fmap.
  - done.
  - split_and!; [done|done|unfold in_u64; lia].
Qed.

(** The transactions of a block are its share of all. *)
Lemma share_of_join {A} (ls : list (list A)) i l :
  ls !! i = Some l ->
  take (length l) (drop (Z.to_nat (zsum (take i (len <$> ls)))) (mjoin ls)) = l.
Proof.
  revert i. induction ls as [|k ls IH]; intros [|i]; [done|done|intros [= ->]|intros Hi]; rewrite join_cons.
  - rewrite take_0. change (zsum []) with 0. rewrite drop_0. by rewrite take_app_length.
  - cbn [fmap list_fmap take]. rewrite zsum_cons.
    assert (Hz : 0 <= zsum (take i (len <$> ls))).
    { apply zsum_nonneg, Forall_take, Forall_fmap, Forall_forall. intros x _. apply len_nonneg. }
    rewrite Z2Nat.inj_add by (lia || apply len_nonneg). unfold len at 1. rewrite Nat2Z.id, <- drop_drop, drop_app_length. by apply IH.
Qed.

Lemma span_of_inputs chain_id l1_inclusion_block config sd :
  span_ok sd ->
  block_inputs (span_of chain_id l1_inclusion_block sd) config =
    Ok (imap (posted_block chain_id l1_inclusion_block config sd) (sd_blocks sd)).
Proof.
  intros Hsd. pose proof (span_of_shape chain_id l1_inclusion_block sd Hsd) as Hshape.
  rewrite block_inputs_eq; [|done|].
  2: { cbn [span_of sp_block_tx_counts]. rewrite zsum_tx_counts. destruct Hsd as [_ _ _ _ _ Hn _]. lia. }
  f_equal. apply list_eq. intros i. rewrite list_lookup_fmap, list_lookup_imap. cbn [span_of sp_block_count].
  unfold len at 1. rewrite Nat2Z.id. destruct (sd_blocks sd !! i) as [blk|] eqn:Hi.
  - rewrite lookup_seq_lt by by eapply lookup_lt_Some. cbn [fmap option_fmap option_map Nat.add]. f_equal.
    unfold span_input, posted_block. cbn [span_of sp_rel_timestamp sp_l1_origin_num sp_origin_bits sp_block_tx_counts
      sp_transactions sp_l1_inclusion_block]. f_equal.
    assert (Hcnt : tx_counts sd !! i = Some (len (blk_txs blk))) by (unfold tx_counts; by rewrite list_lookup_fmap, Hi).
    rewrite (list_lookup_total_correct _ _ _ Hcnt). unfold len at 1. rewrite Nat2Z.id.
    unfold sd_txs, tx_counts. rewrite <- fmap_drop, <- fmap_take. f_equal.
    rewrite <- (share_of_join (blk_txs <$> sd_blocks sd) i (blk_txs blk)) at 2 by by rewrite list_lookup_fmap, Hi.
    by rewrite <- list_fmap_compose.
  - by rewrite lookup_seq_ge by by apply lookup_ge_None.
Qed.

(** ** The bytes of a batch *)

Lemma bytes_ok_join (l : list bytes) : Forall bytes_ok l -> bytes_ok (mjoin l).
Proof. induction 1 as [|x l Hx _ IH]; [constructor|]. rewrite join_cons. by apply Forall_app. Qed.

Lemma bytes_ok_leb128 fuel z : 0 <= z -> bytes_ok (encode_leb128 fuel z).
Proof.
  revert z. induction fuel as [|fuel IH]; intros z Hz; [constructor|]. cbn [encode_leb128]. pose proof (Z.mod_pos_bound z 128 ltac:(lia)).
  destruct (Z.ltb_spec z 128); (constructor; [unfold byte_ok; lia|]); [constructor|]. apply IH, Z.div_pos; lia.
Qed.

Lemma bytes_ok_uvarints l : Forall in_u64 l -> bytes_ok (encode_uvarints l).
Proof.
  intros Hl. apply bytes_ok_join, Forall_fmap. eapply Forall_impl; [exact Hl|]. intros z [Hz _]. by apply bytes_ok_leb128.
Qed.

Lemma bytes_ok_tx_data td : data_ok td -> bytes_ok (encode_tx_data td).
Proof.
  intros Hd. destruct (tx_data_sizes td Hd) as [Hl Hs]. destruct Hd as [_ Hd]. apply Forall_app.
  split; [by destruct td; repeat constructor|]. apply Rlp.bytes_ok_encode_list; [|done]. apply bytes_ok_join.
  assert (Hstr : forall x, Rlp.encode_string x ∈ tx_data_items td -> bytes_ok x -> bytes_ok (Rlp.encode_string x))
    by (intros x Hx Hb; apply Rlp.bytes_ok_encode_string; [done|by apply string_size, Hs]).
  assert (Hacc : forall l, Rlp.encode_access_list l ∈ tx_data_items td -> Forall Rlp.access_ok l ->
    bytes_ok (Rlp.encode_access_list l)) by (intros l Hx Hb; apply (Rlp.as_access_list_encode l []); [done|by apply Hs]).
  destruct td; cbn [tx_data_items] in *; destruct_and?;
    repeat (apply Forall_cons; split); try apply Forall_nil_2; try by apply Rlp.bytes_ok_encode_u256.
  all: first [apply Hstr; [set_solver|done]|apply Hacc; [set_solver|done]].
Qed.

Lemma bytes_ok_transactions txs : Forall tx_ok txs -> bytes_ok (encode_transactions txs).
Proof.
  intros Htxs. unfold encode_transactions.
  assert (Hu : forall f, (forall tx, tx_ok tx -> in_u64 (f tx)) -> bytes_ok (encode_uvarints (f <$> txs))).
  { intros f Hf. apply bytes_ok_uvarints, Forall_fmap. eapply Forall_impl; [exact Htxs|]. exact Hf. }
  repeat (apply Forall_app; split); try apply bytes_ok_to_be; try (apply Hu; by intros tx [_ [] _ _]).
  - apply bytes_ok_join, Forall_fmap, Forall_forall. intros rs _. apply Forall_app. split; apply bytes_ok_to_be.
  - apply bytes_ok_join, Forall_forall. intros a (tx & Htx & Ha)%list_elem_of_omap. rewrite Forall_forall in Htxs.
    by eapply tx_to_ok; [apply Htxs|].
  - apply bytes_ok_join. do 2 apply Forall_fmap. eapply Forall_impl; [exact Htxs|]. intros tx [Hd _ _ _]. by apply bytes_ok_tx_data.
Qed.

Lemma bytes_ok_encode_span sd : span_ok sd -> bytes_ok (encode_span sd).
Proof.
  intros Hsd. pose proof (tx_counts_ok sd Hsd). destruct Hsd as [[[Hrel _] [Horg _]] _ [Hp Ho] _ _ _ Htxs]. unfold encode_span.
  do 7 (apply Forall_app_2; [first
    [done|apply bytes_ok_leb128; first [done|apply len_nonneg]|apply bytes_ok_to_be|by apply bytes_ok_uvarints]|]).
  by apply bytes_ok_transactions.
Qed.

(** ** An example

    A block with a contract creation and a call, and an empty block of the next epoch. *)

Definition example_creation : SignedTx :=
  {| st_data := Legacy 1000 7 [96; 0]; st_nonce := 3; st_gas_limit := 53000; st_to := None;
     st_protected := true; st_parity := true; st_r := 2 ^ 255; st_s := 12 |}.

Definition example_call : SignedTx :=
  {| st_data := Type2 0 900 1 [] [(to_be 20 1, [to_be 32 2])]; st_nonce := 400; st_gas_limit := 30000;
     st_to := Some (to_be 20 9); st_protected := false; st_parity := false; st_r := 21; st_s := 22 |}.

Definition example_posted : SpanData :=
  {| sd_rel_timestamp := 20; sd_l1_origin_num := 19400050; sd_parent_check := to_be 20 1; sd_l1_origin_check := to_be 20 2;
     sd_blocks := [{| blk_origin_bit := false; blk_txs := [example_creation; example_call] |};
                   {| blk_origin_bit := true; blk_txs := [] |}] |}.

Lemma example_posted_ok : span_ok example_posted.
Proof.
  split; [by_compute..|]. apply Forall_cons; split; [|apply Forall_cons; split; [|apply Forall_nil_2]].
  - split; [split; by_compute|by_compute|done|by_compute].
  - split; [split; [by_compute|split_and!; [by_compute..|]]|by_compute|intros a [= <-]; by_compute|by_compute].
    apply Forall_singleton. split; by_compute.
Qed.
