(* ===== verification/Batches.v ===== *)
(** The batch queue (src/src/derive/stages/batches.rs): batches are decoded from
    channels, kept by timestamp, checked against the derivation state, and turned
    into block inputs; empty blocks are made when the sequencing window passes
    without a batch.

    The stage shares the derivation state: every operation gets it as an
    argument. *)
From S2P Require Import Prelude Purgeable Codecs Common Concrete Config L1Info State Channels SingleBatch SpanBatch SpanEncoding.

(** ** Data *)

Inductive Batch :=
| Single (batch : SingleBatch)
| Span (batch : SpanBatch).

#[export] Instance Batch_eq_dec : EqDecision Batch.
Proof. solve_decision. Defined.

(** The [BatchStatus] enum; [Drop] and [Accept] carry a prefix of their own here. *)
Inductive BatchStatus := BatchDrop | BatchAccept | BatchUndecided | BatchFuture.

#[export] Instance BatchStatus_eq_dec : EqDecision BatchStatus.
Proof. solve_decision. Defined.

Record Batches (I : Type) := {
  batches : gmap Z Batch;
  pending_inputs : list (BlockInput Z);
  channel_iter : I;
  bs_config : Config
}.

Arguments Build_Batches {I}.
Arguments batches {I}.
Arguments pending_inputs {I}.
Arguments channel_iter {I}.
Arguments bs_config {I}.

(** ** Batches *)

Definition Batch_timestamp (config : Config) (batch : Batch) : Z :=
  match batch with
  | Single batch => sb_timestamp batch
  | Span batch => u64_add (sp_rel_timestamp batch) (bi_timestamp (l2_genesis (chain config)))
  end.

Definition as_inputs (config : Config) (batch : Batch) : outcome (list (BlockInput Z)) :=
  match batch with
  | Single batch => Ok [block_input batch]
  | Span batch => block_inputs batch config
  end.

(** ** Decoding *)

Section decode.
Context `{RlpDecoder, Varint, Codec, Zlib}.

(** One iteration of the [while] of [decode_batches]; the state is the offset and
    the batches so far. *)
Definition decode_batches_body (channel : Channel) (chain_id : Z) (channel_data : bytes)
    (st : Z * list Batch) : outcome ((Z * list Batch) + list Batch) :=
  let '(offset, batches) := st in
  if offset <? len channel_data then
    batch_rlp ← slice_from channel_data offset;
    '(header_len, _) ← ok_or (payload_info batch_rlp) "rlp";
    batch_data ← ok_or (as_val_bytes batch_rlp) "rlp";
    version ← index batch_data 0;
    batch_content ← slice_from batch_data 1;
    if version =? 0 then
      '(h, v) ← ok_or (payload_info batch_content) "rlp";
      let size := Z.of_nat h + Z.of_nat v in
      batch ← SingleBatch_decode batch_content (chan_l1_inclusion_block channel);
      Ok (inl (offset + (size + Z.of_nat header_len + 1), batches ++ [Single batch]))
    else if version =? 1 then
      batch ← SpanBatch_decode batch_content (chan_l1_inclusion_block channel) chain_id;
      Ok (inr (batches ++ [Span batch]))
    else Err "invalid batch version"
  else Ok (inr batches).

Definition decode_batches (channel : Channel) (chain_id : Z) : outcome (list Batch) :=
  channel_data ← ok_or (zlib_decode (chan_data channel)) "zlib";
  loop (S (length channel_data)) (decode_batches_body channel chain_id channel_data) (0, []).
End decode.

(** ** Validity *)

Section status.
Context (state : State) (config : Config).

Definition single_batch_status (batch : SingleBatch) : BatchStatus :=
  let c := chain config in
  let epoch := safe_epoch state in
  let next_epoch := epoch_by_number state (u64_add (ep_number epoch) 1) in
  let head := safe_head state in
  let next_timestamp := u64_add (bi_timestamp head) (blocktime c) in
  match Z.compare (sb_timestamp batch) next_timestamp with
  | Gt => BatchFuture
  | Lt => BatchDrop
  | Eq =>
      if negb (bool_decide (sb_parent_hash batch = bi_hash head)) then BatchDrop else
      if u64_add (sb_epoch_num batch) (seq_window_size c) <? sb_l1_inclusion_block batch then BatchDrop else
      if negb (sb_epoch_num batch =? ep_number epoch) &&
         negb (sb_epoch_num batch =? u64_add (ep_number epoch) 1) then BatchDrop else
      let batch_origin := if sb_epoch_num batch =? ep_number epoch then Some epoch else next_epoch in
      match batch_origin with
      | Some batch_origin =>
          if negb (bool_decide (sb_epoch_hash batch = ep_hash batch_origin)) then BatchDrop else
          if sb_timestamp batch <? ep_timestamp batch_origin then BatchDrop else
          let drift :=
            if u64_add (ep_timestamp batch_origin) (max_seq_drift c) <? sb_timestamp batch then
              if bool_decide (sb_transactions batch = []) then
                if ep_number epoch =? sb_epoch_num batch then
                  match next_epoch with
                  | Some next_epoch =>
                      if ep_timestamp next_epoch <=? sb_timestamp batch then Some BatchDrop else None
                  | None => Some BatchUndecided
                  end
                else None
              else Some BatchDrop
            else None in
          match drift with
          | Some status => status
          | None => if has_invalid_transactions batch then BatchDrop else BatchAccept
          end
      | None => BatchUndecided
      end
  end.

(** The [for] over the block inputs that checks the sequencer drift; [None] is the
    end of the loop, [Some] an early return. *)
Fixpoint span_drift_check (origin_bits : list bool) (i : Z) (inputs : list (BlockInput Z))
    : outcome (option BatchStatus) :=
  match inputs with
  | [] => Ok None
  | input :: inputs =>
      input_epoch ← unwrap (epoch_by_number state (bin_epoch input));
      let next_epoch := epoch_by_number state (u64_add (bin_epoch input) 1) in
      if bin_timestamp input <? ep_timestamp input_epoch then Ok (Some BatchDrop) else
      early ←
        (if u64_add (ep_timestamp input_epoch) (max_seq_drift (chain config)) <? bin_timestamp input then
           if bool_decide (bin_transactions input = []) then
             origin_bit ← index origin_bits i;
             if negb origin_bit then
               match next_epoch with
               | Some next_epoch =>
                   if ep_timestamp next_epoch <=? bin_timestamp input
                   then Ok (Some BatchDrop) else Ok None
               | None => Ok (Some BatchUndecided)
               end
             else Ok None
           else Ok (Some BatchDrop)
         else Ok None);
      match early with
      | Some status => Ok (Some status)
      | None => span_drift_check origin_bits (i + 1) inputs
      end
  end.

(** The [for] over the block inputs that checks the blocks already derived. *)
Fixpoint span_overlap_check (next_timestamp : Z) (inputs : list (BlockInput Z))
    : outcome (option BatchStatus) :=
  match inputs with
  | [] => Ok None
  | input :: inputs =>
      if bin_timestamp input <? next_timestamp then
        block ← l2_info_by_timestamp state (bin_timestamp input);
        match block with
        | Some (_, epoch) =>
            if negb (bin_epoch input =? ep_number epoch) then Ok (Some BatchDrop)
            else span_overlap_check next_timestamp inputs
        | None => Ok (Some BatchDrop)
        end
      else span_overlap_check next_timestamp inputs
  end.

Definition span_batch_status (batch : SpanBatch) : outcome BatchStatus :=
  let c := chain config in
  let epoch := safe_epoch state in
  let next_epoch := epoch_by_number state (u64_add (ep_number epoch) 1) in
  let head := safe_head state in
  let next_timestamp := u64_add (bi_timestamp head) (blocktime c) in
  start_epoch_num ← start_epoch_num batch;
  let end_epoch_num := sp_l1_origin_num batch in
  let span_start_timestamp := u64_add (sp_rel_timestamp batch) (bi_timestamp (l2_genesis c)) in
  let span_end_timestamp := u64_add span_start_timestamp (u64_mul (sp_block_count batch) (blocktime c)) in
  if span_end_timestamp <? next_timestamp then Ok BatchDrop else
  if next_timestamp <? span_start_timestamp then Ok BatchFuture else
  let batch_origin := if start_epoch_num =? u64_add (ep_number epoch) 1 then next_epoch else Some epoch in
  match batch_origin with
  | None => Ok BatchUndecided
  | Some batch_origin =>
      if ep_timestamp batch_origin <? delta_time c then Ok BatchDrop else
      let prev_timestamp := u64_sub span_start_timestamp (blocktime c) in
      prev ← l2_info_by_timestamp state prev_timestamp;
      match prev with
      | None => Ok BatchDrop
      | Some (prev_l2_block, prev_l2_epoch) =>
          parent_check ← slice (bi_hash prev_l2_block) 0 20;
          if negb (bool_decide (parent_check = sp_parent_check batch)) then Ok BatchDrop else
          if u64_add start_epoch_num (seq_window_size c) <? sp_l1_inclusion_block batch then Ok BatchDrop else
          if u64_add (bi_number prev_l2_block) 1 <? start_epoch_num then Ok BatchDrop else
          match epoch_by_number state end_epoch_num with
          | None => Ok BatchDrop
          | Some l1_origin =>
              origin_check ← slice (ep_hash l1_origin) 0 20;
              if negb (bool_decide (sp_l1_origin_check batch = origin_check)) then Ok BatchDrop else
              if start_epoch_num <? ep_number prev_l2_epoch then Ok BatchDrop else
              block_inputs ← block_inputs batch config;
              drift ← span_drift_check (sp_origin_bits batch) 0 block_inputs;
              match drift with
              | Some status => Ok status
              | None =>
                  overlap ← span_overlap_check next_timestamp block_inputs;
                  match overlap with
                  | Some status => Ok status
                  | None => Ok BatchAccept
                  end
              end
          end
      end
  end.

Definition batch_status (batch : Batch) : outcome BatchStatus :=
  match batch with
  | Single batch => Ok (single_batch_status batch)
  | Span batch => span_batch_status batch
  end.

(** One iteration of the [loop] of [try_next]. *)
Definition derive_body (batches : gmap Z Batch)
    : outcome (gmap Z Batch + (option Batch * gmap Z Batch)) :=
  match first_key_value batches with
  | Some (_, batch) =>
      let timestamp := Batch_timestamp config batch in
      status ← batch_status batch;
      match status with
      | BatchAccept => Ok (inr (Some batch, delete timestamp batches))
      | BatchDrop => Ok (inl (delete timestamp batches))
      | BatchFuture | BatchUndecided => Ok (inr (None, batches))
      end
  | None => Ok (inr (None, batches))
  end.

(** The [loop] of [try_next]. *)
Definition derive_batch (batches : gmap Z Batch) : outcome (option Batch * gmap Z Batch) :=
  loop (S (size batches)) derive_body batches.

Definition filter_inputs (inputs : list (BlockInput Z)) : list (BlockInput Z) :=
  filter (fun input => bi_timestamp (safe_head state) < bin_timestamp input) inputs.

(** The end of [try_next]: an empty block once the sequencing window has passed. *)
Definition empty_input : option (BlockInput Z) :=
  let current_l1_block := current_epoch_num state in
  let safe_head := safe_head state in
  let epoch := safe_epoch state in
  let next_epoch := epoch_by_number state (u64_add (ep_number epoch) 1) in
  let seq_window_size := seq_window_size (chain config) in
  match next_epoch with
  | Some next_epoch =>
      if u64_add (ep_number epoch) seq_window_size <? current_l1_block then
        let next_timestamp := u64_add (bi_timestamp safe_head) (blocktime (chain config)) in
        let epoch :=
          if next_timestamp <? ep_timestamp next_epoch then Some epoch
          else if u64_add (ep_number next_epoch) seq_window_size <? current_l1_block then Some next_epoch
          else None in
        (fun epoch =>
           {| bin_epoch := ep_number epoch;
              bin_timestamp := next_timestamp;
              bin_transactions := [];
              bin_l1_inclusion_block := current_l1_block |}) <$> epoch
      else None
  | None => None
  end.
End status.

(** ** The stage *)

Definition Batches_new {I} (channel_iter : I) (config : Config) : Batches I :=
  {| batches := ∅; pending_inputs := []; channel_iter := channel_iter; bs_config := config |}.

Section Batches.
Context {I : Type} `{it : PurgeableIterator State I Channel} `{RlpDecoder, Varint, Codec, Zlib}.
Implicit Types s : Batches I.

Definition set_batches (m : gmap Z Batch) s : Batches I :=
  {| batches := m; pending_inputs := pending_inputs s; channel_iter := channel_iter s; bs_config := bs_config s |}.

Definition set_inputs (l : list (BlockInput Z)) s : Batches I :=
  {| batches := batches s; pending_inputs := l; channel_iter := channel_iter s; bs_config := bs_config s |}.

Definition set_channel_iter (i : I) s : Batches I :=
  {| batches := batches s; pending_inputs := pending_inputs s; channel_iter := i; bs_config := bs_config s |}.

(** The [for_each] that inserts the decoded batches. *)
Definition insert_batches (config : Config) (l : list Batch) (m : gmap Z Batch) : gmap Z Batch :=
  foldl (fun m batch => <[Batch_timestamp config batch := batch]> m) m l.

(** The channel part of [try_next]. *)
Definition read_channel (state : State) : M (Batches I) unit :=
  channel ← zoom channel_iter set_channel_iter (next state);
  match channel with
  | Some channel =>
      config ← gets bs_config;
      l ← lift (decode_batches channel (l2_chain_id (chain config)));
      modify (fun s => set_batches (insert_batches config l (batches s)) s)
  | None => mret tt
  end.

(** The rest of [try_next]: find a batch, and make its block inputs or an empty
    one. *)
Definition derive_input (state : State) : M (Batches I) (option (BlockInput Z)) :=
  config ← gets bs_config;
  m ← gets batches;
  '(derived_batch, m) ← lift (derive_batch state config m);
  modify (set_batches m) ;;
  match derived_batch with
  | Some derived_batch =>
      l ← lift (as_inputs config derived_batch);
      match filter_inputs state l with
      | first :: inputs =>
          modify (fun s => set_inputs (pending_inputs s ++ inputs) s) ;;
          mret (Some first)
      | [] => mret None
      end
  | None => mret (empty_input state config)
  end.

Definition try_next (state : State) : M (Batches I) (option (BlockInput Z)) := fun s =>
  match pending_inputs s with
  | input :: inputs => (Ok (Some input), set_inputs inputs s)
  | [] => (read_channel state ;; derive_input state) s
  end.

(** [Iterator::next]: an error is no item. *)
Definition Batches_next (state : State) : M (Batches I) (option (BlockInput Z)) := fun s =>
  match try_next state s with
  | (Err _, s) => (Ok None, s)
  | r => r
  end.

Definition Batches_purge (state : State) s : Batches I :=
  {| batches := ∅;
     pending_inputs := [];
     channel_iter := purge state (channel_iter s);
     bs_config := bs_config s |}.

#[export] Instance Batches_iter : PurgeableIterator State (Batches I) (BlockInput Z) := {
  next := Batches_next;
  purge := Batches_purge
}.
End Batches.

(** ** The batch map *)

Definition batches_keyed (config : Config) (m : gmap Z Batch) : Prop :=
  forall k b, m !! k = Some b -> Batch_timestamp config b = k.

Lemma batches_keyed_empty config : batches_keyed config ∅.
Proof. intros k b H. by rewrite lookup_empty in H. Qed.

Lemma batches_keyed_delete config m k : batches_keyed config m -> batches_keyed config (delete k m).
Proof. intros Hm j b [_ Hj]%lookup_delete_Some. eauto. Qed.

Lemma batches_keyed_insert config l m :
  batches_keyed config m -> batches_keyed config (insert_batches config l m).
Proof.
  revert m. induction l as [|b l IH]; intros m Hm; [done|]. cbn. apply IH.
  intros k b' [[<- <-]|[_ Hk]]%lookup_insert_Some; eauto.
Qed.

(** Of several batches with one timestamp the last one stays. *)
Lemma insert_batches_lookup config l m k :
  insert_batches config l m !! k =
    match last (filter (fun b => Batch_timestamp config b = k) l) with
    | Some b => Some b
    | None => m !! k
    end.
Proof.
  revert m. induction l as [|b l IH]; intros m; [done|]. cbn [insert_batches foldl].
  change (foldl _ ?m l) with (insert_batches config l m). rewrite IH, filter_cons.
  destruct (decide (Batch_timestamp config b = k)) as [Hk|Hk].
  - rewrite last_cons. destruct (last (filter _ l)); [done|]. subst. by rewrite lookup_insert_eq.
  - destruct (last (filter _ l)); [done|]. by rewrite lookup_insert_ne.
Qed.

Section derive.
Context (state : State) (config : Config).

Abbreviation status_of := (batch_status state config).

(** What the [loop] of [try_next] leaves of the map [m], and what it picks. *)
Record derived (m : gmap Z Batch) (o : option Batch) (m' : gmap Z Batch) : Prop := {
  derived_sub : m' ⊆ m;
  derived_dropped : forall k b, m !! k = Some b -> m' !! k = None ->
    (status_of b = Ok BatchDrop \/ o = Some b) /\ forall k', is_Some (m' !! k') -> k < k';
  derived_pick :
    match o with
    | Some b => status_of b = Ok BatchAccept /\ m !! Batch_timestamp config b = Some b /\
        m' !! Batch_timestamp config b = None
    | None => m' = ∅ \/ exists k b, first_key_value m' = Some (k, b) /\
        (status_of b = Ok BatchFuture \/ status_of b = Ok BatchUndecided)
    end
}.

Lemma derive_body_eq m :
  derive_body state config m =
    match first_key_value m with
    | Some (_, batch) =>
        status ← batch_status state config batch;
        match status with
        | BatchAccept => Ok (inr (Some batch, delete (Batch_timestamp config batch) m))
        | BatchDrop => Ok (inl (delete (Batch_timestamp config batch) m))
        | BatchFuture | BatchUndecided => Ok (inr (None, m))
        end
    | None => Ok (inr (None, m))
    end.
Proof. done. Qed.

Lemma derived_step m k b o m' :
  first_key_value m = Some (k, b) -> status_of b = Ok BatchDrop ->
  derived (delete k m) o m' -> derived m o m'.
Proof.
  intros [Hk Hmin]%first_key_value_Some Hs [Hsub Hdrop Hpick].
  assert (Hsub' : m' ⊆ m) by (etrans; [exact Hsub|apply delete_subseteq]).
  split; [done| |].
  - intros j b' Hj Hj'. destruct (decide (j = k)) as [->|Hne].
    + replace b' with b by congruence. split; [by left|]. intros k' [x Hx].
      assert (k' <> k) by (intros ->; congruence).
      pose proof (lookup_weaken _ _ _ _ Hx Hsub') as Hx'. specialize (Hmin k' ltac:(eauto)). lia.
    + apply Hdrop; [by rewrite lookup_delete_ne|done].
  - destruct o as [c|]; [|done]. destruct Hpick as (Ha & Hm & Hn). split_and!; [done| |done].
    by apply lookup_delete_Some in Hm as [_ ?].
Qed.

Lemma derive_loop_spec n m :
  batches_keyed config m -> (size m < n)%nat ->
  match loop n (derive_body state config) m with
  | Ok (o, m') => derived m o m'
  | Diverge => exists b, status_of b = Diverge
  | _ => True
  end.
Proof.
  revert m. induction n as [|n IH]; intros m Hm Hn; [lia|]. cbn [loop].
  rewrite derive_body_eq. destruct (first_key_value m) as [[k b]|] eqn:E.
  - pose proof E as [Hk Hmin]%first_key_value_Some. rewrite (Hm k b Hk).
    destruct (status_of b) as [[]|e| |] eqn:Es; cbn; try done; [| | | |by exists b].
    + destruct (pop_first_size _ _ _ E) as [Hp Hlt]. rewrite Hp in Hlt.
      specialize (IH (delete k m) (batches_keyed_delete _ _ _ Hm) ltac:(lia)).
      destruct (loop n (derive_body state config) (delete k m)) as [[o m']| | |]; try done.
      by eapply derived_step.
    + split.
      * apply delete_subseteq.
      * intros j b' Hj Hj'. destruct (decide (j = k)) as [->|Hne]; [|by rewrite lookup_delete_ne in Hj' by done; congruence].
        split; [right; congruence|]. intros k' [x [Hne Hx]%lookup_delete_Some].
        specialize (Hmin k' ltac:(eauto)). lia.
      * rewrite (Hm k b Hk). split_and!; [done|done|]. by rewrite lookup_delete_eq.
    + split; [done|intros; congruence|]. right. eauto.
    + split; [done|intros; congruence|]. right. eauto.
  - cbn. split; [done|intros; congruence|]. left. by apply first_key_value_None.
Qed.
End derive.

(** ** Validity of a single batch *)

(** The conditions of the derivation specification for a batch to be accepted on
    top of the safe head. *)
Definition single_batch_valid (state : State) (config : Config) (batch : SingleBatch) : Prop :=
  let c := chain config in
  let epoch := safe_epoch state in
  let head := safe_head state in
  let next_epoch := epoch_by_number state (ep_number epoch + 1) in
  sb_timestamp batch = bi_timestamp head + blocktime c /\
  sb_parent_hash batch = bi_hash head /\
  sb_l1_inclusion_block batch <= sb_epoch_num batch + seq_window_size c /\
  has_invalid_transactions batch = false /\
  exists origin,
    (sb_epoch_num batch = ep_number epoch /\ origin = epoch \/
     sb_epoch_num batch = ep_number epoch + 1 /\ next_epoch = Some origin) /\
    sb_epoch_hash batch = ep_hash origin /\
    ep_timestamp origin <= sb_timestamp batch /\
    (ep_timestamp origin + max_seq_drift c < sb_timestamp batch ->
     sb_transactions batch = [] /\
     (sb_epoch_num batch = ep_number epoch ->
      exists n, next_epoch = Some n /\ sb_timestamp batch < ep_timestamp n)).

(** No sum in the checks overflows. *)
Record status_in_range (state : State) (config : Config) (batch : SingleBatch) : Prop := {
  range_next : in_u64 (bi_timestamp (safe_head state) + blocktime (chain config));
  range_epoch : in_u64 (ep_number (safe_epoch state) + 1);
  range_window : in_u64 (sb_epoch_num batch + seq_window_size (chain config));
  range_drift : forall e, e = safe_epoch state \/ epoch_by_number state (ep_number (safe_epoch state) + 1) = Some e ->
    in_u64 (ep_timestamp e + max_seq_drift (chain config))
}.

(** The checks against the epoch of a batch. *)
Definition origin_status (config : Config) (epoch : Epoch) (next_epoch : option Epoch) (batch : SingleBatch)
    (origin : Epoch) : BatchStatus :=
  if negb (bool_decide (sb_epoch_hash batch = ep_hash origin)) then BatchDrop else
  if sb_timestamp batch <? ep_timestamp origin then BatchDrop else
  let drift :=
    if ep_timestamp origin + max_seq_drift (chain config) <? sb_timestamp batch then
      if bool_decide (sb_transactions batch = []) then
        if ep_number epoch =? sb_epoch_num batch then
          match next_epoch with
          | Some n => if ep_timestamp n <=? sb_timestamp batch then Some BatchDrop else None
          | None => Some BatchUndecided
          end
        else None
      else Some BatchDrop
    else None in
  match drift with
  | Some status => status
  | None => if has_invalid_transactions batch then BatchDrop else BatchAccept
  end.

Lemma origin_status_accept config epoch next_epoch batch origin :
  origin_status config epoch next_epoch batch origin = BatchAccept <->
  has_invalid_transactions batch = false /\ sb_epoch_hash batch = ep_hash origin /\
  ep_timestamp origin <= sb_timestamp batch /\
  (ep_timestamp origin + max_seq_drift (chain config) < sb_timestamp batch ->
   sb_transactions batch = [] /\
   (sb_epoch_num batch = ep_number epoch ->
    exists n, next_epoch = Some n /\ sb_timestamp batch < ep_timestamp n)).
Proof.
  unfold origin_status.
  destruct (bool_decide_reflect (sb_epoch_hash batch = ep_hash origin)); cbn [negb]; [|naive_solver].
  destruct (Z.ltb_spec (sb_timestamp batch) (ep_timestamp origin)); [naive_solver lia|].
  destruct (Z.ltb_spec (ep_timestamp origin + max_seq_drift (chain config)) (sb_timestamp batch)).
  - destruct (bool_decide_reflect (sb_transactions batch = [])); [|naive_solver].
    destruct (Z.eqb_spec (ep_number epoch) (sb_epoch_num batch)).
    + destruct next_epoch as [n|]; [|naive_solver].
      destruct (Z.leb_spec (ep_timestamp n) (sb_timestamp batch)); [naive_solver lia|].
      destruct (has_invalid_transactions batch); naive_solver lia.
    + destruct (has_invalid_transactions batch); naive_solver lia.
  - destruct (has_invalid_transactions batch); naive_solver lia.
Qed.

Lemma single_batch_status_valid state config batch :
  status_in_range state config batch ->
  single_batch_status state config batch = BatchAccept <-> single_batch_valid state config batch.
Proof.
  intros [Hn He Hw Hd]. unfold single_batch_status, single_batch_valid.
  rewrite !u64_add_small by done.
  destruct (Z.compare_spec (sb_timestamp batch) (bi_timestamp (safe_head state) + blocktime (chain config)));
    [|split; [done|naive_solver lia]..].
  destruct (bool_decide_reflect (sb_parent_hash batch = bi_hash (safe_head state))); cbn [negb]; [|naive_solver].
  destruct (Z.ltb_spec (sb_epoch_num batch + seq_window_size (chain config)) (sb_l1_inclusion_block batch));
    [naive_solver lia|].
  destruct (Z.eqb_spec (sb_epoch_num batch) (ep_number (safe_epoch state))) as [Hep|Hep]; cbn [negb andb].
  - rewrite u64_add_small by auto.
    match goal with |- _ <-> ?Q =>
      change (origin_status config (safe_epoch state) (epoch_by_number state (ep_number (safe_epoch state) + 1))
        batch (safe_epoch state) = BatchAccept <-> Q) end.
    rewrite origin_status_accept. naive_solver lia.
  - destruct (Z.eqb_spec (sb_epoch_num batch) (ep_number (safe_epoch state) + 1)); cbn [negb]; [|naive_solver].
    destruct (epoch_by_number state (ep_number (safe_epoch state) + 1)) as [o|] eqn:Eo; [|naive_solver].
    rewrite u64_add_small by auto.
    match goal with |- _ <-> ?Q =>
      change (origin_status config (safe_epoch state) (Some o) batch o = BatchAccept <-> Q) end.
    rewrite origin_status_accept. naive_solver lia.
Qed.

(** ** Decoding *)

Section decode_lemmas.
Context `{RlpDecoder, Varint, Codec, Zlib}.

Lemma SingleBatch_decode_not_Diverge rlp l1 : SingleBatch_decode rlp l1 <> Diverge.
Proof.
  unfold SingleBatch_decode. not_Diverge. apply mapM_not_Diverge. intros tx. unfold RawTransaction_decode. not_Diverge.
Qed.

#[local] Hint Resolve SingleBatch_decode_not_Diverge : magi.

Lemma decode_batches_body_not_Diverge channel chain_id data st :
  decode_batches_body channel chain_id data st <> Diverge.
Proof. unfold decode_batches_body. destruct st. not_Diverge. Qed.

Lemma decode_batches_body_advances channel chain_id data offset l offset' l' :
  decode_batches_body channel chain_id data (offset, l) = Ok (inl (offset', l')) ->
  offset < len data /\ offset < offset'.
Proof.
  unfold decode_batches_body. intros E. destruct (Z.ltb_spec offset (len data)); [|done].
  apply bind_Ok in E as (rlp & _ & E). apply bind_Ok in E as ([h ?] & _ & E).
  apply bind_Ok in E as (bd & _ & E). apply bind_Ok in E as (version & _ & E).
  apply bind_Ok in E as (content & _ & E). destruct (version =? 0).
  - apply bind_Ok in E as ([h' v'] & _ & E). apply bind_Ok in E as (batch & _ & [= <- <-]). lia.
  - destruct (version =? 1); [|done]. by apply bind_Ok in E as (batch & _ & E).
Qed.

Lemma decode_batches_body_end channel chain_id data offset l :
  len data <= offset -> decode_batches_body channel chain_id data (offset, l) = Ok (inr l).
Proof. intros Hle. unfold decode_batches_body. by rewrite (proj2 (Z.ltb_ge offset (len data))). Qed.

(** The decoder ends: every batch moves the offset on. *)
Lemma decode_batches_not_Diverge channel chain_id : decode_batches channel chain_id <> Diverge.
Proof.
  unfold decode_batches. apply bind_not_Diverge; [auto with magi|]. intros data _.
  apply (loop_terminates _ (fun st => 0 <= st.1) (fun st => Z.to_nat (len data - st.1))).
  - intros st _. apply decode_batches_body_not_Diverge.
  - intros [o l] [o' l'] Ho E. apply decode_batches_body_advances in E. cbn in *. lia.
  - done.
  - cbn. unfold len. lia.
Qed.

(** A batch that has an encoding. *)
Record batch_encodable (b : SingleBatch) : Prop := {
  encodable_parent : len (sb_parent_hash b) = 32;
  encodable_epoch : len (sb_epoch_hash b) = 32;
  encodable_numbers : in_u64 (sb_epoch_num b) /\ in_u64 (sb_timestamp b);
  encodable_bytes : bytes_ok (sb_parent_hash b) /\ bytes_ok (sb_epoch_hash b) /\ Forall bytes_ok (sb_transactions b);
  encodable_size : 9 * len (sb_transactions b) + len (mjoin (sb_transactions b)) < 2 ^ 60
}.

(** The encodings the decoders of the library invert, on data that a length can count. *)
Record rlp_encoding (rlp_string : bytes -> bytes) (encode_batch : SingleBatch -> bytes) : Prop := {
  rlp_string_ok : forall x rest, bytes_ok x -> in_u64 (len x) -> exists h,
    payload_info (rlp_string x ++ rest) = Some (h, length x) /\
    as_val_bytes (rlp_string x ++ rest) = Some x /\
    length (rlp_string x) = (h + length x)%nat;
  encode_batch_ok : forall b, batch_encodable b -> exists h v,
    payload_info (encode_batch b) = Some (h, v) /\ length (encode_batch b) = (h + v)%nat /\
    bytes_ok (encode_batch b) /\ len (encode_batch b) < 2 ^ 62 /\
    SingleBatch_decode (encode_batch b) (sb_l1_inclusion_block b) = Ok b
}.

(** The channel data of a list of batches. *)
Definition encode_batches (rlp_string : bytes -> bytes) (encode_batch : SingleBatch -> bytes)
    (l : list SingleBatch) : bytes :=
  mjoin ((fun b => rlp_string (0 :: encode_batch b)) <$> l).

(** The encoding of a batch takes a byte at least. *)
Lemma length_encode_batches rlp_string encode_batch l :
  rlp_encoding rlp_string encode_batch -> Forall batch_encodable l ->
  (length l <= length (encode_batches rlp_string encode_batch l))%nat.
Proof.
  intros [Hs He]. induction 1 as [|b l Hb _ IH]; [cbn; lia|].
  change (encode_batches _ _ (b :: l)) with
    (rlp_string (0 :: encode_batch b) ++ encode_batches rlp_string encode_batch l).
  rewrite length_app. destruct (He b Hb) as (_ & _ & _ & _ & Hbytes & Hsize & _).
  destruct (Hs (0 :: encode_batch b) []) as (h & _ & _ & ->); [by constructor| |cbn [length]; lia].
  rewrite len_cons. pose proof (len_nonneg (encode_batch b)). unfold in_u64. lia.
Qed.

(** The loop passes the single batches at the front of the data. *)
Lemma decode_batches_loop_prefix rlp_string encode_batch channel chain_id l tail pre acc n :
  rlp_encoding rlp_string encode_batch ->
  Forall (fun b => batch_encodable b /\ sb_l1_inclusion_block b = chan_l1_inclusion_block channel) l ->
  let data := pre ++ encode_batches rlp_string encode_batch l ++ tail in
  loop (length l + n) (decode_batches_body channel chain_id data) (len pre, acc) =
    loop n (decode_batches_body channel chain_id data)
      (len (pre ++ encode_batches rlp_string encode_batch l), acc ++ (Single <$> l)).
Proof.
  intros [Hstr Henc]. revert pre acc. induction l as [|b l IH]; intros pre acc Hall data.
  - change (encode_batches rlp_string encode_batch []) with (@nil Z). by rewrite !app_nil_r.
  - apply Forall_cons in Hall as [[Hwf Hb] Hl]. cbn [length Nat.add loop].
    assert (Hdata : data = pre ++ rlp_string (0 :: encode_batch b) ++ encode_batches rlp_string encode_batch l ++ tail)
      by (unfold data, encode_batches; by rewrite fmap_cons, join_cons, <- app_assoc).
    destruct (Henc b Hwf) as (h' & v' & Hp' & Hlen' & Hbytes & Hsize & Hd).
    destruct (Hstr (0 :: encode_batch b) (encode_batches rlp_string encode_batch l ++ tail)) as (h & Hp & Ha & Hlen);
      [by constructor|rewrite len_cons; pose proof (len_nonneg (encode_batch b)); unfold in_u64; lia|].
    cbn [length] in Hlen.
    assert (Hbody : decode_batches_body channel chain_id data (len pre, acc) =
      Ok (inl (len (pre ++ rlp_string (0 :: encode_batch b)), acc ++ [Single b]))).
    { unfold decode_batches_body. rewrite Hdata.
      rewrite (proj2 (Z.ltb_lt (len pre) _)).
      2: { rewrite !len_app. unfold len. rewrite Hlen. lia. }
      rewrite slice_from_app by done. rewrite bind_ret, Hp. cbn [ok_or]. rewrite bind_ret, Ha.
      cbn [ok_or]. rewrite bind_ret. change (index (0 :: encode_batch b) 0) with (Ok 0). rewrite bind_ret.
      rewrite (slice_from_app [0] (encode_batch b) 1 eq_refl : slice_from (0 :: encode_batch b) 1 = _), bind_ret.
      cbn [Z.eqb]. rewrite Hp'. cbn [ok_or]. rewrite bind_ret, <- Hb, Hd, bind_ret.
      do 3 f_equal. rewrite len_app. unfold len. rewrite Hlen. lia. }
    rewrite Hbody, bind_ret. specialize (IH (pre ++ rlp_string (0 :: encode_batch b)) (acc ++ [Single b]) Hl). cbv zeta in IH.
    rewrite <- !app_assoc in IH. by rewrite Hdata, IH.
Qed.

Lemma decode_batches_loop_encode rlp_string encode_batch channel chain_id l n :
  rlp_encoding rlp_string encode_batch ->
  Forall (fun b => batch_encodable b /\ sb_l1_inclusion_block b = chan_l1_inclusion_block channel) l ->
  (length l < n)%nat ->
  loop n (decode_batches_body channel chain_id (encode_batches rlp_string encode_batch l)) (0, []) = Ok (Single <$> l).
Proof.
  intros Henc Hl Hn. pose proof (decode_batches_loop_prefix _ _ channel chain_id l [] [] [] (S (n - length l - 1)) Henc Hl) as E.
  cbv zeta in E. rewrite !app_nil_l, app_nil_r in E. replace n with (length l + S (n - length l - 1))%nat by lia.
  change 0 with (len (@nil Z)). rewrite E. cbn [loop]. by rewrite decode_batches_body_end by lia.
Qed.
End decode_lemmas.

#[export] Hint Resolve decode_batches_not_Diverge : magi.

Lemma l2_info_by_timestamp_not_Diverge s t : l2_info_by_timestamp s t <> Diverge.
Proof. unfold l2_info_by_timestamp. not_Diverge. Qed.

#[export] Hint Resolve l2_info_by_timestamp_not_Diverge : magi.

Lemma span_drift_check_not_Diverge state config bits i l : span_drift_check state config bits i l <> Diverge.
Proof. revert i. induction l as [|x l IH]; intros i; [done|]. cbn [span_drift_check]. not_Diverge. Qed.

Lemma span_overlap_check_not_Diverge state t l : span_overlap_check state t l <> Diverge.
Proof. induction l as [|x l IH]; [done|]. cbn [span_overlap_check]. not_Diverge. Qed.

#[export] Hint Resolve span_drift_check_not_Diverge span_overlap_check_not_Diverge : magi.

Lemma batch_status_not_Diverge state config b : batch_status state config b <> Diverge.
Proof.
  destruct b as [b|b]; [done|]. cbn [batch_status]. unfold span_batch_status, start_epoch_num. not_Diverge.
Qed.

(** ** Acceptance of a span batch *)

(** What the drift loop checks of the [i]-th input. *)
Definition input_ok (state : State) (config : Config) (origin_bits : list bool) (i : Z) (input : BlockInput Z) : Prop :=
  exists epoch, epoch_by_number state (bin_epoch input) = Some epoch /\
    ep_timestamp epoch <= bin_timestamp input /\
    (u64_add (ep_timestamp epoch) (max_seq_drift (chain config)) < bin_timestamp input ->
     bin_transactions input = [] /\
     (index origin_bits i = Ok false ->
      exists n, epoch_by_number state (u64_add (bin_epoch input) 1) = Some n /\ bin_timestamp input < ep_timestamp n)).

Lemma span_drift_check_None state config bits i l :
  span_drift_check state config bits i l = Ok None ->
  forall j input, l !! j = Some input -> input_ok state config bits (i + Z.of_nat j) input.
Proof.
  revert i. induction l as [|x l IH]; intros i E j input Hj; [done|]. cbn [span_drift_check] in E.
  destruct (epoch_by_number state (bin_epoch x)) as [epoch|] eqn:Ee; [|done]. cbn [unwrap] in E.
  rewrite bind_ret in E. destruct (Z.ltb_spec (bin_timestamp x) (ep_timestamp epoch)); [done|].
  apply bind_Ok in E as (early & Hearly & E). destruct early as [st|]; [done|].
  destruct j as [|j]; [|cbn in Hj; replace (i + Z.of_nat (S j)) with (i + 1 + Z.of_nat j) by lia; by eapply IH].
  cbn in Hj. injection Hj as ->. rewrite Z.add_0_r. exists epoch. split_and!; [done|lia|].
  intros Hd. rewrite (proj2 (Z.ltb_lt _ _) Hd) in Hearly.
  destruct (bool_decide_reflect (bin_transactions input = [])) as [Ht|]; [|done]. split; [done|]. intros Hb.
  rewrite Hb, bind_ret in Hearly. cbn [negb] in Hearly.
  destruct (epoch_by_number state (u64_add (bin_epoch input) 1)) as [n|]; [|done].
  destruct (Z.leb_spec (ep_timestamp n) (bin_timestamp input)); [done|]. eauto.
Qed.

Lemma span_overlap_check_None state t l :
  span_overlap_check state t l = Ok None ->
  Forall (fun input => bin_timestamp input < t ->
    exists b e, l2_info_by_timestamp state (bin_timestamp input) = Ok (Some (b, e)) /\ bin_epoch input = ep_number e) l.
Proof.
  induction l as [|x l IH]; intros E; constructor; cbn [span_overlap_check] in E.
  - intros Hlt. rewrite (proj2 (Z.ltb_lt _ _) Hlt) in E. apply bind_Ok in E as ([[b e]|] & Hb & E); [|done].
    exists b, e. split; [done|]. destruct (Z.eqb_spec (bin_epoch x) (ep_number e)); [done|done].
  - apply IH. destruct (bin_timestamp x <? t); [|done]. apply bind_Ok in E as ([[b e]|] & Hb & E); [|done].
    destruct (negb _); [done|done].
Qed.

(** The loops' early returns never accept. *)
Lemma span_drift_check_early state config bits i l :
  span_drift_check state config bits i l <> Ok (Some BatchAccept).
Proof.
  revert i. induction l as [|x l IH]; intros i E; [done|]. cbn [span_drift_check] in E.
  apply bind_Ok in E as (epoch & _ & E). destruct (bin_timestamp x <? ep_timestamp epoch); [done|].
  apply bind_Ok in E as ([st|] & Hearly & E); [|by apply IH in E]. injection E as ->.
  destruct (_ <? _) in Hearly; [|done]. destruct (bool_decide _) in Hearly; [|done].
  apply bind_Ok in Hearly as ([] & _ & Hearly); [done|]. cbn [negb] in Hearly.
  destruct (epoch_by_number _ _) in Hearly; [|done]. by destruct (_ <=? _) in Hearly.
Qed.

Lemma span_overlap_check_early state t l : span_overlap_check state t l <> Ok (Some BatchAccept).
Proof.
  induction l as [|x l IH]; intros E; [done|]. cbn [span_overlap_check] in E.
  destruct (bin_timestamp x <? t); [|done]. apply bind_Ok in E as ([[b e]|] & _ & E); [|done].
  by destruct (negb _) in E.
Qed.

(** What an accepted span batch satisfies. *)
Record span_accepted (state : State) (config : Config) (batch : SpanBatch) (inputs : list (BlockInput Z)) : Prop := {
  accepted_inputs : block_inputs batch config = Ok inputs;
  accepted_start : Batch_timestamp config (Span batch) <=
    u64_add (bi_timestamp (safe_head state)) (blocktime (chain config));
  accepted_parent : exists prev prev_epoch start,
    l2_info_by_timestamp state (u64_sub (Batch_timestamp config (Span batch)) (blocktime (chain config))) =
      Ok (Some (prev, prev_epoch)) /\
    slice (bi_hash prev) 0 20 = Ok (sp_parent_check batch) /\
    start_epoch_num batch = Ok start /\ ep_number prev_epoch <= start /\
    start <= u64_add (bi_number prev) 1 /\
    sp_l1_inclusion_block batch <= u64_add start (seq_window_size (chain config));
  accepted_origin : exists e, epoch_by_number state (sp_l1_origin_num batch) = Some e /\
    slice (ep_hash e) 0 20 = Ok (sp_l1_origin_check batch);
  accepted_input : forall i input, inputs !! i = Some input ->
    input_ok state config (sp_origin_bits batch) (Z.of_nat i) input;
  accepted_overlap : Forall (fun input =>
    bin_timestamp input < u64_add (bi_timestamp (safe_head state)) (blocktime (chain config)) ->
    exists b e, l2_info_by_timestamp state (bin_timestamp input) = Ok (Some (b, e)) /\
      bin_epoch input = ep_number e) inputs
}.

Lemma span_batch_status_accept state config batch :
  span_batch_status state config batch = Ok BatchAccept -> exists inputs, span_accepted state config batch inputs.
Proof.
  unfold span_batch_status. intros E. apply bind_Ok in E as (start & Hstart & E).
  destruct (_ <? _) eqn:E1 in E; [done|]. destruct (_ <? _) eqn:E2 in E; [done|]. apply Z.ltb_ge in E2.
  destruct (if start =? _ then _ else _) as [origin|]; [|done].
  destruct (_ <? _) eqn:E3 in E; [done|]. apply bind_Ok in E as ([[prev pe]|] & Hprev & E); [|done].
  apply bind_Ok in E as (pc & Hpc & E).
  destruct (bool_decide_reflect (pc = sp_parent_check batch)) as [->|]; [|done]. cbn [negb] in E.
  destruct (_ <? _) eqn:E4 in E; [done|]. apply Z.ltb_ge in E4.
  destruct (_ <? _) eqn:E5 in E; [done|]. apply Z.ltb_ge in E5.
  destruct (epoch_by_number state (sp_l1_origin_num batch)) as [e|] eqn:He; [|done].
  apply bind_Ok in E as (oc & Hoc & E).
  destruct (bool_decide_reflect (sp_l1_origin_check batch = oc)) as [<-|]; [|done]. cbn [negb] in E.
  destruct (_ <? _) eqn:E6 in E; [done|]. apply Z.ltb_ge in E6.
  apply bind_Ok in E as (inputs & Hin & E). apply bind_Ok in E as ([st|] & Hd & E);
    [injection E as ->; by apply span_drift_check_early in Hd|].
  apply bind_Ok in E as ([st|] & Ho & E);
    [injection E as ->; by apply span_overlap_check_early in Ho|].
  exists inputs. split; eauto 12.
  - intros i input Hi. by apply (span_drift_check_None _ _ _ _ _ Hd i input).
  - by apply span_overlap_check_None.
Qed.

(** ** The next block input *)

(** Where the inputs that [derive_input] yields come from. *)
Definition derived_from (state : State) (config : Config) (m m' : gmap Z Batch)
    (o : option (BlockInput Z)) (rest : list (BlockInput Z)) : Prop :=
  exists picked, derived state config m picked m' /\
    match picked with
    | Some batch => exists inputs, as_inputs config batch = Ok inputs /\
        filter_inputs state inputs = match o with Some i => i :: rest | None => [] end /\
        (o = None -> rest = [])
    | None => o = empty_input state config /\ rest = []
    end.

Lemma derive_batch_Ok state config m o m' :
  batches_keyed config m -> derive_batch state config m = Ok (o, m') -> derived state config m o m'.
Proof.
  intros Hm E. pose proof (derive_loop_spec state config (S (size m)) m Hm ltac:(lia)) as Hl.
  unfold derive_batch in E. by rewrite E in Hl.
Qed.

Lemma derive_batch_not_Diverge state config m :
  batches_keyed config m -> derive_batch state config m <> Diverge.
Proof.
  intros Hm E. pose proof (derive_loop_spec state config (S (size m)) m Hm ltac:(lia)) as Hl.
  unfold derive_batch in E. rewrite E in Hl. destruct Hl as [b Hb]. by apply batch_status_not_Diverge in Hb.
Qed.

Lemma derived_keyed state config m o m' :
  batches_keyed config m -> derived state config m o m' -> batches_keyed config m'.
Proof. intros Hm [Hsub _ _] k b Hk. apply Hm. by eapply lookup_weaken. Qed.

(** ** Errors

    The checks of a batch and its block inputs may panic, on an index or a division, but
    they have no error of their own. *)

Definition not_Err {A} (o : outcome A) : Prop := forall e, o <> Err e.

Lemma bind_not_Err {A B} (m : outcome A) (f : A -> outcome B) :
  not_Err m -> (forall a, not_Err (f a)) -> not_Err (m ≫= f).
Proof. intros Hm Hf e. destruct m as [a|e'| |]; cbn; [apply (Hf a e)|by destruct (Hm e')|done..]. Qed.

Lemma unwrap_not_Err {A} (o : option A) : not_Err (unwrap o).
Proof. by destruct o. Qed.

Lemma index_not_Err {A} (l : list A) i : not_Err (index l i).
Proof. unfold index. destruct (0 <=? i); [apply unwrap_not_Err|done]. Qed.

Lemma slice_not_Err {A} (l : list A) i j : not_Err (slice l i j).
Proof. apply unwrap_not_Err. Qed.

Lemma l2_info_by_timestamp_not_Err s t : not_Err (l2_info_by_timestamp s t).
Proof. unfold l2_info_by_timestamp, u64_div. apply bind_not_Err; [by case_match|done]. Qed.

#[local] Hint Resolve unwrap_not_Err index_not_Err slice_not_Err l2_info_by_timestamp_not_Err : magi.

Ltac not_Err :=
  repeat first
    [ done
    | progress auto with magi nocore
    | apply bind_not_Err; [|intros ?]
    | case_match ].

Lemma block_inputs_loop_not_Err batch config n i epoch_num tx_index l :
  not_Err (block_inputs_loop batch config n i epoch_num tx_index l).
Proof.
  revert i epoch_num tx_index l. induction n as [|n IH]; intros i epoch_num tx_index l; [done|].
  cbn [block_inputs_loop]. not_Err.
Qed.

Lemma block_inputs_not_Err batch config : not_Err (block_inputs batch config).
Proof. apply block_inputs_loop_not_Err. Qed.

Lemma as_inputs_not_Err config batch : not_Err (as_inputs config batch).
Proof. destruct batch; [done|apply block_inputs_not_Err]. Qed.

Lemma as_inputs_not_Diverge config batch : as_inputs config batch <> Diverge.
Proof. destruct batch; [done|]. cbn. auto with magi. Qed.

Lemma span_drift_check_not_Err state config bits i l : not_Err (span_drift_check state config bits i l).
Proof. revert i. induction l as [|x l IH]; intros i; [done|]. cbn [span_drift_check]. not_Err. Qed.

Lemma span_overlap_check_not_Err state t l : not_Err (span_overlap_check state t l).
Proof. induction l as [|x l IH]; [done|]. cbn [span_overlap_check]. not_Err. Qed.

#[local] Hint Resolve block_inputs_not_Err span_drift_check_not_Err span_overlap_check_not_Err : magi.

Lemma batch_status_not_Err state config batch : not_Err (batch_status state config batch).
Proof. destruct batch; [done|]. cbn [batch_status]. unfold span_batch_status, start_epoch_num. not_Err. Qed.

(** The search for a batch fails only where the status of a batch of the map does, which
    can only be a panic. *)
Lemma derive_batch_fails state config m :
  batches_keyed config m ->
  match derive_batch state config m with
  | Ok _ => True
  | Panic => exists k b, m !! k = Some b /\ batch_status state config b = Panic
  | Err _ | Diverge => False
  end.
Proof.
  intros Hm. pose proof (derive_batch_not_Diverge state config m Hm) as Hd. unfold derive_batch in *.
  revert Hd. generalize (S (size m)) as n. intros n. revert m Hm. induction n as [|n IH]; intros m Hm Hd; [done|].
  cbn [loop] in *. rewrite derive_body_eq in *. destruct (first_key_value m) as [[k b]|] eqn:Ef; [|done].
  pose proof Ef as [Hk _]%first_key_value_Some. pose proof (batch_status_not_Err state config b) as Herr.
  destruct (batch_status state config b) as [[]|e| |] eqn:Es; cbn [mbind outcome_bind] in *; try done; [|by destruct (Herr e)|eauto].
  rewrite (Hm _ _ Hk) in *. specialize (IH _ (batches_keyed_delete _ _ k Hm) Hd).
  destruct (loop n _ _); try done. destruct IH as (k' & b' & [_ Hl]%lookup_delete_Some & Hp). eauto.
Qed.

Section next.
Context {I : Type} `{it : PurgeableIterator State I Channel} `{RlpDecoder, Varint, Codec, Zlib}.
Implicit Types s : Batches I.

(** The batches that the answer of the channel stage brings. *)
Definition brought (config : Config) (reply : outcome (option Channel)) : outcome (list Batch) :=
  channel ← reply;
  match channel with Some channel => decode_batches channel (l2_chain_id (chain config)) | None => Ok [] end.

Lemma read_channel_eq state s :
  read_channel state s =
    let '(reply, i) := next state (channel_iter s) in
    let s' := set_channel_iter i s in
    match brought (bs_config s) reply with
    | Ok l => (Ok tt, set_batches (insert_batches (bs_config s) l (batches s)) s')
    | Err e => (Err e, s')
    | Panic => (Panic, s')
    | Diverge => (Diverge, s')
    end.
Proof.
  unfold read_channel. run_M. destruct (next state (channel_iter s)) as [[[channel|]| | |] i]; try done.
Qed.

(** How [derive_input] may end. *)
Lemma derive_input_cases state s r s' :
  batches_keyed (bs_config s) (batches s) -> derive_input state s = (r, s') ->
  channel_iter s' = channel_iter s /\
  match r with
  | Ok _ => True
  | Panic => exists k b, batches s !! k = Some b /\
      (batch_status state (bs_config s) b = Panic \/ as_inputs (bs_config s) b = Panic)
  | Err _ | Diverge => False
  end.
Proof.
  intros Hm E. unfold derive_input in E. run_M in E. pose proof (derive_batch_fails state (bs_config s) (batches s) Hm) as Hf.
  destruct (derive_batch state (bs_config s) (batches s)) as [[[batch|] m']| | |] eqn:Ed; run_M in E; try done.
  - apply derive_batch_Ok in Ed as [_ _ (_ & Hl & _)]; [|done].
    pose proof (as_inputs_not_Err (bs_config s) batch) as He. pose proof (as_inputs_not_Diverge (bs_config s) batch) as Hd.
    destruct (as_inputs (bs_config s) batch) as [inputs|e| |] eqn:Ei; [|by destruct (He e)|injection E as <- <-; eauto 6|done].
    run_M in E. destruct (filter_inputs state inputs); by injection E as <- <-.
  - by injection E as <- <-.
  - injection E as <- <-. split; [done|]. destruct Hf as (k & b & ? & ?). eauto 6.
Qed.

Lemma derive_input_Ok state s o s' :
  batches_keyed (bs_config s) (batches s) -> derive_input state s = (Ok o, s') ->
  bs_config s' = bs_config s /\ channel_iter s' = channel_iter s /\
  exists rest, pending_inputs s' = pending_inputs s ++ rest /\
    derived_from state (bs_config s) (batches s) (batches s') o rest.
Proof.
  intros Hm E. unfold derive_input in E. run_M in E.
  destruct (derive_batch state (bs_config s) (batches s)) as [[picked m']| | |] eqn:Ed; [|done..].
  apply derive_batch_Ok in Ed; [|done]. run_M in E.
  destruct picked as [batch|]; run_M in E.
  - destruct (as_inputs (bs_config s) batch) as [inputs| | |] eqn:Ei; [|done..].
    run_M in E. destruct (filter_inputs state inputs) as [|first rest] eqn:Ef;
      cbn in E; injection E as <- <-; (split_and!; [done|done|]).
    + exists []. rewrite app_nil_r. split; [done|]. exists (Some batch). eauto.
    + exists rest. split; [done|]. exists (Some batch). split; [done|]. exists inputs. naive_solver.
  - cbn in E. injection E as <- <-. split_and!; [done|done|]. exists []. rewrite app_nil_r.
    split; [done|]. by exists None.
Qed.

(** Every outcome of [derive_input] keeps the configuration and the keys. *)
Lemma derive_input_inv state s r s' :
  batches_keyed (bs_config s) (batches s) -> derive_input state s = (r, s') ->
  bs_config s' = bs_config s /\ batches_keyed (bs_config s) (batches s') /\
  forall e, r = Err e -> pending_inputs s' = pending_inputs s.
Proof.
  intros Hm E. unfold derive_input in E. run_M in E.
  destruct (derive_batch state (bs_config s) (batches s)) as [[picked m']| | |] eqn:Ed;
    [|by injection E as <- <-..].
  apply derive_batch_Ok in Ed; [|done]. apply derived_keyed in Ed; [|done].
  run_M in E.
  destruct picked as [batch|]; [|by injection E as <- <-]. run_M in E.
  destruct (as_inputs (bs_config s) batch); [|by injection E as <- <-..].
  destruct (filter_inputs _ _); by injection E as <- <-.
Qed.

Lemma read_channel_inv state s r s' :
  batches_keyed (bs_config s) (batches s) -> read_channel state s = (r, s') ->
  bs_config s' = bs_config s /\ pending_inputs s' = pending_inputs s /\
  batches_keyed (bs_config s) (batches s').
Proof.
  intros Hm E. unfold read_channel in E. run_M in E.
  destruct (next state (channel_iter s)) as [[[channel|]|e| |] i]; run_M in E;
    [|by injection E as <- <-..].
  cbn in E. destruct (decode_batches channel (l2_chain_id (chain (bs_config s)))) as [l| | |];
    cbn in E; injection E as <- <-; [|done..].
  cbn. split_and!; [done|done|]. by apply batches_keyed_insert.
Qed.

Lemma try_next_inv state s r s' :
  batches_keyed (bs_config s) (batches s) -> try_next state s = (r, s') ->
  bs_config s' = bs_config s /\ batches_keyed (bs_config s) (batches s').
Proof.
  intros Hm E. unfold try_next in E. destruct (pending_inputs s) as [|i l]; [|by injection E as <- <-].
  run_M in E. destruct (read_channel state s) as [r1 s1] eqn:Er.
  apply read_channel_inv in Er as (Hc & _ & Hk); [|done].
  destruct r1 as [[]| | |]; [|by injection E as <- <-..].
  rewrite <- Hc in Hk. apply derive_input_inv in E as (Hc' & Hk' & _); [|done]. by rewrite <- Hc, Hc'.
Qed.
(** The iterator before the stage is only moved by its own operations. *)
Lemma derive_input_iter state s r s' :
  derive_input state s = (r, s') -> channel_iter s' = channel_iter s.
Proof.
  unfold derive_input. run_M. intros E.
  destruct (derive_batch state (bs_config s) (batches s)) as [[[batch|] m']| | |]; try by injection E as <- <-.
  destruct (as_inputs (bs_config s) batch); try by injection E as <- <-.
  destruct (filter_inputs _ _); by injection E as <- <-.
Qed.

Lemma try_next_iter (Inv : I -> Prop) {Post} `{!IteratorContract it Inv Post} state s r s' :
  Inv (channel_iter s) -> try_next state s = (r, s') -> Inv (channel_iter s').
Proof.
  intros Hi E. unfold try_next in E. destruct (pending_inputs s); [|by injection E as <- <-].
  run_M in E. unfold read_channel in E. run_M in E.
  destruct (next state (channel_iter s)) as [o i] eqn:En. pose proof (next_inv _ _ _ _ Hi En) as Hinv.
  destruct o as [[channel|]| | |]; try (by injection E as <- <-); [|by apply derive_input_iter in E as ->].
  cbn beta iota in E.
  destruct (decode_batches _ _); try (by injection E as <- <-). by apply derive_input_iter in E as ->.
Qed.

(** The contract of the stage. *)
Definition batches_inv (Inv : I -> Prop) (config : Config) s : Prop :=
  Inv (channel_iter s) /\ bs_config s = config /\ batches_keyed config (batches s).

#[export] Instance Batches_contract (Inv : I -> Prop) Post config `{!IteratorContract it Inv Post} :
    IteratorContract Batches_iter (batches_inv Inv config) (fun _ => True).
Proof.
  split; [|done|].
  - intros state s r s' (Hi & <- & Hk) E. change (Batches_next state s = (r, s')) in E. unfold Batches_next in E.
    destruct (try_next state s) as [r1 s1] eqn:Et. assert (s' = s1) as -> by (destruct r1; congruence).
    apply (try_next_iter Inv state s r1 s1 Hi) in Et as Hi'. apply try_next_inv in Et as [Hc Hk']; [|done].
    by split_and!.
  - intros state s (Hi & <- & _). split_and!; [by apply purge_inv|done|apply batches_keyed_empty].
Qed.
End next.

(** ** The encoding of batches *)

(** The batches in RLP. *)
Definition rlp_batch (b : SingleBatch) : bytes :=
  Rlp.encode_list (mjoin [
    Rlp.encode_string (sb_parent_hash b); Rlp.encode_uint (sb_epoch_num b); Rlp.encode_string (sb_epoch_hash b);
    Rlp.encode_uint (sb_timestamp b); Rlp.encode_list (mjoin (Rlp.encode_string <$> sb_transactions b))]).

Section rlp.
#[local] Existing Instance rlp_decoder.

Lemma RawTransaction_decode_rlp x :
  bytes_ok x -> in_u64 (len x) -> RawTransaction_decode (Rlp.encode_string x) = Ok x.
Proof.
  intros Hx Hl. pose proof (proj1 (Rlp.as_string_encode x [] Hx Hl)) as Ha. rewrite app_nil_r in Ha.
  unfold RawTransaction_decode. change (as_val_bytes ?d) with (Rlp.as_string d). by rewrite Ha.
Qed.

Lemma rlp_transactions l :
  9 * len l + len (mjoin l) < 2 ^ 60 -> Forall bytes_ok l ->
  Forall Rlp.is_item (Rlp.encode_string <$> l) /\ mapM RawTransaction_decode (Rlp.encode_string <$> l) = Ok l /\
  bytes_ok (mjoin (Rlp.encode_string <$> l)) /\ len (mjoin (Rlp.encode_string <$> l)) <= 9 * len l + len (mjoin l).
Proof.
  induction l as [|x l IH]; intros Hs Hb; [split_and!; [constructor|done|constructor|done]|].
  rewrite join_cons, len_app, len_cons in Hs. apply Forall_cons in Hb as [Hx Hl].
  pose proof (len_nonneg x). pose proof (len_nonneg l). pose proof (len_nonneg (mjoin l)).
  destruct (IH ltac:(lia) Hl) as (Hi & Hd & Ho & Hle).
  assert (Hlx : in_u64 (len x)) by (unfold in_u64; lia). cbn [fmap list_fmap]. rewrite !join_cons, !len_app, len_cons.
  split_and!.
  - constructor; [by apply Rlp.is_item_string|done].
  - cbn [mapM]. change (list_fmap _ _ Rlp.encode_string l) with (Rlp.encode_string <$> l).
    rewrite RawTransaction_decode_rlp by done. rewrite bind_ret, Hd. by rewrite bind_ret.
  - apply Forall_app. split; [by apply Rlp.bytes_ok_encode_string|done].
  - pose proof (Rlp.len_encode_string x Hlx). lia.
Qed.

(** The five items of a batch. *)
Lemma rlp_batch_items b :
  batch_encodable b ->
  let es := [Rlp.encode_string (sb_parent_hash b); Rlp.encode_uint (sb_epoch_num b); Rlp.encode_string (sb_epoch_hash b);
    Rlp.encode_uint (sb_timestamp b); Rlp.encode_list (mjoin (Rlp.encode_string <$> sb_transactions b))] in
  Forall Rlp.is_item es /\ bytes_ok (mjoin es) /\ len (mjoin es) < 2 ^ 61.
Proof.
  intros [Hp He [Hn Ht] (Hbp & Hbe & Hbt) Hs] es.
  destruct (rlp_transactions _ Hs Hbt) as (Hi & _ & Ho & Hle).
  assert (Hu : forall z, in_u64 z -> bytes_ok (Rlp.digits z) /\ in_u64 (len (Rlp.digits z)) /\ len (Rlp.digits z) <= 8).
  { intros z (_ & Hb & Hl & _)%Rlp.digits_spec. pose proof (len_nonneg (Rlp.digits z)). split_and!; [done|unfold in_u64; lia|done]. }
  destruct (Hu _ Hn) as (Hnb & Hnl & Hn8), (Hu _ Ht) as (Htb & Htl & Ht8).
  set (txs := mjoin (Rlp.encode_string <$> sb_transactions b)) in *. pose proof (len_nonneg txs).
  assert (Hlt : in_u64 (len txs)) by (unfold in_u64; lia).
  assert (H32 : forall x : bytes, len x = 32 -> in_u64 (len x)) by (intros x ->; done).
  split_and!.
  - repeat constructor; try (apply Rlp.is_item_string; auto); by apply Rlp.is_item_list.
  - unfold es. rewrite !join_cons. do 4 (apply Forall_app; split; [apply Rlp.bytes_ok_encode_string; by auto|]).
      apply Forall_app. split; [by apply Rlp.bytes_ok_encode_list|constructor].
  - unfold es. rewrite !join_cons, !len_app. change (len (mjoin [])) with 0. unfold Rlp.encode_uint.
    pose proof (Rlp.len_encode_string (sb_parent_hash b) ltac:(auto)).
    pose proof (Rlp.len_encode_string (sb_epoch_hash b) ltac:(auto)).
    pose proof (Rlp.len_encode_string (Rlp.digits (sb_epoch_num b)) ltac:(auto)).
    pose proof (Rlp.len_encode_string (Rlp.digits (sb_timestamp b)) ltac:(auto)).
    unfold Rlp.encode_list. rewrite len_app. pose proof (Rlp.len_header 192 (len txs) Hlt). lia.
Qed.

(** RLP is an encoding that the decoder inverts. *)
Lemma rlp_encoding_ok : rlp_encoding Rlp.encode_string rlp_batch.
Proof.
  split.
  - intros x rest Hx Hl. destruct (Rlp.as_string_encode x rest Hx Hl) as (Ha & h & v & Hi & Hlen & -> & _). by exists h.
  - intros b Hb. destruct (rlp_batch_items b Hb) as (Hi & Hok & Hl). cbv zeta in *. unfold rlp_batch.
    set (es := [_; _; _; _; _]) in *. pose proof (len_nonneg (mjoin es)).
    assert (Hle : in_u64 (len (mjoin es))) by (unfold in_u64; lia).
    destruct (Rlp.value_encode_list (mjoin es) [] Hle) as (_ & _ & h & v & Hinfo & Hlen & _ & _). rewrite app_nil_r in Hinfo.
    exists h, v. split_and!; [done|done|by apply Rlp.bytes_ok_encode_list| |].
    + unfold Rlp.encode_list. rewrite len_app. pose proof (Rlp.len_header 192 (len (mjoin es)) Hle). lia.
    + destruct Hb as [Hp He [Hn Ht] (Hbp & Hbe & Hbt) Hs]. destruct (rlp_transactions _ Hs Hbt) as (Hti & Htd & _ & Htl).
      assert (Hitems : Rlp.items (Rlp.encode_list (mjoin es)) = Some es).
      { rewrite <- (app_nil_r (Rlp.encode_list _)). by apply Rlp.items_encode. }
      unfold SingleBatch_decode. cbn [val_at_h256 val_at_uint list_at rlp_decoder]. unfold Rlp.at_. rewrite Hitems.
      cbn [mbind option_bind es lookup list_lookup].
      assert (Hnil : forall bs : bytes, bs = bs ++ []) by (intros; by rewrite app_nil_r).
      rewrite (Hnil (Rlp.encode_string (sb_parent_hash b))), (Hnil (Rlp.encode_string (sb_epoch_hash b))),
        (Hnil (Rlp.encode_uint (sb_epoch_num b))), (Hnil (Rlp.encode_uint (sb_timestamp b))),
        (Hnil (Rlp.encode_list (mjoin (Rlp.encode_string <$> sb_transactions b)))).
      rewrite !Rlp.as_h256_encode, !Rlp.as_uint_encode, Rlp.items_encode by (done || (unfold in_u64;
        pose proof (len_nonneg (mjoin (Rlp.encode_string <$> sb_transactions b))); lia)).
      cbn [ok_or]. rewrite !bind_ret, Htd, bind_ret. by destruct b.
Qed.

(** An epoch number of nine bytes is no [u64]: an error, and not a larger number. *)
Example long_epoch_number :
  SingleBatch_decode (Rlp.encode_list (mjoin [Rlp.encode_string (to_be 32 1); Rlp.encode_string (to_be 9 (2 ^ 64));
    Rlp.encode_string (to_be 32 2); Rlp.encode_uint 3; Rlp.encode_list []])) 7 = Err "rlp".
Proof. by vm_compute. Qed.
End rlp.

(** A channel that ends with a span batch: nothing after it is read. *)
Section span_channel.
#[local] Existing Instances rlp_decoder leb128 rlp_codec.

(** A span batch, behind its version byte, in an RLP string. *)
Definition rlp_span (sd : SpanData) : bytes := Rlp.encode_string (1 :: encode_span sd).

Lemma decode_batches_body_span channel chain_id sd pre rest acc :
  0 <= chain_id /\ chain_id * 2 + 36 < 2 ^ 64 -> span_ok sd ->
  decode_batches_body channel chain_id (pre ++ rlp_span sd ++ rest) (len pre, acc) =
    Ok (inr (acc ++ [Span (span_of chain_id (chan_l1_inclusion_block channel) sd)])).
Proof.
  intros Hc Hsd. pose proof (bytes_ok_encode_span sd Hsd) as Hb. pose proof (span_size_ok _ Hsd) as Hs.
  pose proof (len_nonneg (encode_span sd)).
  destruct (Rlp.as_string_encode (1 :: encode_span sd) rest) as (Ha & h & v & Hi & Hlen & _ & Hpos);
    [by constructor|rewrite len_cons; unfold in_u64; lia|]. fold (rlp_span sd) in *.
  unfold decode_batches_body. rewrite (proj2 (Z.ltb_lt (len pre) _)) by (rewrite !len_app; unfold len; lia).
  rewrite slice_from_app by done. rewrite bind_ret. cbn [payload_info as_val_bytes rlp_decoder].
  rewrite Hi. cbn [ok_or]. rewrite bind_ret, Ha. cbn [ok_or]. rewrite bind_ret.
  change (index (1 :: encode_span sd) 0) with (Ok 1). rewrite bind_ret.
  rewrite (slice_from_app [1] (encode_span sd) 1 eq_refl : slice_from (1 :: encode_span sd) 1 = _), bind_ret.
  cbn [Z.eqb]. by rewrite SpanBatch_decode_encode, bind_ret.
Qed.
End span_channel.

(** The encodings of single batches, and then possibly of a span batch, are read back. *)
Lemma decode_batches_posted `{Zlib} channel chain_id l span rest :
  Forall (fun b => batch_encodable b /\ sb_l1_inclusion_block b = chan_l1_inclusion_block channel) l ->
  0 <= chain_id /\ chain_id * 2 + 36 < 2 ^ 64 -> (forall sd, span = Some sd -> span_ok sd) ->
  (span = None -> rest = []) ->
  zlib_decode (chan_data channel) =
    Some (encode_batches Rlp.encode_string rlp_batch l ++ mjoin (rlp_span <$> option_list span) ++ rest) ->
  let span_batch := span_of chain_id (chan_l1_inclusion_block channel) in
  decode_batches (H := rlp_decoder) (H0 := leb128) (H1 := rlp_codec) channel chain_id =
    Ok ((Single <$> l) ++ (Span ∘ span_batch <$> option_list span)).
Proof.
  intros Hl Hc Hspan Hrest Hz span_batch.
  unfold decode_batches. rewrite Hz. cbn [ok_or]. rewrite bind_ret.
  assert (Hlen : (length l <= length (encode_batches Rlp.encode_string rlp_batch l))%nat).
  { apply (@length_encode_batches rlp_decoder _ _ _ rlp_encoding_ok). eapply Forall_impl; [exact Hl|]. by intros b [Hb _]. }
  destruct span as [sd|].
  - change (mjoin (rlp_span <$> option_list (Some sd))) with (rlp_span sd ++ []). rewrite app_nil_r. set (data := encode_batches _ _ l ++ _).
    pose proof (@decode_batches_loop_prefix rlp_decoder leb128 rlp_codec _ _ channel chain_id l (rlp_span sd ++ rest) [] []
      (S (length data - length l)) rlp_encoding_ok Hl) as E. cbv zeta in E. rewrite !app_nil_l in E. fold data in E.
    replace (S (length data)) with (length l + S (length data - length l))%nat
      by (unfold data; rewrite length_app in *; lia).
    change 0 with (len (@nil Z)). rewrite E. cbn [loop]. unfold data.
    by rewrite decode_batches_body_span by (done || by apply Hspan).
  - change (mjoin (rlp_span <$> option_list None)) with (@nil Z). change (Span ∘ span_batch <$> option_list None) with (@nil Batch).
    rewrite Hrest, !app_nil_r by done. apply decode_batches_loop_encode; [exact rlp_encoding_ok|done|lia].
Qed.

(** ** Properties *)

(** C12. The validity of a single batch.  A batch is accepted exactly when it builds
    on the safe head one block time later, was included within the sequencing
    window of its epoch, has the hash of the safe epoch or of the next one, is not
    older than that epoch nor, unless it is empty and the next epoch has not begun,
    later than its drift bound, and has no empty or deposit transaction.  It is
    kept for later exactly when its timestamp is ahead, and undecided only while
    the next epoch is not known. *)
Theorem single_batch_status_spec state config batch :
  status_in_range state config batch ->
  (single_batch_status state config batch = BatchAccept <-> single_batch_valid state config batch) /\
  (single_batch_status state config batch = BatchFuture <->
     bi_timestamp (safe_head state) + blocktime (chain config) < sb_timestamp batch) /\
  (single_batch_status state config batch = BatchUndecided ->
     epoch_by_number state (ep_number (safe_epoch state) + 1) = None).
Proof.
  intros Hr. split; [by apply single_batch_status_valid|]. destruct Hr as [Hn He _ _].
  unfold single_batch_status. rewrite (u64_add_small _ _ Hn), (u64_add_small _ _ He).
  destruct (Z.compare_spec (sb_timestamp batch) (bi_timestamp (safe_head state) + blocktime (chain config)));
    [|naive_solver lia..].
  split; [split; [|lia]|]; repeat case_match; naive_solver.
Qed.

(** C15. Choosing a batch.  The loop of [try_next] ends on every map; it takes batches
    from the least timestamp up, removes those whose status is [Drop], removes and
    returns the first that is accepted, and stops at the first that is undecided or
    in the future, which it keeps with everything after it. *)
Theorem derive_batch_spec state config m :
  batches_keyed config m ->
  match derive_batch state config m with
  | Ok (o, m') => derived state config m o m'
  | Diverge => False
  | _ => True
  end.
Proof.
  intros Hm. pose proof (derive_batch_not_Diverge state config m Hm) as Hd.
  destruct (derive_batch state config m) as [[o m']| | |] eqn:E; [|done..]. by apply derive_batch_Ok.
Qed.

(** C27. Channels round trip.  Take a channel whose data inflates to the encodings that the
    specification gives, in RLP, of any number of single batches and then possibly of a
    span batch.  It decodes to those batches in order; the span batch stands for the
    blocks that were posted, each with its time, its epoch and its signed transactions as
    they go on the wire; and whatever follows the span batch is not read. *)
Theorem decode_batches_encode `{Zlib} channel chain_id config l span rest :
  Forall (fun b => batch_encodable b /\ sb_l1_inclusion_block b = chan_l1_inclusion_block channel) l ->
  0 <= chain_id /\ chain_id * 2 + 36 < 2 ^ 64 -> (forall sd, span = Some sd -> span_ok sd) ->
  (span = None -> rest = []) ->
  zlib_decode (chan_data channel) =
    Some (encode_batches Rlp.encode_string rlp_batch l ++ mjoin (rlp_span <$> option_list span) ++ rest) ->
  let span_batch := span_of chain_id (chan_l1_inclusion_block channel) in
  decode_batches (H := rlp_decoder) (H0 := leb128) (H1 := rlp_codec) channel chain_id =
    Ok ((Single <$> l) ++ (Span ∘ span_batch <$> option_list span)) /\
  forall sd, span = Some sd -> as_inputs config (Span (span_batch sd)) =
    Ok (imap (posted_block chain_id (chan_l1_inclusion_block channel) config sd) (sd_blocks sd)).
Proof.
  intros Hl Hc Hspan Hrest Hz span_batch. split; [|intros sd Hsd; by apply span_of_inputs, Hspan].
  by apply (decode_batches_posted channel chain_id l span rest).
Qed.

(** C13. Soundness of the span batch checks: an accepted span batch starts no later
    than the block after the safe head, has the hash of the cached block before it
    as its parent check and a cached L1 origin, and every one of its blocks is not
    older than its epoch, respects the drift bound, and, where it overlaps the safe
    chain, has the epoch of the safe block.  The start epoch is also bounded by the
    number of the L2 block before it, which is not a bound on epochs. *)
Theorem span_batch_status_accepts state config batch :
  batch_status state config (Span batch) = Ok BatchAccept ->
  exists inputs, span_accepted state config batch inputs.
Proof. apply span_batch_status_accept. Qed.

(** The first block of a span batch. *)
Lemma block_inputs_first batch config start :
  span_shape batch -> zsum (sp_block_tx_counts batch) < 18446744073709551616 -> start_epoch_num batch = Ok start ->
  exists inputs input, block_inputs batch config = Ok inputs /\ inputs !! 0%nat = Some input /\
    bin_timestamp input = Batch_timestamp config (Span batch) /\ bin_epoch input = start.
Proof.
  intros Hshape Hsum Hstart. destruct (block_inputs_spec batch config Hshape Hsum) as (inputs & Hin & Hlen & _ & Hall & _).
  unfold start_epoch_num in Hstart. apply bind_Ok in Hstart as (first & Hf & Hstart).
  assert (Hl : sp_origin_bits batch !! 0%nat = Some first).
  { unfold index in Hf. cbn in Hf. by destruct (sp_origin_bits batch); simplify_eq/=. }
  destruct inputs as [|input inputs].
  { rewrite len_nil in Hlen. rewrite <- (span_shape_bits _ Hshape) in Hlen. by destruct (sp_origin_bits batch). }
  destruct (Hall 0%nat input eq_refl) as (Hts & He & _). exists (input :: inputs), input. split; [done|]. split; [done|].
  split; [rewrite Hts; cbn [Batch_timestamp]; unfold u64_add; f_equal; lia|].
  rewrite He. injection Hstart as <-. rewrite origin_sum_ones, u64_sub_u64, u64_add_u64. f_equal.
  rewrite ones_drop, (ones_take_S _ _ _ Hl), take_0. change (ones []) with 0. destruct first; lia.
Qed.

(** C14. An empty block is final for the batches of the epochs it could have had.  When
    [try_next] makes an empty block, no single batch that
    is first seen in the current L1 block or a later one can be accepted in its
    place any more, whichever of the two epochs it names, nor can a span batch that starts
    in one of these epochs; the code does accept a span batch that skips the next epoch
    (see [empty_input_overtaken]), since it bounds the start epoch by the
    number of an L2 block.  The empty block is one block time after the safe head, in the
    safe epoch if it is older than the next one, and in the next epoch otherwise. *)
Theorem empty_input_final state config input :
  (forall n e, epoch_by_number state n = Some e -> ep_number e = n) ->
  empty_input state config = Some input ->
  (forall batch, status_in_range state config batch ->
     current_epoch_num state <= sb_l1_inclusion_block batch ->
     single_batch_status state config batch <> BatchAccept) /\
  (forall batch start, span_shape batch -> zsum (sp_block_tx_counts batch) < 2 ^ 64 -> start_epoch_num batch = Ok start ->
     in_u64 (start + seq_window_size (chain config)) ->
     in_u64 (ep_number (safe_epoch state) + 1 + seq_window_size (chain config)) -> 0 <= seq_window_size (chain config) ->
     0 <= ep_number (safe_epoch state) ->
     current_epoch_num state <= sp_l1_inclusion_block batch ->
     batch_status state config (Span batch) = Ok BatchAccept -> ep_number (safe_epoch state) + 1 < start) /\
  bin_timestamp input = u64_add (bi_timestamp (safe_head state)) (blocktime (chain config)) /\
  bin_transactions input = [] /\
  exists next, epoch_by_number state (u64_add (ep_number (safe_epoch state)) 1) = Some next /\
    (bin_epoch input = ep_number (safe_epoch state) /\ bin_timestamp input < ep_timestamp next \/
     bin_epoch input = ep_number next /\ ep_timestamp next <= bin_timestamp input).
Proof.
  intros Hnum E. unfold empty_input in E.
  destruct (epoch_by_number state (u64_add (ep_number (safe_epoch state)) 1)) as [next|] eqn:En; [|done].
  destruct (Z.ltb_spec (u64_add (ep_number (safe_epoch state)) (seq_window_size (chain config)))
    (current_epoch_num state)) as [Hw|]; [|done].
  set (ts := u64_add (bi_timestamp (safe_head state)) (blocktime (chain config))) in *.
  assert (Hcase : exists e, input = {| bin_epoch := ep_number e; bin_timestamp := ts; bin_transactions := [];
      bin_l1_inclusion_block := current_epoch_num state |} /\
    (e = safe_epoch state /\ ts < ep_timestamp next \/ e = next /\ ep_timestamp next <= ts /\
      u64_add (ep_number next) (seq_window_size (chain config)) < current_epoch_num state)).
  { destruct (Z.ltb_spec ts (ep_timestamp next)); [injection E as <-; eauto|].
    destruct (Z.ltb_spec (u64_add (ep_number next) (seq_window_size (chain config))) (current_epoch_num state));
      [|done]. injection E as <-. eauto 6. }
  destruct Hcase as (e & -> & He). cbn [bin_epoch bin_timestamp bin_transactions].
  split; [|split; [|split_and!; [done|done|]; exists next; naive_solver]].
  2: { change (2 ^ 64) with 18446744073709551616. intros batch start Hshape Hsum Hstart Hr Hr' Hw0 He0 Hincl Hacc.
    destruct (block_inputs_first batch config start Hshape Hsum Hstart) as (inputs & first & Hin & Hfirst & Hts & Hep).
    apply span_batch_status_accept in Hacc as [inputs' [Hin' Hs (prev & pe & start' & _ & _ & Hst & _ & _ & Hwin) _ Hok _]].
    rewrite Hstart in Hst. injection Hst as <-. rewrite Hin in Hin'. injection Hin' as <-.
    destruct (Hok _ _ Hfirst) as (origin & Horigin & Hold & _). rewrite Hep in Horigin. rewrite Hts in Hold.
    fold ts in Hs. assert (Hr1 : in_u64 (ep_number (safe_epoch state) + 1)) by (unfold in_u64 in *; lia).
    assert (Hr2 : in_u64 (ep_number (safe_epoch state) + seq_window_size (chain config))) by (unfold in_u64 in *; lia).
    pose proof (Hnum _ _ En) as Hnn. rewrite u64_add_small in Hw, Hwin, En, Hnn by done.
    destruct He as [[_ Hlt]|(_ & _ & Hlt)]; [|rewrite Hnn, u64_add_small in Hlt by done; lia].
    destruct (decide (start = ep_number (safe_epoch state) + 1)) as [->|]; [|lia].
    replace origin with next in Hold by congruence. lia. }
  intros batch Hr Hincl Hacc. apply single_batch_status_valid in Hacc; [|done].
  destruct Hacc as (Hts & _ & Hwin & _ & origin & Horigin & _ & Hold & _). destruct Hr as [Hr1 Hr2 Hr3 _].
  unfold ts in *. rewrite u64_add_small in En by done. rewrite (u64_add_small (bi_timestamp _)) in He by done.
  pose proof (Hnum _ _ En) as Hnn.
  destruct Horigin as [[Hb ->]|[Hb Ho]]; [rewrite Hb in Hwin, Hr3; rewrite u64_add_small in Hw by done; lia|].
  replace origin with next in * by congruence. rewrite Hb in Hwin, Hr3.
  destruct He as [[_ ?]|(_ & _ & Hlt)]; [lia|]. rewrite Hnn, u64_add_small in Hlt by done. lia.
Qed.

(** C16. The order of block inputs.  [next] first hands out the pending inputs, in
    order and without touching anything else.  When there are none it takes one answer of the
    channel stage and decodes the channel, if there is one.  The batches it chooses from are
    those kept and those decoded, the last one decoded at each timestamp in the place of the
    others.  From these it yields the first block of the batch it picks that is newer than
    the safe head and keeps the others pending, or the empty block if it picks none; it panics
    only if the status or the blocks of one of these batches do.  An error while decoding a channel
    yields nothing and loses none of the batches kept; a panic there goes through.  The map stays
    keyed by timestamp on every outcome, and the search for a batch ends. *)
Theorem Batches_next_spec {I} `{it : PurgeableIterator State I Channel} `{RlpDecoder, Varint, Codec, Zlib}
    state (s : Batches I) r s' :
  batches_keyed (bs_config s) (batches s) -> Batches_next state s = (r, s') ->
  bs_config s' = bs_config s /\ batches_keyed (bs_config s) (batches s') /\
  match pending_inputs s with
  | input :: inputs => r = Ok (Some input) /\ s' = set_inputs inputs s
  | [] =>
      let '(reply, i) := next state (channel_iter s) in
      channel_iter s' = i /\
      match brought (bs_config s) reply with
      | Ok l => exists m,
          (forall k, m !! k = match last (filter (fun b => Batch_timestamp (bs_config s) b = k) l) with
                              | Some b => Some b | None => batches s !! k end) /\
          match r with
          | Ok o => derived_from state (bs_config s) m (batches s') o (pending_inputs s')
          | Panic => exists k b, m !! k = Some b /\
              (batch_status state (bs_config s) b = Panic \/ as_inputs (bs_config s) b = Panic)
          | Err _ | Diverge => False
          end
      | Err _ => r = Ok None /\ batches s' = batches s /\ pending_inputs s' = []
      | Panic => r = Panic
      | Diverge => r = Diverge /\ reply = Diverge
      end
  end.
Proof.
  intros Hm E. unfold Batches_next in E. destruct (try_next state s) as [r1 s1] eqn:Et.
  pose proof (try_next_inv _ _ _ _ Hm Et) as [Hc Hk].
  assert (s' = s1) as -> by (destruct r1; congruence). split; [done|]. split; [done|].
  unfold try_next in Et. destruct (pending_inputs s) as [|i0 l0] eqn:Ep; [|by injection Et as <- <-; injection E as <-].
  run_M in Et. rewrite read_channel_eq in Et. destruct (next state (channel_iter s)) as [reply i] eqn:En.
  destruct (brought (bs_config s) reply) as [l|e| |] eqn:Eb; cbn beta iota zeta in Et.
  - set (s2 := set_batches _ _) in Et.
    assert (Hk2 : batches_keyed (bs_config s2) (batches s2)) by by apply batches_keyed_insert.
    pose proof (derive_input_cases _ _ _ _ Hk2 Et) as [Hi Hcase]. split; [exact Hi|].
    exists (batches s2). split; [intros k; apply insert_batches_lookup|].
    destruct r1 as [o|e| |]; try done; injection E as <-; [|exact Hcase].
    apply derive_input_Ok in Et as (_ & _ & rest & Hp & Hd); [|done]. cbn in Hp. rewrite Ep in Hp. by rewrite Hp.
  - injection Et as <- <-. by injection E as <-.
  - injection Et as <- <-. by injection E as <-.
  - injection Et as <- <-. injection E as <-. split; [done|]. split; [done|].
    destruct reply as [[channel|]| | |]; try done. by apply decode_batches_not_Diverge in Eb.
Qed.

(** ** Witnesses *)

(** The safe chain of [c] at block 12000000, with its epoch and the next one
    cached. *)
Definition example_tip (c : ChainConfig) : BlockInfo :=
  let n := bi_number (l2_genesis c) + 12000000 in
  {| bi_hash := to_be 16 n ++ to_be 16 n; bi_number := n; bi_parent_hash := to_be 32 (n - 1);
     bi_timestamp := bi_timestamp (l2_genesis c) + 24000000 |}.

Definition example_origin (c : ChainConfig) (i : Z) : L1Info :=
  {| block_info :=
       {| l1b_number := 19400000 + i; l1b_hash := to_be 16 (19400000 + i) ++ to_be 16 (19400000 + i);
          l1b_timestamp := bi_timestamp (example_tip c) - 7 + 12 * i; l1b_base_fee := 7;
          l1b_mix_hash := to_be 32 5; l1b_parent_beacon_block_root := None |};
     l1i_system_config := system_config c;
     user_deposits := []; batcher_transactions := []; finalized := false |}.

Definition example_origins (c : ChainConfig) (current : Z) : State :=
  let h i := l1b_hash (block_info (example_origin c i)) in
  {| l1_info := {[ h 0 := example_origin c 0; h 1 := example_origin c 1 ]};
     l1_hashes := {[ 19400000 := h 0; 19400001 := h 1 ]};
     l2_refs := {[ bi_number (example_tip c) := (example_tip c, epoch_of_info (example_origin c 0)) ]};
     safe_head := example_tip c; safe_epoch := epoch_of_info (example_origin c 0);
     current_epoch_num := current; st_config := example_config c |}.

Definition example_single (c : ChainConfig) (ts l1 : Z) : SingleBatch :=
  {| sb_parent_hash := bi_hash (example_tip c); sb_epoch_num := 19400000;
     sb_epoch_hash := ep_hash (epoch_of_info (example_origin c 0)); sb_timestamp := ts;
     sb_transactions := [[2; 3]]; sb_l1_inclusion_block := l1 |}.

(** Three blocks, the last one in the next epoch. *)
Definition example_span_batch (c : ChainConfig) : SpanBatch :=
  {| sp_rel_timestamp := 24000002; sp_l1_origin_num := 19400001;
     sp_parent_check := take 20 (bi_hash (example_tip c));
     sp_l1_origin_check := take 20 (ep_hash (epoch_of_info (example_origin c 1)));
     sp_block_count := 3; sp_origin_bits := [false; false; true]; sp_block_tx_counts := [1; 0; 1];
     sp_transactions := [[2; 3]; [2; 4]]; sp_l1_inclusion_block := 19400050 |}.

Lemma example_in_range c cur l1 ts :
  c = base \/ c = optimism -> status_in_range (example_origins c cur) (example_config c) (example_single c ts l1).
Proof.
  intros Hc. split; [by destruct Hc as [->| ->]; by_compute..|].
  intros e He. assert (e = epoch_of_info (example_origin c 0) \/ e = epoch_of_info (example_origin c 1)) as Hx.
  { destruct He as [->|He]; [by left|right]. destruct Hc as [->| ->]; vm_compute in He; injection He as <-; by vm_compute. }
  destruct Hx as [->| ->], Hc as [->| ->]; by_compute.
Qed.

Lemma single_batch_status_spec_witness :
  single_batch_status (example_origins base 0) (example_config base)
    (example_single base (bi_timestamp (example_tip base) + 2) 19400050) = BatchAccept /\
  single_batch_valid (example_origins base 0) (example_config base)
    (example_single base (bi_timestamp (example_tip base) + 2) 19400050) /\
  single_batch_status (example_origins base 0) (example_config base)
    (example_single base (bi_timestamp (example_tip base) + 4) 19400050) = BatchFuture.
Proof.
  assert (H1 : single_batch_status (example_origins base 0) (example_config base)
    (example_single base (bi_timestamp (example_tip base) + 2) 19400050) = BatchAccept) by by vm_compute.
  split; [exact H1|]. split.
  - apply (single_batch_status_spec _ _ _ (example_in_range base 0 19400050 _ (or_introl eq_refl))). exact H1.
  - apply (single_batch_status_spec _ _ _ (example_in_range base 0 19400050 _ (or_introl eq_refl))). by vm_compute.
Defined.

(** A past batch, the batch to accept and a future one. *)
Definition example_batch_map : gmap Z Batch :=
  insert_batches (example_config base)
    (Single <$> [example_single base (bi_timestamp (example_tip base)) 19400050;
                 example_single base (bi_timestamp (example_tip base) + 2) 19400050;
                 example_single base (bi_timestamp (example_tip base) + 4) 19400050]) ∅.

Lemma example_batch_map_keyed : batches_keyed (example_config base) example_batch_map.
Proof. apply batches_keyed_insert, batches_keyed_empty. Qed.

Lemma derive_batch_spec_witness :
  exists b m, derive_batch (example_origins base 0) (example_config base) example_batch_map = Ok (Some b, m) /\
    size m = 1%nat /\ derived (example_origins base 0) (example_config base) example_batch_map (Some b) m.
Proof.
  pose proof (derive_batch_spec (example_origins base 0) (example_config base) example_batch_map
    example_batch_map_keyed) as Hd.
  destruct (derive_batch (example_origins base 0) (example_config base) example_batch_map) as [[[b|] m]| | |] eqn:E;
    [|by vm_compute in E..].
  exists b, m. split; [reflexivity|]. split; [|exact Hd]. vm_compute in E. injection E as _ <-. reflexivity.
Defined.

Lemma decode_batches_encode_witness :
  let l := [example_single base 1710789349 19400050; example_single base 1710789351 19400050] in
  let channel := {| chan_id := 7; chan_data := encode_batches Rlp.encode_string rlp_batch l ++ rlp_span example_posted ++ [9; 9];
                    chan_l1_inclusion_block := 19400050 |} in
  @decode_batches rlp_decoder leb128 rlp_codec example_zlib channel 8453 =
    Ok ((Single <$> l) ++ [Span (span_of 8453 19400050 example_posted)]) /\
  exists inputs, as_inputs (example_config base) (Span (span_of 8453 19400050 example_posted)) = Ok inputs /\
    (bin_transactions <$> inputs) = [[tx_wire 8453 example_creation; tx_wire 8453 example_call]; []].
Proof.
  intros l channel.
  destruct (@decode_batches_encode example_zlib channel 8453 (example_config base) l (Some example_posted) [9; 9]) as [Hd Hi].
  - constructor; [|constructor; [|constructor]]; (split; [|reflexivity]); split; by_compute.
  - by_compute.
  - intros sd [= <-]. exact example_posted_ok.
  - done.
  - reflexivity.
  - split; [exact Hd|]. eexists. split; [exact (Hi _ eq_refl)|reflexivity].
Defined.

Lemma span_batch_status_accepts_witness :
  batch_status (example_origins optimism 0) (example_config optimism) (Span (example_span_batch optimism)) =
    Ok BatchAccept /\
  exists inputs, span_accepted (example_origins optimism 0) (example_config optimism) (example_span_batch optimism) inputs.
Proof.
  assert (H : batch_status (example_origins optimism 0) (example_config optimism) (Span (example_span_batch optimism)) =
    Ok BatchAccept) by by vm_compute.
  split; [exact H|]. exact (span_batch_status_accepts _ _ _ H).
Defined.

(** The same batch on the Base chain, whose block numbers are smaller than those of
    L1, is dropped. *)
Example span_batch_dropped_on_base :
  batch_status (example_origins base 0) (example_config base) (Span (example_span_batch base)) = Ok BatchDrop.
Proof. by vm_compute. Qed.

(** A state whose L2 chain lags behind three L1 blocks, and a span batch that skips the
    second one: it is first seen when the empty block is made already, and it is accepted. *)
Definition lagging_origin (i : Z) : L1Info :=
  {| block_info :=
       {| l1b_number := 19400000 + i; l1b_hash := to_be 16 (19400000 + i) ++ to_be 16 (19400000 + i);
          l1b_timestamp := bi_timestamp (example_tip optimism) - 31 + 12 * i; l1b_base_fee := 7;
          l1b_mix_hash := to_be 32 5; l1b_parent_beacon_block_root := None |};
     l1i_system_config := system_config optimism;
     user_deposits := []; batcher_transactions := []; finalized := false |}.

Definition lagging_state (current : Z) : State :=
  let h i := l1b_hash (block_info (lagging_origin i)) in
  {| l1_info := {[ h 0 := lagging_origin 0; h 1 := lagging_origin 1; h 2 := lagging_origin 2 ]};
     l1_hashes := {[ 19400000 := h 0; 19400001 := h 1; 19400002 := h 2 ]};
     l2_refs := {[ bi_number (example_tip optimism) := (example_tip optimism, epoch_of_info (lagging_origin 0)) ]};
     safe_head := example_tip optimism; safe_epoch := epoch_of_info (lagging_origin 0);
     current_epoch_num := current; st_config := example_config optimism |}.

Definition skipping_batch : SpanBatch :=
  {| sp_rel_timestamp := 24000002; sp_l1_origin_num := 19400002;
     sp_parent_check := take 20 (bi_hash (example_tip optimism));
     sp_l1_origin_check := take 20 (ep_hash (epoch_of_info (lagging_origin 2)));
     sp_block_count := 2; sp_origin_bits := [true; false]; sp_block_tx_counts := [1; 1];
     sp_transactions := [[2; 3]; [2; 4]]; sp_l1_inclusion_block := 19403602 |}.

Example empty_input_overtaken :
  (exists input, empty_input (lagging_state 19403602) (example_config optimism) = Some input /\ bin_epoch input = 19400001) /\
  start_epoch_num skipping_batch = Ok 19400002 /\
  batch_status (lagging_state 19403602) (example_config optimism) (Span skipping_batch) = Ok BatchAccept.
Proof. split; [eexists; split; by vm_compute|split; by vm_compute]. Qed.

Lemma empty_input_final_witness :
  exists input, empty_input (example_origins base 19403601) (example_config base) = Some input /\
    bin_epoch input = 19400000 /\
    single_batch_status (example_origins base 19403601) (example_config base)
      (example_single base (bi_timestamp (example_tip base) + 2) 19403601) <> BatchAccept.
Proof.
  destruct (empty_input (example_origins base 19403601) (example_config base)) as [input|] eqn:E; [|by vm_compute in E].
  exists input. split; [reflexivity|]. split; [vm_compute in E; by injection E as <-|].
  refine (proj1 (empty_input_final (example_origins base 19403601) (example_config base) input _ E) _ _ _).
  - intros n e. unfold epoch_by_number, l1_info_by_number, example_origins. cbn [l1_hashes l1_info].
    intros Hn. destruct (decide (n = 19400000)) as [->|]; [by vm_compute in Hn; injection Hn as <-|].
    destruct (decide (n = 19400001)) as [->|]; [by vm_compute in Hn; injection Hn as <-|].
    rewrite lookup_insert_ne, lookup_singleton_ne in Hn by done. done.
  - exact (example_in_range base 19403601 19403601 _ (or_introl eq_refl)).
  - by vm_compute.
Defined.

Definition example_no_channels : PurgeableIterator State unit Channel :=
  {| next := fun _ s => (Ok None, s); purge := fun _ s => s |}.

Definition example_queue (inputs : list (BlockInput Z)) : Batches unit :=
  {| batches := example_batch_map; pending_inputs := inputs; channel_iter := tt; bs_config := example_config base |}.

Lemma Batches_next_spec_witness :
  exists input s', @Batches_next unit example_no_channels rlp_decoder example_varint example_codec example_zlib
      (example_origins base 0) (example_queue []) = (Ok (Some input), s') /\
    bin_timestamp input = bi_timestamp (example_tip base) + 2 /\ batches_keyed (example_config base) (batches s').
Proof.
  destruct (@Batches_next unit example_no_channels rlp_decoder example_varint example_codec example_zlib
      (example_origins base 0) (example_queue [])) as [[[input|]| | |] s'] eqn:E; [|by vm_compute in E..].
  exists input, s'. split; [reflexivity|]. split; [vm_compute in E; by injection E as <- _|].
  apply (@Batches_next_spec unit example_no_channels rlp_decoder example_varint example_codec example_zlib
      (example_origins base 0) (example_queue []) _ s' example_batch_map_keyed E).
Defined.
