(* ===== verification/Engine.v ===== *)
(** The engine API types (src/src/engine/payload.rs, src/src/engine/fork.rs) and
    the [Engine] trait (src/src/engine/traits.rs) with its mock
    (src/src/engine/mock_engine.rs).

    The execution client behind the trait is an external service: a type [E] of
    its states and the three calls as actions on it.  The HTTP client that
    implements the trait (src/src/engine/api.rs) is in EngineApi.v. *)
From S2P Require Import Prelude Common Config.

(** ** Data *)

Record ExecutionPayload := {
  pl_parent_hash : bytes;
  pl_fee_recipient : bytes;
  pl_state_root : bytes;
  pl_receipts_root : bytes;
  pl_logs_bloom : bytes;
  pl_prev_randao : bytes;
  pl_block_number : Z;
  pl_gas_limit : Z;
  pl_gas_used : Z;
  pl_timestamp : Z;
  pl_extra_data : bytes;
  pl_base_fee_per_gas : Z;
  pl_block_hash : bytes;
  pl_transactions : list RawTransaction;
  pl_withdrawals : option (list unit);
  pl_blob_gas_used : option Z;
  pl_excess_blob_gas : option Z
}.

#[export] Instance ExecutionPayload_eq_dec : EqDecision ExecutionPayload.
Proof. solve_decision. Defined.

Record PayloadAttributes := {
  pa_timestamp : Z;
  pa_prev_randao : bytes;
  pa_suggested_fee_recipient : bytes;
  pa_transactions : option (list RawTransaction);
  pa_no_tx_pool : bool;
  pa_gas_limit : Z;
  pa_withdrawals : option (list unit);
  pa_epoch : option Epoch;
  pa_l1_inclusion_block : option Z;
  pa_seq_number : option Z
}.

#[export] Instance PayloadAttributes_eq_dec : EqDecision PayloadAttributes.
Proof. solve_decision. Defined.

(** [type PayloadId = U64]. *)
Abbreviation PayloadId := Z (only parsing).

Inductive Status := Valid | Invalid | Syncing | Accepted | InvalidBlockHash.

#[export] Instance Status_eq_dec : EqDecision Status.
Proof. solve_decision. Defined.

Record PayloadStatus := {
  status : Status;
  latest_valid_hash : option bytes;
  validation_error : option string
}.

#[export] Instance PayloadStatus_eq_dec : EqDecision PayloadStatus.
Proof. solve_decision. Defined.

Record ForkChoiceUpdate := {
  payload_status : PayloadStatus;
  payload_id : option PayloadId
}.

#[export] Instance ForkChoiceUpdate_eq_dec : EqDecision ForkChoiceUpdate.
Proof. solve_decision. Defined.

Record ForkchoiceState := {
  head_block_hash : bytes;
  safe_block_hash : bytes;
  finalized_block_hash : bytes
}.

#[export] Instance ForkchoiceState_eq_dec : EqDecision ForkchoiceState.
Proof. solve_decision. Defined.

(** ** Operations *)

Definition from_single_head (head_block_hash : bytes) : ForkchoiceState :=
  {| head_block_hash := head_block_hash;
     safe_block_hash := head_block_hash;
     finalized_block_hash := head_block_hash |}.

(** [v.map(|v| v.as_u64().into())]. *)
Definition option_as_u64 (v : option Z) : outcome (option Z) :=
  match v with Some v => Some <$> as_u64 v | None => Ok None end.

(** [impl TryFrom<Block<Transaction>> for ExecutionPayload]. *)
Definition ExecutionPayload_try_from (value : Block) : outcome ExecutionPayload :=
  let encoded_txs := tx_rlp <$> blk_transactions value in
  logs_bloom ← unwrap (blk_logs_bloom value);
  prev_randao ← unwrap (blk_mix_hash value);
  block_number ← unwrap (blk_number value);
  gas_limit ← as_u64 (blk_gas_limit value);
  gas_used ← as_u64 (blk_gas_used value);
  timestamp ← as_u64 (blk_timestamp value);
  base_fee_per_gas ← as_u64 (default 0 (blk_base_fee_per_gas value));
  block_hash ← unwrap (blk_hash value);
  blob_gas_used ← option_as_u64 (blk_blob_gas_used value);
  excess_blob_gas ← option_as_u64 (blk_excess_blob_gas value);
  Ok {| pl_parent_hash := blk_parent_hash value;
        pl_fee_recipient := fee_vault SystemAccounts_default;
        pl_state_root := blk_state_root value;
        pl_receipts_root := blk_receipts_root value;
        pl_logs_bloom := logs_bloom;
        pl_prev_randao := prev_randao;
        pl_block_number := block_number;
        pl_gas_limit := gas_limit;
        pl_gas_used := gas_used;
        pl_timestamp := timestamp;
        pl_extra_data := blk_extra_data value;
        pl_base_fee_per_gas := base_fee_per_gas;
        pl_block_hash := block_hash;
        pl_transactions := encoded_txs;
        pl_withdrawals := Some [];
        pl_blob_gas_used := blob_gas_used;
        pl_excess_blob_gas := excess_blob_gas |}.

(** [impl From<&ExecutionPayload> for BlockInfo]; the numbers are [U64]. *)
Definition BlockInfo_from_payload (value : ExecutionPayload) : BlockInfo :=
  {| bi_number := pl_block_number value;
     bi_hash := pl_block_hash value;
     bi_parent_hash := pl_parent_hash value;
     bi_timestamp := pl_timestamp value |}.

(** ** The trait *)

Class Engine (E : Type) := {
  forkchoice_updated : ForkchoiceState -> option PayloadAttributes -> M E ForkChoiceUpdate;
  new_payload : ExecutionPayload -> M E PayloadStatus;
  get_payload : PayloadId -> M E ExecutionPayload
}.

(** The block query of the L2 provider, which asks the same client. *)
Class BlockProvider (E : Type) := {
  get_block_with_txs : Z -> M E (option Block)
}.

Record MockEngine := {
  forkchoice_updated_payloads_res : ForkChoiceUpdate;
  forkchoice_updated_res : ForkChoiceUpdate;
  new_payload_res : PayloadStatus;
  get_payload_res : ExecutionPayload
}.

#[export] Instance MockEngine_engine : Engine MockEngine := {
  forkchoice_updated := fun _ payload_attributes m =>
    (Ok (if payload_attributes then forkchoice_updated_payloads_res m else forkchoice_updated_res m), m);
  new_payload := fun _ m => (Ok (new_payload_res m), m);
  get_payload := fun _ m => (Ok (get_payload_res m), m)
}.

(** ** Lemmas *)

(** A block whose optional fields are present and whose numbers fit. *)
Record payload_block (b : Block) : Prop := {
  payload_block_fields : is_Some (blk_logs_bloom b) /\ is_Some (blk_mix_hash b) /\ is_Some (blk_number b) /\
    is_Some (blk_hash b);
  payload_block_gas : in_u64 (blk_gas_limit b) /\ in_u64 (blk_gas_used b) /\ in_u64 (blk_timestamp b);
  payload_block_fee : in_u64 (default 0 (blk_base_fee_per_gas b)) /\
    in_u64 (default 0 (blk_blob_gas_used b)) /\ in_u64 (default 0 (blk_excess_blob_gas b))
}.

Lemma option_as_u64_small v : in_u64 (default 0 v) -> option_as_u64 v = Ok v.
Proof. destruct v as [z|]; [|done]. cbn. intros Hz. by rewrite as_u64_small. Qed.

(** The payload of a block heads the chain at that block. *)
Lemma ExecutionPayload_try_from_Ok b :
  payload_block b -> exists p, ExecutionPayload_try_from b = Ok p /\
    BlockInfo_try_from b = Ok (BlockInfo_from_payload p) /\ pl_transactions p = tx_rlp <$> blk_transactions b.
Proof.
  intros [([lb Hlb] & [mh Hmh] & [n Hn] & [h Hh]) (Hg & Hu & Ht) (Hf & Hb & He)].
  unfold ExecutionPayload_try_from, BlockInfo_try_from. rewrite Hlb, Hmh, Hn, Hh. cbn [unwrap ok_or].
  rewrite !bind_ret, !as_u64_small, !bind_ret, !option_as_u64_small by done. rewrite !bind_ret.
  by eexists.
Qed.
