(* ===== verification/Attributes.v ===== *)
(** The payload attributes stage (the upper half of
    src/src/derive/stages/attributes.rs): block inputs become the attributes of L2
    blocks, with the L1 attributes transaction, the user deposits of the first block
    of an epoch and the Ecotone upgrade in front of the sequencer's transactions.

    The stage shares the derivation state, which every operation gets as an
    argument. *)
From S2P Require Import Prelude Purgeable Codecs Common Config Deposits L1Info HeadInfo State SingleBatch Engine.
From S2P Require Import Ecotone.

(** ** Data *)

(** [Attributes]; the boxed iterator is the parameter [I]. *)
Record Attributes (I : Type) := {
  block_input_iter : I;
  at_sequence_number : Z;
  epoch_hash : bytes;
  at_config : Config
}.

Arguments Build_Attributes {I}.
Arguments block_input_iter {I}.
Arguments at_sequence_number {I}.
Arguments epoch_hash {I}.
Arguments at_config {I}.

(** [alloy_primitives::U256::to_be_bytes] at the array length 8, which
    [U64::from(gas_limit.to_be_bytes())] asks for.  The method is library code (ruint), so
    the definitions and theorems hold for any behaviour of it. *)
Class ToBeBytes8 := {
  to_be_bytes_8 : Z -> outcome bytes
}.

(** What ruint documents: [to_be_bytes] panics for a length other than that of the number. *)
Class ToBeBytes8Documented `{ToBeBytes8} : Prop := {
  to_be_bytes_8_panics : forall z, to_be_bytes_8 z = Panic
}.

(** ** Operations *)

(** [AttributesDeposited::from_block_info]. *)
Definition from_block_info (l1_info : L1Info) (seq batch_timestamp : Z) (config : Config) : AttributesDeposited :=
  let is_regolith := regolith_time (chain config) <=? batch_timestamp in
  let is_system_tx := negb is_regolith in
  let gas := if is_regolith then 1000000 else 150000000 in
  {| ad_number := l1b_number (block_info l1_info);
     ad_timestamp := l1b_timestamp (block_info l1_info);
     ad_base_fee := l1b_base_fee (block_info l1_info);
     ad_hash := l1b_hash (block_info l1_info);
     ad_sequence_number := seq;
     ad_batcher_hash := batcher_hash (l1i_system_config l1_info);
     ad_fee_overhead := l1_fee_overhead (l1i_system_config l1_info);
     ad_fee_scalar := l1_fee_scalar (l1i_system_config l1_info);
     ad_gas := gas;
     ad_is_system_tx := is_system_tx |}.

Section Attributes.
Context {I : Type} `{it : PurgeableIterator State I (BlockInput Z)} `{Keccak, Codec, TransactionRlp, ToBeBytes8}.
Implicit Types s : Attributes I.

Definition Attributes_new (block_input_iter : I) (state : State) (config : Config) (seq : Z) : Attributes I :=
  {| block_input_iter := block_input_iter;
     at_sequence_number := seq;
     epoch_hash := ep_hash (safe_epoch state);
     at_config := config |}.

Definition set_block_input_iter (i : I) s : Attributes I :=
  {| block_input_iter := i; at_sequence_number := at_sequence_number s; epoch_hash := epoch_hash s;
     at_config := at_config s |}.

Definition update_sequence_number (batch_epoch_hash : bytes) s : Attributes I :=
  {| block_input_iter := block_input_iter s;
     at_sequence_number :=
       if negb (bool_decide (epoch_hash s = batch_epoch_hash)) then 0
       else u64_add (at_sequence_number s) 1;
     epoch_hash := batch_epoch_hash;
     at_config := at_config s |}.

Definition derive_attributes_deposited s (l1_info : L1Info) (batch_timestamp : Z) : RawTransaction :=
  let seq := at_sequence_number s in
  let attributes_deposited := from_block_info l1_info seq batch_timestamp (at_config s) in
  let attributes_tx := DepositedTransaction_from_attributes attributes_deposited in
  rlp_bytes attributes_tx.

Definition derive_user_deposited (state : State) s : list RawTransaction :=
  default []
    ((fun info => (fun deposit => rlp_bytes (DepositedTransaction_from_user deposit)) <$> user_deposits info)
       <$> l1_info_by_hash state (epoch_hash s)).

Definition derive_transactions (state : State) s (input : BlockInput Epoch) (l1_info : L1Info)
    : list RawTransaction :=
  let transactions := [derive_attributes_deposited s l1_info (bin_timestamp input)] in
  let transactions :=
    if at_sequence_number s =? 0 then transactions ++ derive_user_deposited state s else transactions in
  let transactions :=
    if is_ecotone_activation_block (chain (at_config s)) (bin_timestamp input)
    then transactions ++ get_ecotone_upgrade_transactions else transactions in
  transactions ++ bin_transactions input.

Definition derive_attributes (state : State) (input : BlockInput Epoch) : M (Attributes I) PayloadAttributes :=
  modify (update_sequence_number (ep_hash (bin_epoch input))) ;;
  s ← gets id;
  l1_info ← lift (unwrap (l1_info_by_hash state (ep_hash (bin_epoch input))));
  let withdrawals := if canyon_time (chain (at_config s)) <=? bin_timestamp input then Some [] else None in
  let transactions := derive_transactions state s input l1_info in
  gas_limit ← lift (from_be <$> to_be_bytes_8 (gas_limit (l1i_system_config l1_info)));
  mret
    {| pa_timestamp := bin_timestamp input;
       pa_prev_randao := l1b_mix_hash (block_info l1_info);
       pa_suggested_fee_recipient := fee_vault SystemAccounts_default;
       pa_transactions := Some transactions;
       pa_no_tx_pool := true;
       pa_gas_limit := gas_limit;
       pa_withdrawals := withdrawals;
       pa_epoch := Some (bin_epoch input);
       pa_l1_inclusion_block := Some (bin_l1_inclusion_block input);
       pa_seq_number := Some (at_sequence_number s) |}.

(** [Iterator::next]; the [unwrap] panics on an unknown epoch. *)
Definition Attributes_next (state : State) : M (Attributes I) (option PayloadAttributes) :=
  input ← zoom block_input_iter set_block_input_iter (next state);
  match input with
  | Some input =>
      batch ← lift (unwrap (ok (with_full_epoch state input)));
      attributes ← derive_attributes state batch;
      mret (Some attributes)
  | None => mret None
  end.

Definition Attributes_purge (state : State) s : Attributes I :=
  {| block_input_iter := purge state (block_input_iter s);
     at_sequence_number := 0;
     epoch_hash := ep_hash (safe_epoch state);
     at_config := at_config s |}.

#[export] Instance Attributes_iter : PurgeableIterator State (Attributes I) PayloadAttributes := {
  next := Attributes_next;
  purge := Attributes_purge
}.
End Attributes.

(** ** Lemmas *)

Section lemmas.
Context {I : Type} `{it : PurgeableIterator State I (BlockInput Z)} `{Keccak, Codec, TransactionRlp, ToBeBytes8}.
Implicit Types s : Attributes I.

(** The transactions of a block at position [seq] of its epoch. *)
Definition block_transactions (config : Config) (info : L1Info) (seq : Z) (input : BlockInput Epoch)
    : list RawTransaction :=
  [rlp_bytes (DepositedTransaction_from_attributes (from_block_info info seq (bin_timestamp input) config))] ++
  (if decide (seq = 0) then (fun d => rlp_bytes (DepositedTransaction_from_user d)) <$> user_deposits info else []) ++
  (if decide (bin_timestamp input = ecotone_time (chain config)) then get_ecotone_upgrade_transactions else []) ++
  bin_transactions input.

Lemma derive_transactions_block state s input info :
  l1_info_by_hash state (ep_hash (bin_epoch input)) = Some info -> epoch_hash s = ep_hash (bin_epoch input) ->
  derive_transactions state s input info = block_transactions (at_config s) info (at_sequence_number s) input.
Proof.
  intros Hi He. unfold derive_transactions, block_transactions, derive_attributes_deposited, derive_user_deposited,
    is_ecotone_activation_block. rewrite He, Hi. cbn [fmap option_fmap option_map default].
  destruct (Z.eqb_spec (at_sequence_number s) 0), (Z.eqb_spec (bin_timestamp input) (ecotone_time (chain (at_config s))));
    repeat case_decide; try done; cbn [app]; by rewrite <- ?app_assoc.
Qed.

(** The attributes of a block at position [seq] of its epoch. *)
Definition block_attributes (config : Config) (info : L1Info) (gas_limit seq : Z) (input : BlockInput Epoch)
    : PayloadAttributes :=
  {| pa_timestamp := bin_timestamp input;
     pa_prev_randao := l1b_mix_hash (block_info info);
     pa_suggested_fee_recipient := fee_vault SystemAccounts_default;
     pa_transactions := Some (block_transactions config info seq input);
     pa_no_tx_pool := true;
     pa_gas_limit := gas_limit;
     pa_withdrawals := if decide (canyon_time (chain config) <= bin_timestamp input) then Some [] else None;
     pa_epoch := Some (bin_epoch input);
     pa_l1_inclusion_block := Some (bin_l1_inclusion_block input);
     pa_seq_number := Some seq |}.

(** The gas limit of an L1 block's configuration, as the code converts it. *)
Definition converted_gas (info : L1Info) : outcome Z := from_be <$> to_be_bytes_8 (gas_limit (l1i_system_config info)).

Lemma converted_gas_documented `{!ToBeBytes8Documented} info : converted_gas info = Panic.
Proof. unfold converted_gas. by rewrite to_be_bytes_8_panics. Qed.

Lemma derive_attributes_eq state input s :
  derive_attributes state input s =
    let s' := update_sequence_number (ep_hash (bin_epoch input)) s in
    match l1_info_by_hash state (ep_hash (bin_epoch input)) with
    | Some info =>
        ((fun gas => block_attributes (at_config s) info gas (at_sequence_number s') input) <$> converted_gas info, s')
    | None => (Panic, s')
    end.
Proof.
  unfold derive_attributes. run_M. cbn zeta.
  set (s' := update_sequence_number (ep_hash (bin_epoch input)) s).
  destruct (l1_info_by_hash state (ep_hash (bin_epoch input))) as [info|] eqn:E; [|done]. cbn [unwrap].
  unfold converted_gas. destruct (to_be_bytes_8 (gas_limit (l1i_system_config info))); cbn [fmap outcome_fmap]; [|done..].
  unfold id. rewrite (derive_transactions_block state s' input info) by done. unfold block_attributes.
  cbn [at_config s' update_sequence_number].
  by destruct (Z.leb_spec (canyon_time (chain (at_config s))) (bin_timestamp input)); case_decide; try lia.
Qed.

(** With the documented conversion no attributes are derived, from any input in any state. *)
Lemma derive_attributes_documented `{!ToBeBytes8Documented} state input s :
  (derive_attributes state input s).1 = Panic.
Proof.
  rewrite derive_attributes_eq. cbn zeta. destruct (l1_info_by_hash state _) as [info|]; [|done].
  by rewrite converted_gas_documented.
Qed.

(** A block is derived from the updated position alone. *)
Definition with_position (seq : Z) (h : bytes) s : Attributes I :=
  {| block_input_iter := block_input_iter s; at_sequence_number := seq; epoch_hash := h; at_config := at_config s |}.

Lemma mapM_derive_from state input inputs s0 s :
  update_sequence_number (ep_hash (bin_epoch input)) s = update_sequence_number (ep_hash (bin_epoch input)) s0 ->
  at_config s = at_config s0 ->
  mapM (derive_attributes state) (input :: inputs) s = mapM (derive_attributes state) (input :: inputs) s0.
Proof.
  intros Hu Hc. change (mapM (derive_attributes state) (input :: inputs)) with
    (a ← derive_attributes state input; l ← mapM (derive_attributes state) inputs;
     mret (M := M (Attributes I)) (a :: l)).
  run_M. by rewrite !derive_attributes_eq, Hu, Hc.
Qed.

Lemma derive_epoch_from n state s inputs h info gas :
  l1_info_by_hash state h = Some info -> converted_gas info = Ok gas ->
  Forall (fun i => ep_hash (bin_epoch i) = h) inputs -> epoch_hash s = h ->
  0 <= n -> at_sequence_number s = u64 (n - 1) -> n + len inputs <= 2 ^ 64 ->
  mapM (derive_attributes state) inputs s =
    (Ok (imap (fun i input => block_attributes (at_config s) info gas (n + Z.of_nat i) input) inputs),
     {| block_input_iter := block_input_iter s; at_sequence_number := u64 (n + len inputs - 1); epoch_hash := h;
        at_config := at_config s |}).
Proof.
  intros Hi Hb Hall He Hn Hseq Hmax. change (2 ^ 64) with 18446744073709551616 in Hmax.
  revert n s Hall He Hn Hseq Hmax. induction inputs as [|input inputs IH]; intros n s Hall He Hn Hseq Hmax.
  - cbn. rewrite len_nil, Z.add_0_r, <- Hseq, <- He. by destruct s.
  - inversion Hall as [|? ? Hh Hall']; subst. rewrite len_cons in Hmax. pose proof (len_nonneg inputs).
    change (mapM (derive_attributes state) (input :: inputs)) with
      (a ← derive_attributes state input; l ← mapM (derive_attributes state) inputs;
       mret (M := M (Attributes I)) (a :: l)).
    run_M. rewrite derive_attributes_eq. cbn zeta. rewrite Hh, Hi, Hb. cbn [fmap outcome_fmap].
    assert (Hs : at_sequence_number (update_sequence_number (epoch_hash s) s) = n).
    { cbn. rewrite bool_decide_eq_true_2 by done. cbn [negb]. rewrite Hseq, u64_add_u64.
      replace (n - 1 + 1) with n by lia. apply u64_small. unfold in_u64. lia. }
    rewrite (IH (n + 1)); [|done|done|lia| |lia].
    + cbn [imap update_sequence_number block_input_iter at_config]. rewrite Hs, len_cons.
      f_equal; [|f_equal; f_equal; lia]. f_equal. rewrite Z.add_0_r. f_equal.
      apply imap_ext. intros i x _. cbn. f_equal. lia.
    + rewrite Hs. replace (n + 1 - 1) with n by lia. symmetry. apply u64_small. unfold in_u64. lia.
Qed.

(** The position of the next block of an epoch. *)
Lemma update_first h s :
  in_u64 (at_sequence_number s) ->
  let first := if decide (epoch_hash s = h) then at_sequence_number s + 1 else 0 in
  first < 18446744073709551616 -> update_sequence_number h s = with_position first h s.
Proof.
  intros Hs first Hf. unfold update_sequence_number, with_position, first in *. f_equal.
  case_decide; case_bool_decide; try done. cbn [negb]. unfold u64_add. apply u64_small. unfold in_u64 in *. lia.
Qed.

(** What the driver needs of attributes. *)
Record attributes_complete (a : PayloadAttributes) : Prop := {
  complete_transactions : exists tx txs, pa_transactions a = Some (tx :: txs);
  complete_epoch : is_Some (pa_epoch a);
  complete_l1_inclusion_block : is_Some (pa_l1_inclusion_block a);
  complete_seq_number : is_Some (pa_seq_number a)
}.

(** The contract of the stage. *)
Definition attributes_inv (Inv : I -> Prop) (config : Config) s : Prop :=
  Inv (block_input_iter s) /\ at_config s = config.

#[export] Instance Attributes_contract (Inv : I -> Prop) Post config `{!IteratorContract it Inv Post} :
    IteratorContract Attributes_iter (attributes_inv Inv config) attributes_complete.
Proof.
  assert (Hnext : forall state s r s', attributes_inv Inv config s -> Attributes_next state s = (r, s') ->
    attributes_inv Inv config s' /\ match r with Ok (Some a) => attributes_complete a | _ => True end).
  { intros state s r s' [Hi Hc] E. unfold Attributes_next in E. run_M in E.
    destruct (next state (block_input_iter s)) as [o i] eqn:En. pose proof (next_inv _ _ _ _ Hi En) as Hinv.
    destruct o as [[input|]| | |]; cbn beta iota in E; try (by injection E as <- <-).
    destruct (unwrap (ok (with_full_epoch state input))) as [batch| | |]; try (by injection E as <- <-).
    rewrite derive_attributes_eq in E. cbn zeta in E.
    destruct (l1_info_by_hash state _) as [info|]; [|by injection E as <- <-].
    destruct (converted_gas info) as [g| | |]; cbn in E; injection E as <- <-; [|done..].
    split; [done|]. split; cbn; eauto. }
  split.
  - intros state s r s' Hs E. by apply (Hnext state s r s').
  - intros state s a s' Hs E. by apply (Hnext state s _ s') in E as [_ ?].
  - intros state s [Hi Hc]. split; [by apply purge_inv|done].
Qed.
End lemmas.

(** The calls that an L1 block and a position stand for. *)
Definition info_call (info : L1Info) (seq : Z) : AttributesDepositedCall :=
  attributes_call (from_block_info info seq 0 (example_config base)).

(** The L2 block with the transactions of [block_transactions]: its first one has
    the calldata of the attributes transaction. *)
Definition carries `{Keccak, Codec} (block : Block) (info : L1Info) (seq : Z) (config : Config) : Prop :=
  exists tx txs, blk_transactions block = tx :: txs /\
    tx_input tx = dt_data (DepositedTransaction_from_attributes
      (from_block_info info seq (blk_timestamp block) config)).

(** ** Properties *)

Section properties.
Context {I : Type} `{it : PurgeableIterator State I (BlockInput Z)} `{Keccak, Codec, TransactionRlp, ToBeBytes8}.
Implicit Types s : Attributes I.

(** C10. The blocks of an epoch.  Let the stage derive a run of block inputs with one epoch.
    Everything hangs on the conversion of the gas limit of the L1 block.  When it gives a
    number, one block is derived for each input: the positions count up from 0 where a new
    epoch begins and go on from the last position otherwise; the first transaction is
    always the L1 attributes one for that position, the user deposits of the L1 block follow
    in the block at position 0 and in no other, then the upgrade transactions if the block
    activates Ecotone, then the sequencer's transactions; withdrawals are present from
    Canyon on.  When it fails, or panics, as ruint documents for eight bytes of a number of
    256 bits, so does the first derivation, after the position was moved. *)
Theorem derive_epoch state s inputs h info :
  l1_info_by_hash state h = Some info ->
  Forall (fun i => ep_hash (bin_epoch i) = h) inputs -> inputs <> [] ->
  let first := if decide (epoch_hash s = h) then at_sequence_number s + 1 else 0 in
  in_u64 (at_sequence_number s) -> first + len inputs <= 2 ^ 64 ->
  mapM (derive_attributes state) inputs s =
    match converted_gas info with
    | Ok gas =>
        (Ok (imap (fun i input => block_attributes (at_config s) info gas (first + Z.of_nat i) input) inputs),
         with_position (first + len inputs - 1) h s)
    | Err e => (Err e, with_position first h s)
    | Panic => (Panic, with_position first h s)
    | Diverge => (Diverge, with_position first h s)
    end.
Proof.
  intros Hi Hall Hne first Hseq Hmax. change (2 ^ 64) with 18446744073709551616 in Hmax.
  destruct (converted_gas info) as [gas|e| |] eqn:Hg.
  2-4: destruct inputs as [|i inputs]; [done|]; apply Forall_cons in Hall as [Hh _];
    rewrite len_cons in Hmax; pose proof (len_nonneg inputs);
    change (mapM (derive_attributes state) (i :: inputs)) with
      (a ← derive_attributes state i; l ← mapM (derive_attributes state) inputs; mret (M := M (Attributes I)) (a :: l));
    run_M; rewrite derive_attributes_eq; cbn zeta; rewrite Hh, Hi, Hg; cbn [fmap outcome_fmap];
    by rewrite (update_first h s) by (done || unfold first in *; lia).
  assert (Hlast : u64 (first + len inputs - 1) = first + len inputs - 1).
  { destruct inputs; [done|]. rewrite len_cons in *. pose proof (len_nonneg inputs).
    apply u64_small. unfold first, in_u64 in *. case_decide; lia. }
  unfold with_position. rewrite <- Hlast. unfold first in *. case_decide as He.
  - apply derive_epoch_from; try done; [unfold in_u64 in *; lia|]. rewrite Z.add_simpl_r. symmetry. by apply u64_small.
  - destruct inputs as [|i inputs]; [done|]. pose proof (Forall_cons_1 _ _ _ Hall) as [Hh _].
    rewrite (mapM_derive_from _ _ _ (with_position (u64 (0 - 1)) h s)).
    + by apply (derive_epoch_from 0 state (with_position (u64 (0 - 1)) h s) (i :: inputs) h info gas).
    + rewrite Hh. unfold update_sequence_number. cbn. by rewrite bool_decide_eq_false_2, bool_decide_eq_true_2.
    + done.
Qed.

(** C38. The head of a derived block.  Reading the head back from an L2 block built from
    the attributes of the stage gives the block, its L1 epoch and its position in
    the epoch, as long as the chain has not passed Ecotone.  From the block after
    the Ecotone activation on it always fails, since the stage still encodes the
    Bedrock calldata while the reader expects the Ecotone one; the node then starts
    from genesis again. *)
Theorem head_info_of_derived_block config block bi info seq :
  SET_L1_BLOCK_VALUES_BEDROCK_SELECTOR = [0x01; 0x5d; 0x8e; 0xb9] ->
  bedrock_ok (info_call info seq) -> in_u64 (bi_timestamp bi) -> block_is block bi ->
  carries block info seq config ->
  if is_ecotone_but_not_first_block (chain config) (bi_timestamp bi)
  then (exists e, try_from_l2_block config block = Err e) /\
    get_head_info (Ok (Some block)) config =
      Ok {| l2_block_info := l2_genesis (chain config); l1_epoch := l1_start_epoch (chain config);
            sequence_number := 0 |}
  else try_from_l2_block config block =
    Ok {| l2_block_info := bi; l1_epoch := epoch_of_info info; sequence_number := seq |}.
Proof.
  intros Hsel Hok Ht Hb (tx & txs & Htxs & Hinput). pose proof Hb as (_ & _ & _ & Hts).
  rewrite Hts in Hinput. pose proof Hok as [[_ _ _ _ [Hh _] [Hbh _]] _ _ _]. cbn in Hh, Hbh.
  assert (Htry : try_from_l2_block config block =
    if is_ecotone_but_not_first_block (chain config) (bi_timestamp bi)
    then try_from_ecotone_block block else try_from_bedrock_block block).
  { unfold try_from_l2_block. by rewrite Hts, as_u64_small, bind_ret. }
  destruct (is_ecotone_but_not_first_block (chain config) (bi_timestamp bi)).
  - assert (Herr : try_from_l2_block config block = Err "invalid calldata length").
    { rewrite Htry. unfold try_from_ecotone_block. rewrite Htxs, Hinput. unfold try_from_ecotone.
      by rewrite len_attributes_data. }
    split; [by eexists|]. unfold get_head_info. by rewrite Herr.
  - rewrite Htry. unfold try_from_bedrock_block. rewrite Htxs, Hinput.
    rewrite try_from_bedrock_attributes by done. rewrite bind_ret, (BlockInfo_try_from_block block bi) by done.
    by rewrite bind_ret.
Qed.
End properties.

(** ** Witnesses *)

Definition example_rlp : TransactionRlp := {| transaction_rlp := up_input |}.

(** The conversion that the code means, to the low 8 bytes, and the documented one. *)
Definition example_to_be_bytes_8 : ToBeBytes8 := {| to_be_bytes_8 := fun z => Ok (to_be 8 z) |}.

Definition ruint_to_be_bytes_8 : ToBeBytes8 := {| to_be_bytes_8 := fun _ => Panic |}.

Lemma ruint_documented : @ToBeBytes8Documented ruint_to_be_bytes_8.
Proof. done. Qed.

Definition example_no_inputs : PurgeableIterator State unit (BlockInput Z) :=
  {| next := fun _ s => (Ok None, s); purge := fun _ s => s |}.

(** An L1 block with one deposit, cached. *)
Definition example_deposit_info : L1Info :=
  {| block_info := block_info (example_l1_info 17481769); l1i_system_config := system_config base;
     user_deposits := [example_deposit]; batcher_transactions := []; finalized := false |}.

Definition example_deposit_state : State :=
  set_l1 {[ to_be 32 17481769 := example_deposit_info ]} {[ 17481769 := to_be 32 17481769 ]} (example_state 10).

Definition example_block_input (ts : Z) : BlockInput Epoch :=
  {| bin_timestamp := ts; bin_epoch := example_epoch 17481769; bin_transactions := [[2; 3]];
     bin_l1_inclusion_block := 17481800 |}.

Definition example_stage : Attributes unit :=
  {| block_input_iter := tt; at_sequence_number := 5; epoch_hash := to_be 32 17481768;
     at_config := example_config base |}.

(** Two blocks with the conversion that the code means, none with the documented one. *)
Lemma derive_epoch_witness :
  let derive b := mapM (@derive_attributes unit example_keccak example_codec example_rlp b example_deposit_state)
    [example_block_input 1686789371; example_block_input 1686789373] example_stage in
  (exists l, (derive example_to_be_bytes_8).1 = Ok l /\ (pa_seq_number <$> l) = [Some 0; Some 1] /\
    (length ∘ default [] ∘ pa_transactions <$> l) = [3; 2]%nat) /\
  (derive ruint_to_be_bytes_8).1 = Panic.
Proof.
  assert (Hall : Forall (fun i => ep_hash (bin_epoch i) = to_be 32 17481769)
    [example_block_input 1686789371; example_block_input 1686789373]) by (constructor; [|constructor; [|constructor]]; reflexivity).
  pose (spec b := @derive_epoch unit example_keccak example_codec example_rlp b example_deposit_state example_stage
    [example_block_input 1686789371; example_block_input 1686789373] (to_be 32 17481769) example_deposit_info). intros derive. unfold derive. split.
  - rewrite spec; [|by vm_compute|exact Hall|done|by_compute|by vm_compute].
    eexists. split; [reflexivity|]. split; by vm_compute.
  - rewrite spec; [reflexivity|by vm_compute|exact Hall|done|by_compute|by vm_compute].
Defined.

(** The L2 block of the second set of attributes. *)
Definition example_l2_block : Block :=
  {| blk_number := Some 13; blk_hash := Some (to_be 32 1013); blk_parent_hash := to_be 32 1012;
     blk_timestamp := 1686789373;
     blk_transactions :=
       [{| tx_input := dt_data (@DepositedTransaction_from_attributes example_keccak example_codec
             (from_block_info example_deposit_info 1 1686789373 (example_config base)));
           tx_from := attributes_depositor SystemAccounts_default;
           tx_to := Some (attributes_predeploy SystemAccounts_default); tx_type := Some 0x7E;
           tx_hash := to_be 32 77; tx_rlp := []; tx_blob_hashes := [] |}];
     blk_mix_hash := Some (to_be 32 5); blk_author := Some (fee_vault SystemAccounts_default);
     blk_gas_limit := 30000000; blk_gas_used := 0; blk_base_fee_per_gas := Some 50;
     blk_parent_beacon_block_root := None; blk_state_root := to_be 32 1; blk_receipts_root := to_be 32 2;
     blk_logs_bloom := Some []; blk_extra_data := []; blk_blob_gas_used := None; blk_excess_blob_gas := None |}.

Definition example_l2_info : BlockInfo :=
  {| bi_hash := to_be 32 1013; bi_number := 13; bi_parent_hash := to_be 32 1012; bi_timestamp := 1686789373 |}.

Lemma head_info_of_derived_block_witness :
  @try_from_l2_block example_keccak (example_config base) example_l2_block =
    Ok {| l2_block_info := example_l2_info; l1_epoch := example_epoch 17481769; sequence_number := 1 |}.
Proof.
  assert (Hsel : @SET_L1_BLOCK_VALUES_BEDROCK_SELECTOR example_keccak = [0x01; 0x5d; 0x8e; 0xb9]) by by vm_compute.
  assert (Hok : bedrock_ok (info_call example_deposit_info 1)).
  { split; [split; by_compute|by_compute|by_compute|by vm_compute]. }
  apply (@head_info_of_derived_block example_keccak example_codec (example_config base) example_l2_block
    example_l2_info example_deposit_info 1 Hsel Hok); [by_compute|by vm_compute|].
  eexists _, _. split; reflexivity.
Defined.
