(* ===== verification/Pipeline.v ===== *)
(** The derivation pipeline (src/src/derive/mod.rs): the four stages composed, the
    sender of batcher transactions, and the pending attributes.

    The sender of the [mpsc] channel and the receiver inside the first stage share
    one queue: [push_batcher_transactions] writes it where the stage reads it. *)
From stdpp Require Import sorting.
From S2P Require Import Prelude Purgeable Codecs Common Concrete Config Deposits L1Info HeadInfo State BatcherTransactions.
From S2P Require Import Channels SingleBatch SpanBatch Batches Engine Ecotone Attributes.

(** ** Data *)

(** The composition of the stages. *)
Abbreviation Stages := (Attributes (Batches (Channels BatcherTransactions))) (only parsing).

Record Pipeline := {
  attributes : Stages;
  pending_attributes : option PayloadAttributes
}.

(** ** Operations *)

Section Pipeline.
Context `{Keccak, Codec, RlpDecoder, Varint, Zlib, TransactionRlp, ToBeBytes8}.

Definition Pipeline_new (state : State) (config : Config) (seq : Z) : Pipeline :=
  let batcher_transactions := BatcherTransactions_new [] in
  let channels := Channels_new batcher_transactions config in
  let batches := Batches_new channels config in
  let attributes := Attributes_new batches state config seq in
  {| attributes := attributes; pending_attributes := None |}.

Definition set_attributes (a : Stages) (p : Pipeline) : Pipeline :=
  {| attributes := a; pending_attributes := pending_attributes p |}.

Definition set_pending_attributes (o : option PayloadAttributes) (p : Pipeline) : Pipeline :=
  {| attributes := attributes p; pending_attributes := o |}.

(** [Iterator::next]. *)
Definition Pipeline_next (state : State) : M Pipeline (option PayloadAttributes) := fun p =>
  match pending_attributes p with
  | Some a => (Ok (Some a), set_pending_attributes None p)
  | None => zoom attributes set_attributes (next state) p
  end.

(** [Sender::send] on the queue of the first stage; it does not fail, as the
    receiver lives as long as the pipeline. *)
Definition send (msg : BatcherTransactionMessage) (a : Stages) : Stages :=
  let b := block_input_iter a in
  let c := channel_iter b in
  let t := batcher_tx_iter c in
  let t := {| txs := txs t; transaction_rx := transaction_rx t ++ [msg] |} in
  set_block_input_iter (set_channel_iter (set_iter t c) b) a.

Definition push_batcher_transactions (txs : list bytes) (l1_origin : Z) (p : Pipeline) : Pipeline :=
  set_attributes (send {| msg_txs := txs; msg_l1_origin := l1_origin |} (attributes p)) p.

Definition peek (state : State) : M Pipeline (option PayloadAttributes) := fun p =>
  match pending_attributes p with
  | None =>
      (next_attributes ← Pipeline_next state;
       modify (set_pending_attributes next_attributes) ;;
       gets pending_attributes) p
  | Some a => (Ok (Some a), p)
  end.

Definition Pipeline_purge (state : State) (p : Pipeline) : Pipeline :=
  set_attributes (purge state (attributes p)) p.
End Pipeline.

(** ** The invariant

    The contracts of the stages, composed. *)

Definition queue_of (config : Config) : BatcherTransactions -> Prop := queue_fits (max_channel_size (chain config)).

Definition bank_of (config : Config) : Channels BatcherTransactions -> Prop :=
  channels_inv (queue_of config) (max_channel_size (chain config)) (channel_timeout (chain config)).

Definition stages_inv (config : Config) : Stages -> Prop :=
  attributes_inv (batches_inv (bank_of config) config) config.

Record pipeline_inv (config : Config) (p : Pipeline) : Prop := {
  pipeline_stages : stages_inv config (attributes p);
  pipeline_pending : forall a, pending_attributes p = Some a -> attributes_complete a
}.

Definition limits_ok (config : Config) : Prop :=
  0 <= max_channel_size (chain config) /\ 0 <= channel_timeout (chain config).

Section invariant.
Context `{Keccak, Codec, RlpDecoder, Varint, Zlib, TransactionRlp, ToBeBytes8}.

(** The contract of the composition, by instance search. *)
#[export] Instance stages_contract config :
  IteratorContract (Attributes_iter (I := Batches (Channels BatcherTransactions))) (stages_inv config) attributes_complete.
Proof. unfold stages_inv, bank_of, queue_of. apply _. Qed.

Lemma Pipeline_new_inv state config seq : limits_ok config -> pipeline_inv config (Pipeline_new state config seq).
Proof.
  intros [Hm Ht]. split; [|done]. split; [|done]. split_and!; [|done|apply batches_keyed_empty].
  apply channels_inv_new; [|done..]. split; constructor.
Qed.

Lemma Pipeline_next_inv state config p r p' :
  pipeline_inv config p -> Pipeline_next state p = (r, p') ->
  pipeline_inv config p' /\ pending_attributes p' = None /\
  match r with Ok (Some a) => attributes_complete a | _ => True end.
Proof.
  intros [Hs Hp] E. unfold Pipeline_next in E. destruct (pending_attributes p) as [a|] eqn:Ep.
  - injection E as <- <-. split_and!; [by split|done|eauto].
  - unfold zoom in E. destruct (next state (attributes p)) as [o a] eqn:En. injection E as <- <-.
    split_and!; [|done|destruct o as [[x|]| | |]; try done; by eapply next_post].
    split; cbn; [by eapply next_inv|by rewrite Ep].
Qed.

Lemma push_inv config l n p :
  msg_fits (max_channel_size (chain config)) {| msg_txs := l; msg_l1_origin := n |} ->
  pipeline_inv config p -> pipeline_inv config (push_batcher_transactions l n p).
Proof.
  intros Hfits [((((Hq1 & Hq2) & [Hm Ht Hp Hb Hf] & Hmax & Htime) & Hc & Hk) & Ha) Hpend].
  split; [|done]. split; [|done]. split_and!; [|done|done]. split_and!; [|by split|done|done].
  split; cbn; [done|]. apply Forall_app. split; [done|]. by constructor.
Qed.

Lemma Pipeline_purge_inv state config p : pipeline_inv config p -> pipeline_inv config (Pipeline_purge state p).
Proof. intros [Hs Hp]. split; [by apply purge_inv|done]. Qed.

(** A purge rebuilds the stages. *)
Lemma purge_stages state config a :
  stages_inv config a -> purge state a = attributes (Pipeline_new state config 0).
Proof.
  intros [((_ & _ & Hm & Ht) & Hc & _) Ha]. destruct a as [b seq h c]. destruct b as [m l ch c']. destruct ch as [t p f mx tm].
  cbn in *. subst. done.
Qed.
End invariant.

(** ** One step of the stages *)

Lemma single_frame_transaction v f n :
  frame_ok f -> l1_inclusion_block f = n ->
  BatcherTransaction_new (v :: encode_frame f) n = Ok {| version := v; frames := [f] |}.
Proof.
  intros Hf Hn. rewrite BatcherTransaction_new_cons.
  pose proof (Frame_from_data_encode f [] [] n Hf Hn) as H. rewrite app_nil_r in H. cbn [app] in H.
  change (len []) with 0 in H. pose proof (len_encode_frame f) as Hlen. pose proof (len_nonneg (frame_data f)).
  destruct (encode_frame f); [rewrite len_nil in Hlen; lia|]. by rewrite H.
Qed.

(** Batches whose timestamps grow, as a map. *)
Definition in_order (config : Config) (bs : list Batch) : Prop :=
  StronglySorted (fun b c => Batch_timestamp config b < Batch_timestamp config c) bs.

Lemma insert_batches_in_order config b bs :
  in_order config (b :: bs) ->
  let m := insert_batches config bs ∅ in
  insert_batches config (b :: bs) ∅ = <[Batch_timestamp config b := b]> m /\
  (forall k, is_Some (m !! k) -> Batch_timestamp config b < k).
Proof.
  intros [_ Hb]%StronglySorted_inv m. rewrite Forall_forall in Hb.
  assert (Hlt : forall k, is_Some (m !! k) -> Batch_timestamp config b < k).
  { intros k [c Hc]. unfold m in Hc. rewrite insert_batches_lookup, lookup_empty in Hc.
    destruct (last _) as [c'|] eqn:E; [|done]. apply last_Some_elem_of, list_elem_of_filter in E as [<- Hin]. by apply Hb. }
  split; [|done]. apply map_eq. intros k. rewrite insert_batches_lookup, filter_cons.
  destruct (decide (Batch_timestamp config b = k)) as [<-|Hk].
  - rewrite lookup_insert_eq, last_cons. destruct (last (filter _ bs)) as [c|] eqn:E; [|done].
    apply last_Some_elem_of, list_elem_of_filter in E as [Hc Hin]. specialize (Hb _ Hin). cbn in Hb. lia.
  - rewrite lookup_insert_ne by done. unfold m. by rewrite insert_batches_lookup.
Qed.

Lemma derive_batch_first state config b bs :
  in_order config (b :: bs) -> batch_status state config b = Ok BatchAccept ->
  derive_batch state config (insert_batches config (b :: bs) ∅) = Ok (Some b, insert_batches config bs ∅).
Proof.
  intros [-> Hm]%insert_batches_in_order Hs. set (m := insert_batches config bs ∅) in *.
  assert (Hn : m !! Batch_timestamp config b = None).
  { destruct (m !! _) eqn:E; [|done]. specialize (Hm _ (mk_is_Some _ _ E)). lia. }
  unfold derive_batch. cbn [loop]. rewrite derive_body_eq.
  assert (Hfirst : first_key_value (<[Batch_timestamp config b := b]> m) = Some (Batch_timestamp config b, b)).
  { apply first_key_value_Some. rewrite lookup_insert_eq. split; [done|].
    intros k [x [[-> _]|[_ Hx]]%lookup_insert_Some]; [done|]. specialize (Hm _ (mk_is_Some _ _ Hx)). lia. }
  rewrite Hfirst, Hs, !bind_ret. by rewrite delete_insert_id.
Qed.

Section batch.
Context {I : Type} `{it : PurgeableIterator State I Channel} `{RlpDecoder, Varint, Codec, Zlib}.

(** A stage that holds the batches of a channel, and inputs of the one before them. *)
Definition holding (config : Config) (bs : list Batch) (inputs : list (BlockInput Z)) (i : I) : Batches I :=
  set_inputs inputs (set_batches (insert_batches config bs ∅) (Batches_new i config)).

(** It takes the first batch when the checks accept it, and keeps the inputs after the first. *)
Lemma derive_input_first state config (i : I) b bs l first rest :
  in_order config (b :: bs) -> batch_status state config b = Ok BatchAccept -> as_inputs config b = Ok l ->
  filter_inputs state l = first :: rest ->
  derive_input state (holding config (b :: bs) [] i) = (Ok (Some first), holding config bs rest i).
Proof.
  intros Ho Hs Hl Hf. unfold derive_input. run_M. change (bs_config _) with config.
  change (batches (holding config (b :: bs) [] i)) with (insert_batches config (b :: bs) ∅).
  rewrite (derive_batch_first state config b bs Ho Hs). cbn beta iota. rewrite Hl. cbn beta iota. by rewrite Hf.
Qed.

Lemma next_batches state config (i i' : I) channel b bs l first rest :
  next state i = (Ok (Some channel), i') -> decode_batches channel (l2_chain_id (chain config)) = Ok (b :: bs) ->
  in_order config (b :: bs) -> batch_status state config b = Ok BatchAccept -> as_inputs config b = Ok l ->
  filter_inputs state l = first :: rest ->
  Batches_next state (Batches_new i config) = (Ok (Some first), holding config bs rest i').
Proof.
  intros Hi Hd Ho Hs Hl Hf. unfold Batches_next, try_next. cbn [pending_inputs Batches_new]. run_M.
  unfold read_channel. run_M. cbn [channel_iter Batches_new]. rewrite Hi. cbn beta iota.
  cbn [bs_config set_channel_iter Batches_new]. rewrite Hd. cbn beta iota.
  change (set_batches _ _) with (holding config (b :: bs) [] i'). by rewrite (derive_input_first state config i' b bs l first rest).
Qed.

Lemma next_held state config (i i' : I) b bs l first rest :
  next state i = (Ok None, i') ->
  in_order config (b :: bs) -> batch_status state config b = Ok BatchAccept -> as_inputs config b = Ok l ->
  filter_inputs state l = first :: rest ->
  Batches_next state (holding config (b :: bs) [] i) = (Ok (Some first), holding config bs rest i').
Proof.
  intros Hi Ho Hs Hl Hf. unfold Batches_next, try_next. cbn [pending_inputs holding set_inputs]. run_M.
  unfold read_channel. run_M. cbn [channel_iter holding set_inputs set_batches Batches_new]. rewrite Hi. cbn beta iota.
  change (set_channel_iter i' _) with (holding config (b :: bs) [] i').
  by rewrite (derive_input_first state config i' b bs l first rest).
Qed.

(** A stage without batches gets no channel and waits. *)
Lemma next_no_batch state config (i i' : I) :
  next state i = (Ok None, i') -> empty_input state config = None ->
  Batches_next state (Batches_new i config) = (Ok None, Batches_new i' config).
Proof.
  intros Hi He. unfold Batches_next, try_next. cbn [pending_inputs Batches_new]. run_M. unfold read_channel. run_M.
  cbn [channel_iter Batches_new]. rewrite Hi. cbn beta iota. unfold derive_input. run_M.
  cbn [bs_config set_channel_iter Batches_new batches].
  change (derive_batch state config ∅) with (Ok (None : option Batch, (∅ : gmap Z Batch))).
  cbn beta iota. by rewrite He.
Qed.

End batch.

(** ** Idle stages *)

Section idle.
Context `{Keccak, Codec, RlpDecoder, Varint, Zlib, TransactionRlp, ToBeBytes8}.

(** The pipeline after it has worked off what it had. *)
Record idle (config : Config) (p : Pipeline) : Prop := {
  idle_stages : block_input_iter (attributes p) = Batches_new (Channels_new (BatcherTransactions_new []) config) config;
  idle_config : at_config (attributes p) = config;
  idle_pending : pending_attributes p = None
}.

Lemma idle_new state config seq : idle config (Pipeline_new state config seq).
Proof. done. Qed.

(** The position of a block of epoch [e] after the last block. *)
Definition next_position (p : Pipeline) (e : Epoch) : Z :=
  if decide (epoch_hash (attributes p) = ep_hash e) then u64_add (at_sequence_number (attributes p)) 1 else 0.

(** What the state knows of the epoch with a number: the epoch and its L1 block. *)
Definition known_epoch (state : State) (number : Z) (e : Epoch) (info : L1Info) : Prop :=
  epoch_by_number state number = Some e /\ l1_info_by_hash state (ep_hash e) = Some info.

Definition with_epoch (e : Epoch) (input : BlockInput Z) : BlockInput Epoch :=
  {| bin_timestamp := bin_timestamp input; bin_epoch := e; bin_transactions := bin_transactions input;
     bin_l1_inclusion_block := bin_l1_inclusion_block input |}.

(** The pipeline makes the attributes of the next input of the batch queue, if the gas limit
    converts. *)
Lemma pipeline_next_input state p i' input e info :
  pending_attributes p = None -> Batches_next state (block_input_iter (attributes p)) = (Ok (Some input), i') ->
  known_epoch state (bin_epoch input) e info ->
  Pipeline_next state p =
    ((fun gas => Some (block_attributes (at_config (attributes p)) info gas (next_position p e) (with_epoch e input)))
       <$> converted_gas info,
     {| attributes := update_sequence_number (ep_hash e) (set_block_input_iter i' (attributes p));
        pending_attributes := None |}).
Proof.
  intros Hpend Hb (He & Hinfo). destruct p as [a pend]. cbn [attributes pending_attributes] in *. subst pend.
  unfold Pipeline_next. cbn [pending_attributes attributes]. unfold zoom.
  change (@next State Stages PayloadAttributes _) with (Attributes_next (I := Batches (Channels BatcherTransactions))).
  unfold Attributes_next. run_M. cbn [attributes].
  change (next state (block_input_iter a)) with (Batches_next state (block_input_iter a)).
  rewrite Hb. cbn beta iota. unfold with_full_epoch. rewrite He.
  cbn [ok_or ok unwrap]. rewrite bind_ret. cbn [ok unwrap]. rewrite derive_attributes_eq. cbn zeta.
  cbn [bin_epoch]. rewrite Hinfo. unfold next_position, with_epoch.
  destruct (converted_gas info); cbn; repeat case_decide; try case_bool_decide; done.
Qed.

(** The pipeline waits when the batch queue does. *)
Lemma pipeline_next_none state p i' :
  pending_attributes p = None -> Batches_next state (block_input_iter (attributes p)) = (Ok None, i') ->
  Pipeline_next state p = (Ok None, set_attributes (set_block_input_iter i' (attributes p)) p).
Proof.
  intros Hpend Hb. destruct p as [a pend]. cbn in Hpend, Hb. subst pend.
  unfold Pipeline_next. cbn [pending_attributes]. unfold zoom.
  change (@next State Stages PayloadAttributes _) with (Attributes_next (I := Batches (Channels BatcherTransactions))).
  unfold Attributes_next. run_M. cbn [attributes].
  change (next state (block_input_iter a)) with (Batches_next state (block_input_iter a)). by rewrite Hb.
Qed.

(** An idle pipeline with nothing to read waits, unless the sequencing window has passed. *)
Lemma idle_waits config state p :
  idle config p -> empty_input state config = None -> Pipeline_next state p = (Ok None, p).
Proof.
  intros [Hidle Hc Hpend] He. set (i := Batches_new (Channels_new (BatcherTransactions_new []) config) config) in *.
  rewrite (pipeline_next_none state p i); [|done|rewrite Hidle; by apply (next_no_batch (it := Channels_iter))].
  destruct p as [[i0 seq h c] pend]. cbn in *. by subst.
Qed.
End idle.

(** ** Properties *)

Section properties.
Context `{Keccak, Codec, RlpDecoder, Varint, Zlib, TransactionRlp, ToBeBytes8}.

(** What the driver does to the pipeline; [state] is what the lock holds then. *)
Inductive pipeline_step (config : Config) : Pipeline -> Pipeline -> Prop :=
| step_next state p r p' : Pipeline_next state p = (r, p') -> pipeline_step config p p'
| step_peek state p r p' : peek state p = (r, p') -> pipeline_step config p p'
| step_push l n p :
    msg_fits (max_channel_size (chain config)) {| msg_txs := l; msg_l1_origin := n |} ->
    pipeline_step config p (push_batcher_transactions l n p)
| step_purge state p : pipeline_step config p (Pipeline_purge state p).

Lemma peek_eq state p :
  peek state p =
    match pending_attributes p with
    | Some a => (Ok (Some a), p)
    | None => let '(r, p') := Pipeline_next state p in
        match r with
        | Ok o => (Ok o, set_pending_attributes o p')
        | r => (r, p')
        end
    end.
Proof.
  unfold peek. run_M. destruct (pending_attributes p); [done|].
  by destruct (Pipeline_next state p) as [[o| | |] p'].
Qed.

Lemma pipeline_step_inv config p p' : pipeline_inv config p -> pipeline_step config p p' -> pipeline_inv config p'.
Proof.
  intros Hp Hs. destruct Hs as [state p1 r p1' E|state p1 r p1' E|l n p1 Hfits|state p1].
  - by destruct (Pipeline_next_inv _ _ _ _ _ Hp E).
  - rewrite peek_eq in E. destruct (pending_attributes p1) as [a|]; [by injection E as <- <-|].
    destruct (Pipeline_next state p1) as [r1 p2] eqn:En.
    destruct (Pipeline_next_inv _ _ _ _ _ Hp En) as (Hp2 & Hnone & Hpost).
    destruct r1 as [o| | |]; injection E as <- <-; [|done..]. destruct Hp2 as [Hst _].
    split; [done|]. cbn. intros a ->. done.
  - by apply push_inv.
  - by apply Pipeline_purge_inv.
Qed.

(** C9. The pipeline in every reachable state.  Whatever calls were made since it was
    created, the attributes that [next] yields name their epoch, inclusion block and
    position and hold at least the L1 attributes transaction, which is what the
    driver unwraps; and [purge] rebuilds every stage as it was created, at position
    0 of the safe epoch, but leaves attributes that a [peek] set aside in place, so
    that the next call still yields them. *)
Theorem pipeline_reachable config state0 seq p :
  limits_ok config -> rtc (pipeline_step config) (Pipeline_new state0 config seq) p ->
  (forall state a p', Pipeline_next state p = (Ok (Some a), p') -> attributes_complete a) /\
  (forall state, attributes (Pipeline_purge state p) = attributes (Pipeline_new state config 0)) /\
  (forall state state' a, pending_attributes p = Some a ->
     (Pipeline_next state' (Pipeline_purge state p)).1 = Ok (Some a)).
Proof.
  intros Hl Hsteps. assert (Hp : pipeline_inv config p).
  { pose proof (Pipeline_new_inv state0 config seq Hl) as Hnew. induction Hsteps as [|x y z Hxy _ IH]; [done|].
    apply IH. by eapply pipeline_step_inv. }
  split_and!.
  - intros state a p' E. by destruct (Pipeline_next_inv _ _ _ _ _ Hp E) as (_ & _ & ?).
  - intros state. apply purge_stages with (config := config). apply Hp.
  - intros state state' a Ha. unfold Pipeline_next, Pipeline_purge. cbn. by rewrite Ha.
Qed.

(** Looking ahead.  After [peek], another [peek] and [next] give the same
    attributes whatever the state is by then; [next] hands them out once, and leaves
    the pipeline as a plain [next] would have left it. *)
Theorem peek_next state p o p' :
  peek state p = (Ok (Some o), p') ->
  (forall state', peek state' p' = (Ok (Some o), p')) /\
  (forall state', Pipeline_next state' p' = (Ok (Some o), set_pending_attributes None p')) /\
  Pipeline_next state p = (Ok (Some o), set_pending_attributes None p').
Proof.
  rewrite peek_eq. destruct (pending_attributes p) as [a|] eqn:Ea.
  - intros [= <- <-]. split_and!; [intros; by rewrite peek_eq, Ea|intros; unfold Pipeline_next; by rewrite Ea|].
    unfold Pipeline_next. by rewrite Ea.
  - destruct (Pipeline_next state p) as [[o'| | |] p1] eqn:En; [|done..]. intros [= -> <-].
    split_and!; [done..|]. unfold Pipeline_next in En. rewrite Ea in En. unfold zoom in En.
    destruct (next state (attributes p)) as [r a]. injection En as -> <-.
    unfold set_pending_attributes, set_attributes. cbn. by rewrite Ea.
Qed.
End properties.

(** ** Witnesses *)

#[local] Existing Instances example_keccak example_codec rlp_decoder example_varint example_zlib
  example_rlp example_to_be_bytes_8.

Definition example_batch_frame : Frame :=
  let data := encode_batches Rlp.encode_string rlp_batch
    [example_single base (bi_timestamp (example_tip base) + 2) 19400050] in
  {| channel_id := 9; frame_number := 0; frame_data_len := len data; frame_data := data; is_last := true;
     l1_inclusion_block := 19400050 |}.

Lemma example_limits : limits_ok (example_config base).
Proof. by split; vm_compute. Qed.

Lemma pipeline_reachable_witness :
  exists p, rtc (pipeline_step (example_config base))
      (Pipeline_new (example_origins base 0) (example_config base) 3) p /\
    attributes (Pipeline_purge (example_origins base 0) p) =
      attributes (Pipeline_new (example_origins base 0) (example_config base) 0).
Proof.
  eexists. assert (Hs : rtc (pipeline_step (example_config base))
    (Pipeline_new (example_origins base 0) (example_config base) 3)
    (push_batcher_transactions [[0]] 19400050 (Pipeline_new (example_origins base 0) (example_config base) 3))).
  { apply rtc_once, step_push. split; [by_compute|]. by_compute. }
  split; [exact Hs|].
  apply (pipeline_reachable _ _ _ _ example_limits Hs).
Defined.

Lemma peek_next_witness :
  exists a p', peek (example_origins base 19403601)
      (Pipeline_new (example_origins base 19403601) (example_config base) 3) = (Ok (Some a), p') /\
    (Pipeline_next (example_origins base 0) p').1 = Ok (Some a).
Proof.
  destruct (peek (example_origins base 19403601)
      (Pipeline_new (example_origins base 19403601) (example_config base) 3)) as [[[a|]| | |] p'] eqn:E;
    [|by vm_compute in E..].
  exists a, p'. split; [reflexivity|].
  apply peek_next in E as (_ & E & _).
  rewrite E. reflexivity.
Defined.
