(* ===== verification/Assembly.v ===== *)
(** A channel that comes in over many transactions.

    A batcher splits a channel into frames and posts each in a transaction of its own, in
    one L1 block or in several, in any order.  This file follows such frames through the
    first two stages of the pipeline: each call takes one frame, gives nothing as long as a frame
    is missing, and gives the channel with the last of them. *)
From S2P Require Import Prelude Purgeable Codecs Common Concrete Config Deposits L1Info HeadInfo State BatcherTransactions.
From S2P Require Import Channels SingleBatch SpanBatch Batches Engine Ecotone Attributes Pipeline.

(** ** The specification *)

(** The L1 block in which a channel became complete. *)
Definition inclusion_of (fs : list Frame) : Z := foldr Z.max 0 (l1_inclusion_block <$> fs).

(** The frames of a channel, in order, as a batcher may post them. *)
Record posted_channel (config : Config) (id : Z) (fs : list Frame) : Prop := {
  pch_frames : channel_frames id fs;
  pch_nonempty : fs <> [];
  pch_short : len fs < 65536;
  pch_ok : Forall frame_ok fs;
  pch_blocks : Forall (fun f => in_u64 (l1_inclusion_block f)) fs;
  pch_size : zsum (frame_data_len <$> fs) <= max_channel_size (chain config);
  pch_time : forall f g, f ∈ fs -> g ∈ fs -> l1_inclusion_block f - l1_inclusion_block g <= channel_timeout (chain config)
}.

Definition channel_of_frames (id : Z) (fs : list Frame) : Channel :=
  {| chan_id := id; chan_data := mjoin (frame_data <$> fs); chan_l1_inclusion_block := inclusion_of fs |}.

(** ** The transactions *)

(** A frame with the version byte of its transaction. *)
Definition frame_tx (vf : Z * Frame) : BatcherTransaction := {| version := vf.1; frames := [vf.2] |}.

Definition frame_calldata (vf : Z * Frame) : bytes := vf.1 :: encode_frame vf.2.

(** The transactions that the first stage has still to give. *)
Definition delivers (q : BatcherTransactions) (l : list BatcherTransaction) : Prop :=
  process_messages (transaction_rx q) (txs q) = Ok l.

Lemma delivers_next q t l :
  delivers q (t :: l) ->
  BatcherTransactions_next q = (Ok (Some t), {| txs := l; transaction_rx := [] |}).
Proof. intros Hq. unfold BatcherTransactions_next, process_incoming, pop_front. run_M. by rewrite Hq. Qed.

Lemma process_messages_app rx rx' acc acc' :
  process_messages rx acc = Ok acc' -> process_messages (rx ++ rx') acc = process_messages rx' acc'.
Proof.
  revert acc. induction rx as [|msg rx IH]; intros acc; [by intros [= ->]|]. cbn [app process_messages].
  destruct (process_txs (msg_l1_origin msg) (msg_txs msg) acc) as [acc1| | |]; try done. apply IH.
Qed.

Lemma process_txs_frames n l acc :
  Forall (fun vf : Z * Frame => frame_ok vf.2 /\ l1_inclusion_block vf.2 = n) l ->
  process_txs n (frame_calldata <$> l) acc = Ok (acc ++ (frame_tx <$> l)).
Proof.
  intros Hl. revert acc. induction Hl as [|[v f] l [Hf Hn] Hl IH]; intros acc; [by rewrite app_nil_r|].
  cbn [fmap list_fmap process_txs]. unfold frame_calldata at 1. cbn [fst snd].
  rewrite (single_frame_transaction v f n Hf Hn), IH. by rewrite <- app_assoc.
Qed.

(** What is sent is delivered after the rest. *)
Lemma delivers_send q l n posts :
  Forall (fun vf : Z * Frame => frame_ok vf.2 /\ l1_inclusion_block vf.2 = n) posts -> delivers q l ->
  delivers {| txs := txs q; transaction_rx := transaction_rx q ++ [{| msg_txs := frame_calldata <$> posts; msg_l1_origin := n |}] |}
    (l ++ (frame_tx <$> posts)).
Proof.
  intros Hp Hq. unfold delivers. cbn [txs transaction_rx]. rewrite (process_messages_app _ _ _ _ Hq).
  cbn [process_messages msg_l1_origin msg_txs]. by rewrite process_txs_frames.
Qed.

(** ** The bank *)

(** The channel that the frames seen so far make. *)
Definition partial (l : list Frame) : list PendingChannel :=
  match l with [] => [] | f :: l => [collect f l] end.

Definition collecting {I} (config : Config) (l : list Frame) (i : I) : Channels I :=
  set_pending (partial l) (Channels_new i config).

Lemma collect_app f l g : collect f (l ++ [g]) = PendingChannel_push_frame g (collect f l).
Proof. unfold collect. by rewrite foldl_app. Qed.

Lemma collect_id f l : pc_channel_id (collect f l) = channel_id f.
Proof. induction l as [|g l IH] using rev_ind; [done|]. by rewrite collect_app, push_frame_id. Qed.

Lemma collect_frames f l : NoDup (frame_number <$> f :: l) -> pc_frames (collect f l) = f :: l.
Proof.
  induction l as [|g l IH] using rev_ind; intros Hnd; [done|]. rewrite collect_app.
  change (f :: l ++ [g]) with ((f :: l) ++ [g]) in Hnd. rewrite fmap_app in Hnd.
  apply NoDup_app in Hnd as (Hnd & Hg & _). specialize (IH Hnd).
  destruct (push_frame_cases g (collect f l)) as [[Hin _]|(_ & Hfr & _)]; rewrite IH in *; [|exact Hfr].
  exfalso. apply (Hg _ Hin). by left.
Qed.

Lemma collect_ok id f l : Forall (fun g => channel_id g = id) (f :: l) -> pc_ok (collect f l).
Proof.
  induction l as [|g l IH] using rev_ind; intros Hall; [apply pc_ok_new|]. rewrite collect_app.
  change (f :: l ++ [g]) with ((f :: l) ++ [g]) in Hall. apply Forall_app in Hall as [Hl Hg].
  rewrite Forall_singleton in Hg. apply pc_ok_push_frame; [by apply IH|]. apply Forall_cons in Hl as [Hf _].
  by rewrite collect_id, Hf.
Qed.

Lemma foldl_max_foldr l a : 0 <= a -> foldl Z.max a l = Z.max a (foldr Z.max 0 l).
Proof. revert a. induction l as [|x l IH]; intros a Ha; cbn; [lia|]. rewrite IH; lia. Qed.

#[export] Instance inclusion_of_proper : Proper ((≡ₚ) ==> eq) inclusion_of.
Proof. intros l k Hp. unfold inclusion_of. induction Hp; cbn in *; lia. Qed.

#[export] Instance zsum_proper : Proper ((≡ₚ) ==> eq) zsum.
Proof. intros l k Hp. induction Hp; rewrite ?zsum_cons; lia. Qed.

(** Frames of one channel, each of them once, which fit into an empty bank. *)
Section frames.
Context (config : Config) (id : Z) (fs : list Frame).
Hypothesis Hposted : posted_channel config id fs.

Lemma posted_forall (P : Frame -> Prop) l : l ⊆ fs -> Forall P fs -> Forall P l.
Proof. rewrite !Forall_forall. auto. Qed.

Lemma posted_ids : Forall (fun g => channel_id g = id) fs.
Proof. apply Forall_forall. intros f [i Hi]%list_elem_of_lookup. by destruct (pch_frames _ _ _ Hposted _ _ Hi) as [Hc _]. Qed.

Lemma posted_lens : Forall (fun x => 0 <= x) (frame_data_len <$> fs).
Proof. apply Forall_fmap. eapply Forall_impl; [apply (pch_ok _ _ _ Hposted)|]. intros f Hf. apply (frame_ok_len_u32 _ Hf). Qed.

Lemma partial_in_time f l :
  f :: l ⊆ fs -> is_timed_out (collect f l) (channel_timeout (chain config)) = false.
Proof.
  intros Hl. assert (Hok : pc_ok (collect f l)) by (apply (collect_ok id); by apply (posted_forall _ _ Hl posted_ids)).
  assert (Hin : forall g, g ∈ pc_frames (collect f l) -> g ∈ fs).
  { intros g Hg. apply Hl. pose proof (seen_collect id fs (pch_frames _ _ _ Hposted) (pch_short _ _ _ Hposted) f l) as Hseen.
    apply Hseen; [apply Hl; by left|set_solver|done]. }
  unfold is_timed_out. apply Z.ltb_ge. pose proof (pc_ok_low_high _ Hok) as Hle.
  pose proof (pc_ok_highest _ Hok) as (g & Eg & Hg)%list_elem_of_fmap. pose proof (pc_ok_lowest _ Hok) as (h & Eh & Hh)%list_elem_of_fmap.
  apply Hin in Hg, Hh. pose proof (pch_blocks _ _ _ Hposted) as Hb. rewrite Forall_forall in Hb.
  pose proof (Hb _ Hg) as Hbg. pose proof (Hb _ Hh) as Hbh. pose proof (pch_time _ _ _ Hposted g h Hg Hh).
  rewrite Eg, Eh in *. unfold in_u64 in *. rewrite u64_sub_small by (unfold in_u64; lia). lia.
Qed.

Lemma partial_fits done rest :
  done ++ rest ≡ₚ fs -> NoDup (frame_number <$> done) ->
  total_size (partial done) <= max_channel_size (chain config).
Proof.
  intros Hp Hnd. pose proof (pch_size _ _ _ Hposted) as Hs. rewrite <- Hp, fmap_app, zsum_app in Hs.
  pose proof posted_lens as Hpos. rewrite <- Hp, fmap_app in Hpos. apply Forall_app in Hpos as [Hd Hr].
  apply zsum_nonneg in Hd, Hr. rewrite total_size_u32. destruct done as [|f l]; cbn [partial].
  - change (u32 (bank_bytes [])) with 0. lia.
  - rewrite bank_bytes_cons. unfold pc_bytes. rewrite collect_frames by done. change (bank_bytes []) with 0.
    rewrite Z.add_0_r. unfold u32. etransitivity; [apply Z.mod_le; lia|]. lia.
Qed.

Lemma partial_channel f l :
  f :: l ≡ₚ fs -> NoDup (frame_number <$> f :: l) ->
  is_complete (collect f l) = true /\ Channel_from (collect f l) = Ok (channel_of_frames id fs).
Proof.
  intros Hp Hnd. assert (Hl : f :: l ⊆ fs) by (intros g; by rewrite Hp).
  assert (Hall : fs ⊆ f :: l) by (intros g; by rewrite Hp).
  destruct Hposted as [Hfs Hne Hsh Hok Hb _ _]. assert (Hf : f ∈ fs) by (apply Hl; by left).
  assert (Hseen : seen fs (collect f l) (f :: l)) by (eapply (seen_collect id); [done|done|done|set_solver]).
  split; [by apply (seen_complete id fs Hfs Hsh _ (f :: l))|].
  pose proof (collect_ok id f l (posted_forall _ _ Hl posted_ids)) as Hpc.
  rewrite (Channel_from_ok _ Hpc). unfold channel_of_frames. do 2 f_equal.
  - rewrite collect_id. pose proof posted_ids as Hids. rewrite Forall_forall in Hids. auto.
  - by apply (seen_assemble id fs Hfs Hsh _ (f :: l)).
  - pose proof (l1_inclusion_block_highest _ Hpc) as Hh. unfold PendingChannel_l1_inclusion_block in Hh.
    rewrite collect_frames in Hh by done. cbn [fmap list_fmap iter_max unwrap] in Hh. injection Hh as <-.
    rewrite <- Hp. unfold inclusion_of. cbn [fmap list_fmap foldr]. apply foldl_max_foldr.
    rewrite Forall_forall in Hb. apply Hb in Hf. apply Hf.
Qed.

Lemma partial_incomplete f l rest :
  (f :: l) ++ rest ≡ₚ fs -> rest <> [] -> is_complete (collect f l) = false.
Proof.
  intros Hp Hr. assert (Hl : f :: l ⊆ fs) by (intros g Hg; rewrite <- Hp; by apply elem_of_app; left).
  destruct Hposted as [Hfs Hne Hsh _ _ _ _]. apply not_true_iff_false.
  assert (Hseen : seen fs (collect f l) (f :: l)) by (eapply (seen_collect id); [done|done|apply Hl; by left|set_solver]).
  rewrite (seen_complete id fs Hfs Hsh _ (f :: l)) by done. intros Hall.
  pose proof (NoDup_fmap_1 _ _ (channel_frames_NoDup id fs Hfs)) as Hnd. rewrite <- Hp in Hnd.
  apply NoDup_app in Hnd as (_ & Hnot & _). destruct rest as [|g rest]; [done|].
  apply (Hnot g); [|by left]. apply Hall. rewrite <- Hp. apply elem_of_app. right. by left.
Qed.
End frames.

(** ** One frame *)

Section stage.
Context {R I : Type} `{it : PurgeableIterator R I BatcherTransaction}.

Lemma push_partial config id (i : I) done f :
  Forall (fun g => channel_id g = id) (done ++ [f]) ->
  (forall g l, done ++ [f] = g :: l -> is_timed_out (collect g l) (channel_timeout (chain config)) = false) ->
  Channels_push_frame f (collecting config done i) = collecting config (done ++ [f]) i.
Proof.
  intros Hid Ht. unfold Channels_push_frame. destruct done as [|g l]; [done|].
  apply Forall_app in Hid as [Hl Hf]. rewrite Forall_singleton in Hf. apply Forall_cons in Hl as [Hg _].
  cbn [collecting pending_channels set_pending partial list_find].
  rewrite decide_True by (rewrite collect_id; congruence). cbn [app partial]. rewrite <- collect_app.
  change (ch_channel_timeout _) with (channel_timeout (chain config)). by rewrite (Ht g (l ++ [f])).
Qed.

(** A bank that collects the frames of a channel takes the next of them. *)
Lemma process_frames_collect config id fs (r : R) (i i' : I) done rest vf g l :
  posted_channel config id fs -> done ++ vf.2 :: rest ≡ₚ fs -> done ++ [vf.2] = g :: l ->
  next r i = (Ok (Some (frame_tx vf)), i') ->
  process_frames r (collecting config done i) =
    if is_complete (collect g l) then (Ok (Some (channel_of_frames id fs)), Channels_new i' config)
    else (Ok None, collecting config (done ++ [vf.2]) i').
Proof.
  intros Hpost Hp Hgl Hi. destruct vf as [v f]. cbn [fst snd] in *.
  assert (Hp' : (g :: l) ++ rest ≡ₚ fs) by (by rewrite <- Hgl, <- app_assoc).
  assert (Hsub : g :: l ⊆ fs) by (intros h Hh; rewrite <- Hp'; by apply elem_of_app; left).
  assert (Hnd : NoDup (frame_number <$> g :: l)).
  { pose proof (channel_frames_NoDup id fs (pch_frames _ _ _ Hpost)) as Hnd. rewrite <- Hp', fmap_app in Hnd.
    by apply NoDup_app in Hnd as (? & _). }
  assert (Hid : channel_id g = channel_id f).
  { pose proof (posted_ids _ _ _ Hpost) as Hall. rewrite <- Hp', <- Hgl, Forall_app in Hall. destruct Hall as [Hall _].
    pose proof Hall as Hall'. rewrite Hgl in Hall'. apply Forall_app in Hall as [_ Hall]. apply Forall_cons in Hall' as [-> _].
    by apply Forall_cons in Hall as [-> _]. }
  assert (Hmax : 0 <= max_channel_size (chain config)).
  { etransitivity; [|apply (pch_size _ _ _ Hpost)]. apply zsum_nonneg, (posted_lens config id), Hpost. }
  unfold process_frames. run_M. rewrite fill_bank_eq. cbn [collecting batcher_tx_iter set_pending Channels_new]. rewrite Hi.
  cbn beta iota. unfold process_bank. set (s1 := set_bank _ _). change (frame_bank s1) with [f]. cbn [length loop].
  assert (Hbody : process_frames_body s1 =
    s ← Channels_prune (Channels_push_frame f (collecting config done i'));
    '(channel, s) ← fetch_ready_channel (channel_id f) s;
    match channel with Some channel => Ok (inr (Some channel, s)) | None => Ok (inl s) end) by done.
  rewrite Hbody.
  rewrite (push_partial config id), Hgl; [|rewrite Hgl; exact (posted_forall _ _ _ Hsub (posted_ids _ _ _ Hpost))|].
  2: { intros g' l' E. rewrite Hgl in E. injection E as <- <-. by apply (partial_in_time config id fs Hpost). }
  rewrite prune_drop_oldest by done. cbn [collecting pending_channels set_pending ch_max_channel_size Channels_new partial].
  pose proof (partial_fits config id fs Hpost (g :: l) rest Hp' Hnd) as Hfit.
  assert (Hdrop : drop_oldest (max_channel_size (chain config)) [collect g l] = [collect g l]).
  { cbn [drop_oldest]. by rewrite (proj2 (Z.ltb_ge _ _)). }
  rewrite Hdrop, bind_ret. unfold fetch_ready_channel. cbn [pending_channels set_pending list_find].
  destruct (is_complete (collect g l)) eqn:Ec.
  - rewrite decide_True by (split; [rewrite collect_id; congruence|done]).
    destruct rest as [|h rest]; [|by rewrite (partial_incomplete config id fs Hpost g l (h :: rest)) in Ec].
    rewrite app_nil_r in Hp'. destruct (partial_channel config id fs Hpost g l Hp' Hnd) as [_ ->]. done.
  - rewrite decide_False by (by intros [_ ?]). done.
Qed.
End stage.

(** ** The pipeline *)

Section pipeline.
Context `{Keccak, Codec, RlpDecoder, Varint, Zlib, TransactionRlp, ToBeBytes8}.

(** The pipeline has taken some frames of a channel, and others are in its queue. *)
Record awaits (config : Config) (p : Pipeline) (done : list Frame) (rest : list (Z * Frame)) : Prop := {
  awaits_stages : exists q, block_input_iter (attributes p) = Batches_new (collecting config done q) config /\
    delivers q (frame_tx <$> rest);
  awaits_config : at_config (attributes p) = config;
  awaits_pending : pending_attributes p = None
}.

(** The last block that was derived: its epoch, and its position there. *)
Definition position (p : Pipeline) : bytes * Z := (epoch_hash (attributes p), at_sequence_number (attributes p)).

Lemma awaits_idle config p : idle config p -> awaits config p [] [].
Proof. intros [Hs Hc Hp]. split; [|done|done]. by exists (BatcherTransactions_new []). Qed.

Lemma awaits_push config p done rest n l :
  Forall (fun vf : Z * Frame => frame_ok vf.2 /\ l1_inclusion_block vf.2 = n) l -> awaits config p done rest ->
  awaits config (push_batcher_transactions (frame_calldata <$> l) n p) done (rest ++ l).
Proof.
  intros Hl [(q & Hi & Hq) Hc Hp]. split; [|exact Hc|exact Hp].
  eexists. split; [|rewrite fmap_app; exact (delivers_send q _ n l Hl Hq)].
  cbn [attributes push_batcher_transactions set_attributes send set_block_input_iter block_input_iter]. by rewrite Hi.
Qed.

(** What a batcher posts: for each L1 block its number, and the frames there with the version
    byte of their transactions. *)
Abbreviation Posts := (list (Z * list (Z * Frame)))%type (only parsing).

Definition push_posts (posts : Posts) (p : Pipeline) : Pipeline :=
  foldl (fun p post => push_batcher_transactions (frame_calldata <$> post.2) post.1 p) p posts.

(** The frames of a channel, each once, in the blocks that include them. *)
Record posts_of (posts : Posts) (fs : list Frame) : Prop := {
  posts_frames : (posts ≫= snd).*2 ≡ₚ fs;
  posts_blocks : Forall (fun post => Forall (fun vf => l1_inclusion_block vf.2 = post.1) post.2) posts
}.

Lemma posts_ok config id fs (posts : Posts) :
  posted_channel config id fs -> posts_of posts fs ->
  Forall (fun post => Forall (fun vf => frame_ok vf.2 /\ l1_inclusion_block vf.2 = post.1) post.2) posts.
Proof.
  intros Hpost [Hf Hb]. rewrite !Forall_forall in *. intros post Hp. specialize (Hb _ Hp). rewrite Forall_forall in *.
  intros vf Hvf. split; [|by apply Hb]. pose proof (pch_ok _ _ _ Hpost) as Hok. rewrite Forall_forall in Hok. apply Hok.
  rewrite <- Hf. apply list_elem_of_fmap_2, list_elem_of_bind. by exists post.
Qed.

Lemma awaits_posts config (posts : Posts) : forall p rest,
  Forall (fun post => Forall (fun vf => frame_ok vf.2 /\ l1_inclusion_block vf.2 = post.1) post.2) posts ->
  awaits config p [] rest ->
  awaits config (push_posts posts p) [] (rest ++ (posts ≫= snd)) /\ position (push_posts posts p) = position p.
Proof.
  induction posts as [|[n l] posts IH]; intros p rest Hall Hp; [by rewrite app_nil_r|].
  apply Forall_cons in Hall as [Hl Hall]. cbn [snd fst] in Hl.
  destruct (IH _ _ Hall (awaits_push config p [] rest n l Hl Hp)) as [Ha Hpos]. split; [|exact Hpos].
  rewrite bind_cons, app_assoc. exact Ha.
Qed.

(** A frame that is not the last one to arrive gives nothing. *)
Lemma awaits_next config id fs (state : State) p done vf rest more :
  posted_channel config id fs -> done ++ vf.2 :: more ≡ₚ fs -> more <> [] ->
  awaits config p done (vf :: rest) -> empty_input state config = None ->
  exists p', Pipeline_next state p = (Ok None, p') /\ awaits config p' (done ++ [vf.2]) rest /\ position p' = position p.
Proof.
  intros Hpost Hp Hmore [(q & Hi & Hq) Hc Hpend] He. apply delivers_next in Hq.
  destruct (done ++ [vf.2]) as [|g l] eqn:Hgl; [by destruct done|].
  pose proof (process_frames_collect config id fs state q _ done more vf g l Hpost Hp Hgl Hq) as Hch.
  rewrite (partial_incomplete config id fs Hpost g l more) in Hch; [|by rewrite <- Hgl, <- app_assoc|done].
  rewrite Hgl in Hch. pose proof (next_no_batch (it := Channels_iter) state config _ _ Hch He) as Hb. rewrite <- Hi in Hb.
  rewrite (pipeline_next_none state p _ Hpend Hb). eexists. split; [done|]. split; [|done]. split; [|exact Hc|exact Hpend].
  eexists. by split.
Qed.

(** The last one gives the channel. *)
Lemma awaits_last config id fs (state : State) p done vf :
  posted_channel config id fs -> done ++ [vf.2] ≡ₚ fs -> awaits config p done [vf] ->
  exists i, block_input_iter (attributes p) = Batches_new i config /\
    next state i = (Ok (Some (channel_of_frames id fs)), Channels_new (BatcherTransactions_new []) config).
Proof.
  intros Hpost Hp [(q & Hi & Hq) _ _]. apply delivers_next in Hq. exists (collecting config done q). split; [done|].
  destruct (done ++ [vf.2]) as [|g l] eqn:Hgl; [by destruct done|].
  assert (Hp' : done ++ vf.2 :: [] ≡ₚ fs) by (by rewrite Hgl).
  pose proof (process_frames_collect config id fs state q _ done [] vf g l Hpost Hp' Hgl Hq) as Hch.
  assert (Hnd : NoDup (frame_number <$> g :: l)).
  { pose proof (channel_frames_NoDup id fs (pch_frames _ _ _ Hpost)) as Hnd. by rewrite <- Hp in Hnd. }
  destruct (partial_channel config id fs Hpost g l Hp Hnd) as [Hcompl _]. by rewrite Hcompl in Hch.
Qed.
End pipeline.
