(* ===== verification/Derivation.v ===== *)
(** From the blocks that a batcher posts to the attributes that the node builds.

    Single batches and a span batch in the format of the specification, on real RLP and
    varints, split into frames over any number of L1 blocks, go through all stages of
    src/src/derive/: the transactions and frames, the channel bank, the batch queue and the
    attributes.  What the pipeline gives, call by call, is stated without the stages: one
    block after the other, at its place in its epoch. *)
From stdpp Require Import sorting.
From S2P Require Import Prelude Purgeable Codecs Common Concrete Config Deposits L1Info HeadInfo State BatcherTransactions.
From S2P Require Import Channels SingleBatch SpanBatch SpanEncoding Batches Engine Ecotone Attributes Pipeline Assembly.

#[local] Existing Instances rlp_decoder leb128 rlp_codec.

(** ** The specification *)

(** The epoch of a block, and its L1 block. *)
Abbreviation Source := (Epoch * L1Info)%type (only parsing).

Section spec.
Context `{Keccak, TransactionRlp, ToBeBytes8}.

(** What the states at which the blocks are asked for know of their epochs. *)
Fixpoint all_known (states : list State) (inputs : list (BlockInput Z)) (sources : list Source) : Prop :=
  match states, inputs, sources with
  | [], [], [] => True
  | state :: states, input :: inputs, (e, info) :: sources =>
      known_epoch state (bin_epoch input) e info /\ all_known states inputs sources
  | _, _, _ => False
  end.

(** The attributes of blocks that follow a block at position [seq] of the epoch [h]: one
    result for each, which is what the conversion of the gas limit makes of it. *)
Fixpoint derived_blocks (config : Config) (h : bytes) (seq : Z) (inputs : list (BlockInput Z)) (sources : list Source)
    : list (outcome PayloadAttributes) :=
  match inputs, sources with
  | input :: inputs, (e, info) :: sources =>
      let position := if decide (h = ep_hash e) then u64_add seq 1 else 0 in
      ((fun gas => block_attributes config info gas position (with_epoch e input)) <$> converted_gas info)
        :: derived_blocks config (ep_hash e) position inputs sources
  | _, _ => []
  end.

(** With the documented conversion they are all panics. *)
Lemma derived_blocks_documented `{!ToBeBytes8Documented} config h seq inputs sources :
  derived_blocks config h seq inputs sources = replicate (length (derived_blocks config h seq inputs sources)) Panic.
Proof.
  revert h seq sources. induction inputs as [|input inputs IH]; intros h seq [|[e info] sources]; try done.
  cbn [derived_blocks length replicate]. by rewrite converted_gas_documented, <- IH.
Qed.
End spec.

(** The inputs that the node takes from batches: the checks accept a batch at the state of
    the call where it is first, and its blocks newer than the safe head then are taken, one
    in each call. *)
Inductive derives_from (config : Config) : list State -> list Batch -> list (BlockInput Z) -> Prop :=
| derives_nil : derives_from config [] [] []
| derives_batch state states states' b bs l first rest inputs :
    batch_status state config b = Ok BatchAccept -> as_inputs config b = Ok l ->
    filter_inputs state l = first :: rest -> length states = length rest ->
    derives_from config states' bs inputs ->
    derives_from config (state :: states ++ states') (b :: bs) (first :: rest ++ inputs).

(** ** The pipeline, call by call *)

Section calls.
Context `{Keccak, Zlib, TransactionRlp, ToBeBytes8}.

(** The results of successive calls, each with what the lock holds then; a call that panics
    has taken its input. *)
Fixpoint calls (states : list State) (p : Pipeline) : list (outcome (option PayloadAttributes)) * Pipeline :=
  match states with
  | [] => ([], p)
  | state :: states =>
      let '(r, p) := Pipeline_next state p in
      let '(rs, p) := calls states p in
      (r :: rs, p)
  end.

(** The batch queue of a pipeline that has worked off all but these batches and inputs. *)
Definition waiting (config : Config) (bs : list Batch) (inputs : list (BlockInput Z)) : Batches (Channels BatcherTransactions) :=
  holding config bs inputs (Channels_new (BatcherTransactions_new []) config).

(** The results of calls that take these inputs, after which the pipeline is idle. *)
Definition calls_give (config : Config) (states : list State) (p : Pipeline) (inputs : list (BlockInput Z)) (sources : list Source)
    : Prop :=
  exists p', calls states p =
    (fmap (M := outcome) Some <$> derived_blocks config (position p).1 (position p).2 inputs sources, p') /\ idle config p'.

Lemma calls_step config states p i' inputs state input e info sources :
  pending_attributes p = None -> at_config (attributes p) = config ->
  Batches_next state (block_input_iter (attributes p)) = (Ok (Some input), i') ->
  known_epoch state (bin_epoch input) e info ->
  (forall p', pending_attributes p' = None -> at_config (attributes p') = config ->
     block_input_iter (attributes p') = i' -> calls_give config states p' inputs sources) ->
  calls_give config (state :: states) p (input :: inputs) ((e, info) :: sources).
Proof.
  intros Hpend Hc Hb Hknown Hrest. pose proof (pipeline_next_input state p _ input e info Hpend Hb Hknown) as Hn.
  set (p1 := {| attributes := _; pending_attributes := None |}) in Hn.
  destruct (Hrest p1) as (p2 & Hcalls & Hidle); [done|exact Hc|done|].
  exists p2. split; [|done]. cbn [calls]. rewrite Hn, Hcalls, Hc. cbn [derived_blocks fmap list_fmap].
  unfold next_position, position. cbn [p1 attributes epoch_hash at_sequence_number update_sequence_number set_block_input_iter fst snd].
  do 2 f_equal; [by destruct (converted_gas info)|]. do 3 f_equal. case_decide; by case_bool_decide.
Qed.

(** From a queue with inputs of one batch and other batches behind it. *)
Lemma calls_waiting config bs states' rest inputs sources : forall states p,
  pending_attributes p = None -> at_config (attributes p) = config -> in_order config bs ->
  block_input_iter (attributes p) = waiting config bs rest -> length states = length rest ->
  derives_from config states' bs inputs -> all_known (states ++ states') (rest ++ inputs) sources ->
  calls_give config (states ++ states') p (rest ++ inputs) sources.
Proof.
  intros states p Hpend Hc Ho Hi Hlen Hd. revert states p rest sources Hpend Hc Ho Hi Hlen.
  induction Hd as [|state states1 states' b bs l first rest1 inputs Hs Hl Hf Hlen1 Hd IHd];
    intros states p rest; revert states p; induction rest as [|input rest IHr]; intros [|st states] p sources Hpend Hc Ho Hi Hlen Hall;
    try done.
  - destruct sources; [|done]. exists p. split; [done|by split].
  - destruct sources as [|[e info] sources]; [done|]. destruct Hall as [Hknown Hall]. injection Hlen as Hlen.
    apply (calls_step config _ p (waiting config [] rest)); [done|done|by rewrite Hi|done|]. intros p' Hp' Hc' Hi'. by apply IHr.
  - destruct sources as [|[e info] sources]; [done|]. destruct Hall as [Hknown Hall].
    apply (calls_step config _ p (waiting config bs rest1)); [done|done| |done|].
    + rewrite Hi. by apply (next_held (it := Channels_iter) state config _ _ b bs l).
    + intros p' Hp' Hc' Hi'. apply StronglySorted_inv in Ho as [Ho _]. by apply IHd.
  - destruct sources as [|[e info] sources]; [done|]. destruct Hall as [Hknown Hall]. injection Hlen as Hlen.
    apply (calls_step config _ p (waiting config (b :: bs) rest)); [done|done|by rewrite Hi|done|].
    intros p' Hp' Hc' Hi'. by apply IHr.
Qed.
End calls.

(** ** The posted batches *)

Section posted.
Context `{Keccak, Zlib, TransactionRlp, ToBeBytes8}.

(** Single batches, then possibly a span batch, that fill a channel. *)
Record posted_batches (config : Config) (id : Z) (fs : list Frame) (singles : list SingleBatch) (span : option SpanData)
    : Prop := {
  pb_chain : 0 <= l2_chain_id (chain config) /\ l2_chain_id (chain config) * 2 + 36 < 2 ^ 64;
  pb_singles : Forall (fun b => batch_encodable b /\ sb_l1_inclusion_block b = inclusion_of fs) singles;
  pb_span : forall sd, span = Some sd -> span_ok sd;
  pb_channel : posted_channel config id fs;
  pb_data : zlib_decode (mjoin (frame_data <$> fs)) =
    Some (encode_batches Rlp.encode_string rlp_batch singles ++ mjoin (rlp_span <$> option_list span))
}.

(** The batches as the node has them; [posted_batch] is the span batch. *)
Definition posted_batch (config : Config) (fs : list Frame) (sd : SpanData) : Batch :=
  Span (span_of (l2_chain_id (chain config)) (inclusion_of fs) sd).

Definition batches_of (config : Config) (fs : list Frame) (singles : list SingleBatch) (span : option SpanData) : list Batch :=
  (Single <$> singles) ++ (posted_batch config fs <$> option_list span).

(** The inputs that a span batch stands for. *)
Definition posted_inputs (config : Config) (fs : list Frame) (sd : SpanData) : list (BlockInput Z) :=
  imap (posted_block (l2_chain_id (chain config)) (inclusion_of fs) config sd) (sd_blocks sd).

Lemma decode_posted config id fs singles span :
  posted_batches config id fs singles span ->
  decode_batches (channel_of_frames id fs) (l2_chain_id (chain config)) = Ok (batches_of config fs singles span).
Proof.
  intros [Hc Hl Hsd _ Hz]. rewrite <- (app_nil_r (mjoin (rlp_span <$> _))) in Hz.
  exact (decode_batches_posted (channel_of_frames id fs) _ singles span [] Hl Hc Hsd (fun _ => eq_refl) Hz).
Qed.

(** The queue of a pipeline that has all frames of the channel but the next one gives the
    first input, and keeps the others. *)
Lemma posted_next config id fs singles span b bs l p got vf state first rest :
  posted_batches config id fs singles span -> batches_of config fs singles span = b :: bs -> in_order config (b :: bs) ->
  got ++ [vf.2] ≡ₚ fs -> awaits config p got [vf] ->
  batch_status state config b = Ok BatchAccept -> as_inputs config b = Ok l -> filter_inputs state l = first :: rest ->
  Batches_next state (block_input_iter (attributes p)) = (Ok (Some first), waiting config bs rest).
Proof.
  intros Hposted Hbs Ho Hp Ha Haccept Hl Hin. pose proof (decode_posted _ _ _ _ _ Hposted) as Hd. rewrite Hbs in Hd.
  destruct (awaits_last config id fs state p got vf (pb_channel _ _ _ _ _ Hposted) Hp Ha) as (i & -> & Hch).
  exact (next_batches (it := Channels_iter) state config _ _ _ b bs l _ _ Hch Hd Ho Haccept Hl Hin).
Qed.

(** A span batch that is alone in its channel. *)
Definition posted_span (config : Config) (id : Z) (fs : list Frame) (sd : SpanData) : Prop :=
  posted_batches config id fs [] (Some sd).

Lemma span_next config id fs sd p got vf state first rest :
  posted_span config id fs sd -> got ++ [vf.2] ≡ₚ fs -> awaits config p got [vf] ->
  batch_status state config (posted_batch config fs sd) = Ok BatchAccept ->
  filter_inputs state (posted_inputs config fs sd) = first :: rest ->
  Batches_next state (block_input_iter (attributes p)) = (Ok (Some first), waiting config [] rest).
Proof.
  intros Hposted Hp Ha Haccept Hin. pose proof (pb_span _ _ _ _ _ Hposted sd eq_refl) as Hsd.
  by apply (posted_next config id fs [] (Some sd) (posted_batch config fs sd) [] (posted_inputs config fs sd) p got vf);
    [..|repeat constructor|done|done|done|apply span_of_inputs|].
Qed.

(** The calls until the last frame is next give nothing. *)
Lemma calls_awaits config id fs waits states : forall p done rest,
  posted_channel config id fs -> done ++ rest.*2 ≡ₚ fs -> awaits config p done rest -> length rest = S (length waits) ->
  Forall (fun w => empty_input w config = None) waits ->
  exists p' done' vf, awaits config p' done' [vf] /\ done' ++ [vf.2] ≡ₚ fs /\ position p' = position p /\
    calls (waits ++ states) p = let '(rs, p'') := calls states p' in (replicate (length waits) (Ok None) ++ rs, p'').
Proof.
  induction waits as [|w waits IH]; intros p done rest Hpost Hp Ha Hlen Hw.
  - destruct rest as [|vf [|]]; try done. exists p, done, vf. do 3 (split; [done|]). cbn. by destruct (calls states p).
  - destruct rest as [|vf [|vf' rest]]; try done. apply Forall_cons in Hw as [Hw Hws].
    destruct (awaits_next config id fs w p done vf (vf' :: rest) (vf' :: rest).*2 Hpost Hp) as (p1 & Hn & Ha1 & Hpos); [done..|].
    destruct (IH p1 (done ++ [vf.2]) (vf' :: rest)) as (p' & done' & l & Ha' & Hp' & Hpos' & Hcalls);
      [done|by rewrite <- app_assoc|done|cbn [length] in *; lia|done|].
    exists p', done', l. do 2 (split; [done|]). split; [congruence|]. cbn [app calls]. rewrite Hn, Hcalls.
    by destruct (calls states p').
Qed.

(** C8. From posted batches to payload attributes.  Let a batcher post single batches, a
    span batch or both in one channel, in the order of their times, encoded as the
    specification says and split into frames that L1 includes in any order, in as many
    blocks as it likes; and let the checks of the node accept each batch when it is first.
    Then a pipeline with nothing else to do waits once for each frame but the last, and
    takes from then on, call by call, exactly the blocks of the batches that are newer than
    the safe head, none lost, repeated or out of order, also when the driver moves the safe
    head between the calls; and it has nothing to do again.  Each call gives what the
    conversion of the gas limit of the L1 block makes of it: if that succeeds, the
    attributes with the time of the slot, the transactions after the deposits of the epoch,
    and the position in the epoch; if it panics, as ruint documents, a panic. *)
Theorem posted_batches_derived config p posts id fs singles span waits states inputs sources :
  idle config p -> posted_batches config id fs singles span -> posts_of posts fs ->
  length fs = S (length waits) -> Forall (fun w => empty_input w config = None) waits ->
  in_order config (batches_of config fs singles span) -> batches_of config fs singles span <> [] ->
  derives_from config states (batches_of config fs singles span) inputs -> all_known states inputs sources ->
  exists p', idle config p' /\
    calls (waits ++ states) (push_posts posts p) =
      (replicate (length waits) (Ok None) ++
       (fmap (M := outcome) Some <$> derived_blocks config (position p).1 (position p).2 inputs sources), p').
Proof.
  intros Hidle Hposted Hposts Hlen Hw Ho Hne Hd Hknown. pose proof (pb_channel _ _ _ _ _ Hposted) as Hpost.
  pose proof (posts_frames _ _ Hposts) as Hperm.
  destruct (awaits_posts config posts p [] (posts_ok config id fs posts Hpost Hposts) (awaits_idle config p Hidle)) as [Ha Hpos].
  destruct (calls_awaits config id fs waits states (push_posts posts p) [] (posts ≫= snd))
    as (p1 & got & vf & Ha1 & Hp1 & Hpos1 & ->); [done|done|done|by rewrite <- Hlen, <- Hperm, length_fmap|done|].
  destruct (batches_of config fs singles span) as [|b bs] eqn:Hbs; [done|]. inversion Hd as [|state states1 states' ? ? l first rest inputs' Hs Hl Hf Hlen1 Hd'];
    subst. destruct sources as [|[e info] sources]; [done|]. destruct Hknown as [Hfirst Hrest].
  pose proof (posted_next config id fs singles span b bs l p1 got vf state first rest Hposted Hbs Ho Hp1 Ha1 Hs Hl Hf) as Hb.
  destruct Ha1 as [_ Hc Hpend]. apply StronglySorted_inv in Ho as [Ho _].
  destruct (calls_step config (states1 ++ states') p1 _ (rest ++ inputs') state first e info sources Hpend Hc Hb Hfirst)
    as (p' & Hcalls & Hidle').
  - intros p2 Hp2 Hc2 Hi2. by apply (calls_waiting config bs).
  - exists p'. split; [done|]. by rewrite Hcalls, Hpos1, Hpos.
Qed.
End posted.

(** ** Witnesses *)

#[local] Existing Instances example_keccak example_zlib example_rlp example_to_be_bytes_8.

(** Three blocks after the tip of the example chain, the last one in the next epoch; the
    first has the two transactions of [example_posted]. *)
Definition example_span_posted : SpanData :=
  {| sd_rel_timestamp := 24000002; sd_l1_origin_num := 19400001;
     sd_parent_check := take 20 (bi_hash (example_tip optimism));
     sd_l1_origin_check := take 20 (ep_hash (epoch_of_info (example_origin optimism 1)));
     sd_blocks := [{| blk_origin_bit := false; blk_txs := [example_creation; example_call] |};
                   {| blk_origin_bit := false; blk_txs := [] |};
                   {| blk_origin_bit := true; blk_txs := [] |}] |}.

(** Data in two frames; the second one is posted first. *)
Definition example_frames_of (data : bytes) : list Frame :=
  let frame n d last block :=
    {| channel_id := 9; frame_number := n; frame_data_len := len d; frame_data := d; is_last := last;
       l1_inclusion_block := block |} in
  [frame 0 (take 100 data) false 19400050; frame 1 (drop 100 data) true 19400049].

Definition example_posts_of (fs : list Frame) : list (Z * list (Z * Frame)) :=
  [(19400049, (fun f => (0, f)) <$> drop 1 fs); (19400050, (fun f => (0, f)) <$> take 1 fs)].

Lemma example_frames_posted data :
  len data <= 1000000 -> posted_channel (example_config optimism) 9 (example_frames_of data).
Proof.
  intros Hd. assert (Hl : len (take 100 data) + len (drop 100 data) = len data) by (rewrite <- len_app; by rewrite take_drop).
  pose proof (len_nonneg (take 100 data)). pose proof (len_nonneg (drop 100 data)).
  split; [|done|by_compute| |by_compute| |].
  - intros [|[|i]] f Hf; [injection Hf as <-; by split_and!..|done].
  - repeat (constructor; [split; cbn [channel_id frame_number frame_data_len frame_data]; unfold in_u16, in_u32; [by vm_compute|lia|done|lia]|]).
    constructor.
  - cbn [example_frames_of fmap list_fmap frame_data_len]. rewrite !zsum_cons. change (zsum []) with 0.
    change (max_channel_size (chain (example_config optimism))) with 100000000. lia.
  - intros f g [->|[->|[]%elem_of_nil]%elem_of_cons]%elem_of_cons [->|[->|[]%elem_of_nil]%elem_of_cons]%elem_of_cons; by vm_compute.
Qed.

Lemma example_posts_frames data : posts_of (example_posts_of (example_frames_of data)) (example_frames_of data).
Proof. split; [apply Permutation_swap|]. by repeat constructor. Qed.

Definition example_span_frames : list Frame := example_frames_of (rlp_span example_span_posted).

Lemma example_span_ok : posted_span (example_config optimism) 9 example_span_frames example_span_posted.
Proof.
  split; [by_compute|constructor| |by apply example_frames_posted; vm_compute|by vm_compute].
  intros sd [= <-]. pose proof (span_txs_ok _ example_posted_ok) as Ht. split; [by_compute..|exact Ht].
Qed.

(** A channel with a single batch, and then the span of the three blocks after it. *)
Definition example_block : BlockInfo :=
  let n := bi_number (example_tip optimism) + 1 in
  {| bi_hash := to_be 32 n; bi_number := n; bi_parent_hash := bi_hash (example_tip optimism);
     bi_timestamp := bi_timestamp (example_tip optimism) + 2 |}.

Definition example_mixed_single : SingleBatch := example_single optimism (bi_timestamp example_block) 19400050.

Definition example_mixed_span : SpanData :=
  {| sd_rel_timestamp := 24000004; sd_l1_origin_num := 19400001;
     sd_parent_check := take 20 (bi_hash example_block);
     sd_l1_origin_check := sd_l1_origin_check example_span_posted; sd_blocks := sd_blocks example_span_posted |}.

Definition example_mixed_frames : list Frame :=
  example_frames_of (encode_batches Rlp.encode_string rlp_batch [example_mixed_single] ++ rlp_span example_mixed_span).

Lemma example_mixed_ok :
  posted_batches (example_config optimism) 9 example_mixed_frames [example_mixed_single] (Some example_mixed_span).
Proof.
  split; [by_compute| | |by apply example_frames_posted; vm_compute|by vm_compute].
  - constructor; [split; [split; by_compute|by vm_compute]|constructor].
  - intros sd [= <-]. pose proof (span_txs_ok _ example_posted_ok) as Ht. split; [by_compute..|exact Ht].
Qed.

(** The four blocks with the conversion that the code means, and with the documented one. *)
Lemma posted_batches_derived_witness :
  let config := example_config optimism in
  let state := example_origins optimism 0 in
  let state' := State_update_safe_head example_block (epoch_of_info (example_origin optimism 0)) state in
  let run (b : ToBeBytes8) := calls [state; state; state'; state'; state']
    (push_posts (example_posts_of example_mixed_frames) (Pipeline_new state config 3)) in
  (exists attrs p', run example_to_be_bytes_8 = (Ok None :: (Ok <$> (Some <$> attrs)), p') /\
    idle config p' /\ pa_seq_number <$> attrs = [Some 4; Some 5; Some 6; Some 0] /\
    (length <$> (default [] ∘ pa_transactions <$> attrs)) = [2; 3; 1; 1]%nat) /\
  (run ruint_to_be_bytes_8).1 = [Ok None; Panic; Panic; Panic; Panic].
Proof.
  intros config state state' run.
  set (source i := (epoch_of_info (example_origin optimism i), example_origin optimism i)).
  assert (Hd : derives_from config [state; state'; state'; state'] (batches_of config example_mixed_frames [example_mixed_single] (Some example_mixed_span))
    (block_input example_mixed_single :: posted_inputs config example_mixed_frames example_mixed_span)).
  { apply (derives_batch config state [] [state'; state'; state'] _ _ [block_input example_mixed_single] (block_input example_mixed_single) []);
      [by vm_compute..|].
    apply (derives_batch config state' [state'; state'] [] _ [] (posted_inputs config example_mixed_frames example_mixed_span)
      (default (block_input example_mixed_single) (head (posted_inputs config example_mixed_frames example_mixed_span)))
      (tail (posted_inputs config example_mixed_frames example_mixed_span)) []); [by vm_compute..|constructor]. }
  pose (spec (b : ToBeBytes8) := posted_batches_derived config (Pipeline_new state config 3) (example_posts_of example_mixed_frames)
    9 example_mixed_frames [example_mixed_single] (Some example_mixed_span) [state] [state; state'; state'; state']
    (block_input example_mixed_single :: posted_inputs config example_mixed_frames example_mixed_span)
    [source 0; source 0; source 0; source 1]
    (idle_new _ _ _) example_mixed_ok (example_posts_frames _) eq_refl).
  split; [destruct (spec example_to_be_bytes_8) as (p' & Hidle & Hcalls)|
          destruct (spec ruint_to_be_bytes_8) as (p' & _ & Hcalls)];
    [repeat constructor|repeat constructor|done|exact Hd|by vm_compute| |repeat constructor|repeat constructor|done|exact Hd|by vm_compute|].
  - eexists [_; _; _; _], p'. split; [etransitivity; [exact Hcalls|reflexivity]|]. split; [exact Hidle|]. split; by vm_compute.
  - etransitivity; [exact (f_equal fst Hcalls)|reflexivity].
Defined.
