(* ===== verification/Progress.v ===== *)
(** Progress of the derivation: every stage ends each of its calls, and what it has
    left to do decreases with every item that it yields, until the batch queue has
    nothing but empty blocks to give; these move the epoch or the timestamp of the
    safe head.  The measure of the whole is the rank of the driver in [Liveness.v]. *)
From Stdlib Require Import Relation_Operators Lexicographic_Product.
From S2P Require Import Prelude Purgeable Codecs Common Config Deposits L1Info HeadInfo State BatcherTransactions.
From S2P Require Import Channels SingleBatch SpanBatch Batches Engine Ecotone Attributes Pipeline.

(** ** Lexicographic order *)

Lemma slex_le {B : Type} (ltB : B -> B -> Prop) (a a' : nat) (b b' : B) :
  (a <= a')%nat -> (a = a' -> ltB b b') -> slexprod nat B lt ltB (a, b) (a', b').
Proof.
  intros Hle Hb. destruct (decide (a = a')) as [->|Hne].
  - apply right_slex. auto.
  - apply left_slex. lia.
Qed.

Lemma slex_wf {B : Type} (ltB : B -> B -> Prop) : well_founded ltB -> well_founded (slexprod nat B lt ltB).
Proof. intros Hb. apply wf_slexprod; [apply Nat.lt_wf_0|exact Hb]. Qed.

(** ** The batcher transactions *)

Definition txs_left (l : list BatcherTransaction) : nat := sum_list_with (fun tx => S (length (frames tx))) l.

(** A transaction of the channel becomes one batcher transaction with one frame. *)
Definition queue_left (s : BatcherTransactions) : nat :=
  (txs_left (txs s) + sum_list_with (fun msg => 2 * length (msg_txs msg)) (transaction_rx s))%nat.

Lemma txs_left_app l k : txs_left (l ++ k) = (txs_left l + txs_left k)%nat.
Proof. apply sum_list_with_app. Qed.

Lemma BatcherTransaction_new_left d l1 tx : BatcherTransaction_new d l1 = Ok tx -> (length (frames tx) <= 1)%nat.
Proof.
  destruct d as [|v d]; [done|]. rewrite BatcherTransaction_new_cons. destruct d as [|b d]; [intros [= <-]; cbn; lia|].
  destruct (Frame_from_data _ _ _) as [[f n]| | |]; [|done..]. intros [= <-]. cbn. lia.
Qed.

Lemma process_txs_left l1 data acc acc' :
  process_txs l1 data acc = Ok acc' -> (txs_left acc' <= txs_left acc + 2 * length data)%nat.
Proof.
  revert acc. induction data as [|d data IH]; intros acc; cbn [process_txs].
  - intros [= <-]. lia.
  - destruct (BatcherTransaction_new d l1) as [tx|e| |] eqn:E; [|by intros ?%IH; cbn [length]; lia|done..].
    intros Hacc%IH. apply BatcherTransaction_new_left in E. rewrite txs_left_app in Hacc.
    change (txs_left [tx]) with (S (length (frames tx)) + 0)%nat in Hacc. cbn [length]. lia.
Qed.

Lemma process_messages_left rx acc acc' :
  process_messages rx acc = Ok acc' ->
  (txs_left acc' <= txs_left acc + sum_list_with (fun msg => 2 * length (msg_txs msg)) rx)%nat.
Proof.
  revert acc. induction rx as [|msg rx IH]; intros acc; cbn [process_messages sum_list_with].
  - intros [= <-]. lia.
  - intros (acc1 & H1%process_txs_left & H2%IH)%bind_Ok. lia.
Qed.

#[export] Instance BatcherTransactions_shrinks {R} :
  IteratorShrinks (@BatcherTransactions_iter R) queue_left (fun tx => length (frames tx)).
Proof.
  split. intros r s o s' E. change (BatcherTransactions_next s = (o, s')) in E.
  unfold BatcherTransactions_next, process_incoming in E. run_M in E. unfold queue_left.
  destruct (process_messages (transaction_rx s) (txs s)) as [acc| | |] eqn:Em; [|by injection E as <- <-..].
  apply process_messages_left in Em. unfold pop_front in E. cbn [txs transaction_rx] in E.
  destruct acc as [|tx acc]; injection E as <- <-; cbn [txs transaction_rx sum_list_with]; [cbn; lia|].
  change (txs_left (tx :: acc)) with (S (length (frames tx)) + txs_left acc)%nat in Em. lia.
Qed.

#[export] Instance BatcherTransactions_ends {R} Inv : IteratorEnds (@BatcherTransactions_iter R) Inv.
Proof.
  split. intros r s _. change (next r s) with (BatcherTransactions_next s).
  unfold BatcherTransactions_next, process_incoming. run_M.
  destruct (process_messages_outcome (transaction_rx s) (txs s)) as [[acc ->]| ->]; [|done].
  unfold pop_front. by destruct acc.
Qed.

(** ** The channel bank *)

Section channels.
Context {R I : Type} `{it : PurgeableIterator R I BatcherTransaction}.
Implicit Types s : Channels I.

Lemma push_frame_frame f s :
  batcher_tx_iter (Channels_push_frame f s) = batcher_tx_iter s /\ frame_bank (Channels_push_frame f s) = frame_bank s.
Proof. unfold Channels_push_frame. destruct (list_find _ _) as [[i pc]|]; [|done]. by destruct (is_timed_out _ _). Qed.

Lemma prune_frame s s' :
  Channels_prune s = Ok s' -> batcher_tx_iter s' = batcher_tx_iter s /\ frame_bank s' = frame_bank s.
Proof.
  set (P := fun s' => batcher_tx_iter s' = batcher_tx_iter s /\ frame_bank s' = frame_bank s).
  intros Ep. change (P s'). revert Ep. apply (loop_invariant _ P P); [| |done].
  - intros s1 s2 Hs E. unfold prune_body, Channels_remove in E. destruct (_ <? _); [|done].
    by destruct (pending_channels s1) as [|pc pcs]; [|injection E as <-].
  - intros s1 s2 Hs E. unfold prune_body, Channels_remove in E. destruct (_ <? _); [|by injection E as <-].
    by destruct (pending_channels s1).
Qed.

Lemma prune_not_Diverge s : Channels_prune s <> Diverge.
Proof.
  apply (loop_terminates _ (fun _ => True) (fun s => length (pending_channels s))); [| |done|lia].
  - intros s1 _. unfold prune_body, Channels_remove. destruct (_ <? _); [|done]. by destruct (pending_channels s1).
  - intros s1 s2 _ E. unfold prune_body, Channels_remove in E. destruct (_ <? _); [|done].
    destruct (pending_channels s1) as [|pc pcs]; [done|]. injection E as <-. cbn. split; [done|lia].
Qed.

Lemma fetch_ready_channel_frame id s o s' :
  fetch_ready_channel id s = Ok (o, s') -> batcher_tx_iter s' = batcher_tx_iter s /\ frame_bank s' = frame_bank s.
Proof.
  unfold fetch_ready_channel. destruct (list_find _ _) as [[i pc]|]; [|by intros [= _ <-]].
  by intros (ch & _ & [= _ <-])%bind_Ok.
Qed.

(** One iteration takes one frame. *)
Lemma process_frames_body_left s r :
  process_frames_body s = Ok r ->
  let s' := match r with inl s' => s' | inr (_, s') => s' end in
  batcher_tx_iter s' = batcher_tx_iter s /\
  match r with
  | inr (None, _) => s' = s
  | _ => S (length (frame_bank s')) = length (frame_bank s)
  end.
Proof.
  unfold process_frames_body. destruct (frame_bank s) as [|f bank]; [by intros [= <-]|].
  intros (s1 & Hp%prune_frame & E)%bind_Ok. apply bind_Ok in E as ([o s2] & Hf%fetch_ready_channel_frame & E).
  destruct (push_frame_frame f (set_bank bank s)) as [Hi Hb]. destruct Hp as [Hp1 Hp2], Hf as [Hf1 Hf2].
  rewrite Hp1, Hi in Hf1. rewrite Hp2, Hb in Hf2.
  destruct o as [ch|]; injection E as <-; cbn; rewrite Hf2; (split; [by rewrite Hf1|done]).
Qed.

Lemma process_frames_body_not_Diverge s : process_frames_body s <> Diverge.
Proof.
  unfold process_frames_body. destruct (frame_bank s) as [|f bank]; [done|].
  apply bind_not_Diverge; [apply prune_not_Diverge|]. intros s1 _. apply bind_not_Diverge.
  - unfold fetch_ready_channel. destruct (list_find _ _) as [[i pc]|]; [|done].
    apply bind_not_Diverge; [|done]. unfold Channel_from, PendingChannel_l1_inclusion_block. not_Diverge.
  - by intros [[ch|] s2] _.
Qed.

Lemma process_bank_left s o s' :
  process_bank s = (o, s') ->
  o <> Diverge /\ batcher_tx_iter s' = batcher_tx_iter s /\
  match o with
  | Ok (Some _) => (length (frame_bank s') < length (frame_bank s))%nat
  | _ => (length (frame_bank s') <= length (frame_bank s))%nat
  end.
Proof.
  unfold process_bank. intros E.
  assert (Hd : loop (S (length (frame_bank s))) process_frames_body s <> Diverge).
  { apply (loop_terminates _ (fun _ => True) (fun s => length (frame_bank s))); [| |done|lia].
    - intros s1 _. apply process_frames_body_not_Diverge.
    - intros s1 s2 _ [_ Hb]%process_frames_body_left. cbn in Hb. lia. }
  destruct (loop _ _ s) as [[o1 s1]| | |] eqn:El; [|by injection E as <- <-..|done].
  injection E as <- <-. split; [done|].
  set (Q := fun r : option Channel * Channels I => batcher_tx_iter r.2 = batcher_tx_iter s /\ match r.1 with
    | Some _ => (length (frame_bank r.2) < length (frame_bank s))%nat
    | None => (length (frame_bank r.2) <= length (frame_bank s))%nat end).
  change (Q (o1, s1)). revert El.
  apply (loop_invariant _ (fun s1 => batcher_tx_iter s1 = batcher_tx_iter s /\
      (length (frame_bank s1) <= length (frame_bank s))%nat) Q); [| |done].
  - intros s2 s3 [Hi Hl] [Hi' Hl']%process_frames_body_left. cbn in *. split; [congruence|lia].
  - intros s2 [[ch|] s3] [Hi Hl] [Hi' Hl']%process_frames_body_left; unfold Q; cbn in *; (split; [congruence|]); [lia|by subst].
Qed.

Definition bank_left (mu : I -> nat) s : nat := (mu (batcher_tx_iter s) + length (frame_bank s))%nat.

#[export] Instance Channels_shrinks mu `{!IteratorShrinks it mu (fun tx => length (frames tx))} :
  IteratorShrinks Channels_iter (bank_left mu) (fun _ => 0%nat).
Proof.
  split. intros r s o s' E. change (process_frames r s = (o, s')) in E. unfold process_frames, mbind, M_bind in E.
  rewrite fill_bank_eq in E. destruct (next r (batcher_tx_iter s)) as [ro i] eqn:En.
  apply next_shrinks in En. unfold bank_left.
  destruct ro as [[tx|]| | |]; try (injection E as <- <-; cbn; lia);
    apply process_bank_left in E as (_ & Hi & Hl); rewrite Hi; cbn [batcher_tx_iter frame_bank set_bank set_iter] in *;
    rewrite ?length_app in Hl; destruct o as [[ch|]| | |]; lia.
Qed.

#[export] Instance Channels_ends (Inv : I -> Prop) max timeout `{!IteratorEnds it Inv} :
  IteratorEnds Channels_iter (channels_inv Inv max timeout).
Proof.
  split. intros r s [Hi _]. change (next r s) with (process_frames r s). unfold process_frames, mbind, M_bind.
  rewrite fill_bank_eq. pose proof (next_ends r (batcher_tx_iter s) Hi) as Hn.
  destruct (next r (batcher_tx_iter s)) as [[[tx|]| | |] i]; try done;
    (destruct (process_bank _) as [o s'] eqn:E; by apply process_bank_left in E as [? _]).
Qed.
End channels.

(** ** The batch queue *)

(** What the queue has left: channels to read, batches to check, inputs to hand out. *)
Abbreviation Rank := (nat * (nat * nat))%type (only parsing).

Definition rank_lt : Rank -> Rank -> Prop := slexprod nat (nat * nat) lt (slexprod nat nat lt lt).

Lemma rank_lt_wf : well_founded rank_lt.
Proof. apply slex_wf, slex_wf, Nat.lt_wf_0. Qed.

Definition rank_le (x y : Rank) : Prop :=
  (x.1 <= y.1)%nat /\ (x.1 = y.1 -> (x.2.1 <= y.2.1)%nat /\ (x.2.1 = y.2.1 -> (x.2.2 <= y.2.2)%nat)).

Lemma derived_size state config m o m' :
  derived state config m o m' ->
  (size m' <= size m)%nat /\ (is_Some o -> (size m' < size m)%nat).
Proof.
  intros [Hsub _ Hpick]. split; [by apply map_subseteq_size|]. intros [b ->].
  destruct Hpick as (_ & Hin & Hout). apply map_subset_size. apply map_subset_alt. split; [done|].
  exists (Batch_timestamp config b). by rewrite Hin, Hout.
Qed.

Section batches.
Context {I : Type} `{it : PurgeableIterator State I Channel} `{RlpDecoder, Varint, Codec, Zlib}.
Implicit Types s : Batches I.

Definition queue_rank (mu : I -> nat) s : Rank := (mu (channel_iter s), (size (batches s), length (pending_inputs s))).

Lemma derive_input_rank mu state s o s' :
  batches_keyed (bs_config s) (batches s) -> pending_inputs s = [] -> derive_input state s = (Ok (Some o), s') ->
  rank_lt (queue_rank mu s') (queue_rank mu s) \/
  rank_le (queue_rank mu s') (queue_rank mu s) /\ empty_input state (bs_config s) = Some o.
Proof.
  intros Hm Hp (_ & Hi & rest & Hp' & picked & Hd & Ho)%derive_input_Ok; [|done].
  apply derived_size in Hd as [Hle Hlt]. unfold queue_rank. rewrite Hi. destruct picked as [b|].
  - left. apply slex_le; [done|]. intros _. apply left_slex. by apply Hlt.
  - destruct Ho as [Ho ->]. right. rewrite Hp', Hp. split; [|done].
    split; cbn; [done|]. intros _. by split.
Qed.

Lemma read_channel_rank mu `{!IteratorShrinks it mu (fun _ => 0%nat)} state s s' :
  read_channel state s = (Ok tt, s') ->
  pending_inputs s' = pending_inputs s /\ bs_config s' = bs_config s /\
  ((mu (channel_iter s') < mu (channel_iter s))%nat \/
   (mu (channel_iter s') <= mu (channel_iter s))%nat /\ batches s' = batches s).
Proof.
  unfold read_channel. run_M. intros E. destruct (next state (channel_iter s)) as [o i] eqn:En.
  apply next_shrinks in En. destruct o as [[ch|]| | |]; try done.
  - cbn [bs_config set_channel_iter] in E. destruct (decode_batches _ _) as [l| | |]; [|done..].
    injection E as <-. cbn. split_and!; [done..|]. left. lia.
  - injection E as <-. cbn. split_and!; [done..|]. by right.
Qed.

(** Each input that the queue yields is consumed from what it has left, or is the
    empty block of the state. *)
Lemma Batches_next_rank mu `{!IteratorShrinks it mu (fun _ => 0%nat)} state s x s' :
  batches_keyed (bs_config s) (batches s) -> Batches_next state s = (Ok (Some x), s') ->
  rank_lt (queue_rank mu s') (queue_rank mu s) \/
  rank_le (queue_rank mu s') (queue_rank mu s) /\ empty_input state (bs_config s) = Some x.
Proof.
  intros Hm E. unfold Batches_next in E. destruct (try_next state s) as [r s1] eqn:Et.
  assert (r = Ok (Some x) /\ s1 = s') as [-> ->] by (destruct r; by simplify_eq). clear E.
  unfold try_next in Et. destruct (pending_inputs s) as [|i l] eqn:Ep.
  - apply M_bind_Ok in Et as ([] & s1 & Er & Et).
    pose proof Er as Hk. apply read_channel_inv in Hk as (_ & _ & Hk); [|done].
    apply (read_channel_rank mu) in Er as (Hp & Hc & Hr). rewrite <- Hc in Hk.
    apply (derive_input_rank mu) in Et; [|done|by rewrite Hp]. rewrite Hc in Et.
    destruct Hr as [Hlt|[Hle Hb]].
    + left. unfold queue_rank in *. destruct Et as [Et|[[Et _] _]]; [|apply left_slex; cbn in Et; lia].
      apply left_slex. inversion Et; subst; lia.
    + unfold queue_rank in *. rewrite Hb, Hp in Et. destruct Et as [Et|[[Et1 Et2] Hx]].
      * left. inversion Et as [? ? ? ? Hlt|? ? ? Hlt]; subst; [apply left_slex; lia|].
        apply slex_le; [lia|by intros _].
      * right. split; [|done]. cbn in *. rewrite Ep in *. split; cbn; [lia|]. intros Heq. apply Et2. lia.
  - injection Et as <- <-. left. unfold queue_rank. cbn. rewrite Ep.
    do 2 apply right_slex. cbn. lia.
Qed.

#[export] Instance Batches_ends (Inv : I -> Prop) config `{!IteratorEnds it Inv} :
  IteratorEnds Batches_iter (batches_inv Inv config).
Proof.
  split. intros state s (Hi & <- & Hk). change (next state s) with (Batches_next state s).
  unfold Batches_next. assert (Ht : (try_next state s).1 <> Diverge); [|by destruct (try_next state s) as [[]]].
  unfold try_next. destruct (pending_inputs s); [|done]. run_M.
  destruct (read_channel state s) as [r s1] eqn:Er.
  assert (Hr : r <> Diverge).
  { unfold read_channel in Er. run_M in Er. pose proof (next_ends state (channel_iter s) Hi) as Hn.
    destruct (next state (channel_iter s)) as [[[ch|]| | |] i]; try (by injection Er as <- <-).
    pose proof (decode_batches_not_Diverge ch (l2_chain_id (chain (bs_config s)))) as Hd.
    cbn [bs_config set_channel_iter] in Er. destruct (decode_batches _ _); try (by injection Er as <- <-). }
  apply read_channel_inv in Er as (Hc & _ & Hk'); [|done]. destruct r as [[]| | |]; [|done..].
  rewrite <- Hc in Hk'. unfold derive_input. run_M. pose proof (derive_batch_not_Diverge state _ _ Hk') as Hd.
  destruct (derive_batch _ _ _) as [[[b|] m]| | |]; [|done..]. run_M.
  assert (Ha : as_inputs (bs_config s1) b <> Diverge) by (destruct b; cbn; [done|apply block_inputs_not_Diverge]).
  destruct (as_inputs _ b) as [l| | |]; [|done..]. by destruct (filter_inputs state l).
Qed.
End batches.

(** ** Empty blocks

    Once the sequencing window has passed without a batch, the queue makes empty blocks
    from the state alone.  Each moves the safe head: to the next epoch, of which there
    are finitely many before the current L1 block, or towards the time of the next
    epoch.  The numbers wrap around, so the distance in epochs also counts those
    behind the current one. *)

Definition epochs_left (s : State) : Z :=
  let n := ep_number (safe_epoch s) in
  let current := current_epoch_num s in
  if bool_decide (in_u64 n)
  then if n <? current then current - n else 2 ^ 64 - n + current + 1
  else 2 ^ 64 + current + 3.

Definition time_left (s : State) : Z :=
  match epoch_by_number s (u64_add (ep_number (safe_epoch s)) 1) with
  | Some next =>
      if bi_timestamp (safe_head s) <? ep_timestamp next
      then ep_timestamp next - bi_timestamp (safe_head s) else ep_timestamp next + 1
  | None => 0
  end.

Definition clock_rank (s : State) : nat * nat := (Z.to_nat (epochs_left s), Z.to_nat (time_left s)).

(** The bounds under which the distances decrease: the window and the times of the
    L1 blocks do not overflow, and a cached block has the number it is cached for. *)
Record clock_ok (config : Config) (s : State) : Prop := {
  clock_blocktime : 0 < blocktime (chain config) < 2 ^ 63;
  clock_window : 0 <= seq_window_size (chain config) /\ 0 <= current_epoch_num s /\
    current_epoch_num s + seq_window_size (chain config) < 2 ^ 64;
  clock_epochs : forall n e, epoch_by_number s n = Some e ->
    ep_number e = n /\ 0 <= ep_timestamp e /\ ep_timestamp e + blocktime (chain config) <= 2 ^ 64
}.

Lemma epochs_left_next (w : Z) s s' :
  0 <= current_epoch_num s /\ 0 <= w /\ current_epoch_num s + w < 2 ^ 64 ->
  current_epoch_num s' = current_epoch_num s ->
  ep_number (safe_epoch s') = u64_add (ep_number (safe_epoch s)) 1 ->
  u64_add (ep_number (safe_epoch s')) w < current_epoch_num s ->
  0 <= epochs_left s' < epochs_left s.
Proof.
  intros Hw Hc Hn Hg. unfold epochs_left. cbn zeta. rewrite Hc, Hn in *. clear Hn Hc.
  change (2 ^ 64) with 18446744073709551616 in *.
  set (n := ep_number (safe_epoch s)) in *. set (c := current_epoch_num s) in *. clearbody n c.
  pose proof (u64_range (n + 1)) as Hr. change (u64 (n + 1)) with (u64_add n 1) in Hr.
  rewrite (bool_decide_eq_true_2 _ Hr). unfold in_u64 in Hr.
  pose proof (u64_range (u64_add n 1 + w)) as Hr'. change (u64 (u64_add n 1 + w)) with (u64_add (u64_add n 1) w) in Hr'.
  case_bool_decide as Hu.
  - unfold in_u64 in Hu. destruct (decide (n = 18446744073709551615)) as [->|Hne].
    + change (u64_add 18446744073709551615 1) with 0 in *. unfold in_u64 in Hr'.
      destruct (Z.ltb_spec 18446744073709551615 c), (Z.ltb_spec 0 c); lia.
    + rewrite (u64_add_small n 1) in * by (unfold in_u64; lia).
      destruct (decide (n + 1 + w < 18446744073709551616)).
      * rewrite u64_add_small in Hg by (unfold in_u64; lia).
        destruct (Z.ltb_spec n c), (Z.ltb_spec (n + 1) c); lia.
      * destruct (Z.ltb_spec n c), (Z.ltb_spec (n + 1) c); lia.
  - destruct (Z.ltb_spec (u64_add n 1) c); lia.
Qed.

(** An empty block moves the clock. *)
Lemma empty_input_clock config s x e s' :
  clock_ok config s -> empty_input s config = Some x -> epoch_by_number s (bin_epoch x) = Some e ->
  bi_timestamp (safe_head s') = bin_timestamp x -> safe_epoch s' = e ->
  (forall n, epoch_by_number s' n = epoch_by_number s n) -> current_epoch_num s' = current_epoch_num s ->
  slexprod nat nat lt lt (clock_rank s') (clock_rank s).
Proof.
  intros [Hb [Hw Hcur] He] Hx Hepoch Ht Hs' Hsame Hc. unfold empty_input in Hx. cbn zeta in Hx.
  apply He in Hepoch as Hnum. destruct Hnum as [Hnum _]. rewrite <- Hs' in Hnum. clear Hs' Hepoch.
  destruct (epoch_by_number s (u64_add (ep_number (safe_epoch s)) 1)) as [next|] eqn:En; [|done].
  pose proof (He _ _ En) as (Hnext & Ht1 & Ht2).
  destruct (Z.ltb_spec (u64_add (ep_number (safe_epoch s)) (seq_window_size (chain config))) (current_epoch_num s)); [|done].
  set (t := u64_add (bi_timestamp (safe_head s)) (blocktime (chain config))) in *.
  pose proof (u64_range (bi_timestamp (safe_head s) + blocktime (chain config))) as Hr.
  change (u64 _) with t in Hr. unfold in_u64 in Hr.
  destruct (Z.ltb_spec t (ep_timestamp next)) as [Hlt|Hge].
  - injection Hx as <-. cbn in Ht, Hnum. apply slex_le.
    + unfold epochs_left. by rewrite Hnum, Hc.
    + intros _. unfold time_left. rewrite Hsame, Hnum, En, Ht.
      destruct (Z.ltb_spec t (ep_timestamp next)); [|lia].
      destruct (Z.ltb_spec (bi_timestamp (safe_head s)) (ep_timestamp next)); [|lia].
      assert (t = bi_timestamp (safe_head s) + blocktime (chain config) \/ bi_timestamp (safe_head s) < 0) as [->|Hneg]; [|lia|].
      * destruct (decide (0 <= bi_timestamp (safe_head s))); [left|right; lia].
        apply u64_add_small. unfold in_u64. change (2 ^ 64) with 18446744073709551616 in *. lia.
      * lia.
  - destruct (Z.ltb_spec (u64_add (ep_number next) (seq_window_size (chain config))) (current_epoch_num s)) as [Hg|]; [|done].
    injection Hx as <-. cbn in Hnum. apply left_slex.
    destruct (epochs_left_next (seq_window_size (chain config)) s s'); [lia|done|congruence|by rewrite Hnum|lia].
Qed.

(** ** The attributes and the pipeline *)

(** The library functions that answer. *)
Class ToBeBytes8Ends `{ToBeBytes8} := {
  to_be_bytes_8_ends : forall z, to_be_bytes_8 z <> Diverge
}.

(** The attributes made of a block input. *)
Definition made_of (state : State) (x : BlockInput Z) (a : PayloadAttributes) : Prop :=
  exists e, pa_epoch a = Some e /\ epoch_by_number state (bin_epoch x) = Some e /\ pa_timestamp a = bin_timestamp x.

Section attributes.
Context {I : Type} `{it : PurgeableIterator State I (BlockInput Z)} `{Keccak, Codec, TransactionRlp, ToBeBytes8}.
Implicit Types s : Attributes I.

Lemma Attributes_next_made state s a s' :
  Attributes_next state s = (Ok (Some a), s') ->
  exists x i, next state (block_input_iter s) = (Ok (Some x), i) /\ block_input_iter s' = i /\ made_of state x a.
Proof.
  unfold Attributes_next. run_M. destruct (next state (block_input_iter s)) as [[[x|]| | |] i]; try done.
  unfold with_full_epoch. destruct (epoch_by_number state (bin_epoch x)) as [e|] eqn:Ee; [|done].
  cbn [ok_or]. rewrite bind_ret. cbn [ok unwrap]. rewrite derive_attributes_eq. cbn zeta.
  destruct (l1_info_by_hash state _) as [info|]; [|done]. destruct (converted_gas info) as [b| | |]; [|done..].
  intros [= <- <-]. exists x, i. split; [done|]. split; [done|]. exists e. by cbn.
Qed.

#[export] Instance Attributes_ends (Inv : I -> Prop) config `{!IteratorEnds it Inv, !ToBeBytes8Ends} :
  IteratorEnds Attributes_iter (attributes_inv Inv config).
Proof.
  split. intros state s [Hi _]. change (next state s) with (Attributes_next state s).
  unfold Attributes_next. run_M. pose proof (next_ends state (block_input_iter s) Hi) as Hn.
  destruct (next state (block_input_iter s)) as [[[x|]| | |] i]; [|done..|by cbn in Hn].
  unfold with_full_epoch. destruct (epoch_by_number state (bin_epoch x)) as [e|] eqn:Ee; [|done].
  cbn [ok_or]. rewrite bind_ret. cbn [ok unwrap]. rewrite derive_attributes_eq. cbn zeta.
  destruct (l1_info_by_hash state _) as [info|]; [|done].
  pose proof (to_be_bytes_8_ends (gas_limit (l1i_system_config info))) as Hb.
  unfold converted_gas. by destruct (to_be_bytes_8 _) as [b| | |].
Qed.
End attributes.

Section pipeline.
Context `{Keccak, Codec, RlpDecoder, Varint, Zlib, TransactionRlp, ToBeBytes8}.

(** What the pipeline has left: attributes set aside, then what the queue has. *)
Definition pipeline_rank (p : Pipeline) : nat * Rank :=
  (match pending_attributes p with Some _ => 1%nat | None => 0%nat end,
   queue_rank (bank_left queue_left) (block_input_iter (attributes p))).

Definition pipeline_rank_lt : nat * Rank -> nat * Rank -> Prop := slexprod nat Rank lt rank_lt.

Lemma Pipeline_next_rank config state p a p' :
  pipeline_inv config p -> Pipeline_next state p = (Ok (Some a), p') ->
  pipeline_rank_lt (pipeline_rank p') (pipeline_rank p) \/
  (pipeline_rank p').1 = (pipeline_rank p).1 /\ rank_le (pipeline_rank p').2 (pipeline_rank p).2 /\
  exists x, empty_input state config = Some x /\ made_of state x a.
Proof.
  intros [[[Hb [Hc Hk]] _] _] E. unfold Pipeline_next in E. unfold pipeline_rank.
  destruct (pending_attributes p) as [a'|] eqn:Ep.
  - injection E as <- <-. left. apply left_slex. cbn. lia.
  - unfold zoom in E. destruct (next state (attributes p)) as [o s'] eqn:En. injection E as -> <-.
    apply Attributes_next_made in En as (x & i & En & Hi & Hm).
    change (Batches_next state (block_input_iter (attributes p)) = (Ok (Some x), i)) in En.
    apply (Batches_next_rank (bank_left queue_left)) in En; [|by rewrite Hc]. rewrite Hc in En.
    cbn [pending_attributes attributes set_attributes]. rewrite Ep, Hi.
    destruct En as [Hlt|[Hle Hx]]; [left; by apply right_slex|right]. split; [done|]. split; [done|]. by exists x.
Qed.

Lemma Pipeline_next_ends config state p `{!ToBeBytes8Ends} :
  pipeline_inv config p -> (Pipeline_next state p).1 <> Diverge.
Proof.
  intros [Hs _]. unfold Pipeline_next. destruct (pending_attributes p); [done|]. unfold zoom.
  assert (Hi : IteratorEnds (Attributes_iter (I := Batches (Channels BatcherTransactions))) (stages_inv config))
    by (unfold stages_inv, bank_of, queue_of; apply _).
  pose proof (next_ends state (attributes p) Hs) as Hn. by destruct (next state (attributes p)).
Qed.
End pipeline.
