(* ===== verification/EngineDriver.v ===== *)
(** The engine driver (src/src/driver/engine_driver.rs): the heads of the L2 chain
    and the exchanges with the execution client that move them.

    The client is a type [E] with the [Engine] calls and the block query of the L2
    provider; its state is a field of the driver's, so a call of the client is a
    step of the driver that can change nothing else. *)
From S2P Require Import Prelude Common Config Deposits Engine.

(** ** Data *)

Record EngineDriver (E : Type) := {
  engine : E;
  ed_blocktime : Z;
  unsafe_head : BlockInfo;
  ed_safe_head : BlockInfo;
  ed_safe_epoch : Epoch;
  finalized_head : BlockInfo;
  finalized_epoch : Epoch
}.

Arguments Build_EngineDriver {E}.
Arguments engine {E}.
Arguments ed_blocktime {E}.
Arguments unsafe_head {E}.
Arguments ed_safe_head {E}.
Arguments ed_safe_epoch {E}.
Arguments finalized_head {E}.
Arguments finalized_epoch {E}.

(** ** Operations *)

(** [/] on [i64] panics on a zero divisor and on overflow. *)
Definition i64_div (a b : Z) : outcome Z :=
  if b =? 0 then Panic
  else if (a =? -9223372036854775808) && (b =? -1) then Panic
  else Ok (Z.quot a b).

(** [&&] on computations. *)
Definition and_then (a b : outcome bool) : outcome bool :=
  x ← a; if x : bool then b else Ok false.

Section should_skip.
Context `{Keccak}.

Definition should_skip (block : Block) (attributes : PayloadAttributes) : outcome bool :=
  transactions ← unwrap (pa_transactions attributes);
  let attributes_hashes := keccak256 <$> transactions in
  let block_hashes := tx_hash <$> blk_transactions block in
  and_then (Ok (bool_decide (attributes_hashes = block_hashes)))
  (and_then ((fun t => pa_timestamp attributes =? t) <$> as_u64 (blk_timestamp block))
  (and_then ((fun h => bool_decide (pa_prev_randao attributes = h)) <$> unwrap (blk_mix_hash block))
  (and_then ((fun a => bool_decide (pa_suggested_fee_recipient attributes = a)) <$> unwrap (blk_author block))
            ((fun g => pa_gas_limit attributes =? g) <$> as_u64 (blk_gas_limit block))))).
End should_skip.

Section EngineDriver.
Context {E : Type} `{Engine E, BlockProvider E, Keccak}.
Implicit Types d : EngineDriver E.

Definition EngineDriver_new (engine : E) (finalized_head : BlockInfo) (finalized_epoch : Epoch) (config : Config)
    : EngineDriver E :=
  {| engine := engine;
     ed_blocktime := blocktime (chain config);
     unsafe_head := finalized_head;
     ed_safe_head := finalized_head;
     ed_safe_epoch := finalized_epoch;
     finalized_head := finalized_head;
     finalized_epoch := finalized_epoch |}.

Definition set_engine (e : E) d : EngineDriver E :=
  {| engine := e; ed_blocktime := ed_blocktime d; unsafe_head := unsafe_head d; ed_safe_head := ed_safe_head d;
     ed_safe_epoch := ed_safe_epoch d; finalized_head := finalized_head d; finalized_epoch := finalized_epoch d |}.

Definition set_unsafe_head (b : BlockInfo) d : EngineDriver E :=
  {| engine := engine d; ed_blocktime := ed_blocktime d; unsafe_head := b; ed_safe_head := ed_safe_head d;
     ed_safe_epoch := ed_safe_epoch d; finalized_head := finalized_head d; finalized_epoch := finalized_epoch d |}.

Definition set_safe_head (b : BlockInfo) (e : Epoch) d : EngineDriver E :=
  {| engine := engine d; ed_blocktime := ed_blocktime d; unsafe_head := unsafe_head d; ed_safe_head := b;
     ed_safe_epoch := e; finalized_head := finalized_head d; finalized_epoch := finalized_epoch d |}.

(** [EngineDriver::update_finalized]. *)
Definition ed_update_finalized (head : BlockInfo) (epoch : Epoch) d : EngineDriver E :=
  {| engine := engine d; ed_blocktime := ed_blocktime d; unsafe_head := unsafe_head d;
     ed_safe_head := ed_safe_head d; ed_safe_epoch := ed_safe_epoch d;
     finalized_head := head; finalized_epoch := epoch |}.

Definition reorg d : EngineDriver E :=
  {| engine := engine d; ed_blocktime := ed_blocktime d; unsafe_head := finalized_head d;
     ed_safe_head := finalized_head d; ed_safe_epoch := finalized_epoch d;
     finalized_head := finalized_head d; finalized_epoch := finalized_epoch d |}.

(** A call of the client. *)
Definition call {A} (m : M E A) : M (EngineDriver E) A := zoom engine set_engine m.

Definition create_forkchoice_state d : ForkchoiceState :=
  {| head_block_hash := bi_hash (unsafe_head d);
     safe_block_hash := bi_hash (ed_safe_head d);
     finalized_block_hash := bi_hash (finalized_head d) |}.

(** [EngineDriver::engine_ready]; a panic of the call unwinds. *)
Definition engine_ready : M (EngineDriver E) bool := fun d =>
  let forkchoice := create_forkchoice_state d in
  match call (forkchoice_updated forkchoice None) d with
  | (Ok _, d) => (Ok true, d)
  | (Err _, d) => (Ok false, d)
  | (Panic, d) => (Panic, d)
  | (Diverge, d) => (Diverge, d)
  end.

Definition update_forkchoice : M (EngineDriver E) unit :=
  forkchoice ← gets create_forkchoice_state;
  update ← call (forkchoice_updated forkchoice None);
  if negb (bool_decide (status (payload_status update) = Valid))
  then lift (Err "could not accept new forkchoice")
  else mret tt.

Definition push_payload (payload : ExecutionPayload) : M (EngineDriver E) unit :=
  st ← call (new_payload payload);
  if negb (bool_decide (status st = Valid)) && negb (bool_decide (status st = Accepted))
  then lift (Err "invalid execution payload")
  else mret tt.

Definition build_payload (attributes : PayloadAttributes) : M (EngineDriver E) ExecutionPayload :=
  forkchoice ← gets create_forkchoice_state;
  update ← call (forkchoice_updated forkchoice (Some attributes));
  if negb (bool_decide (status (payload_status update) = Valid))
  then lift (Err "invalid payload attributes")
  else
    id ← lift (ok_or (payload_id update) "engine did not return payload id");
    call (get_payload id).

Definition update_safe_head (new_head : BlockInfo) (new_epoch : Epoch) (reorg_unsafe : bool) d : EngineDriver E :=
  let d := if negb (bool_decide (ed_safe_head d = new_head)) then set_safe_head new_head new_epoch d else d in
  if reorg_unsafe || (bi_number (unsafe_head d) <? bi_number (ed_safe_head d))
  then set_unsafe_head new_head d else d.

Definition skip_attributes (attributes : PayloadAttributes) (block : Block) : M (EngineDriver E) unit :=
  new_epoch ← lift (unwrap (pa_epoch attributes));
  new_head ← lift (BlockInfo_try_from block);
  modify (update_safe_head new_head new_epoch false) ;;
  update_forkchoice.

Definition process_attributes (attributes : PayloadAttributes) : M (EngineDriver E) unit :=
  new_epoch ← lift (unwrap (pa_epoch attributes));
  payload ← build_payload attributes;
  let new_head :=
    {| bi_number := pl_block_number payload;
       bi_hash := pl_block_hash payload;
       bi_parent_hash := pl_parent_hash payload;
       bi_timestamp := pl_timestamp payload |} in
  push_payload payload ;;
  modify (update_safe_head new_head new_epoch true) ;;
  update_forkchoice.

(** The block number that [block_at] asks for. *)
Definition block_num_at (timestamp : Z) d : outcome Z :=
  let time_diff := i64 (i64 timestamp - i64 (bi_timestamp (finalized_head d))) in
  blocks ← i64_div time_diff (i64 (ed_blocktime d));
  let block_num := i64 (i64 (bi_number (finalized_head d)) + blocks) in
  Ok (u64 block_num).

(** [EngineDriver::block_at]; an error of the provider is no block. *)
Definition block_at (timestamp : Z) : M (EngineDriver E) (option Block) := fun d =>
  match block_num_at timestamp d with
  | Ok n =>
      match call (get_block_with_txs n) d with
      | (Err _, d) => (Ok None, d)
      | r => r
      end
  | Err e => (Err e, d)
  | Panic => (Panic, d)
  | Diverge => (Diverge, d)
  end.

Definition handle_attributes (attributes : PayloadAttributes) : M (EngineDriver E) unit :=
  block ← block_at (pa_timestamp attributes);
  match block with
  | Some block =>
      skip ← lift (should_skip block attributes);
      if skip : bool then skip_attributes attributes block
      else
        modify (fun d => set_unsafe_head (ed_safe_head d) d) ;;
        process_attributes attributes
  | None => process_attributes attributes
  end.

Definition handle_unsafe_payload (payload : ExecutionPayload) : M (EngineDriver E) unit :=
  push_payload payload ;;
  modify (set_unsafe_head (BlockInfo_from_payload payload)) ;;
  update_forkchoice.
End EngineDriver.

(** ** Lemmas *)

Lemma and_then_true a b : and_then a b = Ok true <-> a = Ok true /\ b = Ok true.
Proof. unfold and_then. destruct a as [[]| | |]; cbn; naive_solver. Qed.

(** The block that some attributes describe. *)
Record describes `{Keccak} (attributes : PayloadAttributes) (block : Block) : Prop := {
  describes_transactions : exists l, pa_transactions attributes = Some l /\
    keccak256 <$> l = tx_hash <$> blk_transactions block;
  describes_timestamp : in_u64 (pa_timestamp attributes) -> blk_timestamp block = pa_timestamp attributes;
  describes_randao : blk_mix_hash block = Some (pa_prev_randao attributes);
  describes_fee_recipient : blk_author block = Some (pa_suggested_fee_recipient attributes);
  describes_gas_limit : blk_gas_limit block = pa_gas_limit attributes
}.

Lemma unwrap_Ok {A} (o : option A) a : unwrap o = Ok a <-> o = Some a.
Proof. destruct o; cbn; naive_solver. Qed.

Lemma should_skip_describes `{Keccak} block attributes :
  should_skip block attributes = Ok true -> describes attributes block.
Proof.
  unfold should_skip. intros E. apply bind_Ok in E as (l & Hl & E). apply unwrap_Ok in Hl.
  rewrite !and_then_true, !fmap_Ok in E.
  destruct E as (E1 & (t & Ht & E2) & (h & Hh & E3) & (a & Ha & E4) & (g & Hg & E5)).
  injection E1 as E1. apply bool_decide_eq_true in E1, E3, E4. apply Z.eqb_eq in E2, E5.
  apply unwrap_Ok in Hh, Ha. apply as_u64_Ok in Ht as [Ht _], Hg as [Hg _]. split; try congruence.
  - eauto.
Qed.

Lemma BlockInfo_try_from_fields block head :
  BlockInfo_try_from block = Ok head ->
  blk_number block = Some (bi_number head) /\ blk_hash block = Some (bi_hash head) /\
  blk_parent_hash block = bi_parent_hash head /\ blk_timestamp block = bi_timestamp head.
Proof.
  unfold BlockInfo_try_from. intros Hh. simpl_outcome.
  destruct (blk_number block), (blk_hash block); simplify_eq/=.
  match goal with Hx : as_u64 _ = Ok _ |- _ => apply as_u64_Ok in Hx as [Hx _] end. done.
Qed.

Section lemmas.
Context {E : Type} `{Engine E, BlockProvider E, Keccak}.
Implicit Types d : EngineDriver E.

Lemma call_eq {A} (m : M E A) d r d' :
  call m d = (r, d') <-> exists e, m (engine d) = (r, e) /\ d' = set_engine e d.
Proof.
  unfold call, zoom. destruct (m (engine d)) as [r0 e0]. split; [intros [= <- <-]; eauto|].
  intros (e & [= <- <-] & ->). done.
Qed.

(** The engine's answer to the forkchoice of the heads of [d]. *)
Definition forkchoice_set d : Prop :=
  exists e update, forkchoice_updated (create_forkchoice_state d) None e = (Ok update, engine d) /\
    status (payload_status update) = Valid.

(** The client, asked in the state [e] for the attributes on this forkchoice, answers the
    payload and goes to the state [e2]. *)
Definition payload_built_at (fc : ForkchoiceState) (attributes : PayloadAttributes) (payload : ExecutionPayload) (e e2 : E)
    : Prop :=
  exists update e1 id, forkchoice_updated fc (Some attributes) e = (Ok update, e1) /\
    status (payload_status update) = Valid /\ payload_id update = Some id /\ get_payload id e1 = (Ok payload, e2).

Definition payload_built (fc : ForkchoiceState) (attributes : PayloadAttributes) (payload : ExecutionPayload) : Prop :=
  exists e e2, payload_built_at fc attributes payload e e2.

(** The client, given the payload in the state [e], takes it and goes to the state [e']. *)
Definition payload_taken_at (payload : ExecutionPayload) (e e' : E) : Prop :=
  exists st, new_payload payload e = (Ok st, e') /\ (status st = Valid \/ status st = Accepted).

Definition payload_taken (payload : ExecutionPayload) : Prop :=
  exists e e', payload_taken_at payload e e'.

(** What the client of [d] answers to the query of the block at the time of the attributes. *)
Definition block_reply (attributes : PayloadAttributes) d (reply : outcome (option Block)) (e : E) : Prop :=
  exists n, block_num_at (pa_timestamp attributes) d = Ok n /\ get_block_with_txs n (engine d) = (reply, e).

(** The unsafe head to build on: the safe head if there is a block to replace. *)
Definition build_base (reply : outcome (option Block)) d : BlockInfo :=
  match reply with Ok (Some _) => ed_safe_head d | _ => unsafe_head d end.

Lemma update_forkchoice_frame d r d' :
  update_forkchoice d = (r, d') -> (exists e, d' = set_engine e d) /\ (r = Ok tt -> forkchoice_set d').
Proof.
  unfold update_forkchoice. run_M. intros Ef.
  destruct (call (forkchoice_updated (create_forkchoice_state d) None) d) as [o d1] eqn:Ec.
  apply call_eq in Ec as (e & Ec & ->).
  destruct o as [update| | |]; try (injection Ef as <- <-; split; [by eexists|done]).
  destruct (bool_decide_reflect (status (payload_status update) = Valid)) as [Hv|]; cbn [negb] in Ef;
    injection Ef as <- <-; (split; [by eexists|]); [|done]. intros _. by exists (engine d), update.
Qed.

Lemma push_payload_frame payload d r d' :
  push_payload payload d = (r, d') ->
  exists e, d' = set_engine e d /\ (r = Ok tt -> payload_taken_at payload (engine d) e).
Proof.
  unfold push_payload. run_M. intros Ef.
  destruct (call (new_payload payload) d) as [o d1] eqn:Ec. apply call_eq in Ec as (e & Ec & ->).
  destruct o as [st| | |]; try (injection Ef as <- <-; by eexists).
  destruct (bool_decide_reflect (status st = Valid)), (bool_decide_reflect (status st = Accepted));
    cbn [negb andb] in Ef; injection Ef as <- <-; exists e; (split; [done|]); try done; intros _; exists st; auto.
Qed.

Lemma build_payload_frame attributes d r d' :
  build_payload attributes d = (r, d') ->
  exists e, d' = set_engine e d /\
  (forall payload, r = Ok payload -> payload_built_at (create_forkchoice_state d) attributes payload (engine d) e).
Proof.
  unfold build_payload. run_M. intros Ef.
  destruct (call (forkchoice_updated (create_forkchoice_state d) (Some attributes)) d) as [o d1] eqn:Ec.
  apply call_eq in Ec as (e & Ec & ->).
  destruct o as [update| | |]; try (injection Ef as <- <-; by eexists).
  destruct (bool_decide_reflect (status (payload_status update) = Valid)); cbn [negb] in Ef;
    [|injection Ef as <- <-; by eexists].
  destruct (payload_id update) as [id|] eqn:Hid; cbn [ok_or] in Ef; [|injection Ef as <- <-; by eexists].
  apply call_eq in Ef as (e' & Ef & ->). exists e'. split; [done|]. intros payload ->.
  by exists update, e, id.
Qed.

(** What a step of the driver may do to the heads. *)
Definition same_heads d d' : Prop :=
  unsafe_head d' = unsafe_head d /\ ed_safe_head d' = ed_safe_head d /\ ed_safe_epoch d' = ed_safe_epoch d.

Definition same_base d d' : Prop :=
  ed_blocktime d' = ed_blocktime d /\ finalized_head d' = finalized_head d /\ finalized_epoch d' = finalized_epoch d.

Lemma update_safe_head_spec head epoch reorg_unsafe d :
  let d' := update_safe_head head epoch reorg_unsafe d in
  engine d' = engine d /\ same_base d d' /\ ed_safe_head d' = head /\
  ed_safe_epoch d' = (if decide (ed_safe_head d = head) then ed_safe_epoch d else epoch) /\
  unsafe_head d' =
    (if decide (reorg_unsafe = true \/ bi_number (unsafe_head d) < bi_number head) then head else unsafe_head d).
Proof.
  unfold update_safe_head. cbn zeta.
  set (d1 := if negb _ then _ else d).
  assert (Hd : engine d1 = engine d /\ same_base d d1 /\ ed_safe_head d1 = head /\
    ed_safe_epoch d1 = (if decide (ed_safe_head d = head) then ed_safe_epoch d else epoch) /\
    unsafe_head d1 = unsafe_head d).
  { unfold d1. destruct (bool_decide_reflect (ed_safe_head d = head)); case_decide; done. }
  clearbody d1. destruct Hd as (He & Hb & Hs & Hep & Hu). rewrite Hs, Hu.
  destruct reorg_unsafe; cbn [orb].
  - by rewrite (decide_True (P := true = true \/ _)) by auto.
  - destruct (Z.ltb_spec (bi_number (unsafe_head d)) (bi_number head)).
    + by rewrite (decide_True (P := false = true \/ _)) by auto.
    + by rewrite (decide_False (P := false = true \/ _)) by (intros [?|?]; [done|lia]).
Qed.

Lemma same_base_engine d d' e : same_base d d' -> same_base d (set_engine e d').
Proof. done. Qed.

Lemma same_base_refl d : same_base d d.
Proof. done. Qed.

(** How one call of [handle_attributes] may end. *)
Inductive handled (attributes : PayloadAttributes) d : outcome unit -> EngineDriver E -> Prop :=
| handled_stuck r d' : same_base d d' -> r <> Ok tt ->
    ed_safe_head d' = ed_safe_head d -> ed_safe_epoch d' = ed_safe_epoch d ->
    (unsafe_head d' = unsafe_head d \/ unsafe_head d' = ed_safe_head d) ->
    handled attributes d r d'
| handled_skip r d' block e0 head epoch e :
    block_reply attributes d (Ok (Some block)) e0 -> describes attributes block ->
    BlockInfo_try_from block = Ok head -> pa_epoch attributes = Some epoch ->
    d' = set_engine e (update_safe_head head epoch false d) -> (r = Ok tt -> forkchoice_set d') ->
    handled attributes d r d'
| handled_process r d' reply e0 payload e1 e2 epoch e :
    block_reply attributes d reply e0 ->
    (forall block, reply = Ok (Some block) -> should_skip block attributes = Ok false) ->
    payload_built_at (create_forkchoice_state (set_unsafe_head (build_base reply d) d)) attributes payload e0 e1 ->
    payload_taken_at payload e1 e2 -> pa_epoch attributes = Some epoch ->
    d' = set_engine e (update_safe_head (BlockInfo_from_payload payload) epoch true (set_unsafe_head (build_base reply d) d)) ->
    (r = Ok tt -> forkchoice_set d') ->
    handled attributes d r d'.

Lemma update_safe_head_engine head epoch b d e e' :
  set_engine e' (update_safe_head head epoch b (set_engine e d)) = set_engine e' (update_safe_head head epoch b d).
Proof.
  unfold update_safe_head. cbn [ed_safe_head set_engine]. destruct (negb _);
    cbn [unsafe_head ed_safe_head set_engine set_safe_head]; by destruct (b || _).
Qed.

Lemma skip_attributes_handled attributes block d e0 r d' :
  block_reply attributes d (Ok (Some block)) e0 -> describes attributes block ->
  skip_attributes attributes block (set_engine e0 d) = (r, d') -> handled attributes d r d'.
Proof.
  intros Hreply Hdesc. unfold skip_attributes. run_M. intros Es.
  destruct (pa_epoch attributes) as [epoch|] eqn:He; cbn [unwrap] in Es;
    [|injection Es as <- <-; by apply handled_stuck; auto].
  destruct (BlockInfo_try_from block) as [head| | |] eqn:Hh; try (injection Es as <- <-; by apply handled_stuck; auto).
  apply update_forkchoice_frame in Es as [[e' ->] Hf].
  eapply (handled_skip _ _ _ _ block e0 head epoch e'); try done. apply update_safe_head_engine.
Qed.

Lemma process_attributes_handled attributes d reply e0 r d' :
  block_reply attributes d reply e0 ->
  (forall block, reply = Ok (Some block) -> should_skip block attributes = Ok false) ->
  process_attributes attributes (set_engine e0 (set_unsafe_head (build_base reply d) d)) = (r, d') ->
  handled attributes d r d'.
Proof.
  intros Hreply Hskip. set (b := build_base reply d).
  assert (Hb : b = unsafe_head d \/ b = ed_safe_head d) by (unfold b, build_base; destruct reply as [[]| | |]; auto).
  unfold process_attributes. run_M. intros Es.
  destruct (pa_epoch attributes) as [epoch|] eqn:He; cbn [unwrap] in Es;
    [|injection Es as <- <-; by apply handled_stuck].
  destruct (build_payload attributes _) as [o d1] eqn:Ebuild.
  apply build_payload_frame in Ebuild as (e1 & -> & Hbuilt).
  destruct o as [payload| | |]; try (injection Es as <- <-; by apply handled_stuck).
  destruct (push_payload payload _) as [o d2] eqn:Epush. apply push_payload_frame in Epush as (e2 & -> & Htaken).
  destruct o as [[]| | |]; try (injection Es as <- <-; by apply handled_stuck).
  apply update_forkchoice_frame in Es as [[e' ->] Hf].
  eapply (handled_process _ _ _ _ reply e0 payload e1 e2 epoch e'); auto.
  exact (update_safe_head_engine _ epoch true (set_unsafe_head b d) e2 e').
Qed.

Lemma handle_attributes_handled attributes d r d' :
  handle_attributes attributes d = (r, d') -> handled attributes d r d'.
Proof.
  unfold handle_attributes. run_M. unfold block_at.
  destruct (block_num_at (pa_timestamp attributes) d) as [n| | |] eqn:En;
    try (intros [= <- <-]; by apply handled_stuck; auto).
  destruct (call (get_block_with_txs n) d) as [reply d1] eqn:Ec. apply call_eq in Ec as (e & Ec & ->).
  assert (Hreply : block_reply attributes d reply e) by by exists n.
  destruct reply as [[block|]|x| |]; intros Eh; try (injection Eh as <- <-; by apply handled_stuck; auto).
  - destruct (should_skip block attributes) as [[]| | |] eqn:Esk;
      try (injection Eh as <- <-; by apply handled_stuck; auto).
    + apply should_skip_describes in Esk. by eapply skip_attributes_handled.
    + apply (process_attributes_handled _ d (Ok (Some block)) e); [done|by intros ? [= <-]|exact Eh].
  - apply (process_attributes_handled _ d (Ok None) e); [done|done|]. by destruct d.
  - apply (process_attributes_handled _ d (Err x) e); [done|done|]. by destruct d.
Qed.
End lemmas.

(** ** A client at the tip of its chain

    What the driver may expect of an execution client that builds on any forkchoice, takes
    the payloads it is given, and has no block yet where one is asked for; [built]
    relates attributes to the payload that the client makes of them. *)

Class Builder (E : Type) `{Engine E, BlockProvider E} (built : PayloadAttributes -> ExecutionPayload -> Prop) := {
  builder_forkchoice fc e : exists update e', forkchoice_updated fc None e = (Ok update, e') /\
    status (payload_status update) = Valid;
  builder_payload fc a e : exists update id e1 payload e2,
    forkchoice_updated fc (Some a) e = (Ok update, e1) /\ status (payload_status update) = Valid /\
    payload_id update = Some id /\ get_payload id e1 = (Ok payload, e2) /\ built a payload;
  builder_accepts payload e : exists st e', new_payload payload e = (Ok st, e') /\ status st = Valid;
  builder_tip n e : exists e', get_block_with_txs n e = (Ok None, e')
}.

Section builder.
Context {E : Type} `{Builder E built, Keccak}.
Implicit Types d : EngineDriver E.

Lemma block_num_at_Ok t d : 0 < ed_blocktime d < 2 ^ 63 -> exists n, block_num_at t d = Ok n.
Proof.
  change (2 ^ 63) with 9223372036854775808. intros Hb. unfold block_num_at. cbn zeta.
  assert (Hi : i64 (ed_blocktime d) = ed_blocktime d) by (unfold i64; rewrite Z.mod_small by lia; lia).
  rewrite Hi. unfold i64_div. rewrite (proj2 (Z.eqb_neq _ 0)), (proj2 (Z.eqb_neq _ (-1))), andb_false_r by lia.
  by eexists.
Qed.

(** With such a client, attributes become the safe head and the unsafe head. *)
Lemma builder_handles a epoch d :
  0 < ed_blocktime d < 2 ^ 63 -> pa_epoch a = Some epoch ->
  exists payload d', handle_attributes a d = (Ok tt, d') /\ built a payload /\ same_base d d' /\
    ed_safe_head d' = BlockInfo_from_payload payload /\ unsafe_head d' = ed_safe_head d' /\
    ed_safe_epoch d' = (if decide (ed_safe_head d = ed_safe_head d') then ed_safe_epoch d else epoch).
Proof.
  intros Hb Hepoch. destruct (block_num_at_Ok (pa_timestamp a) d Hb) as [n Hn].
  destruct (builder_tip n (engine d)) as [e0 He0]. unfold handle_attributes. run_M. unfold block_at. rewrite Hn.
  rewrite (proj2 (call_eq _ d _ (set_engine e0 d))) by eauto. cbn beta iota.
  unfold process_attributes. run_M. rewrite Hepoch. cbn [unwrap]. unfold build_payload. run_M.
  destruct (builder_payload (create_forkchoice_state (set_engine e0 d)) a e0)
    as (up & id & e1 & payload & e2 & Hup & Hv & Hid & Hget & Hbuilt).
  rewrite (proj2 (call_eq _ (set_engine e0 d) _ (set_engine e1 d))) by (exists e1; split; [exact Hup|done]).
  cbn beta iota. rewrite bool_decide_eq_true_2 by done. cbn [negb]. rewrite Hid. cbn [ok_or].
  rewrite (proj2 (call_eq _ (set_engine e1 d) _ (set_engine e2 d))) by (exists e2; split; [exact Hget|done]).
  unfold push_payload. run_M. destruct (builder_accepts payload e2) as (st & e3 & Hst & Hsv).
  rewrite (proj2 (call_eq _ (set_engine e2 d) _ (set_engine e3 d))) by (exists e3; split; [exact Hst|done]).
  cbn beta iota. rewrite bool_decide_eq_true_2 by done. cbn [negb andb].
  set (d1 := update_safe_head (BlockInfo_from_payload payload) epoch true (set_engine e3 d)).
  change (update_safe_head _ epoch true _) with d1.
  pose proof (update_safe_head_spec (BlockInfo_from_payload payload) epoch true (set_engine e3 d))
    as (_ & Hbase & Hs & Hep & Hu). fold d1 in Hbase, Hs, Hep, Hu.
  destruct (builder_forkchoice (create_forkchoice_state d1) (engine d1)) as (up' & e4 & Hup' & Hv').
  exists payload, (set_engine e4 d1). unfold update_forkchoice. run_M.
  rewrite (proj2 (call_eq _ d1 _ (set_engine e4 d1))) by (exists e4; split; [exact Hup'|done]).
  cbn beta iota. rewrite bool_decide_eq_true_2 by done. rewrite (decide_True (P := true = true \/ _)) in Hu by auto.
  split; [done|]. split; [done|]. split; [exact Hbase|]. cbn [ed_safe_head unsafe_head ed_safe_epoch set_engine].
  split; [done|]. split; [congruence|]. by rewrite Hep, Hs.
Qed.
End builder.

(** ** Properties *)

Section properties.
Context {E : Type} `{Engine E, BlockProvider E, Keccak}.
Implicit Types d : EngineDriver E.

(** C7. The safe head moves only to blocks the client vouches for.  Whatever the client
    answers, [handle_attributes] leaves the finalized head alone, and either it fails and
    leaves the safe head alone, or the new safe head comes from the client: it has the
    number, hash, parent and time of the very block that the client answered for the time
    of the attributes, which the attributes describe; or it is the payload that the client
    built next from the attributes, on the safe head if it had answered another block and
    on the unsafe head if it had none, and took right after.  The epoch of a new safe head is that of
    the attributes; the unsafe head is not behind the safe head if it was not before; and
    success means that the client holds the forkchoice of the new heads. *)
Theorem handle_attributes_safe attributes d r d' :
  handle_attributes attributes d = (r, d') ->
  same_base d d' /\
  (r <> Ok tt /\ ed_safe_head d' = ed_safe_head d /\ ed_safe_epoch d' = ed_safe_epoch d \/
   exists reply e0, block_reply attributes d reply e0 /\
   ((exists block, reply = Ok (Some block) /\ describes attributes block /\
       blk_number block = Some (bi_number (ed_safe_head d')) /\ blk_hash block = Some (bi_hash (ed_safe_head d')) /\
       blk_parent_hash block = bi_parent_hash (ed_safe_head d') /\ blk_timestamp block = bi_timestamp (ed_safe_head d')) \/
    (exists payload e1 e2, (forall block, reply = Ok (Some block) -> should_skip block attributes = Ok false) /\
       payload_built_at (create_forkchoice_state (set_unsafe_head (build_base reply d) d)) attributes payload e0 e1 /\
       payload_taken_at payload e1 e2 /\
       ed_safe_head d' = BlockInfo_from_payload payload /\ unsafe_head d' = ed_safe_head d')) /\
   (ed_safe_head d' = ed_safe_head d /\ ed_safe_epoch d' = ed_safe_epoch d \/
    pa_epoch attributes = Some (ed_safe_epoch d'))) /\
  (bi_number (ed_safe_head d) <= bi_number (unsafe_head d) ->
   bi_number (ed_safe_head d') <= bi_number (unsafe_head d')) /\
  (r = Ok tt -> forkchoice_set d').
Proof.
  intros Eh. apply handle_attributes_handled in Eh.
  destruct Eh as [r d' Hb Hr Hs Hep Hu|r d' block e0 head epoch e Hreply Hdesc Hh He -> Hf
                 |r d' reply e0 payload e1 e2 epoch e Hreply Hskip Hbuilt Ht He -> Hf].
  - split_and!; [done|by left| |done]. rewrite Hs. destruct Hu as [->| ->]; [done|lia].
  - pose proof (update_safe_head_spec head epoch false d) as (_ & Hb & Hs & Hep & Hu).
    cbn [ed_safe_head ed_safe_epoch unsafe_head set_engine]. rewrite Hs, Hep, Hu.
    split; [exact Hb|]. split; [|split; [intros Hle; destruct (decide (false = true \/ _)) as [|Hn]; [done|]|done]].
    2: { destruct (decide (bi_number (unsafe_head d) < bi_number head)); [by destruct Hn; right|lia]. }
    right. exists (Ok (Some block)), e0. split; [done|]. split; [|destruct (decide (ed_safe_head d = head)); auto].
    left. exists block. split; [done|]. split; [done|]. by apply BlockInfo_try_from_fields.
  - set (b := build_base reply d) in *.
    pose proof (update_safe_head_spec (BlockInfo_from_payload payload) epoch true (set_unsafe_head b d))
      as (_ & Hb & Hs & Hep & Hu). rewrite (decide_True (P := true = true \/ _)) in Hu by auto.
    cbn [ed_safe_head ed_safe_epoch unsafe_head set_engine]. rewrite Hs, Hep, Hu.
    split_and!; [exact Hb| |lia|done]. cbn [ed_safe_head ed_safe_epoch set_unsafe_head].
    right. exists reply, e0. split; [done|]. split; [|destruct (decide (ed_safe_head d = _)); auto]. right. by exists payload, e1, e2.
Qed.

(** A block is kept only if it is the block to build.  When [should_skip] holds,
    timestamp, randomness, fee recipient and gas limit are those of the attributes
    and, the hashes of the block's transactions being those of their encodings, so
    are the transactions, unless one to build and one of the block collide under
    keccak256. *)
Theorem should_skip_same block attributes :
  Forall (fun tx => tx_hash tx = keccak256 (tx_rlp tx)) (blk_transactions block) ->
  should_skip block attributes = Ok true ->
  describes attributes block /\
  (pa_transactions attributes = Some (tx_rlp <$> blk_transactions block) \/
   exists l x tx, pa_transactions attributes = Some l /\ x ∈ l /\ tx ∈ blk_transactions block /\
     x <> tx_rlp tx /\ keccak256 x = keccak256 (tx_rlp tx)).
Proof.
  intros Hall Hs. apply should_skip_describes in Hs. split; [done|]. destruct Hs as [(l & Hl & Heq) _ _ _ _].
  enough (l = tx_rlp <$> blk_transactions block \/ exists x tx, x ∈ l /\ tx ∈ blk_transactions block /\
    x <> tx_rlp tx /\ keccak256 x = keccak256 (tx_rlp tx)) as Hor
    by (rewrite Hl; destruct Hor as [->|(x & tx & Hc)]; [by left|right; by exists l, x, tx]).
  clear Hl. revert l Heq. induction Hall as [|tx txs Htx Hall IH]; intros l Heq.
  - left. by destruct l.
  - destruct l as [|x l]; [done|]. cbn in Heq. injection Heq as Hx Hl. rewrite Htx in Hx.
    destruct (decide (x = tx_rlp tx)) as [->|Hne]; [|right; exists x, tx; rewrite !elem_of_cons; by auto].
    destruct (IH l Hl) as [->|(y & ty & Hy & Hty & Hc)]; [by left|right; exists y, ty; rewrite !elem_of_cons; by auto].
Qed.

(** The block asked for at a timestamp: the one that many block times after the
    finalized head, rounded down; for a timestamp before the finalized head, the
    rounding goes up instead, and is exact on the timestamps of blocks. *)
Theorem block_num_at_spec d k r :
  let t := bi_timestamp (finalized_head d) + k * ed_blocktime d + r in
  0 < ed_blocktime d < 2 ^ 63 -> 0 <= r < ed_blocktime d -> (k < 0 -> r = 0) ->
  0 <= t < 2 ^ 63 -> 0 <= bi_timestamp (finalized_head d) < 2 ^ 63 ->
  0 <= bi_number (finalized_head d) < 2 ^ 63 -> 0 <= bi_number (finalized_head d) + k < 2 ^ 63 ->
  block_num_at t d = Ok (bi_number (finalized_head d) + k).
Proof.
  cbn zeta. change (2 ^ 63) with 9223372036854775808. intros Hb Hr Hk Ht Hf Hn Hnk.
  assert (Hi64 : forall z, -9223372036854775808 <= z < 9223372036854775808 -> i64 z = z).
  { intros z Hz. unfold i64. rewrite Z.mod_small by lia. lia. }
  unfold block_num_at. cbn zeta. rewrite (Hi64 (ed_blocktime d)), (Hi64 (bi_timestamp _ + _ + _)),
    (Hi64 (bi_timestamp _)), (Hi64 (bi_number _)), (Hi64 (_ + _ - _)) by lia. unfold i64_div.
  destruct (Z.eqb_spec (ed_blocktime d) 0); [lia|].
  rewrite (proj2 (Z.eqb_neq (ed_blocktime d) (-1))), andb_false_r by lia. rewrite bind_ret.
  replace (bi_timestamp (finalized_head d) + k * ed_blocktime d + r - bi_timestamp (finalized_head d))
    with (k * ed_blocktime d + r) by lia.
  assert (Hq : Z.quot (k * ed_blocktime d + r) (ed_blocktime d) = k).
  { destruct (decide (k < 0)) as [Hneg|].
    - rewrite (Hk Hneg), Z.add_0_r. by apply Z.quot_mul.
    - assert (0 <= k * ed_blocktime d) by (apply Z.mul_nonneg_nonneg; lia).
      rewrite Z.quot_div_nonneg by lia. rewrite Z.add_comm, Z.div_add, Z.div_small by lia. lia. }
  rewrite Hq, Hi64 by lia. f_equal. apply u64_small. unfold in_u64. lia.
Qed.
End properties.

(** ** Witnesses *)

(** The mock with no block of its own. *)
Definition example_provider : BlockProvider MockEngine := {| get_block_with_txs := fun _ m => (Ok None, m) |}.

Definition example_status : PayloadStatus := {| status := Valid; latest_valid_hash := None; validation_error := None |}.

Definition example_payload (n : Z) (txs : list bytes) : ExecutionPayload :=
  {| pl_parent_hash := to_be 32 (1000 + n - 1); pl_fee_recipient := fee_vault SystemAccounts_default;
     pl_state_root := to_be 32 1; pl_receipts_root := to_be 32 2; pl_logs_bloom := []; pl_prev_randao := to_be 32 5;
     pl_block_number := n; pl_gas_limit := 30000000; pl_gas_used := 21000; pl_timestamp := 1686789347 + 2 * n;
     pl_extra_data := []; pl_base_fee_per_gas := 50; pl_block_hash := to_be 32 (1000 + n); pl_transactions := txs;
     pl_withdrawals := Some []; pl_blob_gas_used := None; pl_excess_blob_gas := None |}.

Definition example_engine (n : Z) : MockEngine :=
  {| forkchoice_updated_payloads_res := {| payload_status := example_status; payload_id := Some 1 |};
     forkchoice_updated_res := {| payload_status := example_status; payload_id := None |};
     new_payload_res := example_status;
     get_payload_res := example_payload n [[2; 3]] |}.

Definition example_payload_attributes (n : Z) (txs : list bytes) : PayloadAttributes :=
  {| pa_timestamp := 1686789347 + 2 * n; pa_prev_randao := to_be 32 5;
     pa_suggested_fee_recipient := fee_vault SystemAccounts_default; pa_transactions := Some txs;
     pa_no_tx_pool := true; pa_gas_limit := 30000000; pa_withdrawals := None;
     pa_epoch := Some {| ep_number := 100; ep_hash := to_be 32 100; ep_timestamp := 1686789340 |};
     pa_l1_inclusion_block := Some 102; pa_seq_number := Some 0 |}.

Definition example_driver (n : Z) : EngineDriver MockEngine :=
  EngineDriver_new (example_engine (n + 1))
    {| bi_hash := to_be 32 (1000 + n); bi_number := n; bi_parent_hash := to_be 32 (999 + n);
       bi_timestamp := 1686789347 + 2 * n |}
    {| ep_number := 99; ep_hash := to_be 32 99; ep_timestamp := 1686789328 |}
    {| l1_rpc_url := ""; l1_beacon_url := ""; l2_rpc_url := ""; l2_engine_url := ""; chain := base;
       jwt_secret := ""; checkpoint_sync_url := None; rpc_port := 9545; rpc_addr := "127.0.0.1"; devnet := false |}.

Lemma handle_attributes_safe_witness :
  exists d', @handle_attributes MockEngine _ example_provider example_keccak (example_payload_attributes 11 [[2; 3]])
      (example_driver 10) = (Ok tt, d') /\
    bi_number (ed_safe_head d') = 11 /\ bi_number (ed_safe_head d') <= bi_number (unsafe_head d') /\
    forkchoice_set d'.
Proof.
  destruct (@handle_attributes MockEngine _ example_provider example_keccak (example_payload_attributes 11 [[2; 3]])
      (example_driver 10)) as [r d'] eqn:Eh.
  pose proof (@handle_attributes_safe MockEngine _ example_provider example_keccak _ _ _ _ Eh) as (_ & _ & Hle & Hf).
  vm_compute in Eh. injection Eh as <- <-. eexists. split; [reflexivity|].
  split; [reflexivity|]. split; [apply Hle; by vm_compute|by apply Hf].
Defined.

Definition example_built_block : Block :=
  {| blk_number := Some 11; blk_hash := Some (to_be 32 1011); blk_parent_hash := to_be 32 1010;
     blk_timestamp := 1686789369;
     blk_transactions :=
       [{| tx_input := []; tx_from := Address_zero; tx_to := None; tx_type := Some 2;
           tx_hash := @keccak256 example_keccak [2; 3]; tx_rlp := [2; 3]; tx_blob_hashes := [] |}];
     blk_mix_hash := Some (to_be 32 5); blk_author := Some (fee_vault SystemAccounts_default);
     blk_gas_limit := 30000000; blk_gas_used := 0; blk_base_fee_per_gas := Some 50;
     blk_parent_beacon_block_root := None; blk_state_root := to_be 32 1; blk_receipts_root := to_be 32 2;
     blk_logs_bloom := Some []; blk_extra_data := []; blk_blob_gas_used := None; blk_excess_blob_gas := None |}.

Lemma should_skip_same_witness :
  @should_skip example_keccak example_built_block (example_payload_attributes 11 [[2; 3]]) = Ok true /\
  @describes example_keccak (example_payload_attributes 11 [[2; 3]]) example_built_block.
Proof.
  assert (Hall : Forall (fun tx => tx_hash tx = @keccak256 example_keccak (tx_rlp tx))
    (blk_transactions example_built_block)) by (constructor; [reflexivity|constructor]).
  assert (Hs : @should_skip example_keccak example_built_block (example_payload_attributes 11 [[2; 3]]) = Ok true)
    by by vm_compute.
  split; [exact Hs|]. apply (@should_skip_same example_keccak _ _ Hall Hs).
Defined.

Lemma block_num_at_spec_witness : block_num_at (1686789347 + 2 * 10 + 7 * 2 + 1) (example_driver 10) = Ok 17.
Proof. apply (block_num_at_spec (example_driver 10) 7 1); by_compute. Defined.
