(* ===== verification/Json.v ===== *)
(** JSON values and hexadecimal strings, which the beacon node's and the execution
    client's answers are read from and their requests are written in.

    [serde_json] and [hex] are library code; the values, the two accessors and the digits
    are written out, as the code tells the values apart.  The JSON form of the numbers,
    hashes and byte strings of [ethers] is the class [EthersSerde], whose laws are that
    what it writes is read back. *)
From Stdlib Require Import Ascii.
From S2P Require Import Prelude.

(** ** Values *)

(** [serde_json::Value], without numbers that are not integers. *)
#[warnings="-register-all"]
Inductive Value :=
| VNull
| VBool (b : bool)
| VNumber (z : Z)
| VString (s : string)
| VArray (l : list Value)
| VObject (fields : list (string * Value)).

(** [Value::get] and [Value::as_str]. *)
Definition get (v : Value) (key : string) : option Value :=
  match v with
  | VObject fields => snd <$> find (fun kv => bool_decide (kv.1 = key)) fields
  | _ => None
  end.

Definition as_str (v : Value) : option string :=
  match v with VString s => Some s | _ => None end.

(** What a derived [Deserialize] of a struct reads its fields from: an object, or an array
    with one element for each field, in their order. *)
Definition as_struct (names : list string) (v : Value) : Value :=
  match v with
  | VArray l => if (length l =? length names)%nat then VObject (zip names l) else VNull
  | v => v
  end.

(** ** Numbers in strings *)

(** [str::parse::<u64>]: decimal digits, after an optional plus sign. *)
Fixpoint parse_digits (s : string) (acc : Z) : option Z :=
  match s with
  | EmptyString => Some acc
  | String c s =>
      let d := Z.of_N (Ascii.N_of_ascii c) - 48 in
      if (0 <=? d) && (d <=? 9) && (acc * 10 + d <? 18446744073709551616)
      then parse_digits s (acc * 10 + d) else None
  end.

Definition parse_u64 (s : string) : option Z :=
  match s with
  | EmptyString => None
  | String "+"%char EmptyString => None
  | String "+"%char s => parse_digits s 0
  | s => parse_digits s 0
  end.

(** ** Hexadecimal strings *)

(** [hex::decode]: pairs of hexadecimal digits of either case. *)
Definition hex_value (c : Ascii.ascii) : option Z :=
  let n := Z.of_N (Ascii.N_of_ascii c) in
  if (48 <=? n) && (n <=? 57) then Some (n - 48)
  else if (97 <=? n) && (n <=? 102) then Some (n - 87)
  else if (65 <=? n) && (n <=? 70) then Some (n - 55)
  else None.

Fixpoint hex_decode (s : string) : option bytes :=
  match s with
  | EmptyString => Some []
  | String a (String b s) =>
      h ← hex_value a; l ← hex_value b; rest ← hex_decode s; Some (16 * h + l :: rest)
  | String _ EmptyString => None
  end.

(** [hex::encode], in lower case. *)
Definition hex_char (d : Z) : Ascii.ascii := Ascii.ascii_of_N (Z.to_N (if d <? 10 then d + 48 else d + 87)).

Fixpoint hex_encode (bs : bytes) : string :=
  match bs with
  | [] => EmptyString
  | b :: bs => String (hex_char (b / 16)) (String (hex_char (b mod 16)) (hex_encode bs))
  end.

(** [str::strip_prefix]. *)
Fixpoint strip_prefix (prefix s : string) : option string :=
  match prefix, s with
  | EmptyString, _ => Some s
  | String a prefix, String b s => if bool_decide (a = b) then strip_prefix prefix s else None
  | String _ _, EmptyString => None
  end.

Lemma strip_prefix_app p s : strip_prefix p (p +:+ s) = Some s.
Proof. induction p as [|a p IH]; [done|].
  change (strip_prefix (String a p) (String a p +:+ s)) with (if bool_decide (a = a) then strip_prefix p (p +:+ s) else None).
  by rewrite bool_decide_eq_true_2.
Qed.

Lemma strip_prefix_Some p s t : strip_prefix p s = Some t -> s = p +:+ t.
Proof.
  revert s. induction p as [|a p IH]; intros s; [by intros [= ->]|]. destruct s as [|b s]; [done|]. cbn [strip_prefix].
  destruct (bool_decide_reflect (a = b)) as [->|]; [|done]. by intros ->%IH.
Qed.

Lemma hex_value_char d : 0 <= d < 16 -> hex_value (hex_char d) = Some d.
Proof.
  intros Hd. assert (Hall : forallb (fun d => bool_decide (hex_value (hex_char d) = Some d)) (seqZ 0 16) = true) by done.
  rewrite forallb_forall in Hall. apply (bool_decide_eq_true (hex_value (hex_char d) = Some d)), Hall.
  apply list_elem_of_In, elem_of_seqZ. lia.
Qed.

Lemma hex_decode_encode bs : Forall byte_ok bs -> hex_decode (hex_encode bs) = Some bs.
Proof.
  induction 1 as [|b bs Hb _ IH]; [done|]. cbn [hex_encode hex_decode]. unfold byte_ok in Hb.
  rewrite (hex_value_char (b / 16)) by (split; [apply Z.div_pos|apply Z.div_lt_upper_bound]; lia).
  rewrite (hex_value_char (b mod 16)) by (apply Z.mod_pos_bound; lia).
  cbn [mbind option_bind]. rewrite IH. cbn. do 2 f_equal. pose proof (Z.div_mod b 16). lia.
Qed.

Lemma length_hex_encode bs : String.length (hex_encode bs) = (2 * length bs)%nat.
Proof. induction bs as [|b bs IH]; [done|]. cbn [hex_encode String.length length]. rewrite IH. lia. Qed.

Lemma hex_decode_length s bs : hex_decode s = Some bs -> String.length s = (2 * length bs)%nat.
Proof.
  revert s. induction bs as [|b bs IH]; intros [|x [|y s]]; try done; cbn [hex_decode]; intros E.
  - destruct (hex_value x), (hex_value y); try done. cbn in E. by destruct (hex_decode s).
  - destruct (hex_value x), (hex_value y); try done. cbn in E. destruct (hex_decode s) as [r|] eqn:Er; [|done].
    injection E as _ ->. cbn [String.length length]. rewrite (IH s) by done. lia.
Qed.

(** ** The types of [ethers]

    [U64], [H256], [H160] and [Bytes] as [serde] writes and reads them. *)
Class EthersSerde := {
  u64_to_json : Z -> Value;
  u64_from_json : Value -> option Z;
  hash_to_json : bytes -> Value;
  hash_from_json : nat -> Value -> option bytes;
  bytes_to_json : bytes -> Value;
  bytes_from_json : Value -> option bytes;
  u64_json z : in_u64 z -> u64_from_json (u64_to_json z) = Some z;
  u64_json_not_null z : u64_to_json z <> VNull;
  hash_json h : Forall byte_ok h -> hash_from_json (length h) (hash_to_json h) = Some h;
  hash_json_not_null h : hash_to_json h <> VNull;
  bytes_json bs : Forall byte_ok bs -> bytes_from_json (bytes_to_json bs) = Some bs
}.
