(* ===== verification/EngineApi.v ===== *)
(** The client of the execution engine (src/src/engine/api.rs) with its authentication
    (src/src/engine/auth.rs), its constants (src/src/engine/types.rs) and the JSON form of
    what it sends and receives (the derived and written [Serialize] and [Deserialize] of
    src/src/engine/payload.rs, src/src/engine/fork.rs and src/src/common/mod.rs).

    The HTTP client, the clock and the encoder of JWTs are interfaces.  A string is its
    bytes: the white space that [trim] removes is that of ASCII. *)
From stdpp Require Import pretty.
From Stdlib Require Import Ascii.
From S2P Require Import Prelude Common Config Engine EngineDriver Json.

(** ** Constants *)

Definition DEFAULT_AUTH_PORT : Z := 8551.
Definition STATIC_ID : Z := 1.
Definition JSONRPC_VERSION : string := "2.0".
Definition ENGINE_NEW_PAYLOAD_V2 : string := "engine_newPayloadV2".
Definition ENGINE_GET_PAYLOAD_V2 : string := "engine_getPayloadV2".
Definition ENGINE_FORKCHOICE_UPDATED_V2 : string := "engine_forkchoiceUpdatedV2".

(** In seconds; nothing uses them: [post] gives a request 2 seconds. *)
Definition ENGINE_NEW_PAYLOAD_TIMEOUT : Z := 8.
Definition ENGINE_GET_PAYLOAD_TIMEOUT : Z := 2.
Definition ENGINE_FORKCHOICE_UPDATED_TIMEOUT : Z := 8.
Definition JWT_SECRET_LEN : nat := 64.
Definition JWT_MAX_IAT_DIFF : Z := 60.

(** ** The secret *)

Definition is_whitespace (c : ascii) : bool :=
  let n := Z.of_N (N_of_ascii c) in (n =? 32) || ((9 <=? n) && (n <=? 13)).

Fixpoint trim_start (s : string) : string :=
  match s with
  | String c t => if is_whitespace c then trim_start t else s
  | EmptyString => EmptyString
  end.

Fixpoint trim_end (s : string) : string :=
  match s with
  | String c t =>
      match trim_end t with
      | EmptyString => if is_whitespace c then EmptyString else String c EmptyString
      | t => String c t
      end
  | EmptyString => EmptyString
  end.

(** [str::trim]. *)
Definition trim (s : string) : string := trim_end (trim_start s).

(** [JwtSecret::from_hex]; the secret is its 32 bytes. *)
Definition JwtSecret_from_hex (hex : string) : outcome bytes :=
  let hex := trim hex in
  let hex :=
    match strip_prefix "0x" hex with
    | Some hex => hex
    | None => default hex (strip_prefix "0X" hex)
    end in
  if negb (String.length hex =? JWT_SECRET_LEN)%nat then Err "Invalid JWT secret key length" else
  hex_bytes ← ok_or (hex_decode hex) "invalid hex";
  if len hex_bytes =? 32 then Ok hex_bytes else Panic.

(** [JwtSecret::random], from the bytes drawn. *)
Definition JwtSecret_random (random_bytes : bytes) : outcome bytes :=
  let secret := hex_encode random_bytes in
  match JwtSecret_from_hex secret with
  | Err _ => Panic
  | r => r
  end.

Definition JwtSecret_equal (secret : bytes) (token : string) : bool := bool_decide (hex_encode secret = token).

Record Claims := {
  iat : Z;
  exp : Z
}.

(** [JwtSecret::generate_claims] at a time in seconds after the epoch, or the time of the
    clock; a time before the epoch panics. *)
Definition generate_claims (clock : Z) (time : option Z) : outcome Claims :=
  let now := default clock time in
  if now <? 0 then Panic else Ok {| iat := now; exp := u64_add now 60 |}.

(** [Claims::valid]. *)
Definition Claims_valid (clock : Z) (c : Claims) : outcome bool :=
  if clock <? 0 then Panic else Ok (Z.abs (clock - iat c) <=? JWT_MAX_IAT_DIFF).

(** [jsonwebtoken::encode] with HS256. *)
Class Jwt := {
  jwt_encode : Claims -> bytes -> option string
}.

(** ** The client *)

(** Whether the HTTP client is there is all that the code asks of it. *)
Record EngineApi := {
  base_url : string;
  port : Z;
  client : option unit;
  secret : bytes
}.

(** [str::split] at a character, and [join]. *)
Fixpoint split_at (c : ascii) (s : string) : string * list string :=
  match s with
  | EmptyString => (EmptyString, [])
  | String d s =>
      let '(first, rest) := split_at c s in
      if bool_decide (d = c) then (EmptyString, first :: rest) else (String d first, rest)
  end.

Definition split (c : ascii) (s : string) : list string := let '(first, rest) := split_at c s in first :: rest.

Definition parse_u16 (s : string) : option Z :=
  match parse_u64 s with
  | Some n => if n <? 65536 then Some n else None
  | None => None
  end.

(** [EngineApi::new]. *)
Definition EngineApi_new (url secret_str : string) : outcome EngineApi :=
  secret ← match JwtSecret_from_hex secret_str with Err _ => Panic | r => r end;
  let parts := split ":"%char url in
  last_part ← index parts (len parts - 1);
  let port := default DEFAULT_AUTH_PORT (parse_u16 last_part) in
  base_url ← if len parts <=? 2 then index parts 0 else Ok (String.concat ":" parts);
  Ok {| base_url := base_url; port := port; client := Some tt; secret := secret |}.

(** [EngineApi::auth_url_from_addr]. *)
Definition auth_url_from_addr (addr : string) (port : option Z) : string :=
  let stripped := default addr (strip_prefix "http://" addr) in
  let stripped := default stripped (strip_prefix "https://" addr) in
  let port := default DEFAULT_AUTH_PORT port in
  "http://" +:+ stripped +:+ ":" +:+ pretty port.

Definition check_secret (api : EngineApi) (token : string) : bool := JwtSecret_equal (secret api) token.

(** [EngineApi::from_env], from the two variables. *)
Definition from_env (engine_api_url jwt_secret : option string) : outcome EngineApi :=
  url ← unwrap engine_api_url;
  secret_key ← unwrap jwt_secret;
  EngineApi_new (auth_url_from_addr url None) secret_key.

Definition base_body : list (string * Value) :=
  [("jsonrpc", VString JSONRPC_VERSION); ("id", VNumber STATIC_ID)].

(** ** JSON forms *)

(** A field of a derived [Deserialize]: required, or of a type [Option], for which a
    missing field and [null] are [None]. *)
Definition required {A} (dec : Value -> outcome A) (name : string) (v : Value) : outcome A :=
  v ← ok_or (get v name) "missing field";
  dec v.

Definition optional {A} (dec : Value -> outcome A) (name : string) (v : Value) : outcome (option A) :=
  match get v name with
  | None | Some VNull => Ok None
  | Some v => Some <$> dec v
  end.

(** A [Vec], from an array. *)
Fixpoint from_values {A} (dec : Value -> outcome A) (l : list Value) : outcome (list A) :=
  match l with
  | [] => Ok []
  | v :: l =>
      a ← dec v;
      rest ← from_values dec l;
      Ok (a :: rest)
  end.

Definition from_array {A} (dec : Value -> outcome A) (v : Value) : outcome (list A) :=
  match v with
  | VArray l => from_values dec l
  | _ => Err "expected a sequence"
  end.

Definition from_string (v : Value) : outcome string := ok_or (as_str v) "expected a string".

Definition from_unit (v : Value) : outcome unit :=
  match v with VNull => Ok tt | _ => Err "expected unit" end.

Definition from_bool (v : Value) : outcome bool :=
  match v with VBool b => Ok b | _ => Err "expected a boolean" end.

(** An integer of a range. *)
Definition from_integer (low high : Z) (v : Value) : outcome Z :=
  match v with
  | VNumber z => if (low <=? z) && (z <=? high) then Ok z else Err "integer out of range"
  | _ => Err "expected an integer"
  end.

(** The present fields of an object that are not skipped. *)
Definition some_field (name : string) (o : option Value) : list (string * Value) :=
  match o with Some v => [(name, v)] | None => [] end.

Definition or_null (o : option Value) : Value := default VNull o.

(** [RawTransaction], shown and in JSON. *)
Definition RawTransaction_fmt (tx : RawTransaction) : string := "0x" +:+ hex_encode tx.

Definition RawTransaction_serialize (tx : RawTransaction) : Value := VString ("0x" +:+ hex_encode tx).

Definition RawTransaction_deserialize (v : Value) : outcome RawTransaction :=
  tx ← from_string v;
  let tx := default tx (strip_prefix "0x" tx) in
  ok_or (hex_decode tx) "invalid hex".

Section json.
Context `{EthersSerde}.

Definition from_u64 (v : Value) : outcome Z := ok_or (u64_from_json v) "invalid number".
Definition from_hash (v : Value) : outcome bytes := ok_or (hash_from_json 32 v) "invalid hash".
Definition from_address (v : Value) : outcome bytes := ok_or (hash_from_json 20 v) "invalid address".
Definition from_bytes (v : Value) : outcome bytes := ok_or (bytes_from_json v) "invalid bytes".

Definition ExecutionPayload_serialize (p : ExecutionPayload) : Value :=
  VObject
    ([("parentHash", hash_to_json (pl_parent_hash p));
      ("feeRecipient", hash_to_json (pl_fee_recipient p));
      ("stateRoot", hash_to_json (pl_state_root p));
      ("receiptsRoot", hash_to_json (pl_receipts_root p));
      ("logsBloom", bytes_to_json (pl_logs_bloom p));
      ("prevRandao", hash_to_json (pl_prev_randao p));
      ("blockNumber", u64_to_json (pl_block_number p));
      ("gasLimit", u64_to_json (pl_gas_limit p));
      ("gasUsed", u64_to_json (pl_gas_used p));
      ("timestamp", u64_to_json (pl_timestamp p));
      ("extraData", bytes_to_json (pl_extra_data p));
      ("baseFeePerGas", u64_to_json (pl_base_fee_per_gas p));
      ("blockHash", hash_to_json (pl_block_hash p));
      ("transactions", VArray (RawTransaction_serialize <$> pl_transactions p))] ++
     some_field "withdrawals" ((fun l => VArray ((fun _ => VNull) <$> l)) <$> pl_withdrawals p) ++
     some_field "blobGasUsed" (u64_to_json <$> pl_blob_gas_used p) ++
     some_field "excessBlobGas" (u64_to_json <$> pl_excess_blob_gas p)).

Definition ExecutionPayload_deserialize (v : Value) : outcome ExecutionPayload :=
  let v := as_struct
    ["parentHash"; "feeRecipient"; "stateRoot"; "receiptsRoot"; "logsBloom"; "prevRandao";
     "blockNumber"; "gasLimit"; "gasUsed"; "timestamp"; "extraData"; "baseFeePerGas"; "blockHash";
     "transactions"; "withdrawals"; "blobGasUsed"; "excessBlobGas"] v in
  parent_hash ← required from_hash "parentHash" v;
  fee_recipient ← required from_address "feeRecipient" v;
  state_root ← required from_hash "stateRoot" v;
  receipts_root ← required from_hash "receiptsRoot" v;
  logs_bloom ← required from_bytes "logsBloom" v;
  prev_randao ← required from_hash "prevRandao" v;
  block_number ← required from_u64 "blockNumber" v;
  gas_limit ← required from_u64 "gasLimit" v;
  gas_used ← required from_u64 "gasUsed" v;
  timestamp ← required from_u64 "timestamp" v;
  extra_data ← required from_bytes "extraData" v;
  base_fee_per_gas ← required from_u64 "baseFeePerGas" v;
  block_hash ← required from_hash "blockHash" v;
  transactions ← required (from_array RawTransaction_deserialize) "transactions" v;
  withdrawals ← optional (from_array from_unit) "withdrawals" v;
  blob_gas_used ← optional from_u64 "blobGasUsed" v;
  excess_blob_gas ← optional from_u64 "excessBlobGas" v;
  Ok {| pl_parent_hash := parent_hash; pl_fee_recipient := fee_recipient; pl_state_root := state_root;
        pl_receipts_root := receipts_root; pl_logs_bloom := logs_bloom; pl_prev_randao := prev_randao;
        pl_block_number := block_number; pl_gas_limit := gas_limit; pl_gas_used := gas_used;
        pl_timestamp := timestamp; pl_extra_data := extra_data; pl_base_fee_per_gas := base_fee_per_gas;
        pl_block_hash := block_hash; pl_transactions := transactions; pl_withdrawals := withdrawals;
        pl_blob_gas_used := blob_gas_used; pl_excess_blob_gas := excess_blob_gas |}.

(** The three fields of the derivation are skipped. *)
Definition PayloadAttributes_serialize (a : PayloadAttributes) : Value :=
  VObject
    [("timestamp", u64_to_json (pa_timestamp a));
     ("prevRandao", hash_to_json (pa_prev_randao a));
     ("suggestedFeeRecipient", hash_to_json (pa_suggested_fee_recipient a));
     ("transactions", or_null ((fun l => VArray (RawTransaction_serialize <$> l)) <$> pa_transactions a));
     ("noTxPool", VBool (pa_no_tx_pool a));
     ("gasLimit", u64_to_json (pa_gas_limit a));
     ("withdrawals", or_null ((fun l => VArray ((fun _ => VNull) <$> l)) <$> pa_withdrawals a))].

Definition PayloadAttributes_deserialize (v : Value) : outcome PayloadAttributes :=
  let v := as_struct
    ["timestamp"; "prevRandao"; "suggestedFeeRecipient"; "transactions"; "noTxPool"; "gasLimit";
     "withdrawals"] v in
  timestamp ← required from_u64 "timestamp" v;
  prev_randao ← required from_hash "prevRandao" v;
  suggested_fee_recipient ← required from_address "suggestedFeeRecipient" v;
  transactions ← optional (from_array RawTransaction_deserialize) "transactions" v;
  no_tx_pool ← required from_bool "noTxPool" v;
  gas_limit ← required from_u64 "gasLimit" v;
  withdrawals ← optional (from_array from_unit) "withdrawals" v;
  Ok {| pa_timestamp := timestamp; pa_prev_randao := prev_randao;
        pa_suggested_fee_recipient := suggested_fee_recipient; pa_transactions := transactions;
        pa_no_tx_pool := no_tx_pool; pa_gas_limit := gas_limit; pa_withdrawals := withdrawals;
        pa_epoch := None; pa_l1_inclusion_block := None; pa_seq_number := None |}.

(** A unit variant is its name, or an object that has [null] under it. *)
Definition Status_deserialize (v : Value) : outcome Status :=
  s ← from_string match v with VObject [(name, VNull)] => VString name | v => v end;
  if bool_decide (s = "VALID") then Ok Valid
  else if bool_decide (s = "INVALID") then Ok Invalid
  else if bool_decide (s = "SYNCING") then Ok Syncing
  else if bool_decide (s = "ACCEPTED") then Ok Accepted
  else if bool_decide (s = "INVALID_BLOCK_HASH") then Ok InvalidBlockHash
  else Err "unknown variant".

Definition Status_serialize (s : Status) : Value :=
  VString
    match s with
    | Valid => "VALID"
    | Invalid => "INVALID"
    | Syncing => "SYNCING"
    | Accepted => "ACCEPTED"
    | InvalidBlockHash => "INVALID_BLOCK_HASH"
    end.

(** The error has a default, also in an array. *)
Definition PayloadStatus_deserialize (v : Value) : outcome PayloadStatus :=
  let v := match v with VArray [a; b] => VArray [a; b; VNull] | v => v end in
  let v := as_struct ["status"; "latestValidHash"; "validationError"] v in
  status ← required Status_deserialize "status" v;
  latest_valid_hash ← optional from_hash "latestValidHash" v;
  validation_error ← optional from_string "validationError" v;
  Ok {| status := status; latest_valid_hash := latest_valid_hash; validation_error := validation_error |}.

Definition PayloadStatus_serialize (s : PayloadStatus) : Value :=
  VObject
    [("status", Status_serialize (status s));
     ("latestValidHash", or_null (hash_to_json <$> latest_valid_hash s));
     ("validationError", or_null (VString <$> validation_error s))].

Definition ForkChoiceUpdate_deserialize (v : Value) : outcome ForkChoiceUpdate :=
  let v := as_struct ["payloadStatus"; "payloadId"] v in
  payload_status ← required PayloadStatus_deserialize "payloadStatus" v;
  payload_id ← optional from_u64 "payloadId" v;
  Ok {| payload_status := payload_status; payload_id := payload_id |}.

Definition ForkChoiceUpdate_serialize (u : ForkChoiceUpdate) : Value :=
  VObject
    [("payloadStatus", PayloadStatus_serialize (payload_status u));
     ("payloadId", or_null (u64_to_json <$> payload_id u))].

Definition ForkchoiceState_serialize (s : ForkchoiceState) : Value :=
  VObject
    [("headBlockHash", hash_to_json (head_block_hash s));
     ("safeBlockHash", hash_to_json (safe_block_hash s));
     ("finalizedBlockHash", hash_to_json (finalized_block_hash s))].

Definition ForkchoiceState_deserialize (v : Value) : outcome ForkchoiceState :=
  let v := as_struct ["headBlockHash"; "safeBlockHash"; "finalizedBlockHash"] v in
  head_block_hash ← required from_hash "headBlockHash" v;
  safe_block_hash ← required from_hash "safeBlockHash" v;
  finalized_block_hash ← required from_hash "finalizedBlockHash" v;
  Ok {| head_block_hash := head_block_hash; safe_block_hash := safe_block_hash;
        finalized_block_hash := finalized_block_hash |}.

(** [GetPayloadResponse]. *)
Definition GetPayloadResponse_serialize (p : ExecutionPayload) : Value :=
  VObject [("executionPayload", ExecutionPayload_serialize p)].

Definition GetPayloadResponse_deserialize (v : Value) : outcome ExecutionPayload :=
  let v := as_struct ["executionPayload"] v in
  required ExecutionPayload_deserialize "executionPayload" v.
End json.

(** ** Requests *)

Record EngineApiErrorPayload := {
  err_code : Z;
  err_message : string;
  err_data : option Value
}.

Record EngineApiResponse (P : Type) := {
  resp_jsonrpc : string;
  resp_id : Z;
  resp_result : option P;
  resp_error : option EngineApiErrorPayload
}.

Arguments Build_EngineApiResponse {P}.
Arguments resp_jsonrpc {P}.
Arguments resp_id {P}.
Arguments resp_result {P}.
Arguments resp_error {P}.

Definition EngineApiErrorPayload_deserialize (v : Value) : outcome EngineApiErrorPayload :=
  let v := as_struct ["code"; "message"; "data"] v in
  code ← required (from_integer (-9223372036854775808) 9223372036854775807) "code" v;
  message ← required from_string "message" v;
  data ← optional Ok "data" v;
  Ok {| err_code := code; err_message := message; err_data := data |}.

Definition EngineApiResponse_deserialize {P} (dec : Value -> outcome P) (v : Value) : outcome (EngineApiResponse P) :=
  let v := as_struct ["jsonrpc"; "id"; "result"; "error"] v in
  jsonrpc ← required from_string "jsonrpc" v;
  id ← required (from_integer 0 18446744073709551615) "id" v;
  result ← optional dec "result" v;
  error ← optional EngineApiErrorPayload_deserialize "error" v;
  Ok {| resp_jsonrpc := jsonrpc; resp_id := id; resp_result := result; resp_error := error |}.

(** A request: its URL, the token of its [Authorization] header and its body. *)
Record Request := {
  req_url : string;
  req_token : string;
  req_body : Value
}.

(** The world outside: the clock in seconds, and a request answered with a JSON body in
    time, or an error. *)
Class Transport (T : Type) := {
  system_time : M T Z;
  send_request : Request -> M T Value
}.

Record EngineClient (T : Type) := {
  api : EngineApi;
  world : T
}.

Arguments Build_EngineClient {T}.
Arguments api {T}.
Arguments world {T}.

Section client.
Context {T : Type} `{Transport T, Jwt, EthersSerde}.
Implicit Types c : EngineClient T.

Definition set_world (w : T) c : EngineClient T := {| api := api c; world := w |}.

(** One attempt of [post], in the closure that is retried. *)
Definition attempt {P} (dec : Value -> outcome P) (body : Value) : M (EngineClient T) (EngineApiResponse P) :=
  now ← zoom world set_world system_time;
  claims ← lift (generate_claims now (Some now));
  api ← gets api;
  jwt ← lift (ok_or (jwt_encode claims (secret api)) "EngineApi failed to encode jwt with claims!");
  reply ← zoom world set_world (send_request {| req_url := base_url api; req_token := jwt; req_body := body |});
  lift (EngineApiResponse_deserialize dec reply).

(** [RetryPolicy::retry] with [retries] retries. *)
Fixpoint retry {S A} (retries : nat) (m : M S A) : M S A := fun s =>
  match m s with
  | (Err e, s) => match retries with O => (Err e, s) | S retries => retry retries m s end
  | r => r
  end.

Definition request_body (method : string) (params : list Value) : Value :=
  VObject (base_body ++ [("method", VString method); ("params", VArray params)]).

(** [EngineApi::post]. *)
Definition post {P} (dec : Value -> outcome P) (method : string) (params : list Value) : M (EngineClient T) P :=
  api ← gets api;
  _ ← lift (ok_or (client api) "Driver missing http client");
  res ← retry 5 (attempt dec (request_body method params));
  lift
    match resp_result res with
    | Some res => Ok res
    | None =>
        match resp_error res with
        | Some err => Err ("Engine API POST error: " +:+ err_message err)
        | None => Err "Failed to parse Engine API response"
        end
    end.

(** [EngineApi::is_available]. *)
Definition is_available : M (EngineClient T) bool := fun c =>
  match post Ok "eth_chainId" [] c with
  | (Ok _, c) => (Ok true, c)
  | (Err _, c) => (Ok false, c)
  | (Panic, c) => (Panic, c)
  | (Diverge, c) => (Diverge, c)
  end.

(** [format!("{:x}")] of a [U64], and [{:0>16}]. *)
Fixpoint trim_zeros (s : string) : string :=
  match s with
  | String "0"%char (String _ _ as t) => trim_zeros t
  | s => s
  end.

Definition lower_hex (z : Z) : string := trim_zeros (hex_encode (to_be 8 z)).

Definition pad_left (width : nat) (s : string) : string :=
  String.concat "" (replicate (width - String.length s) "0") +:+ s.

Definition api_forkchoice_updated (forkchoice_state : ForkchoiceState) (payload_attributes : option PayloadAttributes)
    : M (EngineClient T) ForkChoiceUpdate :=
  let payload_attributes_param := or_null (PayloadAttributes_serialize <$> payload_attributes) in
  let forkchoice_state_param := ForkchoiceState_serialize forkchoice_state in
  post ForkChoiceUpdate_deserialize ENGINE_FORKCHOICE_UPDATED_V2 [forkchoice_state_param; payload_attributes_param].

Definition api_new_payload (execution_payload : ExecutionPayload) : M (EngineClient T) PayloadStatus :=
  post PayloadStatus_deserialize ENGINE_NEW_PAYLOAD_V2 [ExecutionPayload_serialize execution_payload].

Definition api_get_payload (payload_id : PayloadId) : M (EngineClient T) ExecutionPayload :=
  let encoded := lower_hex payload_id in
  let padded := "0x" +:+ pad_left 16 encoded in
  post GetPayloadResponse_deserialize ENGINE_GET_PAYLOAD_V2 [VString padded].

#[export] Instance EngineApi_engine : Engine (EngineClient T) := {
  forkchoice_updated := api_forkchoice_updated;
  new_payload := api_new_payload;
  get_payload := api_get_payload
}.
End client.

(** ** Lemmas *)

Lemma required_Ok {A} (dec : Value -> outcome A) name v x a :
  get v name = Some x -> dec x = Ok a -> required dec name v = Ok a.
Proof. intros Hg Hd. unfold required. by rewrite Hg. Qed.

Lemma required_bind {A B} (dec : Value -> outcome A) name v x a (k : A -> outcome B) r :
  get v name = Some x -> dec x = Ok a -> k a = r -> required dec name v ≫= k = r.
Proof. intros Hg Hd <-. by rewrite (required_Ok _ _ _ _ _ Hg Hd). Qed.

Lemma optional_bind {A B} (dec : Value -> outcome A) name v o (k : option A -> outcome B) r :
  optional dec name v = Ok o -> k o = r -> optional dec name v ≫= k = r.
Proof. by intros -> <-. Qed.

Lemma optional_Some {A} (dec : Value -> outcome A) name v x a :
  get v name = Some x -> x <> VNull -> dec x = Ok a -> optional dec name v = Ok (Some a).
Proof. intros Hg Hn Hd. unfold optional. rewrite Hg. destruct x; [done|..]; by rewrite Hd. Qed.

Lemma optional_None {A} (dec : Value -> outcome A) name v :
  get v name = None \/ get v name = Some VNull -> optional dec name v = Ok None.
Proof. unfold optional. by intros [-> | ->]. Qed.

(** A field that is skipped, or [null], when it is [None]. *)
Lemma optional_field {A} (dec : Value -> outcome A) (enc : A -> Value) name v o :
  get v name = enc <$> o \/ get v name = Some (or_null (enc <$> o)) ->
  (forall a, o = Some a -> enc a <> VNull /\ dec (enc a) = Ok a) -> optional dec name v = Ok o.
Proof.
  intros Hg Ho. destruct o as [a|].
  - destruct (Ho a eq_refl) as [Hn Hd]. apply (optional_Some _ _ _ (enc a)); [by destruct Hg|done|done].
  - by apply optional_None.
Qed.

Lemma from_values_map {A B} (dec : Value -> outcome A) (enc : B -> Value) (f : B -> A) l :
  Forall (fun b => dec (enc b) = Ok (f b)) l -> from_values dec (enc <$> l) = Ok (f <$> l).
Proof. induction 1 as [|b l Hb _ IH]; [done|]. cbn [fmap list_fmap from_values]. by rewrite Hb, bind_ret, IH. Qed.

Lemma RawTransaction_json tx : bytes_ok tx -> RawTransaction_deserialize (RawTransaction_serialize tx) = Ok tx.
Proof.
  intros Htx. unfold RawTransaction_deserialize, RawTransaction_serialize, from_string. cbn [as_str ok_or].
  rewrite bind_ret, strip_prefix_app. cbn [from_option id]. by rewrite hex_decode_encode.
Qed.

Lemma transactions_json l :
  Forall bytes_ok l -> from_array RawTransaction_deserialize (VArray (RawTransaction_serialize <$> l)) = Ok l.
Proof.
  intros Hl. cbn [from_array]. rewrite (from_values_map _ _ id); [by rewrite list_fmap_id|].
  eapply Forall_impl; [exact Hl|]. apply RawTransaction_json.
Qed.

Lemma withdrawals_json (l : list unit) : from_array from_unit (VArray ((fun _ => VNull) <$> l)) = Ok l.
Proof.
  cbn [from_array]. rewrite (from_values_map _ _ id); [by rewrite list_fmap_id|].
  apply Forall_forall. by intros [] _.
Qed.

(** A hash or an address of [n] bytes. *)
Definition hash_ok (n : nat) (h : bytes) : Prop := length h = n /\ bytes_ok h.

Record payload_ok (p : ExecutionPayload) : Prop := {
  payload_hashes : Forall (hash_ok 32)
    [pl_parent_hash p; pl_state_root p; pl_receipts_root p; pl_prev_randao p; pl_block_hash p];
  payload_address : hash_ok 20 (pl_fee_recipient p);
  payload_bytes : bytes_ok (pl_logs_bloom p) /\ bytes_ok (pl_extra_data p) /\ Forall bytes_ok (pl_transactions p);
  payload_numbers : Forall in_u64
    [pl_block_number p; pl_gas_limit p; pl_gas_used p; pl_timestamp p; pl_base_fee_per_gas p];
  payload_blobs : (forall z, pl_blob_gas_used p = Some z -> in_u64 z) /\ (forall z, pl_excess_blob_gas p = Some z -> in_u64 z)
}.

Section json_lemmas.
Context `{EthersSerde}.

Lemma from_u64_json z : in_u64 z -> from_u64 (u64_to_json z) = Ok z.
Proof. intros Hz. unfold from_u64. by rewrite u64_json. Qed.

Lemma from_hash_json h : hash_ok 32 h -> from_hash (hash_to_json h) = Ok h.
Proof. intros [Hl Hb]. unfold from_hash. by rewrite <- Hl, hash_json. Qed.

Lemma from_address_json h : hash_ok 20 h -> from_address (hash_to_json h) = Ok h.
Proof. intros [Hl Hb]. unfold from_address. by rewrite <- Hl, hash_json. Qed.

Lemma from_bytes_json bs : bytes_ok bs -> from_bytes (bytes_to_json bs) = Ok bs.
Proof. intros Hb. unfold from_bytes. by rewrite bytes_json. Qed.

Lemma ExecutionPayload_json p :
  payload_ok p -> ExecutionPayload_deserialize (ExecutionPayload_serialize p) = Ok p.
Proof.
  intros [Hh Ha (Hb1 & Hb2 & Ht) Hn (Hg1 & Hg2)].
  repeat match goal with F : Forall _ (_ :: _) |- _ => apply Forall_cons in F as [? F] end.
  unfold ExecutionPayload_deserialize.
  repeat (eapply required_bind; [reflexivity
    |first [apply from_hash_json|apply from_address_json|apply from_bytes_json|apply from_u64_json|apply transactions_json];
     assumption|]).
  assert (Hw : forall l, pl_withdrawals p = Some l -> VArray ((fun _ => VNull) <$> l) <> VNull /\
    from_array from_unit (VArray ((fun _ => VNull) <$> l)) = Ok l) by (intros l _; split; [done|apply withdrawals_json]).
  assert (Hu : forall o, (forall z, o = Some z -> in_u64 z) ->
    forall z, o = Some z -> u64_to_json z <> VNull /\ from_u64 (u64_to_json z) = Ok z)
    by (intros o Ho z Hz; split; [apply u64_json_not_null|by apply from_u64_json, Ho]).
  assert (Hget : get (ExecutionPayload_serialize p) "withdrawals" =
      (fun l => VArray ((fun _ => VNull) <$> l)) <$> pl_withdrawals p /\
    get (ExecutionPayload_serialize p) "blobGasUsed" = u64_to_json <$> pl_blob_gas_used p /\
    get (ExecutionPayload_serialize p) "excessBlobGas" = u64_to_json <$> pl_excess_blob_gas p)
    by (destruct p as [? ? ? ? ? ? ? ? ? ? ? ? ? ? [] [] []]; done).
  destruct Hget as (G1 & G2 & G3).
  eapply optional_bind; [eapply optional_field; [left; exact G1|exact Hw]|].
  eapply optional_bind; [eapply optional_field; [left; exact G2|by apply Hu]|].
  eapply optional_bind; [eapply optional_field; [left; exact G3|by apply Hu]|].
  by destruct p.
Qed.
Record attributes_ok (a : PayloadAttributes) : Prop := {
  attributes_numbers : in_u64 (pa_timestamp a) /\ in_u64 (pa_gas_limit a);
  attributes_hashes : hash_ok 32 (pa_prev_randao a) /\ hash_ok 20 (pa_suggested_fee_recipient a);
  attributes_transactions : forall l, pa_transactions a = Some l -> Forall bytes_ok l
}.

(** What of the attributes is sent. *)
Definition sent_attributes (a : PayloadAttributes) : PayloadAttributes :=
  {| pa_timestamp := pa_timestamp a; pa_prev_randao := pa_prev_randao a;
     pa_suggested_fee_recipient := pa_suggested_fee_recipient a; pa_transactions := pa_transactions a;
     pa_no_tx_pool := pa_no_tx_pool a; pa_gas_limit := pa_gas_limit a; pa_withdrawals := pa_withdrawals a;
     pa_epoch := None; pa_l1_inclusion_block := None; pa_seq_number := None |}.

Lemma PayloadAttributes_json a :
  attributes_ok a -> PayloadAttributes_deserialize (PayloadAttributes_serialize a) = Ok (sent_attributes a).
Proof.
  intros [[Ht Hg] [Hr Hf] Htx]. unfold PayloadAttributes_deserialize.
  eapply required_bind; [reflexivity|by apply from_u64_json|].
  eapply required_bind; [reflexivity|by apply from_hash_json|].
  eapply required_bind; [reflexivity|by apply from_address_json|].
  eapply optional_bind; [eapply (optional_field _ (fun l => VArray (RawTransaction_serialize <$> l))); [by right|]|].
  { intros l Hl. split; [done|]. by apply transactions_json, Htx. }
  eapply required_bind; [reflexivity|reflexivity|].
  eapply required_bind; [reflexivity|by apply from_u64_json|].
  eapply optional_bind; [eapply (optional_field _ (fun l => VArray ((fun _ => VNull) <$> l))); [by right|]|done].
  intros l _. split; [done|]. apply withdrawals_json.
Qed.

Lemma Status_json s : Status_deserialize (Status_serialize s) = Ok s.
Proof. by destruct s. Qed.

Lemma PayloadStatus_json s :
  (forall h, latest_valid_hash s = Some h -> hash_ok 32 h) ->
  PayloadStatus_deserialize (PayloadStatus_serialize s) = Ok s.
Proof.
  intros Hh. unfold PayloadStatus_deserialize.
  eapply required_bind; [reflexivity|apply Status_json|].
  eapply optional_bind; [eapply (optional_field _ hash_to_json); [by right|]|].
  { intros h Hl. split; [apply hash_json_not_null|]. by apply from_hash_json, Hh. }
  eapply optional_bind; [eapply (optional_field _ VString); [by right|done]|]. by destruct s.
Qed.

Lemma ForkChoiceUpdate_json u :
  (forall h, latest_valid_hash (payload_status u) = Some h -> hash_ok 32 h) ->
  (forall z, payload_id u = Some z -> in_u64 z) ->
  ForkChoiceUpdate_deserialize (ForkChoiceUpdate_serialize u) = Ok u.
Proof.
  intros Hh Hz. unfold ForkChoiceUpdate_deserialize.
  eapply required_bind; [reflexivity|by apply PayloadStatus_json|].
  eapply optional_bind; [eapply (optional_field _ u64_to_json); [by right|]|by destruct u].
  intros z Hi. split; [apply u64_json_not_null|]. by apply from_u64_json, Hz.
Qed.
End json_lemmas.

(** ** Calls *)

(** The padding undoes the trimming. *)
Lemma trim_zeros_eq a b t :
  trim_zeros (String a (String b t)) =
    if bool_decide (a = "0"%char) then trim_zeros (String b t) else String a (String b t).
Proof. by destruct a as [[] [] [] [] [] [] [] []]. Qed.

Lemma pad_left_long s n : (n <= String.length s)%nat -> pad_left n s = s.
Proof. intros Hn. unfold pad_left. by replace (n - String.length s)%nat with 0%nat by lia. Qed.

Lemma pad_left_S s n : (String.length s <= n)%nat -> pad_left (S n) s = String "0" (pad_left n s).
Proof.
  intros Hn. unfold pad_left. replace (S n - String.length s)%nat with (S (n - String.length s)) by lia.
  by destruct (n - String.length s)%nat.
Qed.

Lemma trim_zeros_length s : (String.length (trim_zeros s) <= String.length s)%nat.
Proof.
  induction s as [|a s IH]; [done|]. destruct s as [|b t]; [by destruct a as [[] [] [] [] [] [] [] []]|].
  rewrite trim_zeros_eq. destruct (bool_decide _); [|done]. cbn [String.length] in *. lia.
Qed.

Lemma trim_zeros_pad s : pad_left (String.length s) (trim_zeros s) = s.
Proof.
  induction s as [|a s IH]; [done|]. destruct s as [|b t]; [by destruct a as [[] [] [] [] [] [] [] []]|].
  rewrite trim_zeros_eq. destruct (bool_decide_reflect (a = "0"%char)) as [->|]; [|by apply pad_left_long].
  change (String.length (String "0" (String b t))) with (S (String.length (String b t))).
  rewrite pad_left_S by apply trim_zeros_length. by rewrite IH.
Qed.

Lemma payload_id_padded z : pad_left 16 (lower_hex z) = hex_encode (to_be 8 z).
Proof.
  unfold lower_hex. rewrite <- (trim_zeros_pad (hex_encode (to_be 8 z))) at 2.
  by rewrite length_hex_encode, length_to_be.
Qed.

(** How the retries end: the first reply within six attempts, or the last error. *)
Inductive retried {S A} (m : M S A) : nat -> S -> outcome A -> S -> Prop :=
| retried_done n s r s' : m s = (r, s') -> (forall e, r <> Err e) -> retried m n s r s'
| retried_out s e s' : m s = (Err e, s') -> retried m 0 s (Err e) s'
| retried_again n s e s1 r s' : m s = (Err e, s1) -> retried m n s1 r s' -> retried m (Datatypes.S n) s r s'.

Lemma retry_retried {S A} (m : M S A) n s r s' : retry n m s = (r, s') <-> retried m n s r s'.
Proof.
  split.
  - revert s. induction n as [|n IH]; intros s E; cbn [retry] in E; destruct (m s) as [r1 s1] eqn:Em.
    + destruct r1; injection E as <- <-; [by apply retried_done|by apply retried_out|by apply retried_done..].
    + destruct r1; try (injection E as <- <-; by apply retried_done). eapply retried_again; [done|]. by apply IH.
  - induction 1 as [n s r s' Em Hr|s e s' Em|n s e s1 r s' Em _ IH].
    + destruct n; cbn [retry]; rewrite Em; destruct r; try done; by destruct (Hr e).
    + cbn [retry]. by rewrite Em.
    + cbn [retry]. by rewrite Em.
Qed.

(** ** The secret *)

Lemma trim_end_app_space s w : trim_end w = EmptyString -> trim_end (s +:+ w) = trim_end s.
Proof.
  intros Hw. induction s as [|c s IH]; [done|].
  change (trim_end (String c s +:+ w)) with
    (match trim_end (s +:+ w) with
     | EmptyString => if is_whitespace c then EmptyString else String c EmptyString
     | t => String c t
     end). by rewrite IH.
Qed.

Fixpoint all_chars (P : ascii -> bool) (s : string) : bool :=
  match s with EmptyString => true | String c s => P c && all_chars P s end.

Lemma trim_start_space w s : all_chars is_whitespace w = true -> trim_start (w +:+ s) = trim_start s.
Proof.
  induction w as [|c w IH]; [done|]. cbn [all_chars]. intros [Hc Hw]%andb_true_iff.
  change (trim_start (String c w +:+ s)) with (if is_whitespace c then trim_start (w +:+ s) else String c (w +:+ s)).
  by rewrite Hc, IH.
Qed.

Lemma trim_end_space w : all_chars is_whitespace w = true -> trim_end w = EmptyString.
Proof. induction w as [|c w IH]; [done|]. cbn. intros [Hc Hw]%andb_true_iff. by rewrite IH, Hc. Qed.

Lemma trim_end_solid s : all_chars (fun c => negb (is_whitespace c)) s = true -> trim_end s = s.
Proof.
  induction s as [|c s IH]; [done|]. cbn. intros [Hc Hs]%andb_true_iff. rewrite IH by done.
  destruct s; [|done]. by rewrite (proj1 (negb_true_iff _) Hc).
Qed.

Lemma trim_start_solid s : all_chars (fun c => negb (is_whitespace c)) s = true -> trim_start s = s.
Proof. destruct s as [|c s]; [done|]. cbn. intros [Hc _]%andb_true_iff. by rewrite (proj1 (negb_true_iff _) Hc). Qed.

Lemma trim_spaces w1 s w2 :
  all_chars is_whitespace w1 = true -> all_chars is_whitespace w2 = true -> s <> EmptyString ->
  all_chars (fun c => negb (is_whitespace c)) s = true -> trim (w1 +:+ s +:+ w2) = s.
Proof.
  intros H1' H2' Hne Hs. unfold trim. rewrite trim_start_space by done. destruct s as [|c s]; [done|].
  assert (Hc : is_whitespace c = false) by (cbn in Hs; apply andb_true_iff in Hs as [Hc _]; by apply negb_true_iff).
  change (String c s +:+ w2) with (String c (s +:+ w2)). cbn [trim_start]. rewrite Hc.
  change (String c (s +:+ w2)) with (String c s +:+ w2).
  rewrite trim_end_app_space by by apply trim_end_space. by apply trim_end_solid.
Qed.

(** The digits of a secret. *)
Definition is_hex_char (c : ascii) : bool := match hex_value c with Some _ => true | None => false end.

Lemma hex_char_hex d : 0 <= d < 16 -> is_hex_char (hex_char d) = true.
Proof. intros Hd. unfold is_hex_char. by rewrite hex_value_char. Qed.

Lemma all_chars_impl (P Q : ascii -> bool) s :
  (forall c, P c = true -> Q c = true) -> all_chars P s = true -> all_chars Q s = true.
Proof.
  intros HPQ. induction s as [|c s IH]; [done|]. cbn. rewrite !andb_true_iff. intros [Hc Hs].
  split; [by apply HPQ|by apply IH].
Qed.

Lemma hex_encode_chars bs : bytes_ok bs -> all_chars is_hex_char (hex_encode bs) = true.
Proof.
  induction 1 as [|b bs Hb _ IH]; [done|]. unfold byte_ok in Hb. cbn [hex_encode all_chars].
  rewrite (hex_char_hex (b / 16)) by (split; [apply Z.div_pos|apply Z.div_lt_upper_bound]; lia).
  rewrite (hex_char_hex (b mod 16)) by (apply Z.mod_pos_bound; lia). done.
Qed.

Lemma hex_char_solid c : is_hex_char c = true -> negb (is_whitespace c) = true.
Proof. destruct c as [[] [] [] [] [] [] [] []]; by vm_compute. Qed.

Lemma strip_0x s : all_chars is_hex_char s = true -> strip_prefix "0x" s = None /\ strip_prefix "0X" s = None.
Proof.
  intros Hs. split.
  - destruct (strip_prefix "0x" s) as [t|] eqn:E; [|done]. apply strip_prefix_Some in E as ->. by cbn in Hs.
  - destruct (strip_prefix "0X" s) as [t|] eqn:E; [|done]. apply strip_prefix_Some in E as ->. by cbn in Hs.
Qed.

Lemma length_string_app s t : String.length (s +:+ t) = (String.length s + String.length t)%nat.
Proof. induction s as [|c s IH]; [done|].
  change (String.length (String c s +:+ t)) with (S (String.length (s +:+ t))). by rewrite IH.
Qed.

Lemma all_chars_app P s t : all_chars P (s +:+ t) = all_chars P s && all_chars P t.
Proof.
  induction s as [|c s IH]; [done|]. change (all_chars P (String c s +:+ t)) with (P c && all_chars P (s +:+ t)).
  rewrite IH. cbn [all_chars]. by rewrite andb_assoc.
Qed.

Lemma from_hex_not_Panic s : JwtSecret_from_hex s <> Panic.
Proof.
  unfold JwtSecret_from_hex. cbn zeta. set (h := match strip_prefix "0x" (trim s) with Some _ => _ | None => _ end).
  destruct (Nat.eqb_spec (String.length h) JWT_SECRET_LEN) as [Hl|]; [|done]. cbn [negb].
  destruct (hex_decode h) as [bs|] eqn:E; [|done]. cbn [ok_or]. rewrite bind_ret. apply hex_decode_length in E.
  rewrite (proj2 (Z.eqb_eq _ _)); [done|]. unfold len, JWT_SECRET_LEN in *. lia.
Qed.

(** ** Properties *)

(** A secret is read back.  Parsing never panics: the check of the length makes sure
    that the conversion to 32 bytes works.  A secret written in lower-case digits is
    read whether it has no prefix, 0x or 0X, and whatever white space is around it;
    the comparison with a token, though, holds for the bare digits only. *)
Theorem JwtSecret_from_hex_spec key w1 w2 prefix :
  length key = 32%nat -> bytes_ok key -> all_chars is_whitespace w1 = true -> all_chars is_whitespace w2 = true ->
  prefix ∈ [""; "0x"; "0X"] ->
  (forall s, JwtSecret_from_hex s <> Panic) /\
  JwtSecret_from_hex (w1 +:+ (prefix +:+ hex_encode key) +:+ w2) = Ok key /\
  (forall token, JwtSecret_equal key token = true <-> token = hex_encode key).
Proof.
  intros Hl Hk H1' H2' Hp. split; [apply from_hex_not_Panic|]. pose proof (hex_encode_chars key Hk) as Hc.
  split; [|intros token; unfold JwtSecret_equal; rewrite bool_decide_eq_true; naive_solver].
  assert (Hsolid : all_chars (fun c => negb (is_whitespace c)) (prefix +:+ hex_encode key) = true).
  { rewrite all_chars_app, (all_chars_impl _ _ _ hex_char_solid Hc), andb_true_r.
    repeat (apply elem_of_cons in Hp as [->|Hp]; [done|]). by apply not_elem_of_nil in Hp. }
  unfold JwtSecret_from_hex. rewrite trim_spaces; [|done|done| |done].
  - cbn zeta. assert (Hs : match strip_prefix "0x" (prefix +:+ hex_encode key) with Some hex => hex
      | None => default (prefix +:+ hex_encode key) (strip_prefix "0X" (prefix +:+ hex_encode key)) end = hex_encode key).
    { repeat (apply elem_of_cons in Hp as [->|Hp]); [..|by apply not_elem_of_nil in Hp].
      - change ("" +:+ hex_encode key) with (hex_encode key). by destruct (strip_0x _ Hc) as [-> ->].
      - by rewrite strip_prefix_app.
      - change (strip_prefix "0x" ("0X" +:+ hex_encode key)) with (@None string). by rewrite strip_prefix_app. }
    rewrite Hs. rewrite length_hex_encode, Hl. cbn [negb Nat.eqb Nat.mul]. rewrite hex_decode_encode by done. cbn [ok_or].
    rewrite bind_ret. by rewrite (proj2 (Z.eqb_eq _ _)) by (unfold len; lia).
  - intros Hx. apply (f_equal String.length) in Hx. rewrite length_string_app, length_hex_encode, Hl in Hx. cbn in Hx. lia.
Qed.

(** A URL without a port is cut to its scheme; with a port it is kept. *)
Lemma EngineApi_new_url host digits n key_str key :
  JwtSecret_from_hex key_str = Ok key -> all_chars (fun c => bool_decide (c <> ":"%char)) host = true ->
  all_chars (fun c => bool_decide (c <> ":"%char)) digits = true -> parse_u16 digits = Some n ->
  (base_url <$> EngineApi_new ("http:" +:+ host) key_str) = Ok "http" /\
  EngineApi_new ("http:" +:+ host +:+ ":" +:+ digits) key_str =
    Ok {| base_url := "http:" +:+ host +:+ ":" +:+ digits; port := n; client := Some tt; secret := key |}.
Proof.
  intros Hk Hh Hd Hn.
  assert (Hs : forall t, all_chars (fun c => bool_decide (c <> ":"%char)) t = true -> split_at ":" t = (t, [])).
  { induction t as [|c t IH]; [done|]. cbn [all_chars split_at]. rewrite andb_true_iff, bool_decide_eq_true.
    intros [Hc Ht]. rewrite IH by done. by rewrite bool_decide_eq_false_2. }
  assert (Hs2 : forall t r, all_chars (fun c => bool_decide (c <> ":"%char)) t = true ->
    split_at ":" (t +:+ ":" +:+ r) = (t, split ":" r)).
  { induction t as [|c t IH]; intros r Ht.
    - change (split_at ":" ("" +:+ ":" +:+ r)) with (let '(first, rest) := split_at ":" r in (EmptyString, first :: rest)).
      unfold split. by destruct (split_at ":" r).
    - cbn [all_chars] in Ht. rewrite andb_true_iff, bool_decide_eq_true in Ht. destruct Ht as [Hc Ht].
      change (split_at ":" (String c t +:+ ":" +:+ r)) with
        (let '(first, rest) := split_at ":" (t +:+ ":" +:+ r) in
         if bool_decide (c = ":"%char) then (EmptyString, first :: rest) else (String c first, rest)).
      rewrite IH by done. by rewrite bool_decide_eq_false_2. }
  assert (Hx : forall r, split ":" ("http:" +:+ r) = "http" :: split ":" r).
  { intros r. unfold split. change ("http:" +:+ r) with ("http" +:+ ":" +:+ r). rewrite Hs2 by done. unfold split.
    by destruct (split_at ":" r). }
  assert (Hxh : split ":" host = [host]) by (unfold split; by rewrite Hs).
  assert (Hxd : split ":" (host +:+ ":" +:+ digits) = [host; digits]).
  { unfold split at 1. rewrite Hs2 by done. unfold split. by rewrite Hs. }
  unfold EngineApi_new. rewrite Hk. rewrite !bind_ret, !Hx, Hxh, Hxd. split; [reflexivity|].
  cbn zeta. change (index ["http"; host; digits] (len ["http"; host; digits] - 1)) with (Ok digits).
  rewrite bind_ret, Hn. reflexivity.
Qed.

Section properties.
Context `{EthersSerde}.

(** What is written is read back: a payload whose hashes, addresses, bytes and numbers
    are of their sizes, with or without the fields of the later forks, an update with
    its status, and attributes, except for the epoch, the inclusion block and the
    position, which are for the node only and are not sent. *)
Theorem engine_json_roundtrip p a u :
  payload_ok p -> attributes_ok a ->
  (forall h, latest_valid_hash (payload_status u) = Some h -> hash_ok 32 h) -> (forall z, payload_id u = Some z -> in_u64 z) ->
  ExecutionPayload_deserialize (ExecutionPayload_serialize p) = Ok p /\
  PayloadAttributes_deserialize (PayloadAttributes_serialize a) = Ok (sent_attributes a) /\
  ForkChoiceUpdate_deserialize (ForkChoiceUpdate_serialize u) = Ok u.
Proof.
  intros Hp Ha Hh Hz. split; [by apply ExecutionPayload_json|]. split; [by apply PayloadAttributes_json|].
  by apply ForkChoiceUpdate_json.
Qed.

End properties.

(** ** Witnesses

    Hexadecimal strings for all types, and tokens that spell the claims and the key. *)

Definition example_from_hex (v : Value) : option bytes :=
  s ← as_str v; digits ← strip_prefix "0x" s; hex_decode digits.

#[local] Instance example_serde : EthersSerde.
Proof.
  refine {| u64_to_json := fun z => VString ("0x" +:+ hex_encode (to_be 8 z));
            u64_from_json := fun v => from_be <$> example_from_hex v;
            hash_to_json := fun h => VString ("0x" +:+ hex_encode h);
            hash_from_json := fun n v => h ← example_from_hex v; if (length h =? n)%nat then Some h else None;
            bytes_to_json := fun bs => VString ("0x" +:+ hex_encode bs);
            bytes_from_json := example_from_hex |}; try done.
  - intros z Hz. unfold example_from_hex. cbn [as_str mbind option_bind]. rewrite strip_prefix_app. cbn [mbind option_bind].
    rewrite hex_decode_encode by apply bytes_ok_to_be. cbn. f_equal. by apply (from_be_to_be_id 8).
  - intros h Hh. unfold example_from_hex. cbn [as_str mbind option_bind]. rewrite strip_prefix_app. cbn [mbind option_bind].
    rewrite hex_decode_encode by done. cbn [mbind option_bind]. by rewrite Nat.eqb_refl.
  - intros bs Hb. unfold example_from_hex. cbn [as_str mbind option_bind]. rewrite strip_prefix_app. cbn [mbind option_bind].
    by rewrite hex_decode_encode.
Defined.

#[local] Instance example_jwt : Jwt :=
  { jwt_encode := fun c key => Some (hex_encode (to_be 8 (iat c) ++ to_be 8 (exp c) ++ key)) }.

Definition example_key : bytes := replicate 31 7 ++ [255].

Lemma example_payload_ok n : in_u64 n -> in_u64 (1686789347 + 2 * n) -> payload_ok (example_payload n [[2; 3]]).
Proof.
  intros Hn Ht. split; cbn.
  - repeat (apply Forall_cons; split; [split; [done|apply bytes_ok_to_be]|]). constructor.
  - split; [done|]. by_compute.
  - split_and!; [constructor|constructor|]. repeat constructor; by_compute.
  - repeat (apply Forall_cons; split; [done || by_compute|]). constructor.
  - done.
Qed.

Lemma JwtSecret_from_hex_spec_witness :
  JwtSecret_from_hex (" " +:+ ("0x" +:+ hex_encode example_key) +:+ String "010" "") = Ok example_key /\
  JwtSecret_equal example_key ("0x" +:+ hex_encode example_key) = false.
Proof.
  destruct (JwtSecret_from_hex_spec example_key " " (String "010" "") "0x") as (_ & Hf & He);
    [done|repeat constructor; by_compute|done|done|apply list_elem_of_In; right; by left|].
  split; [exact Hf|]. apply not_true_iff_false. intros Ht%He. by vm_compute in Ht.
Defined.

Lemma engine_json_roundtrip_witness :
  ExecutionPayload_deserialize (ExecutionPayload_serialize (example_payload 11 [[2; 3]])) = Ok (example_payload 11 [[2; 3]]) /\
  PayloadAttributes_deserialize (PayloadAttributes_serialize (example_payload_attributes 11 [[2; 3]])) =
    Ok (sent_attributes (example_payload_attributes 11 [[2; 3]])).
Proof.
  destruct (engine_json_roundtrip (example_payload 11 [[2; 3]]) (example_payload_attributes 11 [[2; 3]])
    {| payload_status := example_status; payload_id := Some 1 |}) as (Hp & Ha & _).
  - apply example_payload_ok; by_compute.
  - split; [split; by_compute|split; (split; [done|by_compute])|]. intros l [= <-]. repeat constructor; by_compute.
  - done.
  - intros z [= <-]. by_compute.
  - split; [exact Hp|exact Ha].
Defined.
