(* ===== verification/EngineServer.v ===== *)
(** The JSON-RPC client of EngineApi.v in front of an execution engine.

    The other side of the wire is written here from the engine API, not from the client:
    the names of the methods and of the fields, the encodings of quantities and data, the
    names of the statuses, the authentication and the envelope of JSON-RPC are spelled out
    again, with encoders and decoders of their own.  The theorem is that a client of such a
    server behaves as the engine behind it. *)
From Stdlib Require Import Ascii.
From S2P Require Import Prelude Common Config Engine EngineDriver Json EngineApi.

(** ** Encodings of the execution API *)

(** A number in hexadecimal digits, most significant first. *)
Fixpoint hex_number_from (acc : Z) (s : string) : option Z :=
  match s with
  | EmptyString => Some acc
  | String c s => d ← hex_value c; hex_number_from (16 * acc + d) s
  end.

Definition hex_number (s : string) : option Z :=
  match s with EmptyString => None | s => hex_number_from 0 s end.

(** The digits of a number without leading zeros, in front of [acc]; 16 are enough for 64
    bits. *)
Fixpoint hex_digits (fuel : nat) (z : Z) (acc : string) : string :=
  match fuel with
  | O => acc
  | Datatypes.S fuel =>
      if z <? 16 then String (hex_char z) acc else hex_digits fuel (z / 16) (String (hex_char (z mod 16)) acc)
  end.

Definition write_quantity (z : Z) : Value := VString ("0x" +:+ hex_digits 16 z "").

(** A QUANTITY: no leading zeros, and no more than 64 bits. *)
Definition read_quantity (v : Value) : option Z :=
  s ← as_str v;
  digits ← strip_prefix "0x" s;
  match digits with
  | String "0"%char (String _ _) => None
  | _ => if (String.length digits <=? 16)%nat then hex_number digits else None
  end.

Definition write_data (bs : bytes) : Value := VString ("0x" +:+ hex_encode bs).

Definition read_data (v : Value) : option bytes := s ← as_str v; digits ← strip_prefix "0x" s; hex_decode digits.

(** DATA of a fixed length. *)
Definition read_data_of (n : nat) (v : Value) : option bytes :=
  bs ← read_data v; if (length bs =? n)%nat then Some bs else None.

Definition read_bool (v : Value) : option bool := match v with VBool b => Some b | _ => None end.

Definition read_list {A} (read : Value -> option A) (v : Value) : option (list A) :=
  match v with VArray l => mapM read l | _ => None end.

(** The chain has no withdrawals: only empty lists are taken. *)
Definition read_withdrawals (v : Value) : option (list unit) := match v with VArray [] => Some [] | _ => None end.

Definition member {A} (read : Value -> option A) (name : string) (v : Value) : option A := get v name ≫= read.

Definition nullable {A} (read : Value -> option A) (v : Value) : option (option A) :=
  match v with VNull => Some None | v => Some <$> read v end.

Definition nullable_member {A} (read : Value -> option A) (name : string) (v : Value) : option (option A) :=
  match get v name with Some v => nullable read v | None => Some None end.

Definition write_nullable {A} (write : A -> Value) (o : option A) : Value :=
  match o with Some a => write a | None => VNull end.

(** ** The parameters of the methods *)

Definition read_state (v : Value) : option ForkchoiceState :=
  head ← member (read_data_of 32) "headBlockHash" v;
  safe ← member (read_data_of 32) "safeBlockHash" v;
  finalized ← member (read_data_of 32) "finalizedBlockHash" v;
  Some {| head_block_hash := head; safe_block_hash := safe; finalized_block_hash := finalized |}.

Definition read_attributes (v : Value) : option PayloadAttributes :=
  timestamp ← member read_quantity "timestamp" v;
  prev_randao ← member (read_data_of 32) "prevRandao" v;
  fee_recipient ← member (read_data_of 20) "suggestedFeeRecipient" v;
  withdrawals ← nullable_member read_withdrawals "withdrawals" v;
  transactions ← nullable_member (read_list read_data) "transactions" v;
  no_tx_pool ← member read_bool "noTxPool" v;
  gas_limit ← member read_quantity "gasLimit" v;
  Some {| pa_timestamp := timestamp; pa_prev_randao := prev_randao; pa_suggested_fee_recipient := fee_recipient;
          pa_transactions := transactions; pa_no_tx_pool := no_tx_pool; pa_gas_limit := gas_limit;
          pa_withdrawals := withdrawals; pa_epoch := None; pa_l1_inclusion_block := None; pa_seq_number := None |}.

Definition read_payload (v : Value) : option ExecutionPayload :=
  parent_hash ← member (read_data_of 32) "parentHash" v;
  fee_recipient ← member (read_data_of 20) "feeRecipient" v;
  state_root ← member (read_data_of 32) "stateRoot" v;
  receipts_root ← member (read_data_of 32) "receiptsRoot" v;
  logs_bloom ← member read_data "logsBloom" v;
  prev_randao ← member (read_data_of 32) "prevRandao" v;
  block_number ← member read_quantity "blockNumber" v;
  gas_limit ← member read_quantity "gasLimit" v;
  gas_used ← member read_quantity "gasUsed" v;
  timestamp ← member read_quantity "timestamp" v;
  extra_data ← member read_data "extraData" v;
  base_fee ← member read_quantity "baseFeePerGas" v;
  block_hash ← member (read_data_of 32) "blockHash" v;
  transactions ← member (read_list read_data) "transactions" v;
  withdrawals ← nullable_member read_withdrawals "withdrawals" v;
  blob_gas_used ← nullable_member read_quantity "blobGasUsed" v;
  excess_blob_gas ← nullable_member read_quantity "excessBlobGas" v;
  Some {| pl_parent_hash := parent_hash; pl_fee_recipient := fee_recipient; pl_state_root := state_root;
          pl_receipts_root := receipts_root; pl_logs_bloom := logs_bloom; pl_prev_randao := prev_randao;
          pl_block_number := block_number; pl_gas_limit := gas_limit; pl_gas_used := gas_used;
          pl_timestamp := timestamp; pl_extra_data := extra_data; pl_base_fee_per_gas := base_fee;
          pl_block_hash := block_hash; pl_transactions := transactions; pl_withdrawals := withdrawals;
          pl_blob_gas_used := blob_gas_used; pl_excess_blob_gas := excess_blob_gas |}.

(** The identifier of a payload is 8 bytes of data. *)
Definition read_payload_id (v : Value) : option PayloadId := from_be <$> read_data_of 8 v.

(** ** The results of the methods *)

Definition status_name (s : Status) : string :=
  match s with
  | Valid => "VALID"
  | Invalid => "INVALID"
  | Syncing => "SYNCING"
  | Accepted => "ACCEPTED"
  | InvalidBlockHash => "INVALID_BLOCK_HASH"
  end.

Definition write_status (s : PayloadStatus) : Value :=
  VObject
    [("status", VString (status_name (status s)));
     ("latestValidHash", write_nullable write_data (latest_valid_hash s));
     ("validationError", write_nullable VString (validation_error s))].

Definition write_update (u : ForkChoiceUpdate) : Value :=
  VObject
    [("payloadStatus", write_status (payload_status u));
     ("payloadId", write_nullable (fun id => write_data (to_be 8 id)) (payload_id u))].

Definition write_payload (p : ExecutionPayload) : Value :=
  VObject
    [("parentHash", write_data (pl_parent_hash p));
     ("feeRecipient", write_data (pl_fee_recipient p));
     ("stateRoot", write_data (pl_state_root p));
     ("receiptsRoot", write_data (pl_receipts_root p));
     ("logsBloom", write_data (pl_logs_bloom p));
     ("prevRandao", write_data (pl_prev_randao p));
     ("blockNumber", write_quantity (pl_block_number p));
     ("gasLimit", write_quantity (pl_gas_limit p));
     ("gasUsed", write_quantity (pl_gas_used p));
     ("timestamp", write_quantity (pl_timestamp p));
     ("extraData", write_data (pl_extra_data p));
     ("baseFeePerGas", write_quantity (pl_base_fee_per_gas p));
     ("blockHash", write_data (pl_block_hash p));
     ("transactions", VArray (write_data <$> pl_transactions p));
     ("withdrawals", write_nullable (fun _ => VArray []) (pl_withdrawals p));
     ("blobGasUsed", write_nullable write_quantity (pl_blob_gas_used p));
     ("excessBlobGas", write_nullable write_quantity (pl_excess_blob_gas p))].

(** With the payload comes what it is worth. *)
Definition write_built (p : ExecutionPayload) : Value :=
  VObject [("executionPayload", write_payload p); ("blockValue", VString "0x0")].

(** ** The server *)

Record Server (E : Type) := {
  address : string;
  server_secret : bytes;
  clock : Z;
  backend : E
}.

Arguments Build_Server {E}.
Arguments address {E}.
Arguments server_secret {E}.
Arguments clock {E}.
Arguments backend {E}.

(** The server's side of a token. *)
Class JwtVerify `{Jwt} := {
  jwt_verify : string -> bytes -> option Claims;
  jwt_encode_verify claims key : in_u64 (iat claims) -> in_u64 (exp claims) -> bytes_ok key ->
    exists token, jwt_encode claims key = Some token /\ jwt_verify token key = Some claims
}.

Section server.
Context {E : Type} `{Engine E, JwtVerify}.

Definition set_backend (e : E) (s : Server E) : Server E :=
  {| address := address s; server_secret := server_secret s; clock := clock s; backend := e |}.

(** A token of the secret, issued at most a minute from now and not expired. *)
Definition authorized (token : string) (s : Server E) : bool :=
  match jwt_verify token (server_secret s) with
  | Some claims => (Z.abs (clock s - iat claims) <=? 60) && (clock s <=? exp claims)
  | None => false
  end.

Definition reply (id : Value) (field : string * Value) : Value :=
  VObject [("jsonrpc", VString "2.0"); ("id", id); field].

Definition error_reply (id : Value) (code : Z) (message : string) : Value :=
  reply id ("error", VObject [("code", VNumber code); ("message", VString message)]).

Definition invalid_params (id : Value) : M (Server E) Value := lift (Ok (error_reply id (-32602) "invalid params")).

(** Have the engine do a call, and answer its result or its error. *)
Definition answer {A} (id : Value) (write : A -> Value) (call : M E A) : M (Server E) Value := fun s =>
  match call (backend s) with
  | (Ok a, e) => (Ok (reply id ("result", write a)), set_backend e s)
  | (Err message, e) => (Ok (error_reply id (-32000) message), set_backend e s)
  | (_, e) => (Err "connection closed", set_backend e s)
  end.

Definition serve (id : Value) (method : string) (params : list Value) : M (Server E) Value :=
  if bool_decide (method = "engine_forkchoiceUpdatedV2") then
    match params with
    | [state; attributes] =>
        match read_state state, nullable read_attributes attributes with
        | Some state, Some attributes => answer id write_update (forkchoice_updated state attributes)
        | _, _ => invalid_params id
        end
    | _ => invalid_params id
    end
  else if bool_decide (method = "engine_newPayloadV2") then
    match params with
    | [payload] =>
        match read_payload payload with
        | Some payload => answer id write_status (new_payload payload)
        | None => invalid_params id
        end
    | _ => invalid_params id
    end
  else if bool_decide (method = "engine_getPayloadV2") then
    match params with
    | [payload_id] =>
        match read_payload_id payload_id with
        | Some payload_id => answer id write_built (get_payload payload_id)
        | None => invalid_params id
        end
    | _ => invalid_params id
    end
  else lift (Ok (error_reply id (-32601) "method not found")).

Definition serve_request (req : Request) : M (Server E) Value := fun s =>
  if negb (bool_decide (req_url req = address s)) then (Err "connection refused", s)
  else if negb (authorized (req_token req) s) then (Err "unauthorized", s)
  else
    match get (req_body req) "jsonrpc", get (req_body req) "id", get (req_body req) "method",
          get (req_body req) "params" with
    | Some (VString "2.0"), Some id, Some (VString method), Some (VArray params) => serve id method params s
    | _, _, _, _ => (Ok (error_reply VNull (-32600) "invalid request"), s)
    end.

#[export] Instance server_transport : Transport (Server E) := {
  system_time := gets clock;
  send_request := serve_request
}.
End server.

(** ** What [ethers] documents

    The strings that it writes, and that it reads digits with leading zeros too. *)
Class EthersSerdeDocumented `{EthersSerde} := {
  u64_written z : in_u64 z -> u64_to_json z = write_quantity z;
  u64_read digits z : (String.length digits <= 16)%nat -> hex_number digits = Some z ->
    u64_from_json (VString ("0x" +:+ digits)) = Some z;
  hash_written h : hash_to_json h = write_data h;
  bytes_written bs : bytes_to_json bs = write_data bs
}.

(** ** Lemmas on the encodings *)

Lemma hex_number_from_encode bs acc :
  bytes_ok bs -> hex_number_from acc (hex_encode bs) = Some (acc * 256 ^ len bs + from_be bs).
Proof.
  intros Hb. rewrite <- from_be_app_acc. revert acc.
  induction Hb as [|b bs Hb _ IH]; intros acc; [done|]. unfold byte_ok in Hb. cbn [hex_encode hex_number_from foldl].
  rewrite (hex_value_char (b / 16)) by (split; [apply Z.div_pos|apply Z.div_lt_upper_bound]; lia).
  rewrite (hex_value_char (b mod 16)) by (apply Z.mod_pos_bound; lia). cbn [mbind option_bind].
  rewrite IH. do 2 f_equal. pose proof (Z.div_mod b 16). lia.
Qed.

Lemma hex_number_encode bs : bytes_ok bs -> bs <> [] -> hex_number (hex_encode bs) = Some (from_be bs).
Proof.
  intros Hb Hn. destruct bs as [|b bs]; [done|].
  change (hex_number (hex_encode (b :: bs))) with (hex_number_from 0 (hex_encode (b :: bs))).
  by rewrite hex_number_from_encode.
Qed.

Lemma hex_number_from_digits n z acc :
  0 <= z < 16 ^ Z.of_nat n -> (0 < n)%nat -> hex_number_from 0 (hex_digits n z acc) = hex_number_from z acc.
Proof.
  revert z acc. induction n as [|n IH]; intros z acc Hz Hn; [lia|]. cbn [hex_digits].
  destruct (Z.ltb_spec z 16) as [Hl|Hl].
  - cbn [hex_number_from]. rewrite hex_value_char by lia. done.
  - rewrite Nat2Z.inj_succ, Z.pow_succ_r in Hz by lia. destruct n as [|n]; [cbn in Hz; lia|].
    rewrite IH by (split; [apply Z.div_pos; lia|apply Z.div_lt_upper_bound; lia] || lia). cbn [hex_number_from].
    rewrite hex_value_char by (apply Z.mod_pos_bound; lia). cbn [mbind option_bind]. f_equal.
    pose proof (Z.div_mod z 16). lia.
Qed.

(** The first digit, and how many there are. *)
Lemma hex_digits_first n z acc :
  0 < z < 16 ^ Z.of_nat n ->
  exists d rest, hex_digits n z acc = String (hex_char d) rest /\ 0 < d < 16 /\
    (String.length rest < n + String.length acc)%nat.
Proof.
  revert z acc. induction n as [|n IH]; intros z acc Hz; [cbn in Hz; lia|]. cbn [hex_digits].
  destruct (Z.ltb_spec z 16) as [Hl|Hl]; [exists z, acc; split; [done|]; lia|].
  rewrite Nat2Z.inj_succ, Z.pow_succ_r in Hz by lia.
  destruct (IH (z / 16) (String (hex_char (z mod 16)) acc)) as (d & rest & -> & Hd & Hr).
  { split; [apply Z.div_str_pos; lia|apply Z.div_lt_upper_bound; lia]. }
  exists d, rest. cbn [String.length] in Hr. split; [done|]. lia.
Qed.

Lemma hex_char_not_0 d : 0 < d < 16 -> hex_char d <> "0"%char.
Proof.
  intros Hd Hx. apply (f_equal hex_value) in Hx. rewrite hex_value_char in Hx by lia. injection Hx as ->. lia.
Qed.

Lemma read_quantity_written z : in_u64 z -> read_quantity (write_quantity z) = Some z.
Proof.
  intros Hz. unfold in_u64 in Hz. unfold read_quantity, write_quantity. cbn [as_str mbind option_bind]. rewrite strip_prefix_app.
  cbn [mbind option_bind]. destruct (decide (z = 0)) as [->|Hn]; [done|].
  pose proof (hex_number_from_digits 16 z "" ltac:(change (16 ^ Z.of_nat 16) with 18446744073709551616; lia) ltac:(lia)) as Hx.
  destruct (hex_digits_first 16 z "") as (d & rest & E & Hd & Hr); [change (16 ^ Z.of_nat 16) with 18446744073709551616; lia|].
  rewrite E in *. pose proof (hex_char_not_0 d Hd) as H0.
  rewrite (proj2 (Nat.leb_le _ _)) by (cbn [String.length] in *; lia).
  change (hex_number (String (hex_char d) rest)) with (hex_number_from 0 (String (hex_char d) rest)). rewrite Hx.
  destruct (hex_char d) as [[] [] [] [] [] [] [] []]; try done; by destruct rest.
Qed.

Lemma read_data_written bs : bytes_ok bs -> read_data (write_data bs) = Some bs.
Proof.
  intros Hb. unfold read_data, write_data. cbn [as_str mbind option_bind]. rewrite strip_prefix_app. cbn [mbind option_bind].
  by apply hex_decode_encode.
Qed.

Lemma read_data_of_written n bs : hash_ok n bs -> read_data_of n (write_data bs) = Some bs.
Proof. intros [Hl Hb]. unfold read_data_of. rewrite read_data_written by done. cbn. by rewrite Hl, Nat.eqb_refl. Qed.

Lemma read_list_written l : Forall bytes_ok l -> read_list read_data (VArray (write_data <$> l)) = Some l.
Proof.
  intros Hl. cbn [read_list]. apply mapM_Some. induction Hl as [|bs l Hb _ IH]; [by constructor|].
  cbn. constructor; [by apply read_data_written|done].
Qed.

Lemma member_bind {A B} (read : Value -> option A) name v x a (k : A -> option B) r :
  get v name = Some x -> read x = Some a -> k a = r -> member read name v ≫= k = r.
Proof. intros Hg Hr <-. unfold member. rewrite Hg. cbn [mbind option_bind]. by rewrite Hr. Qed.

(** A member that the client skips, or gives as [null], when it is [None]. *)
Lemma nullable_member_bind {A B} (read : Value -> option A) (enc : A -> Value) name v o (k : option A -> option B) r :
  get v name = enc <$> o \/ get v name = Some (or_null (enc <$> o)) ->
  (forall a, o = Some a -> enc a <> VNull /\ read (enc a) = Some a) -> k o = r ->
  nullable_member read name v ≫= k = r.
Proof.
  intros Hg Ho <-. unfold nullable_member. destruct o as [a|].
  - destruct (Ho a eq_refl) as [Hn Hr]. assert (Hx : nullable read (enc a) = Some (Some a)).
    { unfold nullable. destruct (enc a) eqn:Ea; [done|..]; by rewrite Hr. }
    destruct Hg as [-> | ->]; cbn; by rewrite Hx.
  - by destruct Hg as [-> | ->].
Qed.

(** A list of withdrawals that is there is empty. *)
Definition no_withdrawals (o : option (list unit)) : Prop := o = None \/ o = Some [].

Definition state_ok (st : ForkchoiceState) : Prop :=
  Forall (hash_ok 32) [head_block_hash st; safe_block_hash st; finalized_block_hash st].

Section documented.
Context `{EthersSerdeDocumented}.

Lemma read_u64_json z : in_u64 z -> read_quantity (u64_to_json z) = Some z.
Proof. intros Hz. rewrite u64_written by done. by apply read_quantity_written. Qed.

Lemma read_hash_json n h : hash_ok n h -> read_data_of n (hash_to_json h) = Some h.
Proof. rewrite hash_written. apply read_data_of_written. Qed.

Lemma read_bytes_json bs : bytes_ok bs -> read_data (bytes_to_json bs) = Some bs.
Proof. rewrite bytes_written. apply read_data_written. Qed.

Lemma read_withdrawals_json o : no_withdrawals o ->
  forall l, o = Some l -> VArray ((fun _ => VNull) <$> l) <> VNull /\
    read_withdrawals (VArray ((fun _ => VNull) <$> l)) = Some l.
Proof. intros [-> | ->]; [done|]. by intros l [= <-]. Qed.

Lemma read_numbers_json o : (forall z, o = Some z -> in_u64 z) ->
  forall z, o = Some z -> u64_to_json z <> VNull /\ read_quantity (u64_to_json z) = Some z.
Proof. intros Ho z Hz. split; [apply u64_json_not_null|by apply read_u64_json, Ho]. Qed.

Lemma read_state_json st : state_ok st -> read_state (ForkchoiceState_serialize st) = Some st.
Proof.
  intros Hst. unfold state_ok in Hst.
  repeat match goal with F : Forall _ (_ :: _) |- _ => apply Forall_cons in F as [? F] end.
  unfold read_state. repeat (eapply member_bind; [reflexivity|by apply read_hash_json|]). by destruct st.
Qed.

Lemma read_attributes_json a : attributes_ok a -> no_withdrawals (pa_withdrawals a) ->
  read_attributes (PayloadAttributes_serialize a) = Some (sent_attributes a).
Proof.
  intros [[Ht Hg] [Hr Hf] Htx] Hw. unfold read_attributes.
  eapply member_bind; [reflexivity|by apply read_u64_json|].
  eapply member_bind; [reflexivity|by apply read_hash_json|].
  eapply member_bind; [reflexivity|by apply read_hash_json|].
  eapply (nullable_member_bind _ (fun l => VArray ((fun _ => VNull) <$> l))); [by right|by apply read_withdrawals_json|].
  eapply (nullable_member_bind _ (fun l => VArray (RawTransaction_serialize <$> l))); [by right|..].
  { intros l Hl. split; [done|]. by apply read_list_written, Htx. }
  eapply member_bind; [reflexivity|reflexivity|].
  eapply member_bind; [reflexivity|by apply read_u64_json|]. done.
Qed.

Lemma read_payload_json p : payload_ok p -> no_withdrawals (pl_withdrawals p) ->
  read_payload (ExecutionPayload_serialize p) = Some p.
Proof.
  intros [Hh Ha (Hb1 & Hb2 & Ht) Hn (Hg1 & Hg2)] Hw.
  repeat match goal with F : Forall _ (_ :: _) |- _ => apply Forall_cons in F as [? F] end.
  unfold read_payload.
  repeat (eapply member_bind; [reflexivity
    |first [apply read_hash_json|apply read_bytes_json|apply read_u64_json|apply read_list_written]; assumption|]).
  assert (Hget : get (ExecutionPayload_serialize p) "withdrawals" =
      (fun l => VArray ((fun _ => VNull) <$> l)) <$> pl_withdrawals p /\
    get (ExecutionPayload_serialize p) "blobGasUsed" = u64_to_json <$> pl_blob_gas_used p /\
    get (ExecutionPayload_serialize p) "excessBlobGas" = u64_to_json <$> pl_excess_blob_gas p)
    by (destruct p as [? ? ? ? ? ? ? ? ? ? ? ? ? ? [] [] []]; done).
  destruct Hget as (G1 & G2 & G3).
  eapply nullable_member_bind; [left; exact G1|by apply read_withdrawals_json|].
  eapply nullable_member_bind; [left; exact G2|by apply read_numbers_json|].
  eapply nullable_member_bind; [left; exact G3|by apply read_numbers_json|].
  by destruct p.
Qed.

Lemma read_payload_id_json z : in_u64 z -> read_payload_id (VString ("0x" +:+ pad_left 16 (lower_hex z))) = Some z.
Proof.
  intros Hz. rewrite payload_id_padded. unfold read_payload_id. fold (write_data (to_be 8 z)).
  rewrite read_data_of_written by (split; [by rewrite length_to_be|apply bytes_ok_to_be]). cbn. by rewrite from_be_to_be_id.
Qed.

(** The client reads what the server writes. *)
Lemma from_hash_data h : hash_ok 32 h -> from_hash (write_data h) = Ok h.
Proof. rewrite <- hash_written. apply from_hash_json. Qed.

Lemma from_address_data h : hash_ok 20 h -> from_address (write_data h) = Ok h.
Proof. rewrite <- hash_written. apply from_address_json. Qed.

Lemma from_bytes_data bs : bytes_ok bs -> from_bytes (write_data bs) = Ok bs.
Proof. rewrite <- bytes_written. apply from_bytes_json. Qed.

Lemma from_u64_quantity z : in_u64 z -> from_u64 (write_quantity z) = Ok z.
Proof. intros Hz. rewrite <- u64_written by done. by apply from_u64_json. Qed.

Lemma from_u64_data z : in_u64 z -> from_u64 (write_data (to_be 8 z)) = Ok z.
Proof.
  intros Hz. unfold from_u64, write_data. rewrite (u64_read _ z); [done| |].
  - by rewrite length_hex_encode, length_to_be.
  - rewrite hex_number_encode by (apply bytes_ok_to_be || done). by rewrite from_be_to_be_id.
Qed.

Lemma optional_written {A} (dec : Value -> outcome A) (write : A -> Value) name v o :
  get v name = Some (write_nullable write o) ->
  (forall a, o = Some a -> write a <> VNull /\ dec (write a) = Ok a) -> optional dec name v = Ok o.
Proof.
  intros Hg. apply optional_field. right. rewrite Hg. by destruct o.
Qed.

Lemma PayloadStatus_written s :
  (forall h, latest_valid_hash s = Some h -> hash_ok 32 h) -> PayloadStatus_deserialize (write_status s) = Ok s.
Proof.
  intros Hh. unfold PayloadStatus_deserialize.
  eapply required_bind; [reflexivity|by instantiate (1 := status s); destruct (status s)|].
  eapply optional_bind; [eapply (optional_written _ write_data); [reflexivity|]|].
  { intros h Hl. split; [done|]. by apply from_hash_data, Hh. }
  eapply optional_bind; [by eapply (optional_written _ VString)|]. by destruct s.
Qed.

Lemma ForkChoiceUpdate_written u :
  (forall h, latest_valid_hash (payload_status u) = Some h -> hash_ok 32 h) ->
  (forall z, payload_id u = Some z -> in_u64 z) -> ForkChoiceUpdate_deserialize (write_update u) = Ok u.
Proof.
  intros Hh Hz. unfold ForkChoiceUpdate_deserialize.
  eapply required_bind; [reflexivity|by apply PayloadStatus_written|].
  eapply optional_bind; [eapply (optional_written _ (fun id => write_data (to_be 8 id))); [reflexivity|]|by destruct u].
  intros z Hi. split; [done|]. by apply from_u64_data, Hz.
Qed.

Lemma transactions_written l :
  Forall bytes_ok l -> from_array RawTransaction_deserialize (VArray (write_data <$> l)) = Ok l.
Proof. apply transactions_json. Qed.

Lemma GetPayloadResponse_written p : payload_ok p -> no_withdrawals (pl_withdrawals p) ->
  GetPayloadResponse_deserialize (write_built p) = Ok p.
Proof.
  intros [Hh Ha (Hb1 & Hb2 & Ht) Hn (Hg1 & Hg2)] Hw.
  repeat match goal with F : Forall _ (_ :: _) |- _ => apply Forall_cons in F as [? F] end.
  unfold GetPayloadResponse_deserialize. eapply required_Ok; [reflexivity|]. unfold ExecutionPayload_deserialize.
  repeat (eapply required_bind; [reflexivity
    |first [apply from_hash_data|apply from_address_data|apply from_bytes_data|apply from_u64_quantity
           |apply transactions_written]; assumption|]).
  assert (Hu : forall o, (forall z, o = Some z -> in_u64 z) ->
    forall z, o = Some z -> write_quantity z <> VNull /\ from_u64 (write_quantity z) = Ok z)
    by (intros o Ho z Hz; split; [done|by apply from_u64_quantity, Ho]).
  eapply optional_bind; [eapply (optional_written _ (fun _ => VArray [])); [reflexivity|]|].
  { destruct Hw as [-> | ->]; [done|]. by intros l [= <-]. }
  eapply optional_bind; [eapply optional_written; [reflexivity|by apply Hu]|].
  eapply optional_bind; [eapply optional_written; [reflexivity|by apply Hu]|].
  by destruct p.
Qed.
End documented.

(** ** Calls *)

(** What the client makes of the engine's result. *)
Definition client_reply {A} (r : outcome A) : outcome A :=
  match r with
  | Err e => Err ("Engine API POST error: " +:+ e)
  | r => r
  end.

(** The engine returns, and a value that it gives is of the types of the protocol. *)
Definition answered {A} (ok : A -> Prop) (r : outcome A) : Prop :=
  match r with
  | Ok a => ok a
  | Err _ => True
  | _ => False
  end.

Definition status_ok (s : PayloadStatus) : Prop := forall h, latest_valid_hash s = Some h -> hash_ok 32 h.

Definition update_ok (u : ForkChoiceUpdate) : Prop :=
  status_ok (payload_status u) /\ (forall z, payload_id u = Some z -> in_u64 z).

Section calls.
Context {E : Type} `{Engine E, JwtVerify, EthersSerdeDocumented}.
Implicit Types (s : Server E) (c : EngineClient (Server E)).

(** A client of a server, with its address and its secret. *)
Record connected c : Prop := {
  connected_url : base_url (api c) = address (world c);
  connected_secret : secret (api c) = server_secret (world c);
  connected_client : client (api c) = Some tt;
  connected_clock : 0 <= clock (world c) < 2 ^ 64 - 60;
  connected_key : bytes_ok (secret (api c))
}.

(** Nothing of the client and the server changes but the engine. *)
Definition with_engine (e : E) c : EngineClient (Server E) := set_world (set_backend e (world c)) c.

(** The token of an attempt is taken. *)
Lemma token_authorized c :
  connected c ->
  exists token, jwt_encode {| iat := clock (world c); exp := u64_add (clock (world c)) 60 |} (secret (api c)) = Some token /\
    authorized token (world c) = true.
Proof.
  intros [_ Hs _ Hn Hk]. set (now := clock (world c)) in *.
  assert (Hexp : u64_add now 60 = now + 60) by (unfold u64_add; apply Z.mod_small; lia).
  destruct (jwt_encode_verify {| iat := now; exp := u64_add now 60 |} (secret (api c))) as (token & Ht & Hv).
  - cbn [iat]. unfold in_u64. lia.
  - apply u64_range.
  - done.
  - exists token. split; [done|]. unfold authorized. rewrite <- Hs, Hv. cbn [iat exp]. fold now. rewrite Hexp.
    apply andb_true_iff. split; apply Z.leb_le; lia.
Qed.

(** A request that the engine is asked about, whose result the client can read. *)
Lemma post_server {A} (ok : A -> Prop) (write : A -> Value) dec method params (call : M E A) c r e' :
  connected c -> serve (VNumber 1) method params (world c) = answer (VNumber 1) write call (world c) ->
  call (backend (world c)) = (r, e') -> (forall a, ok a -> write a <> VNull /\ dec (write a) = Ok a) -> answered ok r ->
  post dec method params c = (client_reply r, with_engine e' c).
Proof.
  intros Hc Hserve Hcall Hok Hr. pose proof Hc as [Hurl Hs Hcl Hn Hk]. destruct (token_authorized c Hc) as (token & Ht & Hv).
  assert (Ha : attempt dec (request_body method params) c =
    (Ok {| resp_jsonrpc := "2.0"; resp_id := 1;
           resp_result := match r with Ok a => Some a | _ => None end;
           resp_error := match r with
                         | Err e => Some {| err_code := -32000; err_message := e; err_data := None |}
                         | _ => None
                         end |}, with_engine e' c)).
  { unfold attempt, with_engine. run_M. cbn [system_time server_transport send_request]. destruct c as [ap s]. cbn [api world set_world] in *.
    unfold generate_claims. cbn [default from_option id]. change (gets clock s) with (Ok (clock s), s). cbn beta iota. cbn [api world set_world].
    rewrite (proj2 (Z.ltb_ge (clock s) 0)) by apply Hn. cbn beta iota. rewrite Ht. cbn [ok_or].
    unfold serve_request. cbn [req_url req_token req_body].
    rewrite bool_decide_eq_true_2 by done. rewrite Hv. cbn [negb].
    change (get (request_body method params) "jsonrpc") with (Some (VString "2.0")).
    change (get (request_body method params) "id") with (Some (VNumber 1)).
    change (get (request_body method params) "method") with (Some (VString method)).
    change (get (request_body method params) "params") with (Some (VArray params)). cbn beta iota.
    rewrite Hserve. unfold answer. rewrite Hcall. destruct r as [a|e| |]; [destruct (Hok a Hr) as [Hnull Hdec]|reflexivity|done..].
    f_equal. unfold EngineApiResponse_deserialize.
    eapply required_bind; [reflexivity|reflexivity|]. eapply required_bind; [reflexivity|reflexivity|].
    eapply optional_bind; [eapply optional_Some; [reflexivity|done|done]|]. reflexivity. }
  unfold post. run_M. rewrite Hcl. cbn [ok_or]. cbn [retry]. rewrite Ha. cbn beta iota. by destruct r.
Qed.
End calls.

(** ** Properties *)

(** C33. The client speaks the engine API.  Connected to a server of the API, written from
    its specification and not from the client, with the server's address and secret and
    the library's documented JSON forms, each of the three calls has the result of the
    same call of the engine behind the server, changes the engine as that call does, and
    changes nothing else: what is sent is read by the server as it was meant, but for the
    three fields of the attributes that are for the node only, what is answered is read as
    it was meant, and an error of the engine comes back as an error with its message.  The
    conditions are on the values: sizes of hashes, addresses and numbers, no withdrawals,
    and an engine that returns. *)
Theorem engine_api_transparent {E} `{Engine E, JwtVerify, EthersSerdeDocumented} (c : EngineClient (Server E)) :
  connected c ->
  let e := backend (world c) in
  (forall st o r e', state_ok st ->
     (forall a, o = Some a -> attributes_ok a /\ no_withdrawals (pa_withdrawals a)) ->
     forkchoice_updated st (sent_attributes <$> o) e = (r, e') -> answered update_ok r ->
     forkchoice_updated st o c = (client_reply r, with_engine e' c)) /\
  (forall p r e', payload_ok p -> no_withdrawals (pl_withdrawals p) ->
     new_payload p e = (r, e') -> answered status_ok r -> new_payload p c = (client_reply r, with_engine e' c)) /\
  (forall id r e', in_u64 id ->
     get_payload id e = (r, e') -> answered (fun p => payload_ok p /\ no_withdrawals (pl_withdrawals p)) r ->
     get_payload id c = (client_reply r, with_engine e' c)).
Proof.
  intros Hc e. split; [|split].
  - intros st o r e' Hst Ho Hcall Hr. refine (post_server _ _ _ _ _ _ c r e' Hc _ Hcall _ Hr).
    + unfold serve. rewrite bool_decide_eq_true_2 by done. rewrite read_state_json by done.
      destruct o as [a|]; [|done]. destruct (Ho a eq_refl) as [Ha Hw].
      change (nullable _ _) with (Some <$> read_attributes (PayloadAttributes_serialize a)).
      by rewrite read_attributes_json.
    + intros u [Hs Hz]. split; [done|]. by apply ForkChoiceUpdate_written.
  - intros p r e' Hp Hw Hcall Hr. refine (post_server _ _ _ _ _ _ c r e' Hc _ Hcall _ Hr).
    + unfold serve. rewrite bool_decide_eq_false_2, bool_decide_eq_true_2 by done. by rewrite read_payload_json.
    + intros s Hs. split; [done|]. by apply PayloadStatus_written.
  - intros id r e' Hid Hcall Hr. refine (post_server _ _ _ _ _ _ c r e' Hc _ Hcall _ Hr).
    + unfold serve. rewrite !bool_decide_eq_false_2, bool_decide_eq_true_2 by done. by rewrite read_payload_id_json.
    + intros p [Hp Hw]. split; [done|]. by apply GetPayloadResponse_written.
Qed.

(** ** Witnesses

    The strings of [ethers], and tokens that spell the claims and the key. *)

#[local] Instance example_ethers : EthersSerde.
Proof.
  refine {| u64_to_json := write_quantity;
            u64_from_json := fun v =>
              s ← as_str v; digits ← strip_prefix "0x" s;
              if (String.length digits <=? 16)%nat then hex_number digits else None;
            hash_to_json := write_data;
            hash_from_json := read_data_of;
            bytes_to_json := write_data;
            bytes_from_json := read_data |}; try done.
  - intros z Hz. pose proof (read_quantity_written z Hz) as Hx. unfold read_quantity, write_quantity in *.
    cbn [as_str mbind option_bind] in *. rewrite strip_prefix_app in *. cbn [mbind option_bind] in *.
    by destruct (hex_digits 16 z "") as [|[[] [] [] [] [] [] [] []] []].
  - intros h Hh. by apply read_data_of_written.
  - apply read_data_written.
Defined.

#[local] Instance example_documented : EthersSerdeDocumented.
Proof.
  split; try done. intros digits z Hl Hd. cbn [u64_from_json example_ethers as_str mbind option_bind].
  rewrite strip_prefix_app. cbn [mbind option_bind]. by rewrite (proj2 (Nat.leb_le _ _)).
Qed.

#[local] Existing Instance example_jwt.

#[local] Instance example_jwt_verify : JwtVerify.
Proof.
  refine {| jwt_verify := fun token key =>
    bs ← hex_decode token;
    if bool_decide (drop 16 bs = key)
    then Some {| iat := from_be (take 8 bs); exp := from_be (take 8 (drop 8 bs)) |} else None |}.
  intros [i x] key Hi Hx Hk. eexists. split; [reflexivity|]. cbn [iat exp] in *.
  rewrite hex_decode_encode by (rewrite !Forall_app; by auto using bytes_ok_to_be). cbn [mbind option_bind].
  assert (Hd : drop 16 (to_be 8 i ++ to_be 8 x ++ key) = key) by (by rewrite app_assoc, drop_app_length').
  rewrite bool_decide_eq_true_2, take_app_length', drop_app_length', take_app_length' by done.
  by rewrite !(from_be_to_be_id 8) by done.
Defined.

(** A client in front of the mock. *)
Definition example_engine_client : EngineClient (Server MockEngine) :=
  {| api := {| base_url := "http://localhost:8551"; port := 8551; client := Some tt; secret := example_key |};
     world := {| address := "http://localhost:8551"; server_secret := example_key; clock := 1710000000;
                backend := example_engine 11 |} |}.

Lemma example_connected : connected example_engine_client.
Proof. split; [done|done|done|by_compute|]. repeat constructor; by_compute. Qed.

Lemma engine_api_transparent_witness :
  get_payload 1 example_engine_client = (Ok (example_payload 11 [[2; 3]]), example_engine_client) /\
  new_payload (example_payload 11 [[2; 3]]) example_engine_client = (Ok example_status, example_engine_client).
Proof.
  destruct (engine_api_transparent example_engine_client example_connected) as (_ & Hnew & Hget). split.
  - apply (Hget 1 _ _ ltac:(by_compute) eq_refl). split; [apply example_payload_ok; by_compute|by right].
  - refine (Hnew _ _ _ _ _ eq_refl _); [apply example_payload_ok; by_compute|by right|done].
Defined.
