(* ===== verification/Blobs.v ===== *)
(** Blobs: the decoder of blob data (src/src/l1/blob_encoding.rs) and the fetcher of
    blob sidecars with its slot cache (src/src/l1/blob_fetcher.rs).

    The HTTP client with its JSON parser is library code: a request for a URL is an
    action on the state [B] of the beacon node that gives a JSON value or an
    error. *)
From stdpp Require Import pretty.
From Stdlib Require Import Ascii.
From S2P Require Import Prelude Json.

(** ** Blob data *)

Definition MAX_BLOB_DATA_SIZE : Z := (4 * 31 + 3) * 1024 - 4.
Definition ENCODING_VERSION : Z := 0.
Definition VERSION_OFFSET : Z := 1.
Definition ROUNDS : Z := 1024.

(** [output[i..i + src.len()].copy_from_slice(src)]. *)
Definition copy_from_slice (output : bytes) (i : Z) (src : bytes) : outcome bytes :=
  _ ← slice output i (i + len src);
  Ok (take (Z.to_nat i) output ++ src ++ drop (Z.to_nat (i + len src)) output).

(** [output[i] = x]. *)
Definition set_at (output : bytes) (i x : Z) : outcome bytes :=
  _ ← index output i;
  Ok (<[Z.to_nat i := x]> output).

(** The positions and the output that the helpers change. *)
Record Cursor := {
  output_pos : Z;
  input_pos : Z;
  cur_output : bytes
}.

Definition decode_field_element (blob : bytes) (c : Cursor) : outcome (Z * Cursor) :=
  result ← index blob (input_pos c);
  if negb (Z.land result 192 =? 0) then Err "Blob decoding: Invalid field element" else
  src ← slice blob (input_pos c + 1) (input_pos c + 32);
  output ← copy_from_slice (cur_output c) (output_pos c) src;
  Ok (result, {| output_pos := output_pos c + 32; input_pos := input_pos c + 32; cur_output := output |}).

Definition reassemble_bytes (e0 e1 e2 e3 : Z) (c : Cursor) : outcome Cursor :=
  let output_pos := output_pos c - 1 in
  let x := Z.lor (Z.land e0 63) (Z.shiftl (Z.land e1 48) 2) in
  let y := Z.lor (Z.land e1 15) (Z.shiftl (Z.land e3 15) 4) in
  let z := Z.lor (Z.land e2 63) (Z.shiftl (Z.land e3 48) 2) in
  output ← set_at (cur_output c) (output_pos - 32) z;
  output ← set_at output (output_pos - 32 * 2) y;
  output ← set_at output (output_pos - 32 * 3) x;
  Ok {| output_pos := output_pos; input_pos := input_pos c; cur_output := output |}.

(** The [for _ in 1..ROUNDS] of [decode_blob_data]. *)
Fixpoint decode_rounds (rounds : nat) (blob : bytes) (output_len : Z) (c : Cursor) : outcome Cursor :=
  match rounds with
  | O => Ok c
  | S rounds =>
      if output_len <=? output_pos c then Ok c else
      '(e0, c) ← decode_field_element blob c;
      '(e1, c) ← decode_field_element blob c;
      '(e2, c) ← decode_field_element blob c;
      '(e3, c) ← decode_field_element blob c;
      c ← reassemble_bytes e0 e1 e2 e3 c;
      decode_rounds rounds blob output_len c
  end.

Definition decode_blob_data (blob : bytes) : outcome bytes :=
  let output := replicate (Z.to_nat MAX_BLOB_DATA_SIZE) 0 in
  version ← index blob VERSION_OFFSET;
  if negb (version =? ENCODING_VERSION) then Err "Blob decoding: Invalid encoding version" else
  b2 ← index blob 2;
  b3 ← index blob 3;
  b4 ← index blob 4;
  let output_len := from_be [0; b2; b3; b4] in
  if MAX_BLOB_DATA_SIZE <? output_len then Err "Blob decoding: Invalid length" else
  src ← slice blob 5 32;
  output ← copy_from_slice output 0 src;
  e0 ← index blob 0;
  let c := {| output_pos := 28; input_pos := 32; cur_output := output |} in
  '(e1, c) ← decode_field_element blob c;
  '(e2, c) ← decode_field_element blob c;
  '(e3, c) ← decode_field_element blob c;
  c ← reassemble_bytes e0 e1 e2 e3 c;
  c ← decode_rounds (Z.to_nat (ROUNDS - 1)) blob output_len c;
  if existsb (fun b => negb (b =? 0)) (drop (Z.to_nat output_len) (cur_output c))
  then Err "Blob decoding: Extraneous data in field element" else
  let output := take (Z.to_nat output_len) (cur_output c) in
  if existsb (fun b => negb (b =? 0)) (drop (Z.to_nat (input_pos c)) blob)
  then Err "Blob decoding: Extraneous data in input position" else
  Ok output.

(** ** Blob sidecars *)

(** [str::trim_start_matches("0x")], which strips every leading ["0x"]. *)
Fixpoint trim_start_0x (s : string) : string :=
  match s with
  | String "0"%char (String "x"%char s) => trim_start_0x s
  | s => s
  end.

Record BlobSidecar := {
  sc_index : Z;
  sc_blob : bytes
}.

Definition deserialize_string_to_u64 (v : Value) : outcome Z :=
  s ← ok_or (as_str v) "expected a string";
  ok_or (parse_u64 s) "invalid integer".

Definition deserialize_blob_bytes (v : Value) : outcome bytes :=
  s ← ok_or (as_str v) "expected a string";
  ok_or (hex_decode (trim_start_0x s)) "invalid hex".

(** The derived [Deserialize] of [BlobSidecar], and of a vector of them. *)
Definition deserialize_sidecar (v : Value) : outcome BlobSidecar :=
  let v := as_struct ["index"; "blob"] v in
  index ← ok_or (get v "index") "missing field";
  index ← deserialize_string_to_u64 index;
  blob ← ok_or (get v "blob") "missing field";
  blob ← deserialize_blob_bytes blob;
  Ok {| sc_index := index; sc_blob := blob |}.

Fixpoint deserialize_sidecars (l : list Value) : outcome (list BlobSidecar) :=
  match l with
  | [] => Ok []
  | v :: l =>
      b ← deserialize_sidecar v;
      bs ← deserialize_sidecars l;
      Ok (b :: bs)
  end.

(** The beacon node: a [GET] with a successful status and a JSON body. *)
Class Beacon (B : Type) := {
  http_get : string -> M B Value
}.

Record BlobFetcher (B : Type) := {
  beacon : B;
  bf_l1_beacon_url : string;
  genesis_timestamp : Z;
  seconds_per_slot : Z
}.

Arguments Build_BlobFetcher {B}.
Arguments beacon {B}.
Arguments bf_l1_beacon_url {B}.
Arguments genesis_timestamp {B}.
Arguments seconds_per_slot {B}.

Section BlobFetcher.
Context {B : Type} `{Beacon B}.
Implicit Types f : BlobFetcher B.

Definition BlobFetcher_new (beacon : B) (l1_beacon_url : string) : BlobFetcher B :=
  {| beacon := beacon; bf_l1_beacon_url := l1_beacon_url; genesis_timestamp := 0; seconds_per_slot := 0 |}.

Definition set_beacon (b : B) f : BlobFetcher B :=
  {| beacon := b; bf_l1_beacon_url := bf_l1_beacon_url f; genesis_timestamp := genesis_timestamp f;
     seconds_per_slot := seconds_per_slot f |}.

Definition set_genesis_timestamp (t : Z) f : BlobFetcher B :=
  {| beacon := beacon f; bf_l1_beacon_url := bf_l1_beacon_url f; genesis_timestamp := t;
     seconds_per_slot := seconds_per_slot f |}.

Definition set_seconds_per_slot (t : Z) f : BlobFetcher B :=
  {| beacon := beacon f; bf_l1_beacon_url := bf_l1_beacon_url f; genesis_timestamp := genesis_timestamp f;
     seconds_per_slot := t |}.

(** A request below the base URL, and the [data] field of the reply. *)
Definition get_data (path : string) : M (BlobFetcher B) Value :=
  url ← gets bf_l1_beacon_url;
  res ← zoom beacon set_beacon (http_get (url +:+ path));
  lift (ok_or (get res "data") "No data in response").

Definition fetch_beacon_genesis_timestamp : M (BlobFetcher B) Z :=
  res ← get_data "/eth/v1/beacon/genesis";
  lift
    (res ← ok_or (get res "genesis_time") "No time";
     genesis_time ← ok_or (as_str res) "Expected string";
     ok_or (parse_u64 genesis_time) "invalid integer").

Definition fetch_beacon_spec : M (BlobFetcher B) Value := get_data "/eth/v1/config/spec".

Definition fetch_blob_sidecars (slot : Z) : M (BlobFetcher B) (list BlobSidecar) :=
  res ← get_data ("/eth/v1/beacon/blob_sidecars/" +:+ pretty slot);
  lift
    match res with
    | VArray l => deserialize_sidecars l
    | _ => Err "expected a sequence"
    end.

(** The cache refill of [get_slot_from_time]. *)
Definition refill : M (BlobFetcher B) unit :=
  genesis ← fetch_beacon_genesis_timestamp;
  modify (set_genesis_timestamp genesis) ;;
  spec ← fetch_beacon_spec;
  seconds ← lift
    (v ← ok_or (get spec "SECONDS_PER_SLOT") "No seconds per slot in beacon spec";
     s ← ok_or (as_str v) "Seconds per slot: expected string";
     ok_or (parse_u64 s) "invalid integer");
  if seconds =? 0 then lift (Err "Seconds per slot is 0; cannot calculate slot number")
  else modify (set_seconds_per_slot seconds).

Definition get_slot_from_time (time : Z) : M (BlobFetcher B) Z := fun f =>
  (match genesis_timestamp f with
   | 0 => refill
   | _ => mret tt
   end ;;
   genesis ← gets genesis_timestamp;
   seconds ← gets seconds_per_slot;
   if time <? genesis then lift (Err "Time is before genesis; cannot calculate slot number")
   else lift (u64_div (time - genesis) seconds)) f.
End BlobFetcher.

(** ** The format

    The encoder of the specification: a blob is 1024 groups of four field elements
    of 32 bytes; each element carries 31 bytes of data below a byte with six bits
    more, and the 24 bits of a group are three bytes of data.  The first element
    also has the version and the length of the data. *)

(** The four bytes with the bits of [x], [y] and [z]. *)
Definition spread (x y z : Z) : Z * Z * Z * Z :=
  (Z.land x 63,
   Z.lor (Z.land y 15) (Z.shiftr (Z.land x 192) 2),
   Z.land z 63,
   Z.lor (Z.shiftr (Z.land z 192) 2) (Z.shiftr (Z.land y 240) 4)).

(** The data of a group, cut where the bytes [x], [y] and [z] are: [n] bytes in the
    first element, then 31 in each. *)
Record Group := {
  g_a0 : bytes; g_x : Z; g_a1 : bytes; g_y : Z; g_a2 : bytes; g_z : Z; g_a3 : bytes
}.

Definition group_data (g : Group) : bytes :=
  g_a0 g ++ g_x g :: g_a1 g ++ g_y g :: g_a2 g ++ g_z g :: g_a3 g.

Definition group_of (n : nat) (l : bytes) : Group :=
  {| g_a0 := take n l; g_x := nth n l 0;
     g_a1 := take 31 (drop (n + 1) l); g_y := nth (n + 32) l 0;
     g_a2 := take 31 (drop (n + 33) l); g_z := nth (n + 64) l 0;
     g_a3 := take 31 (drop (n + 65) l) |}.

Definition encode_group (header : bytes) (g : Group) : bytes :=
  let '(e0, e1, e2, e3) := spread (g_x g) (g_y g) (g_z g) in
  (e0 :: header ++ g_a0 g) ++ (e1 :: g_a1 g) ++ (e2 :: g_a2 g) ++ (e3 :: g_a3 g).

(** The groups after the first. *)
Fixpoint encode_rounds (n : nat) (l : bytes) : bytes :=
  match n with
  | O => []
  | S n => encode_group [] (group_of 31 (take 127 l)) ++ encode_rounds n (drop 127 l)
  end.

Definition encode_blob_data (data : bytes) : bytes :=
  let padded := data ++ replicate (Z.to_nat (MAX_BLOB_DATA_SIZE - len data)) 0 in
  encode_group (ENCODING_VERSION :: to_be 3 (len data)) (group_of 27 (take 123 padded)) ++
  encode_rounds (Z.to_nat (ROUNDS - 1)) (drop 123 padded).

(** ** Lemmas *)

(** A property of two bytes, checked on all of them. *)
Lemma byte_pairs (P : Z -> Z -> bool) :
  forallb (fun x => forallb (P x) (seqZ 0 256)) (seqZ 0 256) = true ->
  forall x y, byte_ok x -> byte_ok y -> P x y = true.
Proof.
  intros Hall x y Hx Hy. rewrite forallb_forall in Hall.
  assert (Hin : forall b, byte_ok b -> In b (seqZ 0 256))
    by (intros b Hb; unfold byte_ok in Hb; apply list_elem_of_In, elem_of_seqZ; lia).
  specialize (Hall x (Hin x Hx)). rewrite forallb_forall in Hall. by apply Hall, Hin.
Qed.

(** The bits come back together, and every element byte has its two high bits
    clear. *)
Lemma spread_bits x y z :
  byte_ok x -> byte_ok y -> byte_ok z ->
  let '(e0, e1, e2, e3) := spread x y z in
  Z.lor (Z.land e0 63) (Z.shiftl (Z.land e1 48) 2) = x /\
  Z.lor (Z.land e1 15) (Z.shiftl (Z.land e3 15) 4) = y /\
  Z.lor (Z.land e2 63) (Z.shiftl (Z.land e3 48) 2) = z /\
  Z.land e1 192 = 0 /\ Z.land e2 192 = 0 /\ Z.land e3 192 = 0 /\ Z.land e0 192 = 0.
Proof.
  intros Hx Hy Hz. unfold spread.
  set (P := fun x y =>
    let e0 := Z.land x 63 in
    let e1 := Z.lor (Z.land y 15) (Z.shiftr (Z.land x 192) 2) in
    let e3 := Z.lor (Z.shiftr (Z.land x 192) 2) (Z.shiftr (Z.land y 240) 4) in
    (Z.lor (Z.land e0 63) (Z.shiftl (Z.land e1 48) 2) =? x) &&
    (Z.lor (Z.land e0 63) (Z.shiftl (Z.land e3 48) 2) =? x) &&
    (Z.land e1 15 =? Z.land y 15) && (Z.shiftl (Z.land e3 15) 4 =? Z.land y 240) &&
    (Z.lor (Z.land y 15) (Z.land y 240) =? y) &&
    (Z.land e0 192 =? 0) && (Z.land e1 192 =? 0) && (Z.land e3 192 =? 0)).
  assert (Hall : forallb (fun x => forallb (P x) (seqZ 0 256)) (seqZ 0 256) = true) by by vm_compute.
  pose proof (byte_pairs P Hall x y Hx Hy) as Hxy. pose proof (byte_pairs P Hall z y Hz Hy) as Hzy.
  unfold P in Hxy, Hzy. rewrite !andb_true_iff, !Z.eqb_eq in Hxy, Hzy.
  destruct Hxy as (((((((H1 & _) & H3) & _) & H5) & H6) & H7) & _).
  destruct Hzy as (((((((_ & K2) & _) & K4) & _) & K6) & _) & K8).
  rewrite H3, K4. repeat (split; [assumption|]). assumption.
Qed.

(** The shape of a group with [n] bytes in its first element. *)
Record group_ok (n : Z) (g : Group) : Prop := {
  group_ok_a0 : len (g_a0 g) = n;
  group_ok_a : len (g_a1 g) = 31 /\ len (g_a2 g) = 31 /\ len (g_a3 g) = 31;
  group_ok_bytes : byte_ok (g_x g) /\ byte_ok (g_y g) /\ byte_ok (g_z g)
}.

Lemma split_exact (l : bytes) (i : nat) : (i < length l)%nat -> exists a x r, l = a ++ x :: r /\ length a = i.
Proof.
  intros Hi. destruct (lookup_lt_is_Some_2 l i Hi) as [x Hx].
  exists (take i l), x, (drop (S i) l). split; [by rewrite take_drop_middle|]. rewrite length_take. lia.
Qed.

Lemma nth_app_at (p r : bytes) (x : Z) (i : nat) : length p = i -> nth i (p ++ x :: r) 0 = x.
Proof. intros <-. apply nth_middle. Qed.

Lemma app_cons_assoc (a b c : bytes) x : a ++ x :: b ++ c = (a ++ x :: b) ++ c.
Proof. by rewrite <- app_assoc. Qed.

Lemma app_snoc_assoc (a c : bytes) x : a ++ x :: c = (a ++ [x]) ++ c.
Proof. by rewrite <- app_assoc. Qed.

Lemma group_of_data g n :
  group_ok (Z.of_nat n) g -> group_of n (group_data g) = g.
Proof.
  intros [H0 (H1 & H2 & H3) _]. unfold len in *. destruct g as [a0 x a1 y a2 z a3]. cbn in *.
  unfold group_data, group_of. cbn. f_equal.
  - apply take_app_length'. lia.
  - apply nth_app_at. lia.
  - rewrite (app_snoc_assoc a0 _ x), drop_app_length' by (rewrite length_app; cbn; lia). apply take_app_length'. lia.
  - rewrite (app_cons_assoc a0 a1). apply nth_app_at. rewrite length_app. cbn. lia.
  - rewrite (app_cons_assoc a0 a1), (app_snoc_assoc _ _ y), drop_app_length' by (rewrite !length_app; cbn; lia).
    apply take_app_length'. lia.
  - rewrite (app_cons_assoc a0 a1), (app_cons_assoc _ a2). apply nth_app_at. rewrite !length_app. cbn. lia.
  - rewrite (app_cons_assoc a0 a1), (app_cons_assoc _ a2), (app_snoc_assoc _ _ z).
    rewrite drop_app_length' by (rewrite !length_app; cbn; lia). apply take_ge. lia.
Qed.

Lemma group_of_ok n l :
  bytes_ok l -> length l = (n + 96)%nat -> group_ok (Z.of_nat n) (group_of n l) /\ group_data (group_of n l) = l.
Proof.
  intros Hok Hl.
  destruct (split_exact l n) as (a0 & x & r0 & -> & H0); [lia|]. rewrite length_app in Hl. cbn in Hl.
  destruct (split_exact r0 31) as (a1 & y & r1 & -> & H1); [lia|]. rewrite length_app in Hl. cbn in Hl.
  destruct (split_exact r1 31) as (a2 & z & a3 & -> & H2); [lia|]. rewrite length_app in Hl. cbn in Hl.
  set (g := {| g_a0 := a0; g_x := x; g_a1 := a1; g_y := y; g_a2 := a2; g_z := z; g_a3 := a3 |}).
  assert (Hg : group_ok (Z.of_nat n) g).
  { split; cbn; unfold len; [lia|lia|]. rewrite !Forall_app, !Forall_cons, !Forall_app, !Forall_cons in Hok.
    destruct Hok as (_ & ? & _ & ? & [_ [? _]%Forall_cons]%Forall_app). by split_and!. }
  change (a0 ++ x :: a1 ++ y :: a2 ++ z :: a3) with (group_data g). by rewrite group_of_data.
Qed.

(** ** Decoding *)

Lemma copy_from_slice_at p m src q i :
  i = len p -> len m = len src -> copy_from_slice (p ++ m ++ q) i src = Ok (p ++ src ++ q).
Proof.
  intros -> Hm. unfold copy_from_slice. rewrite (slice_app_exact p m q) by (rewrite ?Hm; lia). rewrite bind_ret.
  f_equal. unfold len in *. rewrite !Nat2Z.id, take_app_length. do 2 f_equal.
  rewrite app_assoc. apply drop_app_length'. rewrite length_app. lia.
Qed.

Lemma set_at_mid p s q i x : i = len p -> set_at (p ++ s :: q) i x = Ok (p ++ x :: q).
Proof.
  intros ->. unfold set_at. rewrite index_app_mid, bind_ret by done. f_equal. unfold len. rewrite Nat2Z.id.
  by rewrite insert_app_r_alt, Nat.sub_diag by lia.
Qed.

Lemma decode_field_element_at pre e a post done mid rest ip op :
  len a = 31 -> Z.land e 192 = 0 -> len mid = 31 -> ip = len pre -> op = len done ->
  decode_field_element (pre ++ (e :: a) ++ post)
    {| output_pos := op; input_pos := ip; cur_output := done ++ mid ++ rest |} =
  Ok (e, {| output_pos := op + 32; input_pos := ip + 32; cur_output := done ++ a ++ rest |}).
Proof.
  intros Ha He Hm -> ->. unfold decode_field_element. cbn [input_pos output_pos cur_output app].
  rewrite index_app_mid, bind_ret by done. rewrite He. cbn [Z.eqb negb].
  rewrite app_snoc_assoc.
  rewrite (slice_app_exact (pre ++ [e]) a post) by (rewrite len_app, len_cons, len_nil; lia).
  rewrite bind_ret, copy_from_slice_at by (done || lia). by rewrite bind_ret.
Qed.

Lemma decode_field_element_eq blob out pre e a post done mid rest ip op :
  blob = pre ++ (e :: a) ++ post -> out = done ++ mid ++ rest ->
  len a = 31 -> Z.land e 192 = 0 -> len mid = 31 -> ip = len pre -> op = len done ->
  decode_field_element blob {| output_pos := op; input_pos := ip; cur_output := out |} =
  Ok (e, {| output_pos := op + 32; input_pos := ip + 32; cur_output := done ++ a ++ rest |}).
Proof. intros -> ->. apply decode_field_element_at. Qed.

(** Two concatenations of the same pieces, and their lengths. *)
Ltac list_eq := repeat (cbn [app]; rewrite <- ?app_assoc); reflexivity.
Ltac list_len := repeat (cbn [app]; rewrite ?len_app, ?len_cons, ?len_nil); lia.

Lemma reassemble_bytes_at e0 e1 e2 e3 done s0 a1 s1 a2 s2 a3 rest ip op :
  len a1 = 31 -> len a2 = 31 -> len a3 = 31 -> op = len done + 128 - 31 ->
  reassemble_bytes e0 e1 e2 e3
    {| output_pos := op; input_pos := ip; cur_output := done ++ s0 :: a1 ++ s1 :: a2 ++ s2 :: a3 ++ rest |} =
  Ok {| output_pos := op - 1; input_pos := ip;
        cur_output := done ++ Z.lor (Z.land e0 63) (Z.shiftl (Z.land e1 48) 2) :: a1 ++
          Z.lor (Z.land e1 15) (Z.shiftl (Z.land e3 15) 4) :: a2 ++
          Z.lor (Z.land e2 63) (Z.shiftl (Z.land e3 48) 2) :: a3 ++ rest |}.
Proof.
  intros H1 H2 H3 ->. unfold reassemble_bytes. cbn [cur_output output_pos input_pos].
  set (x := Z.lor (Z.land e0 63) _). set (y := Z.lor (Z.land e1 15) _). set (z := Z.lor (Z.land e2 63) _).
  rewrite (app_cons_assoc done a1), (app_cons_assoc _ a2).
  rewrite set_at_mid by (rewrite !len_app, !len_cons; lia). rewrite bind_ret, <- app_cons_assoc.
  rewrite set_at_mid by (rewrite !len_app, !len_cons; lia). rewrite bind_ret, <- app_cons_assoc.
  rewrite set_at_mid by lia. by rewrite bind_ret.
Qed.

(** One iteration, on the encoding of a group. *)
Definition decode_round (blob : bytes) (c : Cursor) : outcome Cursor :=
  '(e0, c) ← decode_field_element blob c;
  '(e1, c) ← decode_field_element blob c;
  '(e2, c) ← decode_field_element blob c;
  '(e3, c) ← decode_field_element blob c;
  reassemble_bytes e0 e1 e2 e3 c.

Lemma list_of_length (l : bytes) (n : nat) : (n <= length l)%nat -> exists a b, l = a ++ b /\ length a = n.
Proof. intros Hn. exists (take n l), (drop n l). rewrite take_drop, length_take. split; [done|lia]. Qed.

(** A stretch of output that the elements of a group overwrite. *)
Lemma output_cut (l : bytes) (n : nat) :
  (n + 96 <= length l)%nat -> exists m0 s0 m1 s1 m2 s2 m3 r,
    l = m0 ++ s0 :: m1 ++ s1 :: m2 ++ s2 :: m3 ++ r /\
    len m0 = Z.of_nat n /\ len m1 = 31 /\ len m2 = 31 /\ len m3 = 31.
Proof.
  intros Hl.
  destruct (split_exact l n) as (m0 & s0 & r0 & -> & H0); [lia|]. rewrite length_app in Hl. cbn in Hl.
  destruct (split_exact r0 31) as (m1 & s1 & r1 & -> & H1); [lia|]. rewrite length_app in Hl. cbn in Hl.
  destruct (split_exact r1 31) as (m2 & s2 & r2 & -> & H2); [lia|]. rewrite length_app in Hl. cbn in Hl.
  destruct (list_of_length r2 31) as (m3 & r & -> & H3); [lia|].
  exists m0, s0, m1, s1, m2, s2, m3, r. unfold len. split_and!; [done|lia..].
Qed.

Lemma decode_round_group g pre post done rest ip op :
  group_ok 31 g -> (127 <= length rest)%nat -> ip = len pre -> op = len done ->
  decode_round (pre ++ encode_group [] g ++ post)
    {| output_pos := op; input_pos := ip; cur_output := done ++ rest |} =
  Ok {| output_pos := op + 127; input_pos := ip + 128; cur_output := (done ++ group_data g) ++ drop 127 rest |}.
Proof.
  intros [H0 (H1 & H2 & H3) (Hx & Hy & Hz)] Hrest -> ->.
  destruct (output_cut rest 31) as (m0 & s0 & m1 & s1 & m2 & s2 & m3 & r & -> & K0 & K1 & K2 & K3); [lia|].
  destruct g as [a0 x a1 y a2 z a3]. cbn in H0, H1, H2, H3, Hx, Hy, Hz. pose proof (spread_bits x y z Hx Hy Hz) as Hbits.
  unfold encode_group, group_data. cbn [g_x g_y g_z g_a0 g_a1 g_a2 g_a3].
  destruct (spread x y z) as [[[e0 e1] e2] e3]. destruct Hbits as (B1 & B2 & B3 & M1 & M2 & M3 & M0).
  unfold decode_round.
  rewrite (decode_field_element_eq _ _ pre e0 a0 ((e1 :: a1) ++ (e2 :: a2) ++ (e3 :: a3) ++ post)
    done m0 (s0 :: m1 ++ s1 :: m2 ++ s2 :: m3 ++ r)) by (done || list_eq).
  rewrite bind_ret, (decode_field_element_eq _ _ (pre ++ e0 :: a0) e1 a1 ((e2 :: a2) ++ (e3 :: a3) ++ post)
    (done ++ a0 ++ [s0]) m1 (s1 :: m2 ++ s2 :: m3 ++ r)) by (done || list_eq || list_len).
  rewrite bind_ret, (decode_field_element_eq _ _ (pre ++ e0 :: a0 ++ e1 :: a1) e2 a2 ((e3 :: a3) ++ post)
    (done ++ a0 ++ s0 :: a1 ++ [s1]) m2 (s2 :: m3 ++ r)) by (done || list_eq || list_len).
  rewrite bind_ret, (decode_field_element_eq _ _ (pre ++ e0 :: a0 ++ e1 :: a1 ++ e2 :: a2) e3 a3 post
    (done ++ a0 ++ s0 :: a1 ++ s1 :: a2 ++ [s2]) m3 r) by (done || list_eq || list_len).
  rewrite bind_ret.
  replace ((done ++ a0 ++ s0 :: a1 ++ s1 :: a2 ++ [s2]) ++ a3 ++ r)
    with ((done ++ a0) ++ s0 :: a1 ++ s1 :: a2 ++ s2 :: a3 ++ r) by list_eq.
  rewrite (reassemble_bytes_at e0 e1 e2 e3) by (done || list_len). rewrite B1, B2, B3.
  f_equal. f_equal; [lia|lia|].
  replace (m0 ++ s0 :: m1 ++ s1 :: m2 ++ s2 :: m3 ++ r) with ((m0 ++ s0 :: m1 ++ s1 :: m2 ++ s2 :: m3) ++ r) by list_eq.
  rewrite drop_app_length' by (unfold len in *; rewrite !length_app; cbn; rewrite !length_app; cbn; rewrite !length_app; cbn; lia).
  list_eq.
Qed.

Lemma decode_rounds_S n blob output_len c :
  decode_rounds (S n) blob output_len c =
    if output_len <=? output_pos c then Ok c
    else c ← decode_round blob c; decode_rounds n blob output_len c.
Proof.
  cbn [decode_rounds]. destruct (output_len <=? output_pos c); [done|]. unfold decode_round.
  destruct (decode_field_element blob c) as [[e0 c0]| | |]; [|done..]. rewrite !bind_ret.
  destruct (decode_field_element blob c0) as [[e1 c1]| | |]; [|done..]. rewrite !bind_ret.
  destruct (decode_field_element blob c1) as [[e2 c2]| | |]; [|done..]. rewrite !bind_ret.
  destruct (decode_field_element blob c2) as [[e3 c3]| | |]; [|done..]. by rewrite !bind_ret.
Qed.

Lemma len_encode_group header n g :
  group_ok n g -> len (encode_group header g) = 1 + len header + n + 96.
Proof.
  intros [H0 (H1 & H2 & H3) _]. unfold encode_group. destruct (spread _ _ _) as [[[e0 e1] e2] e3]. list_len.
Qed.

Lemma zeros_drop k n : drop k (replicate n 0) = replicate (n - k) (0 : Z).
Proof. apply drop_replicate. Qed.

Lemma zeros_eq l : Forall (fun b => b = 0) l -> l = replicate (length l) 0.
Proof. induction 1; [done|]. cbn. by f_equal. Qed.

Lemma encode_rounds_zeros n : Forall (fun b => b = 0) (encode_rounds n (replicate (127 * n) 0)).
Proof.
  induction n as [|n IH]; [constructor|]. cbn [encode_rounds]. apply Forall_app. split.
  - rewrite take_replicate, Nat.min_l by lia. by vm_compute; repeat constructor.
  - rewrite zeros_drop. by replace (127 * S n - 127)%nat with (127 * n)%nat by lia.
Qed.

Lemma decode_rounds_encode n l pre done output_len :
  length l = (127 * n)%nat -> bytes_ok l -> Forall (fun b => b = 0) (drop (Z.to_nat (output_len - len done)) l) ->
  exists c, decode_rounds n (pre ++ encode_rounds n l) output_len
      {| output_pos := len done; input_pos := len pre; cur_output := done ++ replicate (127 * n) 0 |} = Ok c /\
    cur_output c = done ++ l /\
    Forall (fun b => b = 0) (drop (Z.to_nat (input_pos c)) (pre ++ encode_rounds n l)).
Proof.
  assert (Hpre : forall p q : bytes, drop (Z.to_nat (len p)) (p ++ q) = q)
    by (intros p q; unfold len; by rewrite Nat2Z.id, drop_app_length).
  revert l pre done. induction n as [|n IH]; intros l pre done Hl Hok Hz.
  - destruct l; [|done]. eexists. split; [reflexivity|]. cbn [cur_output input_pos]. split; [done|].
    rewrite Hpre. constructor.
  - rewrite decode_rounds_S. cbn [output_pos]. destruct (Z.leb_spec output_len (len done)) as [Hle|Hlt].
    + rewrite Z2Nat.nonpos, drop_0 in Hz by lia. apply zeros_eq in Hz. rewrite Hl in Hz. subst l.
      eexists. split; [reflexivity|]. cbn [cur_output input_pos]. split; [done|].
      rewrite Hpre. apply encode_rounds_zeros.
    + cbn [encode_rounds]. set (g := group_of 31 (take 127 l)).
      destruct (group_of_ok 31 (take 127 l)) as [Hg Hd]; [by apply Forall_take|rewrite length_take; lia|]. fold g in Hg, Hd.
      rewrite decode_round_group; [|done|rewrite length_replicate; lia|done|done].
      rewrite bind_ret, zeros_drop, (app_assoc pre), Hd.
      replace (127 * S n - 127)%nat with (127 * n)%nat by lia.
      destruct (IH (drop 127 l) (pre ++ encode_group [] g) (done ++ take 127 l)) as (c & Hc & Ho & Hi).
      * rewrite length_drop. lia.
      * by apply Forall_drop.
      * rewrite drop_drop. rewrite len_app. unfold len at 2. rewrite length_take, Nat.min_l by lia.
        replace (127 + Z.to_nat (output_len - (len done + Z.of_nat 127)))%nat
          with (Z.to_nat (output_len - len done) + (127 - Z.to_nat (output_len - len done)))%nat by lia.
        rewrite <- drop_drop. by apply Forall_drop.
      * exists c. split; [|split; [by rewrite Ho, <- app_assoc, take_drop|done]]. rewrite <- Hc. f_equal.
        rewrite (len_app pre), (len_encode_group [] 31) by done.
        rewrite len_app. unfold len at 4. rewrite length_take, Nat.min_l by lia. reflexivity.
Qed.

(** The first group, which starts in the middle of an element. *)
Lemma decode_first_group v n g post rest :
  group_ok 27 g -> (123 <= length rest)%nat ->
  let blob := encode_group (v :: to_be 3 n) g ++ post in
  index blob 1 = Ok v /\ (exists b2 b3 b4, index blob 2 = Ok b2 /\ index blob 3 = Ok b3 /\ index blob 4 = Ok b4 /\
    to_be 3 n = [b2; b3; b4]) /\
  exists e0, index blob 0 = Ok e0 /\ slice blob 5 32 = Ok (g_a0 g) /\
    copy_from_slice rest 0 (g_a0 g) = Ok (g_a0 g ++ drop 27 rest) /\
    ('(e1, c) ← decode_field_element blob
       {| output_pos := 28; input_pos := 32; cur_output := g_a0 g ++ drop 27 rest |};
     '(e2, c) ← decode_field_element blob c;
     '(e3, c) ← decode_field_element blob c;
     reassemble_bytes e0 e1 e2 e3 c) =
    Ok {| output_pos := 123; input_pos := 128; cur_output := group_data g ++ drop 123 rest |}.
Proof.
  intros [H0 (H1 & H2 & H3) (Hx & Hy & Hz)] Hrest blob.
  destruct (output_cut rest 27) as (m0 & s0 & m1 & s1 & m2 & s2 & m3 & r & -> & K0 & K1 & K2 & K3); [lia|].
  assert (Hh : exists b2 b3 b4, to_be 3 n = [b2; b3; b4]).
  { pose proof (length_to_be 3 n) as Hl. destruct (to_be 3 n) as [|b2 [|b3 [|b4 [|]]]]; try done. eauto. }
  destruct Hh as (b2 & b3 & b4 & Hh). unfold blob, encode_group. rewrite Hh.
  destruct g as [a0 x a1 y a2 z a3]. cbn in H0, H1, H2, H3, Hx, Hy, Hz. pose proof (spread_bits x y z Hx Hy Hz) as Hbits.
  unfold group_data. cbn [g_x g_y g_z g_a0 g_a1 g_a2 g_a3].
  destruct (spread x y z) as [[[e0 e1] e2] e3]. destruct Hbits as (B1 & B2 & B3 & M1 & M2 & M3 & M0).
  assert (Hd27 : drop 27 (m0 ++ s0 :: m1 ++ s1 :: m2 ++ s2 :: m3 ++ r) = s0 :: m1 ++ s1 :: m2 ++ s2 :: m3 ++ r)
    by (apply drop_app_length'; unfold len in *; lia).
  split; [done|]. split; [by exists b2, b3, b4|]. exists e0. split; [done|]. rewrite Hd27. split_and!.
  - replace (((e0 :: [v; b2; b3; b4] ++ a0) ++ (e1 :: a1) ++ (e2 :: a2) ++ e3 :: a3) ++ post)
      with ([e0; v; b2; b3; b4] ++ a0 ++ ((e1 :: a1) ++ (e2 :: a2) ++ e3 :: a3) ++ post) by list_eq.
    apply slice_app_exact; list_len.
  - apply (copy_from_slice_at [] m0 a0); [done|lia].
  - rewrite (decode_field_element_eq _ _ (e0 :: [v; b2; b3; b4] ++ a0) e1 a1 ((e2 :: a2) ++ (e3 :: a3) ++ post)
      (a0 ++ [s0]) m1 (s1 :: m2 ++ s2 :: m3 ++ r)) by (done || list_eq || list_len).
    rewrite bind_ret, (decode_field_element_eq _ _ (e0 :: [v; b2; b3; b4] ++ a0 ++ e1 :: a1) e2 a2 ((e3 :: a3) ++ post)
      (a0 ++ s0 :: a1 ++ [s1]) m2 (s2 :: m3 ++ r)) by (done || list_eq || list_len).
    rewrite bind_ret, (decode_field_element_eq _ _ (e0 :: [v; b2; b3; b4] ++ a0 ++ e1 :: a1 ++ e2 :: a2) e3 a3 post
      (a0 ++ s0 :: a1 ++ s1 :: a2 ++ [s2]) m3 r) by (done || list_eq || list_len).
    rewrite bind_ret.
    replace ((a0 ++ s0 :: a1 ++ s1 :: a2 ++ [s2]) ++ a3 ++ r)
      with (a0 ++ s0 :: a1 ++ s1 :: a2 ++ s2 :: a3 ++ r) by list_eq.
    rewrite (reassemble_bytes_at e0 e1 e2 e3) by (done || list_len). rewrite B1, B2, B3.
    f_equal. f_equal.
    replace (m0 ++ s0 :: m1 ++ s1 :: m2 ++ s2 :: m3 ++ r) with ((m0 ++ s0 :: m1 ++ s1 :: m2 ++ s2 :: m3) ++ r) by list_eq.
    rewrite drop_app_length' by (unfold len in *; rewrite !length_app; cbn; rewrite !length_app; cbn; rewrite !length_app; cbn; lia).
    list_eq.
Qed.

Lemma extraneous_zeros l : existsb (fun b => negb (b =? 0)) l = false <-> Forall (fun b => b = 0) l.
Proof.
  induction l as [|b l IH]; [split; [constructor|done]|]. cbn. rewrite orb_false_iff, Forall_cons, IH.
  by rewrite negb_false_iff, Z.eqb_eq.
Qed.

Lemma from_be_length3 n : 0 <= n < 2 ^ 24 -> from_be (0 :: to_be 3 n) = n.
Proof.
  intros Hn. change (0 :: to_be 3 n) with ([0] ++ to_be 3 n). rewrite from_be_app.
  change (from_be [0]) with 0. rewrite Z.mul_0_l, Z.add_0_l. by apply from_be_to_be_id.
Qed.

(** The sizes, with the rounds as a number. *)
Lemma blob_sizes :
  Z.to_nat MAX_BLOB_DATA_SIZE = (123 + 127 * Z.to_nat (ROUNDS - 1))%nat /\ MAX_BLOB_DATA_SIZE < 2 ^ 24.
Proof. unfold MAX_BLOB_DATA_SIZE, ROUNDS. split; [lia|done]. Qed.

(** ** Properties *)

(** C40. Blob round trip: decoding the blob that the specification's encoder makes of
    some bytes gives these bytes back, for every byte string up to the size the code
    declares as the maximum; no index leaves the blob or the output. *)
Theorem decode_blob_data_encode data :
  bytes_ok data -> len data <= MAX_BLOB_DATA_SIZE -> decode_blob_data (encode_blob_data data) = Ok data.
Proof.
  intros Hok Hlen. destruct blob_sizes as [Hmax Hu24]. pose proof (len_nonneg data) as Hpos.
  unfold encode_blob_data. set (padded := data ++ replicate (Z.to_nat (MAX_BLOB_DATA_SIZE - len data)) 0).
  assert (Hp : length padded = (123 + 127 * Z.to_nat (ROUNDS - 1))%nat)
    by (unfold padded, len in *; rewrite length_app, length_replicate; lia).
  assert (Hpok : bytes_ok padded) by (apply Forall_app_2; [exact Hok|apply Forall_replicate; by_compute]).
  unfold decode_blob_data. rewrite Hmax. generalize (Z.to_nat (ROUNDS - 1)) as n, Hp. clear Hp. intros n Hp.
  set (g := group_of 27 (take 123 padded)).
  destruct (group_of_ok 27 (take 123 padded)) as [Hg Hd]; [by apply Forall_take|rewrite length_take; lia|].
  fold g in Hg, Hd. set (blob := encode_group _ g ++ _).
  destruct (decode_first_group ENCODING_VERSION (len data) g (encode_rounds n (drop 123 padded))
    (replicate (123 + 127 * n) 0)) as (Hv & (b2 & b3 & b4 & H2 & H3 & H4 & Hbe) & e0 & H0 & Hs & Hc & Hfe);
    [done|rewrite length_replicate; lia|]. fold blob in Hv, H2, H3, H4, H0, Hs, Hfe.
  change (index blob VERSION_OFFSET) with (index blob 1). rewrite Hv, bind_ret, Z.eqb_refl. cbn [negb].
  rewrite H2, bind_ret, H3, bind_ret, H4, bind_ret, <- Hbe, from_be_length3 by lia.
  rewrite (proj2 (Z.ltb_ge _ _)) by lia. rewrite Hs, bind_ret, Hc, bind_ret, H0, bind_ret.
  apply bind_Ok in Hfe as ([e1 c1] & F1 & Hfe). apply bind_Ok in Hfe as ([e2 c2] & F2 & Hfe).
  apply bind_Ok in Hfe as ([e3 c3] & F3 & Hfe).
  rewrite F1, bind_ret, F2, bind_ret, F3, bind_ret, Hfe, bind_ret, zeros_drop.
  replace (123 + 127 * n - 123)%nat with (127 * n)%nat by lia.
  destruct (decode_rounds_encode n (drop 123 padded) (encode_group (ENCODING_VERSION :: to_be 3 (len data)) g)
    (group_data g) (len data)) as (c & Hr & Ho & Hi).
  { rewrite length_drop. lia. } { by apply Forall_drop. }
  { rewrite Hd, drop_drop. unfold len at 2. rewrite length_take, Nat.min_l by lia.
    replace (123 + Z.to_nat (len data - Z.of_nat 123))%nat
      with (Z.to_nat (len data) + (123 - Z.to_nat (len data)))%nat by lia.
    rewrite <- drop_drop. apply Forall_drop. unfold padded, len. rewrite Nat2Z.id, drop_app_length.
    by apply Forall_replicate. }
  assert (Hld : len (group_data g) = 123) by (rewrite Hd; unfold len; rewrite length_take; lia).
  rewrite Hld, (len_encode_group _ 27), len_cons, len_to_be in Hr by done. fold blob in Hr, Hi.
  change (1 + (1 + Z.of_nat 3) + 27 + 96) with 128 in Hr. rewrite Hr, bind_ret, Ho, Hd, take_drop.
  unfold padded, len. rewrite Nat2Z.id, drop_app_length, take_app_length.
  rewrite (proj2 (extraneous_zeros (replicate _ _))) by (by apply Forall_replicate).
  by rewrite (proj2 (extraneous_zeros _) Hi).
Qed.

(** ** The slot cache *)

Lemma parse_digits_nonneg s acc z : 0 <= acc -> parse_digits s acc = Some z -> 0 <= z.
Proof.
  revert acc. induction s as [|c s IH]; intros acc Hacc; cbn [parse_digits]; [by intros [= <-]|].
  set (d := Z.of_N _ - 48). destruct ((0 <=? d) && (d <=? 9) && (acc * 10 + d <? 18446744073709551616)) eqn:E; [|done].
  rewrite !andb_true_iff, !Z.leb_le in E. apply IH. lia.
Qed.

Lemma parse_u64_nonneg s z : parse_u64 s = Some z -> 0 <= z.
Proof.
  assert (Hd : forall s, parse_digits s 0 = Some z -> 0 <= z) by (intros s'; by apply parse_digits_nonneg).
  destruct s as [|c s]; [done|]. destruct (decide (c = "+"%char)) as [->|Hc].
  - destruct s; [done|]. apply Hd.
  - intros E. apply (Hd (String c s)). revert E. unfold parse_u64.
    destruct c as [[] [] [] [] [] [] [] []]; try exact id; by destruct Hc.
Qed.

Section slots.
Context {B : Type} `{Beacon B}.
Implicit Types f : BlobFetcher B.

Lemma get_slot_cached time f :
  genesis_timestamp f <> 0 ->
  get_slot_from_time time f =
    (if time <? genesis_timestamp f then Err "Time is before genesis; cannot calculate slot number"
     else u64_div (time - genesis_timestamp f) (seconds_per_slot f), f).
Proof.
  intros Hg. unfold get_slot_from_time. destruct (genesis_timestamp f) eqn:E; [done| |];
    run_M; rewrite E; by destruct (_ <? _).
Qed.

Lemma refill_Ok f f' : refill f = (Ok tt, f') -> 0 < seconds_per_slot f'.
Proof.
  unfold refill. run_M. intros E.
  destruct (fetch_beacon_genesis_timestamp f) as [[g| | |] f1]; [|done..]. cbn beta iota in E.
  destruct (fetch_beacon_spec _) as [[spec| | |] f2]; [|done..]. cbn beta iota in E.
  destruct (get spec _) as [v|]; cbn in E; [|done]. destruct (as_str v) as [s|]; cbn in E; [|done].
  destruct (parse_u64 s) as [n|] eqn:En; cbn in E; [|done]. apply parse_u64_nonneg in En.
  destruct (Z.eqb_spec n 0); [done|]. injection E as <-. cbn. lia.
Qed.

Lemma get_slot_refill time f :
  genesis_timestamp f = 0 ->
  get_slot_from_time time f =
    let '(r, f') := refill f in
    (r ← r;
     if time <? genesis_timestamp f' then Err "Time is before genesis; cannot calculate slot number"
     else u64_div (time - genesis_timestamp f') (seconds_per_slot f'), f').
Proof.
  intros Hg. unfold get_slot_from_time. rewrite Hg. run_M.
  destruct (refill f) as [[[]| | |] f']; try done. cbn. by destruct (_ <? _).
Qed.

(** The slot of a time.  When [get_slot_from_time] answers, the answer is the
    number of whole slots from genesis to the time, by the genesis time and the
    slot duration left in the cache; and from then on every time from genesis on is
    answered from the cache, without a request to the beacon node. *)
Theorem get_slot_from_time_cache time f slot f' :
  0 <= seconds_per_slot f ->
  get_slot_from_time time f = (Ok slot, f') ->
  let genesis := genesis_timestamp f' in
  let seconds := seconds_per_slot f' in
  0 < seconds /\ genesis + seconds * slot <= time < genesis + seconds * (slot + 1) /\
  (genesis <> 0 -> forall time', genesis <= time' ->
     get_slot_from_time time' f' = (Ok ((time' - genesis) / seconds), f')).
Proof.
  intros Hs E genesis seconds.
  assert (Hc : 0 < seconds /\ genesis <= time /\ slot = (time - genesis) / seconds).
  { destruct (decide (genesis_timestamp f = 0)) as [Hg|Hg].
    - rewrite get_slot_refill in E by done. destruct (refill f) as [[[]| | |] f1] eqn:Er; [|done..].
      apply refill_Ok in Er. injection E as E <-. unfold mbind, outcome_bind in E. fold genesis seconds in E, Er.
      unfold u64_div in E. destruct (Z.ltb_spec time genesis), (Z.eqb_spec seconds 0); [done..|]. by injection E as <-.
    - rewrite get_slot_cached in E by done. injection E as E <-. fold genesis seconds in E, Hs.
      unfold u64_div in E. destruct (Z.ltb_spec time genesis), (Z.eqb_spec seconds 0); [done..|].
      injection E as <-. lia. }
  destruct Hc as (Hsec & Ht & ->). split; [done|]. split.
  - pose proof (Z.div_mod (time - genesis) seconds). pose proof (Z.mod_pos_bound (time - genesis) seconds). lia.
  - intros Hg time' Ht'. rewrite get_slot_cached by done. fold genesis seconds.
    rewrite (proj2 (Z.ltb_ge _ _)) by lia. unfold u64_div. by rewrite (proj2 (Z.eqb_neq _ _)) by lia.
Qed.

(** A half-filled cache.  When the node answers the genesis request and fails the
    one for the specification, the call fails but keeps the genesis time: every
    later call believes the cache to be full and, for any time from genesis on,
    panics on a division by a slot duration of 0. *)
Theorem get_slot_from_time_half_filled time f genesis f1 e f2 :
  genesis_timestamp f = 0 -> seconds_per_slot f = 0 ->
  fetch_beacon_genesis_timestamp f = (Ok genesis, f1) -> genesis <> 0 ->
  fetch_beacon_spec (set_genesis_timestamp genesis f1) = (Err e, f2) ->
  get_slot_from_time time f = (Err e, f2) /\
  forall time', genesis <= time' -> get_slot_from_time time' f2 = (Panic, f2).
Proof.
  intros Hg Hs E1 Hgen E2.
  assert (Hframe : forall path f r f', get_data path f = (r, f') ->
    genesis_timestamp f' = genesis_timestamp f /\ seconds_per_slot f' = seconds_per_slot f).
  { intros path x r x'. unfold get_data. run_M. destruct (http_get _ (beacon x)) as [[v| | |] b]; by intros [= _ <-]. }
  assert (H1 : seconds_per_slot f1 = 0).
  { unfold fetch_beacon_genesis_timestamp in E1. run_M in E1.
    destruct (get_data _ f) as [r x] eqn:Ed. apply Hframe in Ed as [_ Ed].
    destruct r as [v| | |]; injection E1 as _ <-; by rewrite Ed. }
  pose proof (Hframe _ _ _ _ E2) as [Hg2 Hs2]. cbn in Hg2, Hs2. split.
  - rewrite get_slot_refill by done. unfold refill. run_M. rewrite E1. cbn beta iota. by rewrite E2.
  - intros time' Ht. rewrite get_slot_cached by congruence. rewrite Hg2, Hs2, H1.
    by rewrite (proj2 (Z.ltb_ge _ _)) by lia.
Qed.
End slots.

(** ** Witnesses *)

Lemma decode_blob_data_encode_witness :
  decode_blob_data (encode_blob_data [1; 2; 3; 255]) = Ok [1; 2; 3; 255].
Proof. apply (decode_blob_data_encode [1; 2; 3; 255]); [by_compute|by vm_compute]. Defined.

(** A beacon node that gives a list of replies. *)
Instance example_beacon : Beacon (list (outcome Value)) := {
  http_get := fun _ replies =>
    match replies with
    | r :: replies => (r, replies)
    | [] => (Err "no reply", [])
    end
}.

Definition example_genesis : Value :=
  VObject [("data", VObject [("genesis_time", VString "1606824023")])].

Definition example_spec : Value :=
  VObject [("data", VObject [("PRESET_BASE", VString "mainnet"); ("SECONDS_PER_SLOT", VString "12")])].

Lemma get_slot_from_time_cache_witness :
  (get_slot_from_time 1710343567 (BlobFetcher_new [Ok example_genesis; Ok example_spec] "http://beacon")).1 = Ok 8626628 /\
  12 * 8626628 <= 1710343567 - 1606824023 < 12 * 8626629.
Proof.
  destruct (get_slot_from_time 1710343567 (BlobFetcher_new [Ok example_genesis; Ok example_spec] "http://beacon"))
    as [r f'] eqn:E.
  assert (Hr : r = Ok 8626628) by (by vm_compute in E; injection E as <- _).
  assert (Hf : genesis_timestamp f' = 1606824023 /\ seconds_per_slot f' = 12)
    by (by vm_compute in E; injection E as _ <-).
  subst r. split; [reflexivity|]. destruct Hf as [Hg Hs].
  destruct (get_slot_from_time_cache _ _ _ _ (ltac:(by vm_compute) : 0 <= seconds_per_slot (BlobFetcher_new _ _)) E)
    as (_ & Hb & _). rewrite Hg, Hs in Hb. lia.
Defined.

Lemma get_slot_from_time_half_filled_witness :
  let f := BlobFetcher_new [Ok example_genesis; Err "502 Bad Gateway"] "http://beacon" in
  let '(r, f') := get_slot_from_time 1710343567 f in
  r = Err "502 Bad Gateway" /\ (get_slot_from_time 1710343579 f').1 = Panic.
Proof.
  intros f. edestruct (get_slot_from_time_half_filled 1710343567 f) as [E Hp];
    [reflexivity|reflexivity|vm_compute; reflexivity|done|vm_compute; reflexivity|].
  rewrite E. split; [reflexivity|]. by rewrite Hp by done.
Defined.
