(* ===== verification/ChainWatcher.v ===== *)
(** The L1 chain watcher (src/src/l1/chain_watcher.rs): the task that reads L1 block
    by block, follows finality and the system configuration, caches deposits, finds
    the batcher's data and detects reorgs; and the handle that starts it, restarts
    it and receives its updates.

    The L1 node is a type [P] of its states, with the block query of the engine's
    provider, the query by tag and the query for logs; the beacon node is the type
    [B] of Blobs.v.  A provider is made from a URL. *)
From Stdlib Require Import Sorted.
From stdpp Require Import sorting.
From S2P Require Import Prelude Codecs Common Config Deposits L1Info Engine Json Blobs.

(** ** Data *)

Definition BLOB_CARRYING_TRANSACTION_TYPE : Z := 3.

Inductive BlockUpdate :=
| NewBlock (l1_info : L1Info)
| FinalityUpdate (num : Z)
| Reorg.

#[export] Instance BlockUpdate_eq_dec : EqDecision BlockUpdate.
Proof. solve_decision. Defined.

(** The tags of [ethers::types::BlockNumber] that the code uses. *)
Inductive BlockNumber := Finalized | Latest.

(** [ethers::types::Filter] as the code fills it in. *)
Record Filter := {
  f_address : bytes;
  f_topic0 : bytes;
  f_from_block : Z;
  f_to_block : Z
}.

(** The L1 node. *)
Class L1Provider (P : Type) := {
  get_block : BlockNumber -> M P (option Block);
  get_logs : Filter -> M P (list Log)
}.

(** [generate_http_provider]: [http_provider] is the client for a URL that parses. *)
Class Http (P : Type) := {
  http_provider : string -> option P
}.

Definition generate_http_provider {P} `{Http P} (url : string) : outcome P := unwrap (http_provider url).

(** The sender half of the channel shows the messages that were sent and not yet
    received. *)
Record InnerWatcher (P B : Type) := {
  iw_config : Config;
  provider : P;
  blob_fetcher : BlobFetcher B;
  block_update_sender : list BlockUpdate;
  current_block : Z;
  head_block : Z;
  finalized_block : Z;
  unfinalized_blocks : list BlockInfo;
  deposits : gmap Z (list UserDeposited);
  iw_system_config : SystemConfig;
  system_config_update : Z * option SystemConfig
}.

Arguments Build_InnerWatcher {P B}.
Arguments iw_config {P B}.
Arguments provider {P B}.
Arguments blob_fetcher {P B}.
Arguments block_update_sender {P B}.
Arguments current_block {P B}.
Arguments head_block {P B}.
Arguments finalized_block {P B}.
Arguments unfinalized_blocks {P B}.
Arguments deposits {P B}.
Arguments iw_system_config {P B}.
Arguments system_config_update {P B}.

(** ** Operations *)

(** [Result::unwrap]. *)
Definition unwrap_result {A} (r : outcome A) : outcome A :=
  match r with Err _ => Panic | r => r end.

(** [iter().map(f).collect()] for a closure that may panic. *)
Fixpoint map_collect {A A'} (f : A -> outcome A') (l : list A) : outcome (list A') :=
  match l with
  | [] => Ok []
  | a :: l => b ← f a; bs ← map_collect f l; Ok (b :: bs)
  end.

Section InnerWatcher.
Context {P B : Type}.
Implicit Types w : InnerWatcher P B.

(** Record updates. *)
Definition set_provider (p : P) w : InnerWatcher P B :=
  {| iw_config := iw_config w; provider := p; blob_fetcher := blob_fetcher w;
     block_update_sender := block_update_sender w; current_block := current_block w; head_block := head_block w;
     finalized_block := finalized_block w; unfinalized_blocks := unfinalized_blocks w; deposits := deposits w;
     iw_system_config := iw_system_config w; system_config_update := system_config_update w |}.

Definition set_blob_fetcher (b : BlobFetcher B) w : InnerWatcher P B :=
  {| iw_config := iw_config w; provider := provider w; blob_fetcher := b;
     block_update_sender := block_update_sender w; current_block := current_block w; head_block := head_block w;
     finalized_block := finalized_block w; unfinalized_blocks := unfinalized_blocks w; deposits := deposits w;
     iw_system_config := iw_system_config w; system_config_update := system_config_update w |}.

Definition set_sender (q : list BlockUpdate) w : InnerWatcher P B :=
  {| iw_config := iw_config w; provider := provider w; blob_fetcher := blob_fetcher w;
     block_update_sender := q; current_block := current_block w; head_block := head_block w;
     finalized_block := finalized_block w; unfinalized_blocks := unfinalized_blocks w; deposits := deposits w;
     iw_system_config := iw_system_config w; system_config_update := system_config_update w |}.

Definition set_current_block (n : Z) w : InnerWatcher P B :=
  {| iw_config := iw_config w; provider := provider w; blob_fetcher := blob_fetcher w;
     block_update_sender := block_update_sender w; current_block := n; head_block := head_block w;
     finalized_block := finalized_block w; unfinalized_blocks := unfinalized_blocks w; deposits := deposits w;
     iw_system_config := iw_system_config w; system_config_update := system_config_update w |}.

Definition set_head_block (n : Z) w : InnerWatcher P B :=
  {| iw_config := iw_config w; provider := provider w; blob_fetcher := blob_fetcher w;
     block_update_sender := block_update_sender w; current_block := current_block w; head_block := n;
     finalized_block := finalized_block w; unfinalized_blocks := unfinalized_blocks w; deposits := deposits w;
     iw_system_config := iw_system_config w; system_config_update := system_config_update w |}.

Definition set_finalized_block (n : Z) w : InnerWatcher P B :=
  {| iw_config := iw_config w; provider := provider w; blob_fetcher := blob_fetcher w;
     block_update_sender := block_update_sender w; current_block := current_block w; head_block := head_block w;
     finalized_block := n; unfinalized_blocks := unfinalized_blocks w; deposits := deposits w;
     iw_system_config := iw_system_config w; system_config_update := system_config_update w |}.

Definition set_unfinalized_blocks (l : list BlockInfo) w : InnerWatcher P B :=
  {| iw_config := iw_config w; provider := provider w; blob_fetcher := blob_fetcher w;
     block_update_sender := block_update_sender w; current_block := current_block w; head_block := head_block w;
     finalized_block := finalized_block w; unfinalized_blocks := l; deposits := deposits w;
     iw_system_config := iw_system_config w; system_config_update := system_config_update w |}.

Definition set_deposits (m : gmap Z (list UserDeposited)) w : InnerWatcher P B :=
  {| iw_config := iw_config w; provider := provider w; blob_fetcher := blob_fetcher w;
     block_update_sender := block_update_sender w; current_block := current_block w; head_block := head_block w;
     finalized_block := finalized_block w; unfinalized_blocks := unfinalized_blocks w; deposits := m;
     iw_system_config := iw_system_config w; system_config_update := system_config_update w |}.

Definition set_system_config (c : SystemConfig) w : InnerWatcher P B :=
  {| iw_config := iw_config w; provider := provider w; blob_fetcher := blob_fetcher w;
     block_update_sender := block_update_sender w; current_block := current_block w; head_block := head_block w;
     finalized_block := finalized_block w; unfinalized_blocks := unfinalized_blocks w; deposits := deposits w;
     iw_system_config := c; system_config_update := system_config_update w |}.

Definition set_system_config_update (u : Z * option SystemConfig) w : InnerWatcher P B :=
  {| iw_config := iw_config w; provider := provider w; blob_fetcher := blob_fetcher w;
     block_update_sender := block_update_sender w; current_block := current_block w; head_block := head_block w;
     finalized_block := finalized_block w; unfinalized_blocks := unfinalized_blocks w; deposits := deposits w;
     iw_system_config := iw_system_config w; system_config_update := u |}.

(** [block_update_sender.send(..)]: the task waits while the channel is full; the
    channel is closed only when the handle has aborted the task. *)
Definition send (u : BlockUpdate) : M (InnerWatcher P B) unit :=
  modify (fun w => set_sender (block_update_sender w ++ [u]) w).

(** [InnerWatcher::check_reorg]. *)
Definition check_reorg w : bool :=
  let l := unfinalized_blocks w in
  match l !! (length l - 1)%nat, l !! (length l - 2)%nat with
  | Some last, Some parent =>
      if (2 <=? length l)%nat then negb (bool_decide (bi_parent_hash last = bi_hash parent)) else false
  | _, _ => false
  end.

(** [InnerWatcher::is_valid_batcher_transaction]. *)
Definition is_valid_batcher_transaction w (tx : Transaction) : bool :=
  let batch_sender := batch_sender (system_config (chain (iw_config w))) in
  let batch_inbox := batch_inbox (chain (iw_config w)) in
  bool_decide (tx_from tx = batch_sender) &&
  match tx_to tx with Some to => bool_decide (to = batch_inbox) | None => false end.

(** The loop over the transactions of [get_batcher_transactions]: the calldata of the
    batcher, the indexes of its blobs in the block, and the index of the next blob. *)
Definition scan_transaction w (acc : list bytes * list Z * Z) (tx : Transaction) : list bytes * list Z * Z :=
  let '(data, indexed_blobs, blob_index) := acc in
  let tx_blob_hashes := tx_blob_hashes tx in
  if negb (is_valid_batcher_transaction w tx) then (data, indexed_blobs, blob_index + len tx_blob_hashes) else
  let tx_type := default 0 (tx_type tx) in
  if negb (tx_type =? BLOB_CARRYING_TRANSACTION_TYPE) then (data ++ [tx_input tx], indexed_blobs, blob_index) else
  foldl (fun '(data, indexed_blobs, blob_index) _ => (data, indexed_blobs ++ [blob_index], blob_index + 1))
    (data, indexed_blobs, blob_index) tx_blob_hashes.

(** The loop over the indexed blobs. *)
Definition decode_indexed_blob (blobs : list BlobSidecar) (blob_index : Z) : outcome bytes :=
  match find (fun b => sc_index b =? blob_index) blobs with
  | Some blob_sidecar => decode_blob_data (sc_blob blob_sidecar)
  | None => Err "blob index not found in fetched sidecars"
  end.

Section batcher_transactions.
Context `{Beacon B}.

(** The part after the early return. *)
Definition add_blob_data (data : list bytes) (indexed_blobs : list Z) (block : Block)
    : M (InnerWatcher P B) (list bytes) :=
  timestamp ← lift (as_u64 (blk_timestamp block));
  slot ← zoom blob_fetcher set_blob_fetcher (get_slot_from_time timestamp);
  blobs ← zoom blob_fetcher set_blob_fetcher (fetch_blob_sidecars slot);
  decoded ← lift (map_collect (decode_indexed_blob blobs) indexed_blobs);
  mret (data ++ decoded).

Definition get_batcher_transactions (block : Block) : M (InnerWatcher P B) (list bytes) := fun w =>
  let '(data, indexed_blobs, _) := foldl (scan_transaction w) ([], [], 0) (blk_transactions block) in
  match indexed_blobs with
  | [] => (Ok data, w)
  | _ :: _ => add_blob_data data indexed_blobs block w
  end.
End batcher_transactions.
End InnerWatcher.

Section watcher.
Context {P B : Type} `{BlockProvider P, L1Provider P, Http P, Beacon B, Keccak, Codec}.
Implicit Types w : InnerWatcher P B.

(** A call of the L1 provider. *)
Definition ask {A} (m : M P A) : M (InnerWatcher P B) A := zoom provider set_provider m.

Definition CONFIG_UPDATE_TOPIC : bytes := keccak256 (string_bytes "ConfigUpdate(uint256,uint8,bytes)").

Definition TRANSACTION_DEPOSITED_TOPIC : bytes :=
  keccak256 (string_bytes "TransactionDeposited(address,address,uint256,bytes)").

(** The number of a block queried by its tag. *)
Definition tagged_number (tag : BlockNumber) : M (InnerWatcher P B) Z :=
  block ← ask (get_block tag);
  lift (block ← ok_or block "block not found"; ok_or (blk_number block) "block pending").

Definition get_finalized : M (InnerWatcher P B) Z :=
  is_devnet ← gets (fun w => devnet (iw_config w));
  tagged_number (if is_devnet : bool then Latest else Finalized).

Definition get_head : M (InnerWatcher P B) Z := tagged_number Latest.

Definition iw_get_block (block_num : Z) : M (InnerWatcher P B) Block :=
  block ← ask (get_block_with_txs block_num);
  lift (ok_or block "block not found").

Definition config_update_filter w : Filter :=
  let last_update_block := (system_config_update w).1 in
  {| f_address := system_config_contract (chain (iw_config w));
     f_topic0 := CONFIG_UPDATE_TOPIC;
     f_from_block := u64_add last_update_block 1;
     f_to_block := u64_add last_update_block 1000 |}.

(** The [match] on the update. *)
Definition apply_update (config : SystemConfig) (update : SystemConfigUpdate) : SystemConfig :=
  match update with
  | BatchSender addr =>
      {| batch_sender := addr; gas_limit := gas_limit config; l1_fee_overhead := l1_fee_overhead config;
         l1_fee_scalar := l1_fee_scalar config; unsafe_block_signer := unsafe_block_signer config |}
  | Fees overhead scalar =>
      {| batch_sender := batch_sender config; gas_limit := gas_limit config; l1_fee_overhead := overhead;
         l1_fee_scalar := scalar; unsafe_block_signer := unsafe_block_signer config |}
  | Gas gas =>
      {| batch_sender := batch_sender config; gas_limit := gas; l1_fee_overhead := l1_fee_overhead config;
         l1_fee_scalar := l1_fee_scalar config; unsafe_block_signer := unsafe_block_signer config |}
  | UnsafeBlockSigner addr =>
      {| batch_sender := batch_sender config; gas_limit := gas_limit config;
         l1_fee_overhead := l1_fee_overhead config; l1_fee_scalar := l1_fee_scalar config;
         unsafe_block_signer := addr |}
  end.

(** The first of the logs, as the block it is in and the update it makes. *)
Definition first_update (logs : list Log) : outcome (option (Z * SystemConfigUpdate)) :=
  match logs with
  | [] => Ok None
  | log :: _ =>
      match log_block_number log, SystemConfigUpdate_try_from log with
      | _, Panic => Panic
      | _, Diverge => Diverge
      | Some n, Ok u => Ok (Some (n, u))
      | _, _ => Ok None
      end
  end.

Definition query_system_config : M (InnerWatcher P B) unit :=
  filter ← gets config_update_filter;
  updates ← ask (get_logs filter);
  update ← lift (first_update updates);
  match update with
  | Some (update_block, update) =>
      config ← gets iw_system_config;
      modify (set_system_config_update (update_block, Some (apply_update config update)))
  | None => modify (set_system_config_update (f_to_block filter, None))
  end.

(** The second half of [update_system_config]. *)
Definition activate_system_config w : InnerWatcher P B :=
  let '(last_update_block, next_config) := system_config_update w in
  if last_update_block =? current_block w then
    match next_config with
    | Some next_config => set_system_config next_config w
    | None => w
    end
  else w.

Definition update_system_config : M (InnerWatcher P B) unit :=
  last_update_block ← gets (fun w => (system_config_update w).1);
  current ← gets current_block;
  (if last_update_block <? current then query_system_config else mret tt) ;;
  modify activate_system_config.

Definition deposit_filter (block_num end_block : Z) w : Filter :=
  {| f_address := deposit_contract (chain (iw_config w));
     f_topic0 := TRANSACTION_DEPOSITED_TOPIC;
     f_from_block := block_num;
     f_to_block := end_block |}.

(** The inner loop of [get_deposits]. *)
Definition insert_deposits (deposit_logs : list UserDeposited) (deposits : gmap Z (list UserDeposited)) (num : Z)
    : gmap Z (list UserDeposited) :=
  <[num := filter (fun d => ud_l1_block_num d = num) deposit_logs]> deposits.

(** [deposits.remove(&num)]. *)
Definition remove_deposits (num : Z) : M (InnerWatcher P B) (option (list UserDeposited)) := fun w =>
  (Ok (deposits w !! num), set_deposits (delete num (deposits w)) w).

(** The query of [get_deposits], which fills the cache. *)
Definition fetch_deposits (block_num : Z) : M (InnerWatcher P B) unit :=
  end_block ← gets (fun w => Z.min (head_block w) (u64_add block_num 1000));
  filter ← gets (deposit_filter block_num end_block);
  logs ← ask (get_logs filter);
  deposit_logs ← lift (map_collect (fun log => unwrap_result (UserDeposited_try_from log)) logs);
  modify (fun w =>
    set_deposits (foldl (insert_deposits deposit_logs) (deposits w) (seqZ block_num (end_block - block_num + 1))) w).

Definition get_deposits (block_num : Z) : M (InnerWatcher P B) (list UserDeposited) :=
  cached ← remove_deposits block_num;
  match cached with
  | Some deposits => mret deposits
  | None =>
      fetch_deposits block_num ;;
      found ← remove_deposits block_num;
      lift (unwrap found)
  end.

(** The first two steps of [try_ingest_block]. *)
Definition poll_finalized : M (InnerWatcher P B) unit := fun w =>
  if finalized_block w <? current_block w then
    (finalized ← get_finalized;
     known ← gets finalized_block;
     if known <? finalized then
       modify (set_finalized_block finalized) ;;
       send (FinalityUpdate finalized) ;;
       modify (fun w => set_unfinalized_blocks
         (filter (fun b => finalized_block w < bi_number b) (unfinalized_blocks w)) w)
     else mret tt) w
  else (Ok tt, w).

Definition poll_head : M (InnerWatcher P B) unit := fun w =>
  if head_block w <? current_block w then (head ← get_head; modify (set_head_block head)) w
  else (Ok tt, w).

(** What is sent for a block. *)
Definition ingest_info (block : Block) (user_deposits : list UserDeposited) (txs : list bytes) w : outcome L1Info :=
  let finalized := finalized_block w <=? current_block w in
  info ← L1BlockInfo_try_from block;
  Ok {| l1i_system_config := iw_system_config w;
        block_info := info;
        batcher_transactions := txs;
        user_deposits := user_deposits;
        finalized := finalized |}.

Definition l1_block_info (block : Block) (l1_info : L1Info) : BlockInfo :=
  {| bi_hash := l1b_hash (block_info l1_info);
     bi_number := l1b_number (block_info l1_info);
     bi_timestamp := l1b_timestamp (block_info l1_info);
     bi_parent_hash := blk_parent_hash block |}.

Definition push_unfinalized (block : Block) (l1_info : L1Info) w : InnerWatcher P B :=
  if finalized_block w <=? l1b_number (block_info l1_info)
  then set_unfinalized_blocks (unfinalized_blocks w ++ [l1_block_info block l1_info]) w
  else w.

Definition ingest_current : M (InnerWatcher P B) unit :=
  update_system_config ;;
  n ← gets current_block;
  block ← iw_get_block n;
  user_deposits ← get_deposits n;
  txs ← get_batcher_transactions block;
  l1_info ← (fun w => (ingest_info block user_deposits txs w, w));
  modify (push_unfinalized block l1_info) ;;
  is_reorg ← gets check_reorg;
  send (if is_reorg : bool then Reorg else NewBlock l1_info) ;;
  modify (fun w => set_current_block (u64_add (current_block w) 1) w).

(** [InnerWatcher::try_ingest_block]; the pause of the last branch is not a step. *)
Definition try_ingest_block : M (InnerWatcher P B) unit :=
  poll_finalized ;;
  poll_head ;;
  is_due ← gets (fun w => current_block w <=? head_block w);
  if is_due : bool then ingest_current else mret tt.

(** The system configuration that the first transaction of an L2 block carries. *)
Definition read_system_config (config : Config) (block : Block) : outcome SystemConfig :=
  tx ← unwrap (head (blk_transactions block));
  let input := tx_input tx in
  batch_sender ← slice input 176 196;
  l1_fee_overhead ← from_be <$> slice input 196 228;
  l1_fee_scalar ← from_be <$> slice input 228 260;
  Ok {| batch_sender := batch_sender;
        l1_fee_overhead := l1_fee_overhead;
        l1_fee_scalar := l1_fee_scalar;
        gas_limit := blk_gas_limit block;
        unsafe_block_signer := unsafe_block_signer (system_config (chain config)) |}.

(** [InnerWatcher::new] with the client of the beacon node and the sender. *)
Definition InnerWatcher_new (client : B) (config : Config) (block_update_sender : list BlockUpdate)
    (l1_start_block l2_start_block : Z) : outcome (InnerWatcher P B) :=
  provider ← generate_http_provider (l1_rpc_url config);
  let blob_fetcher := BlobFetcher_new client (l1_beacon_url config) in
  system_config ←
    (if l2_start_block =? bi_number (l2_genesis (chain config)) then Ok (system_config (chain config)) else
     l2_provider ← generate_http_provider (l2_rpc_url config);
     block ← unwrap_result (get_block_with_txs (u64_sub l2_start_block 1) l2_provider).1;
     block ← unwrap block;
     read_system_config config block);
  Ok {| iw_config := config;
        provider := provider;
        blob_fetcher := blob_fetcher;
        block_update_sender := block_update_sender;
        current_block := l1_start_block;
        head_block := 0;
        finalized_block := 0;
        unfinalized_blocks := [];
        deposits := ∅;
        iw_system_config := system_config;
        system_config_update := (l1_start_block, None) |}.

(** ** The handle

    The spawned task: not yet at its first step, in its loop, or dead by a panic.
    The handle keeps the task and the receiver, which holds the messages in the
    channel. *)
Inductive Task :=
| Spawned (config : Config) (l1_start_block l2_start_block : Z)
| Running w
| Panicked.

Record ChainWatcher := {
  handle : option Task;
  cw_config : Config;
  l1_start_block : Z;
  l2_start_block : Z;
  block_update_receiver : option (list BlockUpdate)
}.

Definition ChainWatcher_new (l1_start_block l2_start_block : Z) (config : Config) : ChainWatcher :=
  {| handle := None; cw_config := config; l1_start_block := l1_start_block; l2_start_block := l2_start_block;
     block_update_receiver := None |}.

(** The function [start_watcher]: a task and the receiver of its channel. *)
Definition start_watcher (l1_start_block l2_start_block : Z) (config : Config) : Task * list BlockUpdate :=
  (Spawned config l1_start_block l2_start_block, []).

Definition start (s : ChainWatcher) : ChainWatcher :=
  let '(handle, recv) := start_watcher (l1_start_block s) (l2_start_block s) (cw_config s) in
  {| handle := Some handle; cw_config := cw_config s; l1_start_block := l1_start_block s;
     l2_start_block := l2_start_block s; block_update_receiver := Some recv |}.

Definition restart (l1_start_block l2_start_block : Z) (s : ChainWatcher) : ChainWatcher :=
  let '(handle, recv) := start_watcher l1_start_block l2_start_block (cw_config s) in
  {| handle := Some handle; cw_config := cw_config s; l1_start_block := l1_start_block;
     l2_start_block := l2_start_block; block_update_receiver := Some recv |}.

Definition set_receiver (q : option (list BlockUpdate)) (s : ChainWatcher) : ChainWatcher :=
  {| handle := handle s; cw_config := cw_config s; l1_start_block := l1_start_block s;
     l2_start_block := l2_start_block s; block_update_receiver := q |}.

Definition try_recv_from_channel : M ChainWatcher BlockUpdate := fun s =>
  match block_update_receiver s with
  | None => (Err "the watcher hasn't started", s)
  | Some [] => (Err "receiving on an empty channel", s)
  | Some (u :: q) => (Ok u, set_receiver (Some q) s)
  end.

(** One turn of the task, on the queue [q]; an error is logged and the loop goes on. *)
Definition task_step (client : B) (t : Task) (q : list BlockUpdate) : Task * list BlockUpdate :=
  match t with
  | Spawned config l1 l2 =>
      match InnerWatcher_new client config q l1 l2 with
      | Ok w => (Running w, q)
      | _ => (Panicked, q)
      end
  | Running w =>
      let '(r, w) := try_ingest_block (set_sender q w) in
      match r with
      | Panic => (Panicked, block_update_sender w)
      | _ => (Running w, block_update_sender w)
      end
  | Panicked => (Panicked, q)
  end.

Definition run_task (client : B) (s : ChainWatcher) : ChainWatcher :=
  match handle s, block_update_receiver s with
  | Some t, Some q =>
      let '(t, q) := task_step client t q in
      {| handle := Some t; cw_config := cw_config s; l1_start_block := l1_start_block s;
         l2_start_block := l2_start_block s; block_update_receiver := Some q |}
  | _, _ => s
  end.
End watcher.

Arguments Task : clear implicits.
Arguments ChainWatcher : clear implicits.

(** ** Lemmas *)

Lemma map_collect_Ok {A A'} (f : A -> outcome A') l bs :
  map_collect f l = Ok bs <-> Forall2 (fun a b => f a = Ok b) l bs.
Proof.
  revert bs. induction l as [|a l IH]; intros bs; cbn.
  - split; [intros [= <-]; constructor|]. by intros ->%Forall2_nil_inv_l.
  - split.
    + intros E. apply bind_Ok in E as (b & Hb & E). apply bind_Ok in E as (bs' & Hbs & E).
      injection E as <-. constructor; [done|]. by apply IH.
    + intros (b & bs' & Hb & Hbs & ->)%Forall2_cons_inv_l. rewrite Hb, bind_ret. apply IH in Hbs. by rewrite Hbs.
Qed.

(** *** The batcher's data *)

Section batcher.
Context {P B : Type}.
Implicit Types w : InnerWatcher P B.

Definition carries_blobs (tx : Transaction) : bool := default 0 (tx_type tx) =? BLOB_CARRYING_TRANSACTION_TYPE.

(** The calldata of the batcher, in order. *)
Definition batcher_calldata w (txs : list Transaction) : list bytes :=
  tx_input <$> filter (fun tx => is_valid_batcher_transaction w tx && negb (carries_blobs tx)) txs.

(** The indexes of the batcher's blobs: a blob's index is the number of blobs before
    it in the block, [offset] of them before [txs]. *)
Fixpoint batcher_blobs w (offset : Z) (txs : list Transaction) : list Z :=
  match txs with
  | [] => []
  | tx :: txs =>
      (if is_valid_batcher_transaction w tx && carries_blobs tx then seqZ offset (len (tx_blob_hashes tx)) else []) ++
      batcher_blobs w (offset + len (tx_blob_hashes tx)) txs
  end.

(** Only transactions of the blob type have blobs. *)
Definition blobs_by_type (txs : list Transaction) : Prop :=
  Forall (fun tx => carries_blobs tx = false -> tx_blob_hashes tx = []) txs.

Lemma index_blobs data indexed offset (hashes : list bytes) :
  foldl (fun '(data, indexed_blobs, blob_index) (_ : bytes) => (data, indexed_blobs ++ [blob_index], blob_index + 1))
    (data, indexed, offset) hashes =
  (data : list bytes, indexed ++ seqZ offset (len hashes), offset + len hashes).
Proof.
  revert indexed offset. induction hashes as [|h hs IH]; intros indexed offset; cbn [foldl].
  - change (len []) with 0. by rewrite seqZ_nil, app_nil_r, Z.add_0_r by done.
  - rewrite IH, len_cons, (seqZ_cons offset) by (pose proof (len_nonneg hs); lia).
    rewrite <- app_assoc. cbn [app]. f_equal; [|lia]. do 3 f_equal. f_equal; lia.
Qed.

Lemma scan_transactions w txs data indexed offset :
  blobs_by_type txs ->
  exists next, foldl (scan_transaction w) (data, indexed, offset) txs =
    (data ++ batcher_calldata w txs, indexed ++ batcher_blobs w offset txs, next).
Proof.
  intros Ht. revert data indexed offset. induction Ht as [|tx txs Htx Ht IH]; intros data indexed offset.
  - exists offset. cbn. by rewrite !app_nil_r.
  - cbn [foldl batcher_blobs]. unfold batcher_calldata. rewrite filter_cons.
    unfold scan_transaction at 2. fold (carries_blobs tx).
    destruct (is_valid_batcher_transaction w tx) eqn:Hv; cbn [negb andb].
    + destruct (carries_blobs tx) eqn:Hc; cbn [negb].
      * rewrite index_blobs. destruct (IH data (indexed ++ seqZ offset (len (tx_blob_hashes tx)))
          (offset + len (tx_blob_hashes tx))) as [next ->]. exists next. by rewrite <- app_assoc.
      * rewrite (Htx eq_refl). change (len []) with 0. rewrite Z.add_0_r.
        destruct (IH (data ++ [tx_input tx]) indexed offset) as [next ->]. exists next.
        by rewrite <- app_assoc.
    + destruct (IH data indexed (offset + len (tx_blob_hashes tx))) as [next ->]. by exists next.
Qed.
End batcher.

(** *** One turn of the watcher *)

Section ingest.
Context {P B : Type} `{BlockProvider P, L1Provider P, Http P, Beacon B, Keccak, Codec}.
Implicit Types w : InnerWatcher P B.

(** The part of the state that the queries leave alone. *)
Definition progress w :=
  (block_update_sender w, current_block w, head_block w, finalized_block w, unfinalized_blocks w).

Lemma ask_progress {A} (m : M P A) : preserves progress (ask (B := B) m).
Proof. by apply preserves_zoom. Qed.

Lemma tagged_number_progress tag : preserves progress (tagged_number (P := P) (B := B) tag).
Proof. unfold tagged_number. apply preserves_bind; [apply ask_progress|]. intros. apply preserves_lift. Qed.

Lemma get_finalized_progress : preserves progress (get_finalized (P := P) (B := B)).
Proof. unfold get_finalized. apply preserves_bind; [apply preserves_gets|intros]. apply tagged_number_progress. Qed.

Lemma activate_progress w : progress (activate_system_config w) = progress w.
Proof. unfold activate_system_config. destruct (system_config_update w) as [b [c|]]; by destruct (_ =? _). Qed.

Lemma update_system_config_progress : preserves progress (update_system_config (P := P) (B := B)).
Proof.
  unfold update_system_config. apply preserves_bind; [apply preserves_gets|intros b].
  apply preserves_bind; [apply preserves_gets|intros n].
  apply preserves_bind; [|intros []; apply preserves_modify, activate_progress].
  destruct (_ <? _); [|apply preserves_ret]. unfold query_system_config.
  apply preserves_bind; [apply preserves_gets|intros f]. apply preserves_bind; [apply ask_progress|intros logs].
  apply preserves_bind; [apply preserves_lift|intros [[u v]|]]; [|by apply preserves_modify].
  apply preserves_bind; [apply preserves_gets|intros c]. by apply preserves_modify.
Qed.

Lemma iw_get_block_progress n : preserves progress (iw_get_block (P := P) (B := B) n).
Proof. unfold iw_get_block. apply preserves_bind; [apply ask_progress|intros o; apply preserves_lift]. Qed.

Lemma remove_deposits_progress n : preserves progress (remove_deposits (P := P) (B := B) n).
Proof. done. Qed.

Lemma get_deposits_progress n : preserves progress (get_deposits (P := P) (B := B) n).
Proof.
  apply preserves_bind; [apply remove_deposits_progress|intros [ds|]; [apply preserves_ret|]].
  apply preserves_bind; [|intros []; apply preserves_bind; [apply remove_deposits_progress|intros; apply preserves_lift]].
  apply preserves_bind; [apply preserves_gets|intros e]. apply preserves_bind; [apply preserves_gets|intros f].
  apply preserves_bind; [apply ask_progress|intros logs]. apply preserves_bind; [apply preserves_lift|intros ds].
  by apply preserves_modify.
Qed.

Lemma get_batcher_transactions_progress block : preserves progress (get_batcher_transactions (P := P) (B := B) block).
Proof.
  intros w. unfold get_batcher_transactions. destruct (foldl _ _ _) as [[data indexed] next].
  destruct indexed as [|i indexed]; [done|]. revert w.
  apply preserves_bind; [apply preserves_lift|intros t]. apply preserves_bind; [by apply preserves_zoom|intros s].
  apply preserves_bind; [by apply preserves_zoom|intros blobs]. apply preserves_bind; [apply preserves_lift|intros l].
  apply preserves_ret.
Qed.

(** A number that the node gave for a tag. *)
Definition tag_reply (n : Z) : Prop :=
  exists tag (p : P) block p', get_block tag p = (Ok (Some block), p') /\ blk_number block = Some n.

Lemma tagged_number_Ok tag w n w' : tagged_number tag w = (Ok n, w') -> tag_reply n.
Proof.
  unfold tagged_number, ask. intros E. apply M_bind_cases in E as [(o & w1 & E1 & E2)|(r0 & _ & _ & Hr)]; [|by destruct (Hr n)].
  unfold zoom in E1. destruct (get_block tag (provider w)) as [r1 p1] eqn:Eg. injection E1 as -> _.
  injection E2 as E2 _. destruct o as [block|]; [|done]. cbn in E2.
  destruct (blk_number block) as [m|] eqn:En; [|done]. injection E2 as ->. by exists tag, (provider w), block, p1.
Qed.

Lemma get_finalized_Ok w n w' : get_finalized w = (Ok n, w') -> tag_reply n.
Proof. apply tagged_number_Ok. Qed.

Lemma poll_head_cases w r w' :
  poll_head w = (r, w') ->
  progress w' = progress w \/
  exists head, tag_reply head /\ progress w' = progress (set_head_block head w).
Proof.
  unfold poll_head. destruct (_ <? _); [|intros [= _ <-]; by left].
  intros E. apply M_bind_cases in E as [(n & w1 & E1 & E2)|(r0 & E1 & _)].
  - right. exists n. split; [by eapply tagged_number_Ok|]. injection E2 as _ <-.
    apply (preserves_eq progress) in E1; [|apply tagged_number_progress]. unfold progress in *. cbn. congruence.
  - left. eapply (preserves_eq progress); [apply tagged_number_progress|done].
Qed.

(** The state after a finality update. *)
Definition finalize (n : Z) w : InnerWatcher P B :=
  set_unfinalized_blocks (filter (fun b => n < bi_number b) (unfinalized_blocks w))
    (set_sender (block_update_sender w ++ [FinalityUpdate n]) (set_finalized_block n w)).

Lemma poll_finalized_cases w r w' :
  poll_finalized w = (r, w') ->
  progress w' = progress w \/
  exists n, tag_reply n /\ finalized_block w < n /\ progress w' = progress (finalize n w).
Proof.
  unfold poll_finalized. destruct (_ <? _); [|intros [= _ <-]; by left].
  intros E. apply M_bind_cases in E as [(n & w1 & E1 & E2)|(r0 & E1 & _)].
  - pose proof (get_finalized_Ok _ _ _ E1) as Hn.
    apply (preserves_eq progress) in E1; [|apply get_finalized_progress]. unfold progress in E1.
    injection E1 as E1 E3 E4 E5 E6. unfold send in E2. run_M in E2. rewrite E5 in E2. destruct (Z.ltb_spec (finalized_block w) n).
    + right. exists n. split; [done|]. split; [done|]. injection E2 as _ <-. unfold progress, finalize. cbn. congruence.
    + left. injection E2 as _ <-. unfold progress. congruence.
  - left. eapply (preserves_eq progress); [apply get_finalized_progress|done].
Qed.

Lemma iw_get_block_Ok n w block w' :
  iw_get_block n w = (Ok block, w') -> exists p p', get_block_with_txs n p = (Ok (Some block), p').
Proof.
  unfold iw_get_block, ask. run_M. destruct (get_block_with_txs n (provider w)) as [[[b|]| | |] p'] eqn:E; [|done..].
  intros [= <- <-]. by exists (provider w), p'.
Qed.

(** What is sent for a block, and the state after. *)
Definition publish (block : Block) (info : L1Info) w : InnerWatcher P B :=
  let w := push_unfinalized block info w in
  set_current_block (u64_add (current_block w) 1)
    (set_sender (block_update_sender w ++ [if check_reorg w then Reorg else NewBlock info]) w).

Lemma ingest_current_cases w r w' :
  ingest_current w = (r, w') ->
  (r <> Ok tt /\ progress w' = progress w) \/
  (r = Ok tt /\ exists p block p' ds txs info w1,
     get_block_with_txs (current_block w) p = (Ok (Some block), p') /\
     progress w1 = progress w /\ ingest_info block ds txs w1 = Ok info /\ w' = publish block info w1).
Proof.
  assert (Hstep : forall A (m : M (InnerWatcher P B) A) (k : A -> M (InnerWatcher P B) unit) w1,
    preserves progress m -> progress w1 = progress w -> (m ≫= k) w1 = (r, w') ->
    (r <> Ok tt /\ progress w' = progress w) \/
    exists a w2, m w1 = (Ok a, w2) /\ progress w2 = progress w /\ k a w2 = (r, w')).
  { intros A m k w1 Hm Hw1 E. apply M_bind_cases in E as [(a & w2 & E1 & E2)|(r0 & E1 & _ & Hr)].
    - right. exists a, w2. split_and!; [done| |done]. rewrite <- Hw1. by eapply preserves_eq.
    - left. split; [apply Hr|]. rewrite <- Hw1. by eapply preserves_eq. }
  intros E. unfold ingest_current in E.
  apply Hstep in E as [?|([] & w1 & _ & Hw1 & E)]; [by left| |apply update_system_config_progress|done].
  apply Hstep in E as [?|(n & w2 & E2 & Hw2 & E)]; [by left| |apply preserves_gets|done].
  injection E2 as <- <-.
  apply Hstep in E as [?|(block & w3 & E3 & Hw3 & E)]; [by left| |apply iw_get_block_progress|done].
  apply Hstep in E as [?|(ds & w4 & _ & Hw4 & E)]; [by left| |apply get_deposits_progress|done].
  apply Hstep in E as [?|(txs & w5 & _ & Hw5 & E)]; [by left| |apply get_batcher_transactions_progress|done].
  apply Hstep in E as [?|(info & w6 & E6 & Hw6 & E)]; [by left| |done|done].
  injection E6 as E6 <-. right. unfold send in E. run_M in E. injection E as <- <-. split; [done|].
  apply iw_get_block_Ok in E3 as (p & p' & E3). assert (Hc : current_block w1 = current_block w) by (unfold progress in Hw1; congruence).
  rewrite Hc in E3. by exists p, block, p', ds, txs, info, w5.
Qed.
End ingest.

(** *** What was sent *)

Definition is_block_update (u : BlockUpdate) : bool :=
  match u with FinalityUpdate _ => false | _ => true end.

Definition block_updates (q : list BlockUpdate) : list BlockUpdate := filter (fun u => is_block_update u) q.

Definition finality_numbers (q : list BlockUpdate) : list Z :=
  omap (fun u => match u with FinalityUpdate n => Some n | _ => None end) q.

Definition update_hash (u : BlockUpdate) : option bytes :=
  match u with NewBlock info => Some (l1b_hash (block_info info)) | _ => None end.

(** Every block names the one before as its parent. *)
Definition linked (l : list BlockInfo) : Prop :=
  forall i a b, l !! i = Some a -> l !! S i = Some b -> bi_parent_hash b = bi_hash a.

(** Its last two blocks are not a chain. *)
Definition broken_link (l : list BlockInfo) : Prop :=
  exists l' a b, l = l' ++ [a; b] /\ bi_parent_hash b <> bi_hash a.

Lemma block_updates_app q u : block_updates (q ++ [u]) = block_updates q ++ (if is_block_update u then [u] else []).
Proof. unfold block_updates. rewrite filter_app. by destruct u. Qed.

Lemma finality_numbers_app q u :
  finality_numbers (q ++ [u]) = finality_numbers q ++ (match u with FinalityUpdate n => [n] | _ => [] end).
Proof. unfold finality_numbers. rewrite omap_app. by destruct u. Qed.

(** Blocks in the order of their numbers: dropping the low ones drops a prefix. *)
Lemma filter_numbered n (l : list BlockInfo) a :
  bi_number <$> l = seqZ a (len l) -> exists k, filter (fun b => n < bi_number b) l = drop k l.
Proof.
  revert a. induction l as [|b l IH]; intros a Hl; [by exists 0%nat|].
  rewrite len_cons, seqZ_cons in Hl by (pose proof (len_nonneg l); lia).
  injection Hl as Hb Hl. replace (Z.pred (1 + len l)) with (len l) in Hl by lia.
  change (bi_number <$> l = seqZ (Z.succ a) (len l)) in Hl.
  destruct (decide (n < bi_number b)) as [Hn|Hn].
  - exists 0%nat. rewrite filter_cons_True by done. cbn [drop]. f_equal.
    assert (Hall : forall b', b' ∈ l -> n < bi_number b').
    { intros b' Hb'. assert (Hin : bi_number b' ∈ bi_number <$> l) by (by apply list_elem_of_fmap_2).
      rewrite Hl in Hin. apply elem_of_seqZ in Hin. lia. }
    clear -Hall. induction l as [|c l IH]; [done|]. rewrite filter_cons_True by (apply Hall; left).
    f_equal. apply IH. intros b' Hb'. apply Hall. by right.
  - destruct (IH _ Hl) as [k Hk]. exists (S k). by rewrite filter_cons_False.
Qed.

Lemma drop_numbered k (l : list BlockInfo) c :
  bi_number <$> l = seqZ (c - len l) (len l) -> bi_number <$> drop k l = seqZ (c - len (drop k l)) (len (drop k l)).
Proof.
  revert k. induction l as [|b l IH]; intros [|k] Hl; [done..|]. cbn [drop]. apply IH.
  rewrite len_cons, seqZ_cons in Hl by (pose proof (len_nonneg l); lia). injection Hl as _ Hl.
  change (bi_number <$> l = seqZ (Z.succ (c - (1 + len l))) (Z.pred (1 + len l))) in Hl.
  rewrite Hl. f_equal; lia.
Qed.

Lemma linked_drop k l : linked l -> linked (drop k l).
Proof. intros Hl i a b Ha Hb. rewrite lookup_drop in Ha, Hb. apply (Hl (k + i)%nat); [done|]. by rewrite <- Nat.add_succ_r. Qed.

Lemma linked_snoc l b :
  linked l -> (forall a, last l = Some a -> bi_parent_hash b = bi_hash a) -> linked (l ++ [b]).
Proof.
  intros Hl Hb i x y Hx Hy. apply lookup_app_Some in Hy as [Hy|[Hlen Hy]].
  - apply lookup_lt_Some in Hy as Hlt. rewrite lookup_app_l in Hx by lia. by apply (Hl i).
  - apply list_lookup_singleton_Some in Hy as [Hy ->]. rewrite lookup_app_l in Hx by lia.
    apply Hb. rewrite last_lookup. by replace (pred (length l)) with i by lia.
Qed.

Section check_reorg.
Context {P B : Type}.
Implicit Types w : InnerWatcher P B.

Lemma check_reorg_snoc w l b :
  unfinalized_blocks w = l ++ [b] ->
  check_reorg w = match last l with Some a => negb (bool_decide (bi_parent_hash b = bi_hash a)) | None => false end.
Proof.
  intros Hu. unfold check_reorg. rewrite Hu, length_app. cbn [length].
  rewrite lookup_app_r by lia. replace (length l + 1 - 1 - length l)%nat with 0%nat by lia. cbn [lookup list_lookup].
  destruct l as [|a l] using rev_ind; [done|]. rewrite last_snoc, length_app. cbn [length].
  rewrite lookup_app_l by (rewrite length_app; cbn; lia).
  replace (length l + 1 + 1 - 2)%nat with (length l) by lia.
  rewrite lookup_app_r, Nat.sub_diag by lia. cbn [lookup list_lookup].
  rewrite (proj2 (Nat.leb_le _ _)) by lia. done.
Qed.
End check_reorg.

(** *** The watcher's invariant *)

Section invariant.
Context {P B : Type} `{BlockProvider P, L1Provider P, Http P, Beacon B, Keccak, Codec}.
Implicit Types w : InnerWatcher P B.

(** What is assumed of the node: a block queried by its number has this number, and
    the numbers of tagged blocks leave room for one more. *)
Record l1_replies : Prop := {
  replies_number n (p : P) block p' :
    get_block_with_txs n p = (Ok (Some block), p') -> blk_number block = Some n;
  replies_tag n : tag_reply (P := P) n -> 0 <= n < 18446744073709551615
}.

Record watcher_inv (start : Z) w : Prop := {
  inv_current : current_block w = start + len (block_updates (block_update_sender w)) /\ in_u64 (current_block w);
  inv_head : head_block w < 18446744073709551615;
  inv_numbers : forall i info, block_updates (block_update_sender w) !! i = Some (NewBlock info) ->
    l1b_number (block_info info) = start + Z.of_nat i;
  inv_finality : StronglySorted Z.lt (0 :: finality_numbers (block_update_sender w)) /\
    last (0 :: finality_numbers (block_update_sender w)) = Some (finalized_block w);
  inv_window : bi_number <$> unfinalized_blocks w =
    seqZ (current_block w - len (unfinalized_blocks w)) (len (unfinalized_blocks w));
  inv_above : Forall (fun b => finalized_block w <= bi_number b) (unfinalized_blocks w);
  inv_linked : Reorg ∉ block_update_sender w ->
    linked (unfinalized_blocks w) /\
    ((fun b => Some (bi_hash b)) <$> unfinalized_blocks w) `suffix_of`
      (update_hash <$> block_updates (block_update_sender w));
  inv_reorg : last (block_update_sender w) = Some Reorg -> broken_link (unfinalized_blocks w)
}.

Lemma watcher_inv_progress start w w' : progress w' = progress w -> watcher_inv start w -> watcher_inv start w'.
Proof.
  unfold progress. intros [= Es Ec Eh Ef Eu] Hw. destruct Hw.
  split; rewrite ?Es, ?Ec, ?Eh, ?Ef, ?Eu; assumption.
Qed.

Lemma watcher_inv_head start n w : n < 18446744073709551615 -> watcher_inv start w -> watcher_inv start (set_head_block n w).
Proof. intros Hn Hw. destruct Hw. by split. Qed.

Lemma sorted_snoc (l : list Z) m n :
  StronglySorted Z.lt l -> last l = Some m -> m < n -> StronglySorted Z.lt (l ++ [n]).
Proof.
  intros Hs Hm Hn. apply StronglySorted_app. split_and!; [|done|by repeat constructor].
  intros x y Hx ->%list_elem_of_singleton. apply last_Some in Hm as [l' ->].
  apply StronglySorted_app in Hs as (Hs & _ & _). apply elem_of_app in Hx as [Hx| ->%list_elem_of_singleton]; [|done].
  specialize (Hs x m Hx ltac:(by left)). lia.
Qed.

Lemma watcher_inv_finalize start n w :
  finalized_block w < n -> watcher_inv start w -> watcher_inv start (finalize n w).
Proof.
  intros Hn Hw. destruct Hw as [Hc Hh Hnum [Hs Hl] Hwin Hab Hlk Hr].
  destruct (filter_numbered n _ _ Hwin) as [k Hk].
  split; unfold finalize; cbn; rewrite ?block_updates_app, ?finality_numbers_app, ?app_nil_r; try done.
  - rewrite app_comm_cons. split; [by eapply sorted_snoc|]. by rewrite last_snoc.
  - rewrite Hk. by apply drop_numbered.
  - apply Forall_forall. intros b [Hb _]%list_elem_of_filter. lia.
  - intros Hno. destruct Hlk as [Hlk Hsuf]; [intros Hin; apply Hno, elem_of_app; by left|]. rewrite Hk.
    split; [by apply linked_drop|]. rewrite fmap_drop. etrans; [|exact Hsuf].
    exists (take k ((fun b => Some (bi_hash b)) <$> unfinalized_blocks w)). by rewrite take_drop.
  - by rewrite last_snoc.
Qed.

Lemma ingest_info_Ok block ds txs w info :
  ingest_info block ds txs w = Ok info ->
  L1BlockInfo_try_from block = Ok (block_info info) /\ l1i_system_config info = iw_system_config w /\
  batcher_transactions info = txs /\ user_deposits info = ds /\
  blk_number block = Some (l1b_number (block_info info)).
Proof.
  unfold ingest_info. intros E. apply bind_Ok in E as (bi & Hb & E). injection E as <-. cbn. split_and!; try done.
  unfold L1BlockInfo_try_from in Hb. destruct (blk_number block) as [n|]; [|done]. cbn in Hb.
  apply bind_Ok in Hb as (h & _ & Hb). apply bind_Ok in Hb as (t & _ & Hb).
  apply bind_Ok in Hb as (f & _ & Hb). apply bind_Ok in Hb as (m & _ & Hb). by injection Hb as <-.
Qed.

(** The block just read joins the window or the window is empty. *)
Lemma push_unfinalized_cases block info w :
  let w' := push_unfinalized block info w in
  progress w' = (block_update_sender w, current_block w, head_block w, finalized_block w, unfinalized_blocks w') /\
  unfinalized_blocks w' =
    (if decide (finalized_block w <= l1b_number (block_info info))
     then unfinalized_blocks w ++ [l1_block_info block info] else unfinalized_blocks w).
Proof.
  unfold push_unfinalized. destruct (Z.leb_spec (finalized_block w) (l1b_number (block_info info)));
    case_decide; (done || lia).
Qed.

Lemma seqZ_snoc a n : 0 <= n -> seqZ a (n + 1) = seqZ a n ++ [a + n].
Proof.
  intros Hn. rewrite seqZ_app by lia. f_equal.
Qed.

(** The window after the current block. *)
Lemma window_push start block info w :
  watcher_inv start w -> l1b_number (block_info info) = current_block w ->
  let l := unfinalized_blocks (push_unfinalized block info w) in
  l = unfinalized_blocks w ++ [l1_block_info block info] /\ finalized_block w <= current_block w \/
  l = [] /\ unfinalized_blocks w = [].
Proof.
  intros Hw Hn l. destruct (push_unfinalized_cases block info w) as [_ Hl]. fold l in Hl. rewrite Hn in Hl.
  pose proof (inv_window _ _ Hw) as Hwin. pose proof (inv_above _ _ Hw) as Hab.
  case_decide as Hf; [by left|right]. rewrite Hl.
  destruct (unfinalized_blocks w) as [|b bs]; [done|]. apply Forall_cons in Hab as [Hb _].
  rewrite len_cons, seqZ_cons in Hwin by (pose proof (len_nonneg bs); lia). injection Hwin as Hwin _.
  pose proof (len_nonneg bs). lia.
Qed.

Lemma window_numbers start block info w :
  watcher_inv start w -> l1b_number (block_info info) = current_block w ->
  let l := unfinalized_blocks (push_unfinalized block info w) in
  bi_number <$> l = seqZ (current_block w + 1 - len l) (len l) /\
  Forall (fun b => finalized_block w <= bi_number b) l.
Proof.
  intros Hw Hn l. destruct (window_push _ block info _ Hw Hn) as [[Hl Hf]|[Hl _]]; fold l in Hl; rewrite Hl; [|done].
  split; [|apply Forall_app_2; [apply Hw|by repeat constructor; cbn; rewrite Hn]].
  rewrite fmap_app, (inv_window _ _ Hw), len_app. change (len [l1_block_info block info]) with 1.
  rewrite seqZ_snoc by apply len_nonneg. cbn [fmap list_fmap bi_number l1_block_info]. rewrite Hn.
  f_equal; [f_equal; lia|f_equal; lia].
Qed.

(** What is sent says how the window ends. *)
Lemma check_reorg_push start block info w :
  watcher_inv start w -> l1b_number (block_info info) = current_block w ->
  let w' := push_unfinalized block info w in
  if check_reorg w' then broken_link (unfinalized_blocks w')
  else linked (unfinalized_blocks w) -> linked (unfinalized_blocks w').
Proof.
  intros Hw Hn w'. destruct (window_push _ block info _ Hw Hn) as [[Hl Hf]|[Hl _]]; fold w' in Hl.
  - pose proof (check_reorg_snoc _ _ _ Hl) as Hc. destruct (check_reorg w').
    + rewrite Hl. destruct (last (unfinalized_blocks w)) as [a|] eqn:Ha; [|done].
      apply last_Some in Ha as [l' ->]. exists l', a, (l1_block_info block info). rewrite <- app_assoc.
      split; [done|]. by destruct (bool_decide_reflect (bi_parent_hash (l1_block_info block info) = bi_hash a)).
    + intros Hlk. rewrite Hl. apply linked_snoc; [done|]. intros a Ha. rewrite Ha in Hc.
      by destruct (bool_decide_reflect (bi_parent_hash (l1_block_info block info) = bi_hash a)).
  - unfold check_reorg. rewrite Hl. cbn. intros _ i a b Ha. by rewrite lookup_nil in Ha.
Qed.

Lemma watcher_inv_publish start block info w :
  watcher_inv start w -> l1b_number (block_info info) = current_block w -> current_block w <= head_block w ->
  watcher_inv start (publish block info w).
Proof.
  intros Hw Hn Hle. pose proof (window_numbers _ block info _ Hw Hn) as [Hwin Hab].
  pose proof (check_reorg_push _ block info _ Hw Hn) as Hc. pose proof (window_push _ block info _ Hw Hn) as Hp.
  destruct (push_unfinalized_cases block info w) as [Hpr _].
  destruct Hw as [[Hcur Hrange] Hh Hnum Hfin _ _ Hlk Hr]. unfold publish.
  set (w1 := push_unfinalized block info w) in *. cbn zeta in Hc. clearbody w1. unfold progress in Hpr. injection Hpr as Es Ec Eh Ef.
  set (u := if check_reorg w1 then Reorg else NewBlock info).
  assert (Hu : is_block_update u = true) by (unfold u; by destruct (check_reorg w1)).
  assert (Hadd : u64_add (current_block w) 1 = current_block w + 1)
    by (apply u64_add_small; unfold in_u64 in *; lia).
  split; cbn; rewrite ?Es, ?Ec, ?Eh, ?Ef, ?Hadd; rewrite ?block_updates_app, ?finality_numbers_app, ?Hu; try done.
  - rewrite len_app. change (len [u]) with 1. unfold in_u64 in *. lia.
  - intros i info' [Hi|[Hlen Hi]]%lookup_app_Some; [by apply Hnum|].
    apply list_lookup_singleton_Some in Hi as [Hi Hui]. unfold u in Hui.
    destruct (check_reorg w1); [done|]. injection Hui as <-. rewrite Hn, Hcur. unfold len. lia.
  - replace (match u with FinalityUpdate n => [n] | _ => [] end) with (@nil Z)
      by (unfold u; by destruct (check_reorg w1)). by rewrite app_nil_r.
  - intros Hno. rewrite elem_of_app, list_elem_of_singleton in Hno. unfold u in *.
    destruct (check_reorg w1); [by destruct Hno; right|].
    destruct Hlk as [Hlk [pre Hpre]]; [by auto|]. split; [by apply Hc|]. rewrite fmap_app, Hpre.
    destruct Hp as [[-> _]|[-> _]]; [|apply suffix_nil]. exists pre. by rewrite fmap_app, <- app_assoc.
  - rewrite last_snoc. unfold u. destruct (check_reorg w1); [by intros _|done].
Qed.
End invariant.

(** *** The deposits cache *)

Section deposits_cache.
Context {P B : Type} `{BlockProvider P, L1Provider P, Http P, Beacon B, Keccak, Codec}.
Implicit Types w : InnerWatcher P B.

(** The deposits of each L1 block, and a node that tells them: the logs of a range of
    blocks are those of its blocks in order, and they decode. *)
Context (config : Config) (deposits_at : Z -> list UserDeposited).

Record serves_deposits : Prop := {
  serves_block n d : d ∈ deposits_at n -> ud_l1_block_num d = n;
  serves_logs (p : P) from to : exists p' logs,
    get_logs {| f_address := deposit_contract (chain config); f_topic0 := TRANSACTION_DEPOSITED_TOPIC;
                f_from_block := from; f_to_block := to |} p = (Ok logs, p') /\
    map_collect UserDeposited_try_from logs = Ok (mjoin (deposits_at <$> seqZ from (to - from + 1)))
}.

(** The cache holds what the node would tell. *)
Definition cache_ok (m : gmap Z (list UserDeposited)) : Prop := forall n ds, m !! n = Some ds -> ds = deposits_at n.

Lemma map_collect_unwrap (logs : list Log) ds :
  map_collect UserDeposited_try_from logs = Ok ds ->
  map_collect (fun log => unwrap_result (UserDeposited_try_from log)) logs = Ok ds.
Proof.
  rewrite !map_collect_Ok. intros Hl. eapply Forall2_impl; [exact Hl|]. intros log d Hd. cbn beta. by rewrite Hd.
Qed.

(** Of the deposits of a range, those of one of its blocks. *)
Lemma filter_deposits (l : list Z) n :
  (forall n d, d ∈ deposits_at n -> ud_l1_block_num d = n) -> NoDup l -> n ∈ l ->
  filter (fun d => ud_l1_block_num d = n) (mjoin (deposits_at <$> l)) = deposits_at n.
Proof.
  intros Hb Hnd Hn.
  assert (Hall : forall m, filter (fun d => ud_l1_block_num d = n) (deposits_at m) =
    if decide (m = n) then deposits_at n else []).
  { intros m. specialize (Hb m). case_decide as Hm; [subst m|]; induction (deposits_at _) as [|d ds IH]; try done.
    - rewrite filter_cons_True by (apply Hb; left). f_equal. apply IH. intros d' Hd'. apply Hb. by right.
    - rewrite filter_cons_False by (rewrite (Hb d) by left; done). apply IH. intros d' Hd'. apply Hb. by right. }
  assert (Hnone : forall l, n ∉ l -> filter (fun d => ud_l1_block_num d = n) (mjoin (deposits_at <$> l)) = []).
  { intros l' Hl'. induction l' as [|m l' IH]; [done|]. apply not_elem_of_cons in Hl' as [Hm Hl'].
    cbn. rewrite filter_app, Hall, decide_False by congruence. by apply IH. }
  induction Hnd as [|m l Hm Hnd IH]; [by apply not_elem_of_nil in Hn|].
  cbn. rewrite filter_app, Hall. apply elem_of_cons in Hn as [<-|Hn].
  - rewrite decide_True by done. fold (fmap (M := list) deposits_at l).
    change (filter _ (mjoin (list_fmap _ _ deposits_at l))) with
      (filter (fun d => ud_l1_block_num d = n) (mjoin (deposits_at <$> l))). by rewrite Hnone, app_nil_r.
  - rewrite decide_False by (intros ->; done). by apply IH.
Qed.

Lemma lookup_insert_deposits logs l (m : gmap Z (list UserDeposited)) n :
  foldl (insert_deposits logs) m l !! n =
    if decide (n ∈ l) then Some (filter (fun d => ud_l1_block_num d = n) logs) else m !! n.
Proof.
  revert m. induction l as [|k l IH]; intros m; cbn [foldl].
  - by rewrite decide_False by apply not_elem_of_nil.
  - rewrite IH. destruct (decide (n ∈ l)) as [Hn|Hn].
    + by rewrite decide_True by (by right).
    + unfold insert_deposits. destruct (decide (n = k)) as [->|Hk].
      * rewrite decide_True by left. by rewrite lookup_insert_eq.
      * rewrite decide_False by (by rewrite elem_of_cons; intros [?|?]). by rewrite lookup_insert_ne.
Qed.

Lemma get_deposits_eq n w :
  get_deposits n w =
    let w1 := set_deposits (delete n (deposits w)) w in
    match deposits w !! n with
    | Some ds => (Ok ds, w1)
    | None =>
        let '(r, w2) := fetch_deposits n w1 in
        match r with
        | Ok _ => (unwrap (deposits w2 !! n), set_deposits (delete n (deposits w2)) w2)
        | Err e => (Err e, w2)
        | Panic => (Panic, w2)
        | Diverge => (Diverge, w2)
        end
    end.
Proof.
  unfold get_deposits, remove_deposits. run_M. destruct (deposits w !! n); [done|].
  by destruct (fetch_deposits n _) as [[[]| | |] w2].
Qed.

(** The query for the block [n] and those after it. *)
Lemma fetch_deposits_spec n w :
  serves_deposits -> iw_config w = config -> in_u64 (n + 1000) ->
  exists w', fetch_deposits n w = (Ok tt, w') /\ progress w' = progress w /\ iw_config w' = config /\
    forall m, deposits w' !! m =
      if decide (n <= m <= Z.min (head_block w) (n + 1000)) then Some (deposits_at m) else deposits w !! m.
Proof.
  intros [Hb Hlogs] Hc Hn. unfold fetch_deposits. run_M. rewrite u64_add_small by done.
  set (to := Z.min (head_block w) (n + 1000)). unfold deposit_filter. rewrite Hc.
  destruct (Hlogs (provider w) n to) as (p' & logs & El & Em). unfold ask, zoom. rewrite El. cbn beta iota.
  rewrite (map_collect_unwrap _ _ Em). cbn beta iota. eexists. split; [reflexivity|]. split; [done|].
  split; [done|]. intros m. cbn [deposits set_deposits set_provider]. rewrite lookup_insert_deposits.
  destruct (decide (n <= m <= to)) as [Hm|Hm].
  - assert (Hin : m ∈ seqZ n (to - n + 1)) by (apply elem_of_seqZ; lia).
    rewrite decide_True by done. f_equal. apply filter_deposits; [done| |done]. apply NoDup_seqZ.
  - rewrite decide_False by (rewrite elem_of_seqZ; lia). done.
Qed.
End deposits_cache.

(** *** The system configuration *)

Section config_lemmas.
Context {P B : Type} `{BlockProvider P, L1Provider P, Http P, Beacon B, Keccak, Codec}.
Implicit Types w : InnerWatcher P B.

(** The update made in each L1 block, if there is one, and a node that knows them
    all: a query for a range gives logs the first of which is the first update. *)
Context (config : Config) (updates_at : Z -> option SystemConfigUpdate).

Definition first_in (l : list Z) : option (Z * SystemConfigUpdate) :=
  head (omap (fun n => (n,.) <$> updates_at n) l).

Definition serves_updates : Prop := forall (p : P) from to, exists p' logs,
  get_logs {| f_address := system_config_contract (chain config); f_topic0 := CONFIG_UPDATE_TOPIC;
              f_from_block := from; f_to_block := to |} p = (Ok logs, p') /\
  first_update logs = Ok (first_in (seqZ from (to - from + 1))).

(** The configuration after block [n], when [c0] is that of block [start]. *)
Definition config_step (c : SystemConfig) (n : Z) : SystemConfig :=
  match updates_at n with Some u => apply_update c u | None => c end.

Definition config_at (c0 : SystemConfig) (start n : Z) : SystemConfig :=
  foldl config_step c0 (seqZ (start + 1) (n - start)).

Lemma config_at_next c0 start n : start < n -> config_at c0 start n = config_step (config_at c0 start (n - 1)) n.
Proof.
  intros Hn. unfold config_at. replace (n - start) with (n - 1 - start + 1) by lia.
  rewrite seqZ_snoc, foldl_app by lia. cbn [foldl]. f_equal. lia.
Qed.

Lemma config_at_start c0 start n : n <= start -> config_at c0 start n = c0.
Proof. intros Hn. unfold config_at. by rewrite seqZ_nil by lia. Qed.

Lemma first_in_None l : first_in l = None <-> forall m, m ∈ l -> updates_at m = None.
Proof.
  unfold first_in. induction l as [|n l IH]; [split; [intros _ m Hm; by apply not_elem_of_nil in Hm|done]|].
  cbn. destruct (updates_at n) as [u|] eqn:En; cbn.
  - split; [done|]. intros Hm. rewrite Hm in En by left. done.
  - rewrite IH. split; intros Hl m Hm; [apply elem_of_cons in Hm as [->|Hm]; auto|]. apply Hl. by right.
Qed.

Lemma first_in_Some a n k u :
  first_in (seqZ a n) = Some (k, u) ->
  a <= k < a + n /\ updates_at k = Some u /\ forall m, a <= m < k -> updates_at m = None.
Proof.
  revert a. assert (Hp : forall x a, first_in (seqZ a (Z.of_nat x)) = Some (k, u) ->
    a <= k < a + Z.of_nat x /\ updates_at k = Some u /\ forall m, a <= m < k -> updates_at m = None).
  { induction x as [|x IH]; intros a E; [done|]. rewrite seqZ_cons in E by lia. unfold first_in in E. cbn in E.
    destruct (updates_at a) as [v|] eqn:Ea; cbn in E.
    - injection E as -> ->. split; [lia|]. split; [done|]. intros; lia.
    - replace (Z.pred (Z.of_nat (S x))) with (Z.of_nat x) in E by lia. apply IH in E as (? & ? & Hm).
      split; [lia|]. split; [done|]. intros m ?. destruct (decide (m = a)) as [->|]; [done|]. apply Hm. lia. }
  intros a E. destruct (Z.leb_spec 0 n); [|by rewrite seqZ_nil in E by lia].
  specialize (Hp (Z.to_nat n) a). rewrite Z2Nat.id in Hp by lia. by apply Hp.
Qed.

(** The state before block [current_block w] is read: the update known next is at
    [b]. *)
Record config_inv (c0 : SystemConfig) (start : Z) w : Prop := {
  config_inv_config : iw_config w = config;
  config_inv_now : iw_system_config w = config_at c0 start (current_block w - 1);
  config_inv_last : let b := (system_config_update w).1 in
    start <= current_block w /\ start <= b /\ current_block w - 1 <= b /\
    forall m, start < m -> current_block w <= m < b -> updates_at m = None;
  config_inv_next : let '(b, next) := system_config_update w in
    current_block w <= b ->
    match next with
    | Some c => start < current_block w /\
        exists u, updates_at b = Some u /\ c = apply_update (iw_system_config w) u
    | None => start < b -> updates_at b = None
    end
}.

Lemma seqZ_None a n : first_in (seqZ a n) = None -> forall m, a <= m < a + n -> updates_at m = None.
Proof. rewrite first_in_None. intros Hl m Hm. apply Hl, elem_of_seqZ. lia. Qed.

Lemma query_system_config_spec c0 start w :
  serves_updates -> config_inv c0 start w -> in_u64 (current_block w) -> in_u64 (current_block w + 1000) ->
  (system_config_update w).1 < current_block w ->
  exists w', query_system_config w = (Ok tt, w') /\ current_block w' = current_block w /\
    config_inv c0 start w' /\ current_block w' <= (system_config_update w').1.
Proof.
  intros Hserve [Hc Hnow (Hsn & Hsb & Hl & _) _] Hn Hn' Hlast.
  assert (Hb : (system_config_update w).1 = current_block w - 1) by lia.
  unfold query_system_config. run_M. unfold config_update_filter. rewrite Hb, Hc.
  rewrite !u64_add_small by (unfold in_u64 in *; lia). unfold ask, zoom.
  set (n := current_block w) in *. replace (n - 1 + 1) with n by lia.
  destruct (Hserve (provider w) n (n - 1 + 1000)) as (p' & logs & -> & ->). cbn beta iota.
  replace (n - 1 + 1000 - n + 1) with 1000 by lia.
  destruct (first_in (seqZ n 1000)) as [[k u]|] eqn:Ef; eexists; (split; [reflexivity|]); (split; [reflexivity|]).
  - apply first_in_Some in Ef as (Hk & Hu & Hgap). split; [|cbn; fold n; lia].
    split; cbn; fold n; [done|done| |].
    + split_and!; [lia..|]. intros m _ Hm. apply Hgap. lia.
    + intros _. split; [lia|]. by exists u.
  - pose proof (seqZ_None _ _ Ef) as Hgap. split; [|cbn; fold n; lia].
    split; cbn; fold n; [done|done| |].
    + split_and!; [lia..|]. intros m _ Hm. apply Hgap. lia.
    + intros _ _. apply Hgap. lia.
Qed.

Lemma update_system_config_eq w :
  update_system_config w =
    let '(r, w1) := if (system_config_update w).1 <? current_block w then query_system_config w else (Ok tt, w) in
    match r with
    | Ok _ => (Ok tt, activate_system_config w1)
    | Err e => (Err e, w1)
    | Panic => (Panic, w1)
    | Diverge => (Diverge, w1)
    end.
Proof.
  unfold update_system_config, mbind, M_bind, gets, modify. cbn beta iota.
  destruct (_ <? _); [|done]. by destruct (query_system_config w) as [[[]| | |] w1].
Qed.

(** Reading one block. *)
Lemma update_system_config_spec c0 start w :
  serves_updates -> config_inv c0 start w -> in_u64 (current_block w) -> in_u64 (current_block w + 1000) ->
  exists w', update_system_config w = (Ok tt, w') /\ current_block w' = current_block w /\
    iw_system_config w' = config_at c0 start (current_block w) /\
    config_inv c0 start (set_current_block (current_block w + 1) w').
Proof.
  intros Hserve Hw Hn Hn'.
  assert (Hq : exists w1, (if (system_config_update w).1 <? current_block w then query_system_config w else (Ok tt, w)) =
    (Ok tt, w1) /\ current_block w1 = current_block w /\ config_inv c0 start w1 /\
    current_block w1 <= (system_config_update w1).1).
  { destruct (Z.ltb_spec (system_config_update w).1 (current_block w)); [by apply query_system_config_spec|].
    exists w. by split_and!. }
  destruct Hq as (w1 & Eq & Hcur & [Hc Hnow (Hsn & Hsb & Hl & Hgap) Hnext] & Hb).
  rewrite update_system_config_eq, Eq. cbn beta iota. eexists. split; [reflexivity|].
  unfold activate_system_config. destruct (system_config_update w1) as [b next] eqn:Eu. cbn in Hsb, Hl, Hgap, Hb.
  specialize (Hnext Hb). rewrite <- Hcur.
  assert (Hat : start < current_block w1 -> config_at c0 start (current_block w1) =
    config_step (iw_system_config w1) (current_block w1)) by (intros; by rewrite config_at_next, Hnow).
  assert (Hsame : (start < current_block w1 -> updates_at (current_block w1) = None) ->
    iw_system_config w1 = config_at c0 start (current_block w1)).
  { intros Hnone. destruct (decide (start < current_block w1)) as [Hs|Hs].
    - rewrite Hat by done. unfold config_step. by rewrite Hnone.
    - rewrite Hnow, !config_at_start by lia. done. }
  destruct (Z.eqb_spec b (current_block w1)) as [->|Hne].
  - assert (Hres : iw_system_config (match next with Some c => set_system_config c w1 | None => w1 end) =
      config_at c0 start (current_block w1)).
    { destruct next as [c|]; [|by apply Hsame]. destruct Hnext as (Hs & u & Hu & ->). cbn. rewrite Hat by done.
      unfold config_step. by rewrite Hu. }
    set (w2 := match next with Some c => set_system_config c w1 | None => w1 end) in *.
    assert (Hw2 : current_block w2 = current_block w1 /\ iw_config w2 = iw_config w1 /\
      system_config_update w2 = system_config_update w1) by (unfold w2; by destruct next).
    destruct Hw2 as (K1 & K2 & K3). clearbody w2. split; [done|]. split; [done|].
    split; cbn; rewrite ?K1, ?K2, ?K3, ?Eu; cbn; [done| | |].
    + rewrite Hres. f_equal. lia.
    + split_and!; [lia..|]. intros; lia.
    + intros; lia.
  - assert (Hnone : start < current_block w1 -> updates_at (current_block w1) = None)
      by (intros; apply Hgap; lia). specialize (Hsame Hnone). split; [done|]. split; [done|].
    split; cbn; rewrite ?Eu; cbn; [done| | |].
    + rewrite Hsame. f_equal. lia.
    + split_and!; [lia..|]. intros m Hm Hm'. apply Hgap; lia.
    + intros _. destruct next as [c|]; [|done]. destruct Hnext as (? & u & ? & ?). split; [lia|]. by exists u.
Qed.

(** Reading the blocks one after another. *)
Fixpoint follow_config (k : nat) : M (InnerWatcher P B) unit :=
  match k with
  | O => mret tt
  | S k =>
      update_system_config ;;
      modify (fun w => set_current_block (u64_add (current_block w) 1) w) ;;
      follow_config k
  end.

Lemma follow_config_spec c0 start k w :
  serves_updates -> config_inv c0 start w -> in_u64 (current_block w) -> in_u64 (current_block w + Z.of_nat k + 1000) ->
  exists w', follow_config k w = (Ok tt, w') /\ current_block w' = current_block w + Z.of_nat k /\
    config_inv c0 start w'.
Proof.
  intros Hserve. revert w. induction k as [|k IH]; intros w Hw Hn Hn'.
  - exists w. split_and!; [done|lia|done].
  - destruct (update_system_config_spec c0 start w Hserve Hw Hn) as (w1 & E & Hc & _ & Hw1);
      [unfold in_u64 in *; lia|].
    assert (Hadd : u64_add (current_block w1) 1 = current_block w + 1)
      by (rewrite Hc; apply u64_add_small; unfold in_u64 in *; lia).
    destruct (IH _ Hw1) as (w' & E' & Hc' & Hw'); cbn [current_block set_current_block] in *;
      [unfold in_u64 in *; lia..|].
    exists w'. split_and!; [|lia|done]. cbn [follow_config]. run_M. rewrite E. cbn beta iota. by rewrite Hadd.
Qed.
End config_lemmas.

(** ** Properties *)

Section properties.
Context {P B : Type} `{BlockProvider P, L1Provider P, Http P, Beacon B, Keccak, Codec}.
Implicit Types w : InnerWatcher P B.

Definition watch_step w w' : Prop := exists r, try_ingest_block w = (r, w').

Lemma watch_step_inv start w w' :
  l1_replies (P := P) -> watcher_inv start w -> watch_step w w' -> watcher_inv start w'.
Proof.
  intros Hl Hw [r E]. unfold try_ingest_block in E.
  assert (Hfin : forall r w1, poll_finalized w = (r, w1) -> watcher_inv start w1).
  { intros r1 w1 E1. apply poll_finalized_cases in E1 as [Hp|(n & _ & Hn & Hp)].
    - by eapply watcher_inv_progress.
    - eapply watcher_inv_progress; [exact Hp|]. by apply watcher_inv_finalize. }
  apply M_bind_cases in E as [([] & w1 & E1 & E)|(r0 & E1 & _)]; [|by eapply Hfin]. apply Hfin in E1. clear Hfin Hw.
  assert (Hhead : forall r w2, poll_head w1 = (r, w2) -> watcher_inv start w2).
  { intros r1 w2 E2. apply poll_head_cases in E2 as [Hp|(n & Hn & Hp)].
    - by eapply watcher_inv_progress.
    - eapply watcher_inv_progress; [exact Hp|]. apply watcher_inv_head; [|done]. apply Hl in Hn; lia. }
  apply M_bind_cases in E as [([] & w2 & E2 & E)|(r0 & E2 & _)]; [|by eapply Hhead]. apply Hhead in E2. clear Hhead E1.
  run_M in E. destruct (Z.leb_spec (current_block w2) (head_block w2)); [|by injection E as _ <-].
  apply ingest_current_cases in E as [[_ Hp]|(_ & p & block & p' & ds & txs & info & w3 & Eb & Hp & Hi & ->)].
  - by eapply watcher_inv_progress.
  - assert (Hc : current_block w3 = current_block w2 /\ head_block w3 = head_block w2)
      by (unfold progress in Hp; split; congruence). destruct Hc as [Hc Hh].
    apply watcher_inv_publish; [by eapply watcher_inv_progress| |by rewrite Hc, Hh].
    apply ingest_info_Ok in Hi as (_ & _ & _ & _ & Hnum). apply Hl in Eb. rewrite Hc. congruence.
Qed.

Lemma watcher_inv_new client config start l2 (w : InnerWatcher P B) :
  in_u64 start -> InnerWatcher_new client config [] start l2 = Ok w -> watcher_inv start w.
Proof.
  intros Hs E. unfold InnerWatcher_new in E. apply bind_Ok in E as (p & _ & E). apply bind_Ok in E as (c & _ & E).
  injection E as <-. split; cbn.
  - change (len []) with 0. by rewrite Z.add_0_r.
  - done.
  - intros i info Hi. by rewrite lookup_nil in Hi.
  - split; [|done]. repeat constructor.
  - done.
  - constructor.
  - intros _. split; [|apply suffix_nil]. intros i a b Ha. by rewrite lookup_nil in Ha.
  - done.
Qed.

(** C21. The watcher reads L1 in order and notices reorgs.  After any number of turns,
    whatever requests failed on the way, one update was sent for each block from the
    start block on, and the next turn is for the block after them: the [i]-th update
    is that of block [start + i], or says reorg; the finality updates increase, and
    the last one is the finalized block.  As long as no reorg was announced, the
    blocks not yet finalized, which are the last ones that were sent, each name the
    one before as their parent; and when the last message announces a reorg, the
    last two of them do not. *)
Theorem watcher_reachable client config start l2 (w0 w : InnerWatcher P B) :
  l1_replies (P := P) -> in_u64 start -> InnerWatcher_new client config [] start l2 = Ok w0 ->
  rtc watch_step w0 w ->
  let updates := block_updates (block_update_sender w) in
  current_block w = start + len updates /\
  (forall i info, updates !! i = Some (NewBlock info) -> l1b_number (block_info info) = start + Z.of_nat i) /\
  StronglySorted Z.lt (0 :: finality_numbers (block_update_sender w)) /\
  last (0 :: finality_numbers (block_update_sender w)) = Some (finalized_block w) /\
  (Reorg ∉ block_update_sender w ->
     linked (unfinalized_blocks w) /\
     ((fun b => Some (bi_hash b)) <$> unfinalized_blocks w) `suffix_of` (update_hash <$> updates)) /\
  (last (block_update_sender w) = Some Reorg -> broken_link (unfinalized_blocks w)).
Proof.
  intros Hl Hs Hnew Hsteps updates. assert (Hw : watcher_inv start w).
  { apply watcher_inv_new in Hnew; [|done]. induction Hsteps as [|x y z Hxy _ IH]; [done|].
    apply IH. by eapply watch_step_inv. }
  destruct Hw as [[Hc _] _ Hn [Hf1 Hf2] _ _ Hlk Hr]. by split_and!.
Qed.

(** C24. What the batcher posted in a block.  Without blobs of the batcher, the result is
    the calldata of its transactions to the inbox, in the order of the block; with
    blobs, a result is that calldata followed by the decoded sidecars of the block's
    slot at the blobs' positions in the block.  So blob data comes after all the
    calldata of the block, also where its transaction comes first. *)
Theorem get_batcher_transactions_spec block w :
  blobs_by_type (blk_transactions block) ->
  let calldata := batcher_calldata w (blk_transactions block) in
  let blobs := batcher_blobs w 0 (blk_transactions block) in
  (blobs = [] -> get_batcher_transactions block w = (Ok calldata, w)) /\
  (forall data w', blobs <> [] -> get_batcher_transactions block w = (Ok data, w') ->
     exists slot f sidecars f' decoded,
       get_slot_from_time (blk_timestamp block) (blob_fetcher w) = (Ok slot, f) /\
       fetch_blob_sidecars slot f = (Ok sidecars, f') /\
       data = calldata ++ decoded /\
       Forall2 (fun i d => exists sidecar, sidecar ∈ sidecars /\ sc_index sidecar = i /\
         decode_blob_data (sc_blob sidecar) = Ok d) blobs decoded).
Proof.
  intros Ht calldata blobs. unfold get_batcher_transactions.
  destruct (scan_transactions w (blk_transactions block) [] [] 0 Ht) as [next ->]. cbn [app].
  fold calldata blobs. destruct blobs as [|b bs]; [by split|]. split; [done|]. intros data w' _ E.
  unfold add_blob_data in E. apply M_bind_cases in E as [(t & w1 & E1 & E)|(? & _ & _ & Hr)]; [|by destruct (Hr data)].
  injection E1 as Et <-. apply as_u64_Ok in Et as [-> _].
  apply M_bind_cases in E as [(slot & w2 & E2 & E)|(? & _ & _ & Hr)]; [|by destruct (Hr data)].
  apply M_bind_cases in E as [(sidecars & w3 & E3 & E)|(? & _ & _ & Hr)]; [|by destruct (Hr data)].
  apply M_bind_cases in E as [(decoded & w4 & E4 & E)|(? & _ & _ & Hr)]; [|by destruct (Hr data)].
  injection E as <- _. assert (E4' : map_collect (decode_indexed_blob sidecars) (b :: bs) = Ok decoded)
    by (unfold lift in E4; congruence). apply map_collect_Ok in E4'.
  unfold zoom in E2. destruct (get_slot_from_time _ _) as [rs f] eqn:Es. injection E2 as -> <-.
  unfold zoom in E3. cbn [blob_fetcher set_blob_fetcher] in E3.
  destruct (fetch_blob_sidecars slot f) as [rb f'] eqn:Eb. injection E3 as -> _.
  exists slot, f, sidecars, f', decoded. split_and!; [done..|]. eapply Forall2_impl; [exact E4'|].
  intros i d. unfold decode_indexed_blob. destruct (find _ sidecars) as [sc|] eqn:Ef; [|done]. intros Hd.
  apply find_some in Ef as [Hin Hi]. exists sc. split_and!; [by apply list_elem_of_In|lia|done].
Qed.

(** C23. The deposits of a block.  With a node that tells the deposits of each block,
    reading the deposits of a block up to the head gives just these, from the cache
    or from the node; the entry is consumed and the cache stays right; and after a
    miss the next 1000 blocks are served without another query. *)
Theorem get_deposits_spec config deposits_at n w :
  serves_deposits (P := P) config deposits_at -> iw_config w = config -> cache_ok deposits_at (deposits w) ->
  n <= head_block w -> in_u64 (n + 1000) ->
  exists w', get_deposits n w = (Ok (deposits_at n), w') /\ iw_config w' = config /\
    cache_ok deposits_at (deposits w') /\ deposits w' !! n = None /\
    (is_Some (deposits w !! n) -> provider w' = provider w) /\
    (deposits w !! n = None -> forall m, n < m <= Z.min (head_block w) (n + 1000) ->
       deposits w' !! m = Some (deposits_at m)).
Proof.
  intros Hs Hc Hok Hn Hr. rewrite get_deposits_eq. destruct (deposits w !! n) as [ds|] eqn:Hd.
  - rewrite (Hok _ _ Hd). eexists. split; [reflexivity|]. split_and!; try done.
    + intros m ds' Hm. cbn in Hm. apply lookup_delete_Some in Hm as [_ Hm]. by apply Hok.
    + apply lookup_delete_eq.
  - cbn zeta. set (w1 := set_deposits _ w).
    destruct (fetch_deposits_spec config deposits_at n w1 Hs Hc Hr) as (w2 & E & Hp & Hc2 & Hl).
    rewrite E. cbn beta iota. change (head_block w1) with (head_block w) in Hl. rewrite (Hl n), decide_True by lia. cbn [unwrap lift].
    eexists. split; [reflexivity|]. split_and!; [done| |apply lookup_delete_eq|by intros [? ?]|].
    + intros m ds E2. cbn in E2. apply lookup_delete_Some in E2 as [Hm E2]. rewrite Hl in E2. case_decide; [by injection E2 as <-|].
      change (delete n (deposits w) !! m = Some ds) in E2.
      apply lookup_delete_Some in E2 as [_ E2]. by apply Hok.
    + intros _ m Hm. cbn [deposits set_deposits]. rewrite lookup_delete_ne by lia. by rewrite Hl, decide_True by lia.
Qed.

Lemma config_inv_new config updates_at client start l2 (w : InnerWatcher P B) :
  InnerWatcher_new client config [] start l2 = Ok w ->
  config_inv config updates_at (iw_system_config w) start w /\ current_block w = start.
Proof.
  intros E. unfold InnerWatcher_new in E. apply bind_Ok in E as (p & _ & E). apply bind_Ok in E as (c & _ & E).
  injection E as <-. split; [|done]. split; cbn; [done| | |].
  - by rewrite config_at_start by lia.
  - split_and!; [lia..|]. intros; lia.
  - intros; lia.
Qed.

(** C22. The watcher follows the system configuration.  On a node that already has the
    logs of every range the watcher asks for, where every configuration event
    decodes and a block has at most one: after reading the [k + 1] blocks from the
    start block on, the watcher holds the configuration it started with, changed by
    the updates of the blocks after the start block in order. *)
Theorem system_config_tracks config updates_at client start l2 k (w0 : InnerWatcher P B) :
  serves_updates (P := P) config updates_at -> InnerWatcher_new client config [] start l2 = Ok w0 ->
  0 <= start -> in_u64 (start + Z.of_nat k + 1001) ->
  exists w, follow_config (S k) w0 = (Ok tt, w) /\ current_block w = start + Z.of_nat k + 1 /\
    iw_system_config w = config_at updates_at (iw_system_config w0) start (start + Z.of_nat k).
Proof.
  intros Hs Hnew H0s Hr. destruct (config_inv_new _ updates_at _ _ _ _ Hnew) as [Hw Hc].
  destruct (follow_config_spec _ _ _ _ (S k) _ Hs Hw) as (w & E & Hcur & Hinv);
    [rewrite Hc; unfold in_u64 in *; lia..|].
  exists w. split; [done|]. split; [lia|]. rewrite (config_inv_now _ _ _ _ _ Hinv). f_equal. lia.
Qed.

(** Configuration updates are missed near the head.  When a query for the 1000
    blocks after [last] finds nothing, which for blocks that do not exist yet says
    nothing, the watcher never asks again for any of them: whatever is logged there
    later, reading any block up to [last + 1000] leaves the watcher as it is. *)
Theorem config_updates_missed last next w p' :
  system_config_update w = (last, next) -> last < current_block w -> in_u64 (last + 1000) -> 0 <= last ->
  get_logs (config_update_filter w) (provider w) = (Ok [], p') ->
  exists w', update_system_config w = (Ok tt, w') /\ iw_system_config w' = iw_system_config w /\
    forall n, current_block w <= n <= last + 1000 ->
      update_system_config (set_current_block n w') = (Ok tt, set_current_block n w').
Proof.
  intros Hu Hlast Hr Hpos Hlogs. rewrite update_system_config_eq, Hu. cbn [fst].
  rewrite (proj2 (Z.ltb_lt _ _)) by done. unfold query_system_config. run_M. unfold ask, zoom. rewrite Hlogs.
  cbn [first_update]. cbn beta iota.
  assert (Ht : f_to_block (config_update_filter w) = last + 1000)
    by (unfold config_update_filter; rewrite Hu; by apply u64_add_small).
  rewrite Ht. eexists. split; [reflexivity|].
  set (w1 := set_system_config_update _ _).
  assert (Hw1 : forall n, activate_system_config (set_current_block n w1) = set_current_block n w1)
    by (intros n; unfold activate_system_config; cbn; by destruct (_ =? _)).
  assert (Ha : activate_system_config w1 = w1) by exact (Hw1 (current_block w)). rewrite Ha. split; [done|].
  intros n Hn. rewrite update_system_config_eq. cbn. rewrite (proj2 (Z.ltb_ge _ _)) by lia. by rewrite Hw1.
Qed.

(** The configuration at startup.  When the watcher starts after L2 genesis and the
    parent block begins with the L1 attributes transaction that the derivation makes
    ([setL1BlockValues]), the watcher starts with the batcher and the fees of that
    transaction and the gas limit of the block. *)
Theorem InnerWatcher_new_config client config l1_start l2_start block a b (p1 p2 p3 : P) :
  l2_start <> bi_number (l2_genesis (chain config)) ->
  http_provider (l1_rpc_url config) = Some p1 -> http_provider (l2_rpc_url config) = Some p2 ->
  get_block_with_txs (u64_sub l2_start 1) p2 = (Ok (Some block), p3) ->
  tx_input <$> head (blk_transactions block) = Some (dt_data (DepositedTransaction_from_attributes a)) ->
  len (ad_hash a) = 32 -> ad_batcher_hash a = replicate 12 0 ++ b -> len b = 20 ->
  in_u256 (ad_fee_overhead a) -> in_u256 (ad_fee_scalar a) ->
  exists w, InnerWatcher_new client config [] l1_start l2_start = Ok w /\
    iw_system_config w =
      {| batch_sender := b; gas_limit := blk_gas_limit block; l1_fee_overhead := ad_fee_overhead a;
         l1_fee_scalar := ad_fee_scalar a;
         unsafe_block_signer := unsafe_block_signer (system_config (chain config)) |} /\
    current_block w = l1_start /\ block_update_sender w = [] /\ blob_fetcher w = BlobFetcher_new client (l1_beacon_url config).
Proof.
  intros Hg Hp1 Hp2 Hb Htx Hh Hbh Hlb Ho Hsc. unfold InnerWatcher_new, generate_http_provider.
  rewrite Hp1, (proj2 (Z.eqb_neq _ _)) by done. cbn [unwrap]. rewrite bind_ret, Hp2. cbn [unwrap].
  rewrite bind_ret, Hb. cbn [fst unwrap_result]. rewrite bind_ret. cbn [unwrap]. rewrite bind_ret.
  assert (Hr : read_system_config config block = Ok
    {| batch_sender := b; gas_limit := blk_gas_limit block; l1_fee_overhead := ad_fee_overhead a;
       l1_fee_scalar := ad_fee_scalar a; unsafe_block_signer := unsafe_block_signer (system_config (chain config)) |}).
  { unfold read_system_config. destruct (head (blk_transactions block)) as [tx|]; [|done]. injection Htx as Htx.
    cbn [unwrap]. rewrite bind_ret, Htx. change (dt_data _) with (AttributesDeposited_encode a).
    assert (Hlbh : len (ad_batcher_hash a) = 32) by (by rewrite Hbh, len_app, Hlb).
    rewrite abi_encode_attributes by done. rewrite Hbh.
    set (pre := [0x01; 0x5d; 0x8e; 0xb9] ++ to_be 32 (ad_number a) ++ to_be 32 (ad_timestamp a) ++
      to_be 32 (ad_base_fee a) ++ ad_hash a ++ to_be 32 (ad_sequence_number a) ++ replicate 12 0).
    assert (Hpre : len pre = 176) by (unfold pre; rewrite !len_app, !len_to_be, Hh; by vm_compute).
    set (o := to_be 32 (ad_fee_overhead a)). set (s := to_be 32 (ad_fee_scalar a)).
    assert (Hlo : len o = 32) by apply len_to_be. assert (Hls : len s = 32) by apply len_to_be.
    replace ([0x01; 0x5d; 0x8e; 0xb9] ++ _) with (pre ++ b ++ o ++ s ++ []) by
      (unfold pre; rewrite app_nil_r, <- !app_assoc; reflexivity).
    rewrite (slice_app_exact pre b _ 176 196) by (rewrite ?Hpre, ?Hlb; done). rewrite bind_ret.
    assert (Hpb : len (pre ++ b) = 196) by (rewrite len_app; lia).
    assert (Hpbo : len ((pre ++ b) ++ o) = 228) by (rewrite len_app; lia).
    rewrite (app_assoc pre b), (slice_app_exact (pre ++ b) o _ 196 228) by (rewrite ?Hpb, ?Hlo; done). rewrite fmap_ret, bind_ret.
    rewrite (app_assoc (pre ++ b) o), (slice_app_exact ((pre ++ b) ++ o) s _ 228 260) by (rewrite ?Hpbo, ?Hls; done). rewrite fmap_ret, bind_ret.
    unfold o, s. by rewrite !from_be_to_be_u256. }
  rewrite Hr, bind_ret. by eexists.
Qed.
End properties.

(** ** Witnesses

    An L1 node without a state: blocks up to 12, of which 10 are finalized, with a
    deposit in block 11 and a gas limit update in block 15, which a query for logs
    already finds. *)

Definition example_watch_config : Config :=
  {| l1_rpc_url := "http://l1"; l1_beacon_url := "http://beacon"; l2_rpc_url := "http://l2"; l2_engine_url := "";
     chain := base; jwt_secret := ""; checkpoint_sync_url := None; rpc_port := 9545; rpc_addr := "127.0.0.1";
     devnet := false |}.

Definition example_batcher_tx (data : bytes) (ty : Z) (hashes : list bytes) : Transaction :=
  {| tx_input := data; tx_from := batch_sender (system_config base); tx_to := Some (batch_inbox base);
     tx_type := Some ty; tx_hash := []; tx_rlp := []; tx_blob_hashes := hashes |}.

Definition example_l1_block (n : Z) (txs : list Transaction) : Block :=
  {| blk_number := Some n; blk_hash := Some (to_be 32 n); blk_parent_hash := to_be 32 (n - 1);
     blk_timestamp := 1606824023 + 12 * n; blk_transactions := txs; blk_mix_hash := Some (to_be 32 5);
     blk_author := None; blk_gas_limit := 30000000; blk_gas_used := 0; blk_base_fee_per_gas := Some 50;
     blk_parent_beacon_block_root := None; blk_state_root := []; blk_receipts_root := []; blk_logs_bloom := Some [];
     blk_extra_data := []; blk_blob_gas_used := None; blk_excess_blob_gas := None |}.

Definition example_watch_deposit : UserDeposited :=
  {| ud_from := to_be 20 1; ud_to := to_be 20 2; ud_mint := 5; ud_value := 6; ud_gas := 21000;
     ud_is_creation := false; ud_data := [1; 2; 3]; ud_l1_block_num := 11;
     ud_l1_block_hash := to_be 32 11; ud_log_index := 4 |}.

Definition example_deposits_at (n : Z) : list UserDeposited := if n =? 11 then [example_watch_deposit] else [].

Definition example_updates_at (n : Z) : option SystemConfigUpdate := if n =? 15 then Some (Gas 60000000) else None.

Definition example_deposit_log (u : UserDeposited) : Log :=
  deposit_log (to_be 32 0) (to_be 32 0)
    (to_be 32 32 ++ to_be 32 (len (opaque_data u)) ++ opaque_data u) u.

Definition example_update_log (n : Z) (u : SystemConfigUpdate) : Log :=
  let log := update_log (to_be 32 0) u in
  {| log_topics := log_topics log; log_data := log_data log; log_block_number := Some n;
     log_block_hash := None; log_log_index := None |}.

Definition example_logs (f : Filter) : list Log :=
  let blocks := seqZ (f_from_block f) (f_to_block f - f_from_block f + 1) in
  if bool_decide (f_address f = deposit_contract base)
  then mjoin ((fun n => example_deposit_log <$> example_deposits_at n) <$> blocks)
  else omap (fun n => example_update_log n <$> example_updates_at n) blocks.

#[local] Instance example_l1 : L1Provider unit := {
  get_block := fun tag _ => (Ok (Some (example_l1_block (match tag with Finalized => 10 | Latest => 12 end) [])), tt);
  get_logs := fun f _ => (Ok (example_logs f), tt)
}.

#[local] Instance example_l1_blocks : BlockProvider unit := {
  get_block_with_txs := fun n _ => (Ok (Some (example_l1_block n [example_batcher_tx [n] 2 []])), tt)
}.

#[local] Instance example_http : Http unit := { http_provider := fun _ => Some tt }.

#[local] Existing Instances example_keccak example_codec example_beacon.

Definition example_watcher (start : Z) : InnerWatcher unit (list (outcome Value)) :=
  {| iw_config := example_watch_config; provider := tt; blob_fetcher := BlobFetcher_new [] "http://beacon";
     block_update_sender := []; current_block := start; head_block := 0; finalized_block := 0;
     unfinalized_blocks := []; deposits := ∅; iw_system_config := system_config base;
     system_config_update := (start, None) |}.

Lemma example_watcher_new start :
  InnerWatcher_new (P := unit) [] example_watch_config [] start (bi_number (l2_genesis base)) = Ok (example_watcher start).
Proof. reflexivity. Qed.

Lemma example_l1_replies : l1_replies (P := unit).
Proof.
  split.
  - by intros n [] block [] [= <-].
  - intros n (tag & [] & block & [] & E & Hn). destruct tag; injection E as <-; injection Hn as <-; lia.
Qed.

Definition example_turns (n : nat) : InnerWatcher unit (list (outcome Value)) :=
  Nat.iter n (fun w => (try_ingest_block w).2) (example_watcher 9).

Lemma example_turns_steps n : rtc watch_step (example_watcher 9) (example_turns n).
Proof.
  induction n as [|n IH]; [done|]. eapply rtc_r; [exact IH|].
  exists (try_ingest_block (example_turns n)).1. apply surjective_pairing.
Qed.

Definition is_Reorg (u : BlockUpdate) : bool := match u with Reorg => true | _ => false end.

Lemma no_reorg q : existsb is_Reorg q = false -> Reorg ∉ q.
Proof.
  intros Hb Hin. apply list_elem_of_In in Hin. rewrite <- not_true_iff_false, existsb_exists in Hb.
  apply Hb. by exists Reorg.
Qed.

(** Four turns read the blocks 9 to 12; the fifth waits. *)
Lemma watcher_reachable_witness :
  let w := example_turns 5 in
  current_block w = 9 + 4 /\ length (unfinalized_blocks w) = 3%nat /\ linked (unfinalized_blocks w).
Proof.
  intros w. destruct (watcher_reachable [] example_watch_config 9 (bi_number (l2_genesis base)) _ w
    example_l1_replies ltac:(by_compute) (example_watcher_new 9) (example_turns_steps 5))
    as (Hc & _ & _ & _ & Hl & _).
  assert (Hq : length (block_updates (block_update_sender w)) = 4%nat) by (by vm_compute).
  assert (Hr : Reorg ∉ block_update_sender w) by (apply no_reorg; by vm_compute).
  split; [|split; [by vm_compute|apply (Hl Hr)]]. rewrite Hc. unfold len. rewrite Hq. reflexivity.
Defined.

(** A block with a blob of the batcher, before its calldata, behind a blob of another
    sender; and the node's sidecars for it. *)
Definition example_zeros (n : nat) : string := String.concat "" (replicate n "0").

Definition example_sidecar (i blob : string) : Value := VObject [("index", VString i); ("blob", VString blob)].

Definition example_sidecars : Value :=
  VObject [("data", VArray [example_sidecar "1" ("0x0000000003070809" +:+ example_zeros 240);
                            example_sidecar "0" "0x"])].

Definition example_blob_block : Block :=
  example_l1_block 12
    [{| tx_input := []; tx_from := to_be 20 1; tx_to := Some (to_be 20 2); tx_type := Some 3; tx_hash := [];
        tx_rlp := []; tx_blob_hashes := [[6]] |};
     example_batcher_tx [1] 3 [[7]]; example_batcher_tx [2; 3] 2 []].

Definition example_blob_watcher : InnerWatcher unit (list (outcome Value)) :=
  set_blob_fetcher (BlobFetcher_new [Ok example_genesis; Ok example_spec; Ok example_sidecars] "http://beacon")
    (example_watcher 12).

Lemma get_batcher_transactions_spec_witness :
  exists data w', get_batcher_transactions example_blob_block example_blob_watcher = (Ok data, w') /\
    data = [[2; 3]; [7; 8; 9]] /\ length data = 2%nat.
Proof.
  assert (Ht : blobs_by_type (blk_transactions example_blob_block)) by (repeat constructor; done).
  assert (Hb : batcher_blobs example_blob_watcher 0 (blk_transactions example_blob_block) = [1]) by (by vm_compute).
  assert (Hd : (get_batcher_transactions example_blob_block example_blob_watcher).1 = Ok [[2; 3]; [7; 8; 9]])
    by (by vm_compute).
  destruct (get_batcher_transactions example_blob_block example_blob_watcher) as [r w'] eqn:E. cbn in Hd. subst r.
  exists [[2; 3]; [7; 8; 9]], w'. split; [reflexivity|]. split; [reflexivity|].
  destruct (proj2 (get_batcher_transactions_spec example_blob_block example_blob_watcher Ht) _ _
    ltac:(by rewrite Hb) E) as (slot & f & sidecars & f' & decoded & _ & _ & Hdata & Hall).
  rewrite Hb in Hall. apply Forall2_length in Hall. rewrite Hdata, length_app, <- Hall. by vm_compute.
Defined.

Lemma map_collect_app {A A'} (f : A -> outcome A') l1 l2 r1 r2 :
  map_collect f l1 = Ok r1 -> map_collect f l2 = Ok r2 -> map_collect f (l1 ++ l2) = Ok (r1 ++ r2).
Proof. rewrite !map_collect_Ok. apply Forall2_app. Qed.

Lemma example_serves_deposits : serves_deposits (P := unit) example_watch_config example_deposits_at.
Proof.
  split.
  - intros n d. unfold example_deposits_at. destruct (Z.eqb_spec n 11) as [->|]; [|intros Hd; by apply not_elem_of_nil in Hd].
    by intros ->%list_elem_of_singleton.
  - intros [] from to. eexists tt, _. split; [reflexivity|]. unfold example_logs. cbn [f_address f_from_block f_to_block].
    rewrite bool_decide_eq_true_2 by by_compute. generalize (seqZ from (to - from + 1)). intros l.
    induction l as [|n l IH]; [done|]. cbn. apply map_collect_app; [|exact IH].
    unfold example_deposits_at. destruct (n =? 11); [by vm_compute|done].
Qed.

Lemma get_deposits_spec_witness :
  let w := set_head_block 12 (example_watcher 11) in
  exists w', get_deposits 11 w = (Ok [example_watch_deposit], w') /\ deposits w' !! 12 = Some [].
Proof.
  intros w. destruct (get_deposits_spec example_watch_config example_deposits_at 11 w example_serves_deposits eq_refl)
    as (w' & E & _ & _ & _ & _ & Hmiss);
    [by intros n ds Hn; change ((∅ : gmap Z (list UserDeposited)) !! n = Some ds) in Hn; rewrite lookup_empty in Hn|by vm_compute|by_compute|].
  exists w'. split; [exact E|]. apply (Hmiss eq_refl). clear. cbn. lia.
Defined.

Lemma example_serves_updates : serves_updates (P := unit) example_watch_config example_updates_at.
Proof.
  intros [] from to. eexists tt, _. split; [reflexivity|]. unfold example_logs. cbn [f_address f_from_block f_to_block].
  rewrite bool_decide_eq_false_2 by by_compute. generalize (seqZ from (to - from + 1)). intros l. unfold first_in.
  induction l as [|n l IH]; [done|]. cbn. destruct (example_updates_at n) as [u|] eqn:E; [|exact IH].
  unfold example_updates_at in E. destruct (n =? 15); [|done]. injection E as <-. cbn [fmap option_fmap option_map].
  unfold first_update. change (SystemConfigUpdate_try_from _) with (Ok (Gas 60000000)). reflexivity.
Qed.

Lemma system_config_tracks_witness :
  exists w, follow_config 7 (example_watcher 10) = (Ok tt, w) /\ gas_limit (iw_system_config w) = 60000000.
Proof.
  destruct (system_config_tracks example_watch_config example_updates_at [] 10 (bi_number (l2_genesis base)) 6
    (example_watcher 10) example_serves_updates (example_watcher_new 10)) as (w & E & _ & Hc);
    [done|by_compute|].
  exists w. split; [exact E|]. rewrite Hc. by vm_compute.
Defined.

Lemma config_updates_missed_witness :
  let w := set_system_config_update (20, None) (example_watcher 21) in
  exists w', update_system_config w = (Ok tt, w') /\
    update_system_config (set_current_block 1020 w') = (Ok tt, set_current_block 1020 w').
Proof.
  intros w. destruct (config_updates_missed 20 None w tt) as (w' & E & _ & Hm);
    [reflexivity|by vm_compute|by_compute|done|by vm_compute|].
  exists w'. split; [exact E|]. apply Hm. clear. cbn. lia.
Defined.

Definition example_parent_block : Block :=
  example_l1_block 0
    [{| tx_input := dt_data (DepositedTransaction_from_attributes
          {| ad_number := 1000; ad_timestamp := 1700000000; ad_base_fee := 7; ad_hash := to_be 32 11;
             ad_sequence_number := 3; ad_batcher_hash := replicate 12 0 ++ to_be 20 12; ad_fee_overhead := 188;
             ad_fee_scalar := 684000; ad_gas := 1000000; ad_is_system_tx := false |});
        tx_from := []; tx_to := None; tx_type := None; tx_hash := []; tx_rlp := []; tx_blob_hashes := [] |}].

Definition example_l2_blocks : BlockProvider unit := {| get_block_with_txs := fun _ _ => (Ok (Some example_parent_block), tt) |}.

Lemma InnerWatcher_new_config_witness :
  exists w : InnerWatcher unit (list (outcome Value)),
    @InnerWatcher_new unit _ example_l2_blocks example_http [] example_watch_config [] 10 100 = Ok w /\
    batch_sender (iw_system_config w) = to_be 20 12 /\ l1_fee_scalar (iw_system_config w) = 684000.
Proof.
  destruct (@InnerWatcher_new_config unit (list (outcome Value)) example_l2_blocks example_http example_keccak example_codec []
    example_watch_config 10 100 example_parent_block
    {| ad_number := 1000; ad_timestamp := 1700000000; ad_base_fee := 7; ad_hash := to_be 32 11;
       ad_sequence_number := 3; ad_batcher_hash := replicate 12 0 ++ to_be 20 12; ad_fee_overhead := 188;
       ad_fee_scalar := 684000; ad_gas := 1000000; ad_is_system_tx := false |}
    (to_be 20 12) tt tt tt) as (w & E & Hc & _);
    [by vm_compute|reflexivity|reflexivity|reflexivity|reflexivity|reflexivity|reflexivity|reflexivity|by_compute|by_compute|].
  exists w. split; [exact E|]. by rewrite Hc.
Defined.
