(* ===== verification/Gossip.v ===== *)
(** Unsafe blocks from the gossip network: the block handler
    (src/src/network/handlers/block_handler.rs) and the trait it implements
    (src/src/network/handlers/mod.rs), the dispatch of messages, the message ids and
    the network addresses of the service (src/src/network/service/), and the
    [opstack] entry of a node record (src/src/network/service/discovery.rs).

    Snappy, SSZ, ECDSA, SHA-256 and the varints are library code. *)
From stdpp Require Import pretty.
From S2P Require Import Prelude Codecs Common Concrete Deposits Engine.

(** ** Libraries *)

(** [snap::raw::Decoder::decompress_vec]. *)
Class Snappy := {
  decompress_vec : bytes -> option bytes
}.

(** [Signature::verify], for a signature of 65 bytes, a message hash and an
    address. *)
Class Ecdsa := {
  signature_verify : bytes -> bytes -> bytes -> bool
}.

Class Sha256 := {
  sha256 : bytes -> bytes
}.

(** ** Payloads on the wire *)

Record Withdrawal := {
  wd_index : Z;
  wd_validator_index : Z;
  wd_address : bytes;
  wd_amount : Z
}.

Record ExecutionPayloadV1SSZ := {
  v1_parent_hash : bytes;
  v1_fee_recipient : bytes;
  v1_state_root : bytes;
  v1_receipts_root : bytes;
  v1_logs_bloom : bytes;
  v1_prev_randao : bytes;
  v1_block_number : Z;
  v1_gas_limit : Z;
  v1_gas_used : Z;
  v1_timestamp : Z;
  v1_extra_data : bytes;
  v1_base_fee_per_gas : Z;
  v1_block_hash : bytes;
  v1_transactions : list bytes
}.

(** The fields that the later versions add. *)
Record ExecutionPayloadV2SSZ := {
  v2_base : ExecutionPayloadV1SSZ;
  v2_withdrawals : list Withdrawal
}.

Record ExecutionPayloadV3SSZ := {
  v3_base : ExecutionPayloadV2SSZ;
  v3_blob_gas_used : Z;
  v3_excess_blob_gas : Z
}.

(** [ssz_rs::deserialize], derived for the three types. *)
Class Ssz := {
  deserialize_v1 : bytes -> option ExecutionPayloadV1SSZ;
  deserialize_v2 : bytes -> option ExecutionPayloadV2SSZ;
  deserialize_v3 : bytes -> option ExecutionPayloadV3SSZ
}.

(** [convert_uint]: from 256 bits to 64 through [U256::as_u64].  The other
    conversions ([convert_hash], [convert_address], [convert_byte_vector],
    [convert_byte_list], [convert_tx_list]) copy bytes. *)
Definition convert_uint (value : Z) : outcome Z := as_u64 value.

Definition payload_from_v1 (value : ExecutionPayloadV1SSZ) : outcome ExecutionPayload :=
  base_fee_per_gas ← convert_uint (v1_base_fee_per_gas value);
  Ok {| pl_parent_hash := v1_parent_hash value;
        pl_fee_recipient := v1_fee_recipient value;
        pl_state_root := v1_state_root value;
        pl_receipts_root := v1_receipts_root value;
        pl_logs_bloom := v1_logs_bloom value;
        pl_prev_randao := v1_prev_randao value;
        pl_block_number := v1_block_number value;
        pl_gas_limit := v1_gas_limit value;
        pl_gas_used := v1_gas_used value;
        pl_timestamp := v1_timestamp value;
        pl_extra_data := v1_extra_data value;
        pl_base_fee_per_gas := base_fee_per_gas;
        pl_block_hash := v1_block_hash value;
        pl_transactions := v1_transactions value;
        pl_withdrawals := None;
        pl_blob_gas_used := None;
        pl_excess_blob_gas := None |}.

(** The three last fields, by version. *)
Definition with_extras (withdrawals : option (list unit)) (blob_gas_used excess_blob_gas : option Z)
    (p : ExecutionPayload) : ExecutionPayload :=
  {| pl_parent_hash := pl_parent_hash p; pl_fee_recipient := pl_fee_recipient p; pl_state_root := pl_state_root p;
     pl_receipts_root := pl_receipts_root p; pl_logs_bloom := pl_logs_bloom p; pl_prev_randao := pl_prev_randao p;
     pl_block_number := pl_block_number p; pl_gas_limit := pl_gas_limit p; pl_gas_used := pl_gas_used p;
     pl_timestamp := pl_timestamp p; pl_extra_data := pl_extra_data p;
     pl_base_fee_per_gas := pl_base_fee_per_gas p; pl_block_hash := pl_block_hash p;
     pl_transactions := pl_transactions p; pl_withdrawals := withdrawals; pl_blob_gas_used := blob_gas_used;
     pl_excess_blob_gas := excess_blob_gas |}.

Definition payload_from_v2 (value : ExecutionPayloadV2SSZ) : outcome ExecutionPayload :=
  with_extras (Some []) None None <$> payload_from_v1 (v2_base value).

Definition payload_from_v3 (value : ExecutionPayloadV3SSZ) : outcome ExecutionPayload :=
  with_extras (Some []) (Some (v3_blob_gas_used value)) (Some (v3_excess_blob_gas value)) <$>
    payload_from_v1 (v2_base (v3_base value)).

(** ** Envelopes *)

(** [PayloadHash(H256)] is the hash. *)
Record ExecutionPayloadEnvelope := {
  payload : ExecutionPayload;
  signature : bytes;
  hash : bytes;
  env_parent_beacon_block_root : option bytes
}.

(** [Signature::try_from(&[u8])]. *)
Definition Signature_try_from (bs : bytes) : outcome bytes :=
  if len bs =? 65 then Ok bs else Err "invalid signature length".

Section decode.
Context `{Keccak, Snappy}.

Definition PayloadHash_from (value : bytes) : bytes := keccak256 value.

(** [PayloadHash::signature_message]. *)
Definition signature_message (payload_hash : bytes) (chain_id : Z) : bytes :=
  let domain := H256_zero in
  let chain_id := H256_from_low_u64_be chain_id in
  let data := domain ++ chain_id ++ payload_hash in
  keccak256 data.

(** [decode_pre_ecotone_block_msg::<T>], for the deserializer and the conversion of
    [T]. *)
Definition decode_pre_ecotone_block_msg {T} (deserialize : bytes -> option T) (from : T -> outcome ExecutionPayload)
    (data : bytes) : outcome ExecutionPayloadEnvelope :=
  decompressed ← ok_or (decompress_vec data) "snappy error";
  sig_data ← slice decompressed 0 65;
  block_data ← slice_from decompressed 65;
  signature ← Signature_try_from sig_data;
  payload ← ok_or (deserialize block_data) "ssz error";
  payload ← from payload;
  let hash := PayloadHash_from block_data in
  Ok {| env_parent_beacon_block_root := None; signature := signature; payload := payload; hash := hash |}.

Definition decode_post_ecotone_block_msg `{Ssz} (data : bytes) : outcome ExecutionPayloadEnvelope :=
  decompressed ← ok_or (decompress_vec data) "snappy error";
  sig_data ← slice decompressed 0 65;
  parent_beacon_block_root ← slice decompressed 65 97;
  block_data ← slice_from decompressed 97;
  signature ← Signature_try_from sig_data;
  payload ← ok_or (deserialize_v3 block_data) "ssz error";
  payload ← payload_from_v3 payload;
  let hash := PayloadHash_from block_data in
  Ok {| env_parent_beacon_block_root := Some parent_beacon_block_root; signature := signature;
        payload := payload; hash := hash |}.
End decode.

(** ** Handlers *)

(** [libp2p::gossipsub]: a message, its acceptance; the hash of an [IdentTopic] is
    its name. *)
Record Message := {
  msg_topic : string;
  msg_data : bytes
}.

Inductive MessageAcceptance := Accept | Reject | Ignore.

(** [trait Handler], for handlers that look at the clock. *)
Class Handler (H : Type) := {
  handler_handle : Z -> Message -> M H MessageAcceptance;
  handler_topics : H -> list string
}.

(** The sender shows the payloads sent and not yet received, the receiver of the
    signer its current value. *)
Record BlockHandler := {
  bh_chain_id : Z;
  block_sender : list ExecutionPayload;
  unsafe_signer_recv : bytes;
  blocks_v1_topic : string;
  blocks_v2_topic : string;
  blocks_v3_topic : string
}.

Definition blocks_topic (chain_id : Z) (v : string) : string :=
  "/optimism/" +:+ pretty chain_id +:+ "/" +:+ v +:+ "/blocks".

(** [BlockHandler::new]; the receiver half of the channel is the field of the
    handler. *)
Definition BlockHandler_new (chain_id : Z) (unsafe_recv : bytes) : BlockHandler :=
  {| bh_chain_id := chain_id;
     block_sender := [];
     unsafe_signer_recv := unsafe_recv;
     blocks_v1_topic := blocks_topic chain_id "0";
     blocks_v2_topic := blocks_topic chain_id "1";
     blocks_v3_topic := blocks_topic chain_id "2" |}.

Definition send_block (p : ExecutionPayload) (s : BlockHandler) : BlockHandler :=
  {| bh_chain_id := bh_chain_id s; block_sender := block_sender s ++ [p]; unsafe_signer_recv := unsafe_signer_recv s;
     blocks_v1_topic := blocks_v1_topic s; blocks_v2_topic := blocks_v2_topic s;
     blocks_v3_topic := blocks_v3_topic s |}.

Section handler.
Context `{Keccak, Snappy, Ssz, Ecdsa}.

(** [BlockHandler::block_valid], at [current_timestamp] seconds. *)
Definition block_valid (current_timestamp : Z) (envelope : ExecutionPayloadEnvelope) (s : BlockHandler) : bool :=
  let is_future := u64_add current_timestamp 5 <? pl_timestamp (payload envelope) in
  let is_past := pl_timestamp (payload envelope) <? u64_sub current_timestamp 60 in
  let time_valid := negb (is_future || is_past) in
  let msg := signature_message (hash envelope) (bh_chain_id s) in
  let block_signer := unsafe_signer_recv s in
  let sig_valid := signature_verify (signature envelope) msg block_signer in
  time_valid && sig_valid.

(** The decoder for a topic; [None] is the early return. *)
Definition decode_for (s : BlockHandler) (msg : Message) : option (outcome ExecutionPayloadEnvelope) :=
  if bool_decide (msg_topic msg = blocks_v1_topic s)
  then Some (decode_pre_ecotone_block_msg deserialize_v1 payload_from_v1 (msg_data msg))
  else if bool_decide (msg_topic msg = blocks_v2_topic s)
  then Some (decode_pre_ecotone_block_msg deserialize_v2 payload_from_v2 (msg_data msg))
  else if bool_decide (msg_topic msg = blocks_v3_topic s)
  then Some (decode_post_ecotone_block_msg (msg_data msg))
  else None.

(** [BlockHandler::handle]. *)
Definition BlockHandler_handle (now : Z) (msg : Message) : M BlockHandler MessageAcceptance := fun s =>
  match decode_for s msg with
  | None => (Ok Reject, s)
  | Some decoded =>
      match decoded with
      | Ok envelope =>
          if block_valid now envelope s then (Ok Accept, send_block (payload envelope) s) else (Ok Reject, s)
      | Err _ => (Ok Reject, s)
      | Panic => (Panic, s)
      | Diverge => (Diverge, s)
      end
  end.

(** [BlockHandler::topics]. *)
Definition BlockHandler_topics (s : BlockHandler) : list string := [blocks_v1_topic s; blocks_v2_topic s].

#[export] Instance BlockHandler_handler : Handler BlockHandler := {
  handler_handle := BlockHandler_handle;
  handler_topics := BlockHandler_topics
}.
End handler.

(** ** The service *)

(** [NetworkAddress] and the addresses it is made from: [enr_ip4] and [enr_tcp4] are
    what the methods [ip4()] and [tcp4()] of a node record return. *)
Record NetworkAddress := {
  na_ip : bytes;
  na_port : Z
}.

Inductive IpAddr := IpV4 (ip : bytes) | IpV6 (ip : bytes).

Record SocketAddr := {
  sa_ip : IpAddr;
  sa_port : Z
}.

Record Enr := {
  enr_ip4 : option bytes;
  enr_tcp4 : option Z;
  enr_opstack : option bytes
}.

(** [Peer] wraps a [NetworkAddress]. *)
Record Peer := {
  peer_addr : NetworkAddress
}.

Definition NetworkAddress_try_from_enr (value : Enr) : outcome NetworkAddress :=
  ip ← ok_or (enr_ip4 value) "missing ip";
  port ← ok_or (enr_tcp4 value) "missing port";
  Ok {| na_ip := ip; na_port := port |}.

Definition NetworkAddress_try_from (value : SocketAddr) : outcome NetworkAddress :=
  ip ← match sa_ip value with IpV4 ip => Ok ip | IpV6 _ => Err "ipv6 not supported" end;
  Ok {| na_ip := ip; na_port := sa_port value |}.

Definition SocketAddr_from (value : NetworkAddress) : SocketAddr :=
  {| sa_ip := IpV4 (na_ip value); sa_port := na_port value |}.

Definition Peer_try_from (value : Enr) : outcome Peer :=
  addr ← NetworkAddress_try_from_enr value;
  Ok {| peer_addr := addr |}.

(** [Service], with handlers of one type; a [Keypair] is its encoding. *)
Record Service (H : Type) := {
  handlers : list H;
  srv_addr : SocketAddr;
  srv_chain_id : Z;
  srv_keypair : option bytes
}.

Arguments Build_Service {H}.
Arguments handlers {H}.
Arguments srv_addr {H}.
Arguments srv_chain_id {H}.
Arguments srv_keypair {H}.

Definition Service_new {H} (addr : SocketAddr) (chain_id : Z) : Service H :=
  {| handlers := []; srv_addr := addr; srv_chain_id := chain_id; srv_keypair := None |}.

Definition add_handler {H} (handler : H) (s : Service H) : Service H :=
  {| handlers := handlers s ++ [handler]; srv_addr := srv_addr s; srv_chain_id := srv_chain_id s;
     srv_keypair := srv_keypair s |}.

Definition set_keypair {H} (keypair : bytes) (s : Service H) : Service H :=
  {| handlers := handlers s; srv_addr := srv_addr s; srv_chain_id := srv_chain_id s; srv_keypair := Some keypair |}.

(** [compute_message_id]. *)
Definition compute_message_id `{Snappy, Sha256} (msg : Message) : bytes :=
  match decompress_vec (msg_data msg) with
  | Some data => take 20 (sha256 ([1; 0; 0; 0] ++ data))
  | None => take 20 (sha256 ([0; 0; 0; 0] ++ msg_data msg))
  end.

(** [Event::handle] for a gossip message: the acceptance reported, if a handler was
    found. *)
Fixpoint Event_handle {H} `{Handler H} (now : Z) (msg : Message) (l : list H)
    : outcome (option MessageAcceptance) * list H :=
  match l with
  | [] => (Ok None, [])
  | h :: l =>
      if bool_decide (msg_topic msg ∈ handler_topics h) then
        let '(r, h) := handler_handle now msg h in (Some <$> r, h :: l)
      else
        let '(r, l) := Event_handle now msg l in (r, h :: l)
  end.

(** ** Node records *)

Record OpStackEnrData := {
  enr_chain_id : Z;
  enr_version : Z
}.

(** [unsigned_varint::encode::u128]. *)
Class VarintEncode := {
  encode_u128 : Z -> bytes
}.

Section discovery.
Context `{Codec, RlpDecoder, Varint, VarintEncode}.

(** [impl TryFrom<&[u8]> for OpStackEnrData]. *)
Definition OpStackEnrData_try_from (value : bytes) : outcome OpStackEnrData :=
  bs ← ok_or (as_val_bytes value) "rlp error";
  '(chain_id, rest) ← ok_or (uvarint bs) "varint error";
  '(version, _) ← ok_or (uvarint rest) "varint error";
  Ok {| enr_chain_id := chain_id; enr_version := version |}.

(** [impl From<OpStackEnrData> for Vec<u8>]. *)
Definition OpStackEnrData_into (value : OpStackEnrData) : bytes :=
  let opstack := encode_u128 (enr_chain_id value) ++ encode_u128 (enr_version value) in
  rlp_out [append_bytes opstack].

(** The [opstack] value of [create_disc]. *)
Definition create_disc_opstack (chain_id : Z) : bytes :=
  OpStackEnrData_into {| enr_chain_id := chain_id; enr_version := 0 |}.

Definition is_valid_node (node : Enr) (chain_id : Z) : bool :=
  match enr_opstack node with
  | Some opstack =>
      match OpStackEnrData_try_from opstack with
      | Ok opstack => (enr_chain_id opstack =? chain_id) && (enr_version opstack =? 0)
      | _ => false
      end
  | None => false
  end.

(** The peers sent for the nodes that a lookup found. *)
Definition discovered_peers (nodes : list Enr) (chain_id : Z) : list Peer :=
  omap (fun node => ok (Peer_try_from node)) (filter (fun node => is_valid_node node chain_id) nodes).
End discovery.

(** ** Lemmas *)

Section lemmas.
Context `{Keccak, Snappy, Ssz, Ecdsa}.

Lemma Signature_try_from_Ok bs sig : Signature_try_from bs = Ok sig <-> len bs = 65 /\ sig = bs.
Proof.
  unfold Signature_try_from. destruct (Z.eqb_spec (len bs) 65); [|naive_solver].
  split; [by intros [= <-]|by intros [_ ->]].
Qed.







Lemma short_message_panics {T} (deserialize : bytes -> option T) from data d :
  decompress_vec data = Some d -> len d < 65 -> decode_pre_ecotone_block_msg deserialize from data = Panic.
Proof.
  intros Hd Hl. unfold decode_pre_ecotone_block_msg. rewrite Hd. cbn [ok_or]. rewrite bind_ret.
  destruct (slice d 0 65) as [p|e| |] eqn:E; try done.
  - apply slice_Ok in E as (_ & ? & _). lia.
  - unfold slice in E. by destruct (get_slice d 0 65).
  - unfold slice in E. by destruct (get_slice d 0 65).
Qed.












(** Any peer can stop the gossip task.  A message on one of the topics that the
    handler listens to and that decompresses to fewer than 65 bytes makes it panic,
    and so does one whose block decodes with a base fee beyond 64 bits, whatever its
    signature is: both are read before the signature is checked. *)
Lemma BlockHandler_handle_panics now msg s :
  msg_topic msg ∈ BlockHandler_topics s -> blocks_v1_topic s <> blocks_v2_topic s ->
  (exists d, decompress_vec (msg_data msg) = Some d /\ len d < 65) \/
  (exists d sig block value, decompress_vec (msg_data msg) = Some d /\ d = sig ++ block /\ len sig = 65 /\
     msg_topic msg = blocks_v1_topic s /\ deserialize_v1 block = Some value /\
     18446744073709551616 <= v1_base_fee_per_gas value) ->
  BlockHandler_handle now msg s = (Panic, s).
Proof.
  intros Ht Hne Hbad. unfold BlockHandler_handle.
  assert (Hd : decode_for s msg = Some Panic); [|by rewrite Hd]. unfold decode_for.
  destruct Hbad as [(d & Hd & Hl)|(d & sig & block & value & Hd & -> & Hsig & Hv & Hdes & Hfee)].
  - rewrite !(short_message_panics _ _ _ d) by done. unfold BlockHandler_topics in Ht.
    destruct (bool_decide_reflect (msg_topic msg = blocks_v1_topic s)); [done|].
    destruct (bool_decide_reflect (msg_topic msg = blocks_v2_topic s)); [done|]. set_solver.
  - rewrite bool_decide_eq_true_2 by done. f_equal. unfold decode_pre_ecotone_block_msg. rewrite Hd. cbn [ok_or].
    rewrite bind_ret, (slice_app_prefix sig) by lia. rewrite bind_ret, (slice_from_at sig) by lia.
    rewrite bind_ret, (proj2 (Signature_try_from_Ok sig sig)) by done. rewrite bind_ret, Hdes. cbn [ok_or].
    rewrite bind_ret. unfold payload_from_v1, convert_uint, as_u64. by rewrite (proj2 (Z.ltb_ge _ _)) by done.
Qed.
End lemmas.

Lemma blocks_topic_inj chain_id v1 v2 : blocks_topic chain_id v1 = blocks_topic chain_id v2 -> v1 +:+ "/blocks" = v2 +:+ "/blocks".
Proof. unfold blocks_topic. by intros E%(inj _)%(inj _)%(inj _). Qed.

(** ** Properties *)

Section properties.
Context `{Keccak, Snappy, Ssz, Ecdsa}.


(** A signature is for one chain and one block.  Two messages that are signed with
    the same hash are for the same chain and the same block bytes, unless the two
    messages or the two blocks themselves collide under keccak256: a block gossiped on one chain cannot be
    replayed on another. *)
Theorem signature_message_binds block1 block2 chain1 chain2 :
  in_u64 chain1 -> in_u64 chain2 ->
  signature_message (PayloadHash_from block1) chain1 = signature_message (PayloadHash_from block2) chain2 ->
  (chain1 = chain2 /\ block1 = block2) \/
  collides (H256_zero ++ to_be 32 chain1 ++ keccak256 block1) (H256_zero ++ to_be 32 chain2 ++ keccak256 block2) \/
  collides block1 block2.
Proof.
  intros H1' H2' E. unfold signature_message, PayloadHash_from, H256_from_low_u64_be in E.
  destruct (collides_or_eq _ _ E) as [E1|?]; [|by right; left]. apply app_inv_head in E1.
  apply app_inj_1 in E1 as [Ec Eh]; [|by rewrite !length_to_be].
  destruct (collides_or_eq _ _ Eh) as [->|?]; [|by right; right]. left. split; [|done].
  apply (to_be_inj 32) in Ec; [done|unfold in_u64 in *; lia..].
Qed.

(** Ecotone blocks are not heard.  The handler decodes messages of the third topic,
    but does not list it among its topics: the service hands it no such message, so
    these messages get no verdict and no payload comes of them. *)
Theorem third_topic_ignored now msg chain_id signer queue :
  let s := BlockHandler_new chain_id signer in
  let s' := foldr send_block s queue in
  msg_topic msg = blocks_v3_topic s' -> Event_handle now msg [s'] = (Ok None, [s']).
Proof.
  intros s s' Ht. cbn [Event_handle].
  assert (Hs : blocks_v1_topic s' = blocks_topic chain_id "0" /\ blocks_v2_topic s' = blocks_topic chain_id "1" /\
    blocks_v3_topic s' = blocks_topic chain_id "2") by (unfold s'; clear; induction queue; done).
  destruct Hs as (H1' & H2' & H3'). rewrite bool_decide_eq_false_2; [done|].
  change (handler_topics s') with (BlockHandler_topics s'). unfold BlockHandler_topics. rewrite Ht, H1', H2', H3'.
  rewrite !elem_of_cons. intros [E|[E|E]]; [by apply blocks_topic_inj in E..|by apply not_elem_of_nil in E].
Qed.
End properties.

(** The network in a node record.  What a node of a chain writes under [opstack] is
    read back as that chain and version 0; so peers of the same chain are taken, those
    of another chain are not, and a record without a usable address gives no peer. *)
Theorem opstack_roundtrip `{Codec, RlpDecoder, Varint, VarintEncode} chain_id other node :
  (forall bs, bytes_ok bs -> in_u64 (len bs) -> as_val_bytes (rlp_out [append_bytes bs]) = Some bs) ->
  (forall z, z = chain_id \/ z = 0 -> bytes_ok (encode_u128 z) /\ len (encode_u128 z) <= 19 /\
     forall rest, uvarint (encode_u128 z ++ rest) = Some (z, rest)) ->
  enr_opstack node = Some (create_disc_opstack chain_id) ->
  OpStackEnrData_try_from (create_disc_opstack chain_id) = Ok {| enr_chain_id := chain_id; enr_version := 0 |} /\
  (is_valid_node node other = true <-> other = chain_id) /\
  discovered_peers [node] chain_id =
    match enr_ip4 node, enr_tcp4 node with
    | Some ip, Some port => [{| peer_addr := {| na_ip := ip; na_port := port |} |}]
    | _, _ => []
    end.
Proof.
  intros Hrlp Hvar Hn. destruct (Hvar chain_id (or_introl eq_refl)) as (Hb1 & Hl1 & Hu1).
  destruct (Hvar 0 (or_intror eq_refl)) as (Hb2 & Hl2 & Hu2).
  pose proof (len_nonneg (encode_u128 chain_id)). pose proof (len_nonneg (encode_u128 0)).
  assert (Hd : OpStackEnrData_try_from (create_disc_opstack chain_id) = Ok {| enr_chain_id := chain_id; enr_version := 0 |}).
  { unfold OpStackEnrData_try_from, create_disc_opstack, OpStackEnrData_into. cbn [enr_chain_id enr_version].
    rewrite Hrlp by (first [by apply Forall_app|rewrite len_app; unfold in_u64; lia]). cbn [ok_or].
    rewrite bind_ret, Hu1. cbn [ok_or]. rewrite bind_ret.
    rewrite <- (app_nil_r (encode_u128 0)), Hu2. done. }
  assert (Hv : forall c, is_valid_node node c = true <-> c = chain_id).
  { intros c. unfold is_valid_node. rewrite Hn, Hd. cbn. rewrite andb_true_r, Z.eqb_eq. done. }
  split; [done|]. split; [apply Hv|]. unfold discovered_peers.
  rewrite filter_cons_True, filter_nil by (rewrite (proj2 (Hv chain_id) eq_refl); exact I).
  cbn. unfold Peer_try_from, NetworkAddress_try_from_enr. destruct (enr_ip4 node), (enr_tcp4 node); done.
Qed.

(** ** Witnesses

    No compression, blocks of which the timestamp and the base fee are read, and
    signatures that start with the hash they sign. *)

Definition example_v1 (block : bytes) : ExecutionPayloadV1SSZ :=
  {| v1_parent_hash := []; v1_fee_recipient := []; v1_state_root := []; v1_receipts_root := []; v1_logs_bloom := [];
     v1_prev_randao := []; v1_block_number := 7; v1_gas_limit := 30000000; v1_gas_used := 0;
     v1_timestamp := from_be (take 8 block); v1_extra_data := []; v1_base_fee_per_gas := from_be (drop 8 block);
     v1_block_hash := []; v1_transactions := [] |}.

#[local] Instance example_snappy : Snappy := { decompress_vec := Some }.

#[local] Instance example_ssz : Ssz := {
  deserialize_v1 := fun block => Some (example_v1 block);
  deserialize_v2 := fun block => Some {| v2_base := example_v1 block; v2_withdrawals := [] |};
  deserialize_v3 := fun block => Some {| v3_base := {| v2_base := example_v1 block; v2_withdrawals := [] |};
                                         v3_blob_gas_used := 0; v3_excess_blob_gas := 0 |}
}.

#[local] Instance example_ecdsa : Ecdsa := {
  signature_verify := fun sig msg signer => bool_decide (sig = msg ++ signer ++ replicate 13 0)
}.

#[local] Existing Instances example_keccak example_codec.

Definition example_handler : BlockHandler := BlockHandler_new 8453 (to_be 20 5).

(** A message for [block], signed on [chain] by [signer]. *)
Definition example_message (topic : string) (chain signer : Z) (block : bytes) : Message :=
  {| msg_topic := topic;
     msg_data := (signature_message (PayloadHash_from block) chain ++ to_be 20 signer ++ replicate 13 0) ++ block |}.

Definition example_block_bytes : bytes := to_be 8 1700000000 ++ to_be 8 50.


Lemma signature_message_binds_witness :
  (10 = 10 /\ example_block_bytes = example_block_bytes) \/
  collides (H256_zero ++ to_be 32 10 ++ keccak256 example_block_bytes)
    (H256_zero ++ to_be 32 10 ++ keccak256 example_block_bytes) \/
  collides example_block_bytes example_block_bytes.
Proof. by apply (signature_message_binds example_block_bytes example_block_bytes 10 10); [by_compute|by_compute|]. Defined.

Lemma BlockHandler_handle_panics_witness :
  (BlockHandler_handle 0 {| msg_topic := "/optimism/8453/1/blocks"; msg_data := [1; 2; 3] |} example_handler).1 = Panic /\
  (BlockHandler_handle 0 {| msg_topic := "/optimism/8453/0/blocks"; msg_data := replicate 65 0 ++ replicate 8 0 ++ replicate 9 1 |}
    example_handler).1 = Panic.
Proof.
  split.
  - rewrite BlockHandler_handle_panics; [reflexivity|by right; left|by vm_compute|].
    left. exists [1; 2; 3]. by split.
  - rewrite BlockHandler_handle_panics; [reflexivity|by left|by vm_compute|].
    right. exists (replicate 65 0 ++ replicate 8 0 ++ replicate 9 1), (replicate 65 0), (replicate 8 0 ++ replicate 9 1),
      (example_v1 (replicate 8 0 ++ replicate 9 1)).
    repeat (split; [reflexivity|]). by vm_compute.
Defined.

Lemma third_topic_ignored_witness :
  Event_handle 1700000010 (example_message "/optimism/8453/2/blocks" 8453 5 example_block_bytes) [example_handler] =
    (Ok None, [example_handler]).
Proof. apply (third_topic_ignored 1700000010 _ 8453 (to_be 20 5) []). reflexivity. Defined.

Definition leb128_encode : VarintEncode := {| encode_u128 := encode_leb128 19 |}.

#[local] Existing Instances rlp_codec rlp_decoder leb128 leb128_encode.

Definition example_enr : Enr :=
  {| enr_ip4 := Some [10; 0; 0; 1]; enr_tcp4 := Some 9222; enr_opstack := Some (create_disc_opstack 10) |}.

Lemma opstack_roundtrip_witness :
  discovered_peers [example_enr] 10 = [{| peer_addr := {| na_ip := [10; 0; 0; 1]; na_port := 9222 |} |}] /\
  is_valid_node example_enr 10 = true.
Proof.
  destruct (opstack_roundtrip 10 10 example_enr) as (_ & Hv & Hp).
  - intros bs Hb Hl. pose proof (proj1 (Rlp.as_string_encode bs [] Hb Hl)) as Ha. rewrite app_nil_r in Ha. exact Ha.
  - intros z [-> | ->]; (split; [by_compute|split; [by_compute|reflexivity]]).
  - reflexivity.
  - split; [exact Hp|by apply Hv].
Defined.
