(* ===== verification/Driver.v ===== *)
(** The driver (src/src/driver/mod.rs): the loop that feeds L1 updates to the
    pipeline, the derived attributes to the engine driver, gossiped blocks to the
    engine driver, and finalizes L2 blocks by their inclusion in L1.

    The driver composes the pipeline, the engine driver, the derivation state, the
    chain watcher and the gossip service.  The [RwLock] around the state is never
    poisoned, as only the driver writes under it.  [process::exit] is an error
    that names the exit code and ends the run, as in Runner.v. *)
From S2P Require Import Prelude Purgeable Codecs Common Config Deposits L1Info HeadInfo State BatcherTransactions.
From S2P Require Import Channels SingleBatch SpanBatch Batches Engine Ecotone Attributes EngineDriver.
From S2P Require Import Json Blobs ChainWatcher Gossip Pipeline.

(** ** Data *)

(** [(BlockInfo, Epoch, u64, u64)]: a head, its epoch, its L1 inclusion block and its
    sequence number. *)
Abbreviation Unfinalized := (BlockInfo * Epoch * Z * Z)%type (only parsing).

(** Where the gossip service is: in [network_service], in its task, or gone.  It
    holds the receiver of the unsafe block signer. *)
Inductive Network :=
| NotStarted (service : Service BlockHandler)
| Listening (handlers : list BlockHandler)
| Closed.

(** What [Service::start] does with the libraries that listen on the network. *)
Class ServiceStart := {
  service_start : Service BlockHandler -> outcome unit
}.

Record Driver (E P B : Type) := {
  pipeline : Pipeline;
  engine_driver : EngineDriver E;
  dr_unfinalized_blocks : list Unfinalized;
  finalized_l1_block_number : Z;
  future_unsafe_blocks : list ExecutionPayload;
  dr_state : State;
  chain_watcher : ChainWatcher P B;
  shutdown_recv : bool;
  unsafe_block_recv : list ExecutionPayload;
  unsafe_block_signer_sender : bytes;
  network_service : Network;
  dr_channel_timeout : Z
}.

Arguments Build_Driver {E P B}.
Arguments pipeline {E P B}.
Arguments engine_driver {E P B}.
Arguments dr_unfinalized_blocks {E P B}.
Arguments finalized_l1_block_number {E P B}.
Arguments future_unsafe_blocks {E P B}.
Arguments dr_state {E P B}.
Arguments chain_watcher {E P B}.
Arguments shutdown_recv {E P B}.
Arguments unsafe_block_recv {E P B}.
Arguments unsafe_block_signer_sender {E P B}.
Arguments network_service {E P B}.
Arguments dr_channel_timeout {E P B}.

(** ** Operations *)

Definition get_l1_start_block (epoch_number channel_timeout : Z) : Z :=
  u64_saturating_sub epoch_number channel_timeout.

(** [Result::map_err] with a prefix. *)
Definition map_err {S A} (prefix : string) (m : M S A) : M S A := fun s =>
  match m s with
  | (Err e, s) => (Err (prefix +:+ e), s)
  | r => r
  end.

(** [_ = m], which drops an error. *)
Definition ignore_err {S} (m : M S unit) : M S unit := fun s =>
  match m s with
  | (Err _, s) => (Ok tt, s)
  | r => r
  end.

Section setters.
Context {E P B : Type}.
Implicit Types d : Driver E P B.

Definition set_pipeline (p : Pipeline) d : Driver E P B :=
  {| pipeline := p; engine_driver := engine_driver d; dr_unfinalized_blocks := dr_unfinalized_blocks d;
     finalized_l1_block_number := finalized_l1_block_number d; future_unsafe_blocks := future_unsafe_blocks d;
     dr_state := dr_state d; chain_watcher := chain_watcher d; shutdown_recv := shutdown_recv d;
     unsafe_block_recv := unsafe_block_recv d; unsafe_block_signer_sender := unsafe_block_signer_sender d;
     network_service := network_service d; dr_channel_timeout := dr_channel_timeout d |}.

Definition set_engine_driver (ed : EngineDriver E) d : Driver E P B :=
  {| pipeline := pipeline d; engine_driver := ed; dr_unfinalized_blocks := dr_unfinalized_blocks d;
     finalized_l1_block_number := finalized_l1_block_number d; future_unsafe_blocks := future_unsafe_blocks d;
     dr_state := dr_state d; chain_watcher := chain_watcher d; shutdown_recv := shutdown_recv d;
     unsafe_block_recv := unsafe_block_recv d; unsafe_block_signer_sender := unsafe_block_signer_sender d;
     network_service := network_service d; dr_channel_timeout := dr_channel_timeout d |}.

Definition set_unfinalized (l : list Unfinalized) d : Driver E P B :=
  {| pipeline := pipeline d; engine_driver := engine_driver d; dr_unfinalized_blocks := l;
     finalized_l1_block_number := finalized_l1_block_number d; future_unsafe_blocks := future_unsafe_blocks d;
     dr_state := dr_state d; chain_watcher := chain_watcher d; shutdown_recv := shutdown_recv d;
     unsafe_block_recv := unsafe_block_recv d; unsafe_block_signer_sender := unsafe_block_signer_sender d;
     network_service := network_service d; dr_channel_timeout := dr_channel_timeout d |}.

Definition set_finalized_l1 (n : Z) d : Driver E P B :=
  {| pipeline := pipeline d; engine_driver := engine_driver d; dr_unfinalized_blocks := dr_unfinalized_blocks d;
     finalized_l1_block_number := n; future_unsafe_blocks := future_unsafe_blocks d;
     dr_state := dr_state d; chain_watcher := chain_watcher d; shutdown_recv := shutdown_recv d;
     unsafe_block_recv := unsafe_block_recv d; unsafe_block_signer_sender := unsafe_block_signer_sender d;
     network_service := network_service d; dr_channel_timeout := dr_channel_timeout d |}.

Definition set_future (l recv : list ExecutionPayload) d : Driver E P B :=
  {| pipeline := pipeline d; engine_driver := engine_driver d; dr_unfinalized_blocks := dr_unfinalized_blocks d;
     finalized_l1_block_number := finalized_l1_block_number d; future_unsafe_blocks := l;
     dr_state := dr_state d; chain_watcher := chain_watcher d; shutdown_recv := shutdown_recv d;
     unsafe_block_recv := recv; unsafe_block_signer_sender := unsafe_block_signer_sender d;
     network_service := network_service d; dr_channel_timeout := dr_channel_timeout d |}.

Definition set_dr_state (s : State) d : Driver E P B :=
  {| pipeline := pipeline d; engine_driver := engine_driver d; dr_unfinalized_blocks := dr_unfinalized_blocks d;
     finalized_l1_block_number := finalized_l1_block_number d; future_unsafe_blocks := future_unsafe_blocks d;
     dr_state := s; chain_watcher := chain_watcher d; shutdown_recv := shutdown_recv d;
     unsafe_block_recv := unsafe_block_recv d; unsafe_block_signer_sender := unsafe_block_signer_sender d;
     network_service := network_service d; dr_channel_timeout := dr_channel_timeout d |}.

Definition set_chain_watcher (w : ChainWatcher P B) d : Driver E P B :=
  {| pipeline := pipeline d; engine_driver := engine_driver d; dr_unfinalized_blocks := dr_unfinalized_blocks d;
     finalized_l1_block_number := finalized_l1_block_number d; future_unsafe_blocks := future_unsafe_blocks d;
     dr_state := dr_state d; chain_watcher := w; shutdown_recv := shutdown_recv d;
     unsafe_block_recv := unsafe_block_recv d; unsafe_block_signer_sender := unsafe_block_signer_sender d;
     network_service := network_service d; dr_channel_timeout := dr_channel_timeout d |}.

Definition set_shutdown (b : bool) d : Driver E P B :=
  {| pipeline := pipeline d; engine_driver := engine_driver d; dr_unfinalized_blocks := dr_unfinalized_blocks d;
     finalized_l1_block_number := finalized_l1_block_number d; future_unsafe_blocks := future_unsafe_blocks d;
     dr_state := dr_state d; chain_watcher := chain_watcher d; shutdown_recv := b;
     unsafe_block_recv := unsafe_block_recv d; unsafe_block_signer_sender := unsafe_block_signer_sender d;
     network_service := network_service d; dr_channel_timeout := dr_channel_timeout d |}.

Definition set_signer (a : bytes) d : Driver E P B :=
  {| pipeline := pipeline d; engine_driver := engine_driver d; dr_unfinalized_blocks := dr_unfinalized_blocks d;
     finalized_l1_block_number := finalized_l1_block_number d; future_unsafe_blocks := future_unsafe_blocks d;
     dr_state := dr_state d; chain_watcher := chain_watcher d; shutdown_recv := shutdown_recv d;
     unsafe_block_recv := unsafe_block_recv d; unsafe_block_signer_sender := a;
     network_service := network_service d; dr_channel_timeout := dr_channel_timeout d |}.

Definition set_network (n : Network) d : Driver E P B :=
  {| pipeline := pipeline d; engine_driver := engine_driver d; dr_unfinalized_blocks := dr_unfinalized_blocks d;
     finalized_l1_block_number := finalized_l1_block_number d; future_unsafe_blocks := future_unsafe_blocks d;
     dr_state := dr_state d; chain_watcher := chain_watcher d; shutdown_recv := shutdown_recv d;
     unsafe_block_recv := unsafe_block_recv d; unsafe_block_signer_sender := unsafe_block_signer_sender d;
     network_service := n; dr_channel_timeout := dr_channel_timeout d |}.
End setters.

Section Driver.
Context {E P B : Type} `{Engine E, BlockProvider E, Keccak, Codec, RlpDecoder, Varint, Zlib, TransactionRlp, ToBeBytes8}.
Context `{ServiceStart}.
Implicit Types d : Driver E P B.

(** [Driver::from_config], after the query for the head: [l2_block] is the block
    query of the L2 provider, [engine] the client.  [Driver_from_config] of Program.v is
    the whole function, with the query and the RPC server it starts. *)
Definition from_config (head : HeadInfo) (l2_block : Z -> outcome (option Block)) (engine : E) (config : Config)
    (shutdown : bool) : outcome (Driver E P B) :=
  let finalized_head := l2_block_info head in
  let finalized_epoch := l1_epoch head in
  let finalized_seq := sequence_number head in
  let l1_start_block := get_l1_start_block (ep_number finalized_epoch) (channel_timeout (chain config)) in
  let chain_watcher := ChainWatcher_new l1_start_block (bi_number finalized_head) config in
  state ← State_new l2_block finalized_head finalized_epoch config;
  let engine_driver := EngineDriver_new engine finalized_head finalized_epoch config in
  let pipeline := Pipeline_new state config finalized_seq in
  let signer := unsafe_block_signer (system_config (chain config)) in
  let block_handler := BlockHandler_new (l2_chain_id (chain config)) signer in
  let service := add_handler block_handler
    (Service_new {| sa_ip := IpV4 [0; 0; 0; 0]; sa_port := 9876 |} (l2_chain_id (chain config))) in
  Ok {| pipeline := pipeline;
        engine_driver := engine_driver;
        dr_unfinalized_blocks := [];
        finalized_l1_block_number := 0;
        future_unsafe_blocks := [];
        dr_state := state;
        chain_watcher := chain_watcher;
        shutdown_recv := shutdown;
        unsafe_block_recv := [];
        unsafe_block_signer_sender := signer;
        network_service := NotStarted service;
        dr_channel_timeout := channel_timeout (chain config) |}.

(** [watch::Sender::send], which fails, and keeps the value, without a receiver. *)
Definition send_signer (a : bytes) : M (Driver E P B) unit := fun d =>
  match network_service d with
  | Closed => (Err "channel closed", d)
  | _ => (Ok tt, set_signer a d)
  end.

(** The three cases of [handle_next_block_update]. *)
Definition on_new_block (l1_info : L1Info) : M (Driver E P B) unit :=
  let num := l1b_number (block_info l1_info) in
  send_signer (unsafe_block_signer (l1i_system_config l1_info)) ;;
  modify (fun d => set_pipeline (push_batcher_transactions (batcher_transactions l1_info) num (pipeline d)) d) ;;
  state ← gets dr_state;
  state ← lift (update_l1_info l1_info state);
  modify (set_dr_state state).

Definition on_reorg d : Driver E P B :=
  let d := set_unfinalized [] d in
  let ed := engine_driver d in
  let l1_start_block := get_l1_start_block (ep_number (finalized_epoch ed)) (dr_channel_timeout d) in
  let d := set_chain_watcher (restart l1_start_block (bi_number (finalized_head ed)) (chain_watcher d)) d in
  let d := set_dr_state (State_purge (finalized_head ed) (finalized_epoch ed) (dr_state d)) d in
  let d := set_pipeline (Pipeline_purge (dr_state d) (pipeline d)) d in
  set_engine_driver (reorg (engine_driver d)) d.

Definition handle_next_block_update : M (Driver E P B) unit := fun d =>
  match try_recv_from_channel (chain_watcher d) with
  | (Ok update, w) =>
      let d := set_chain_watcher w d in
      match update with
      | NewBlock l1_info => on_new_block l1_info d
      | Reorg => (Ok tt, on_reorg d)
      | FinalityUpdate num => (Ok tt, set_finalized_l1 num d)
      end
  | (_, w) => (Ok tt, set_chain_watcher w d)
  end.

(** [Driver::update_state_head]. *)
Definition update_state_head d : Driver E P B :=
  set_dr_state (State_update_safe_head (ed_safe_head (engine_driver d)) (ed_safe_epoch (engine_driver d)) (dr_state d)) d.

(** [self.pipeline.next()], which reads the state. *)
Definition next_attributes : M (Driver E P B) (option PayloadAttributes) := fun d =>
  let '(r, p) := Pipeline_next (dr_state d) (pipeline d) in (r, set_pipeline p d).

(** The new safe head, in the state and among the unfinalized blocks. *)
Definition record_safe_head (l1_inclusion_block seq_number : Z) d : Driver E P B :=
  let new_safe_head := ed_safe_head (engine_driver d) in
  let new_safe_epoch := ed_safe_epoch (engine_driver d) in
  let d := set_dr_state (State_update_safe_head new_safe_head new_safe_epoch (dr_state d)) d in
  set_unfinalized (dr_unfinalized_blocks d ++ [(new_safe_head, new_safe_epoch, l1_inclusion_block, seq_number)]) d.

(** The body of the loop of [advance_safe_head]. *)
Definition apply_attributes (a : PayloadAttributes) : M (Driver E P B) unit :=
  l1_inclusion_block ← lift (ok_or (pa_l1_inclusion_block a) "attributes without inclusion block");
  seq_number ← lift (ok_or (pa_seq_number a) "attributes without seq number");
  map_err "failed to handle attributes: " (zoom engine_driver set_engine_driver (handle_attributes a)) ;;
  modify (record_safe_head l1_inclusion_block seq_number).

Fixpoint drain (fuel : nat) : M (Driver E P B) unit :=
  match fuel with
  | O => lift Diverge
  | S fuel =>
      next ← next_attributes;
      match next with
      | None => mret tt
      | Some a => apply_attributes a ;; drain fuel
      end
  end.

Definition advance_safe_head (fuel : nat) : M (Driver E P B) unit :=
  handle_next_block_update ;;
  modify update_state_head ;;
  drain fuel.

(** The payloads kept by the [retain] of [advance_unsafe_head]. *)
Definition in_unsafe_window d (p : ExecutionPayload) : bool :=
  let unsafe_block_num := pl_block_number p in
  let synced_block_num := bi_number (unsafe_head (engine_driver d)) in
  (synced_block_num <? unsafe_block_num) && (u64_sub unsafe_block_num synced_block_num <? 1024).

Definition collect_unsafe d : Driver E P B :=
  let d := set_future (future_unsafe_blocks d ++ unsafe_block_recv d) [] d in
  set_future (filter (fun p => in_unsafe_window d p) (future_unsafe_blocks d)) (unsafe_block_recv d) d.

Definition advance_unsafe_head : M (Driver E P B) unit :=
  modify collect_unsafe ;;
  next_unsafe_payload ← gets (fun d =>
    find (fun p => bool_decide (pl_parent_hash p = bi_hash (unsafe_head (engine_driver d)))) (future_unsafe_blocks d));
  match next_unsafe_payload with
  | Some payload => ignore_err (zoom engine_driver set_engine_driver (handle_unsafe_payload payload))
  | None => mret tt
  end.

(** [Driver::update_finalized]. *)
Definition finalizable d (u : Unfinalized) : bool :=
  let '(_, _, inclusion, seq) := u in (inclusion <=? finalized_l1_block_number d) && (seq =? 0).

Definition update_finalized d : Driver E P B :=
  let new_finalized := last (filter (fun u => finalizable d u) (dr_unfinalized_blocks d)) in
  let d :=
    match new_finalized with
    | Some (head, epoch, _, _) => set_engine_driver (ed_update_finalized head epoch (engine_driver d)) d
    | None => d
    end in
  set_unfinalized
    (filter (fun u => finalized_l1_block_number d < (let '(_, _, inclusion, _) := u in inclusion))
      (dr_unfinalized_blocks d)) d.

Definition synced d : bool := negb (bool_decide (dr_unfinalized_blocks d = [])).

Definition try_start_networking : M (Driver E P B) unit := fun d =>
  if synced d then
    match network_service d with
    | NotStarted service =>
        match service_start service with
        | Ok _ => (Ok tt, set_network (Listening (handlers service)) d)
        | Err e => (Err e, set_network Closed d)
        | Panic => (Panic, d)
        | Diverge => (Diverge, d)
        end
    | _ => (Ok tt, d)
    end
  else (Ok tt, d).

(** [Driver::advance]; the gauges it also sets are those of Telemetry.v. *)
Definition advance (fuel : nat) : M (Driver E P B) unit :=
  advance_safe_head fuel ;;
  advance_unsafe_head ;;
  modify update_finalized ;;
  try_start_networking.

(** [Driver::shutdown]. *)
Definition shutdown : M (Driver E P B) unit := lift (Err "exit 0").

Definition check_shutdown : M (Driver E P B) unit := fun d =>
  if shutdown_recv d then shutdown d else (Ok tt, d).

(** One turn of the loop of [Driver::start]; a fatal error shuts the driver down. *)
Definition shutdown_on_err (m : M (Driver E P B) unit) : M (Driver E P B) unit := fun d =>
  match m d with
  | (Err _, d) => shutdown d
  | r => r
  end.

Definition turn (fuel : nat) : M (Driver E P B) unit :=
  check_shutdown ;;
  shutdown_on_err (advance fuel).

(** [Driver::await_engine_ready], at most [fuel] attempts. *)
Fixpoint await_engine_ready (fuel : nat) : M (Driver E P B) unit :=
  match fuel with
  | O => lift Diverge
  | S fuel =>
      ready ← zoom engine_driver set_engine_driver engine_ready;
      if ready : bool then mret tt else check_shutdown ;; await_engine_ready fuel
  end.

(** The part of [Driver::start] before the loop. *)
Definition start_up (fuel : nat) : M (Driver E P B) unit :=
  await_engine_ready fuel ;;
  modify (fun d => set_chain_watcher (start (chain_watcher d)) d).
End Driver.

(** ** The other tasks

    A gossip message that arrives: the handlers see the current signer and write the
    channel that the driver reads; a panic ends the task and drops the receiver of
    the signer. *)

Section gossip.
Context {E P B : Type} `{Keccak, Snappy, Ssz, Ecdsa}.
Implicit Types d : Driver E P B.

Definition with_channels (signer : bytes) (queue : list ExecutionPayload) (s : BlockHandler) : BlockHandler :=
  {| bh_chain_id := bh_chain_id s; block_sender := queue; unsafe_signer_recv := signer;
     blocks_v1_topic := blocks_v1_topic s; blocks_v2_topic := blocks_v2_topic s;
     blocks_v3_topic := blocks_v3_topic s |}.

Definition gossip (now : Z) (msg : Message) d : Driver E P B :=
  match network_service d with
  | Listening l =>
      let l := with_channels (unsafe_block_signer_sender d) (unsafe_block_recv d) <$> l in
      match Event_handle now msg l with
      | (Panic, _) => set_network Closed d
      | (_, l) =>
          set_network (Listening l)
            (set_future (future_unsafe_blocks d) (default (unsafe_block_recv d) (block_sender <$> head l)) d)
      end
  | _ => d
  end.
End gossip.

(** ** Lemmas *)

Section lemmas.
Context {E P B : Type} `{Engine E, BlockProvider E, Keccak, Codec, RlpDecoder, Varint, Zlib, TransactionRlp, ToBeBytes8}.
Context `{ServiceStart}.
Implicit Types d : Driver E P B.

(** The engine driver's call, seen from its contract. *)
Lemma handle_attributes_base a (ed : EngineDriver E) r ed' :
  handle_attributes a ed = (r, ed') ->
  same_base ed ed' /\
  (bi_number (ed_safe_head ed) <= bi_number (unsafe_head ed) ->
   bi_number (ed_safe_head ed') <= bi_number (unsafe_head ed')) /\
  (r = Ok tt -> forkchoice_set ed').
Proof.
  intros Eh. apply handle_attributes_handled in Eh.
  destruct Eh as [r ed' Hb Hr Hs Hep Hu|r ed' block e0 head epoch e Hreply Hdesc Hh He -> Hf
                 |r ed' reply e0 payload e1 e2 epoch e Hreply Hskip Hbuilt Ht He -> Hf].
  - split_and!; [apply Hb..| |done]. rewrite Hs. destruct Hu as [->| ->]; lia.
  - pose proof (update_safe_head_spec head epoch false ed) as (_ & Hb & Hs & Hep & Hu).
    cbn [ed_safe_head unsafe_head set_engine]. rewrite Hs, Hu. split_and!; [apply Hb..| |done].
    destruct (decide (false = true \/ _)) as [|Hn]; [lia|].
    destruct (decide (bi_number (unsafe_head ed) < bi_number head)); [by destruct Hn; right|lia].
  - pose proof (update_safe_head_spec (BlockInfo_from_payload payload) epoch true (set_unsafe_head (build_base reply ed) ed))
      as (_ & Hb & Hs & Hep & Hu). rewrite (decide_True (P := true = true \/ _)) in Hu by auto.
    cbn [ed_safe_head unsafe_head set_engine]. rewrite Hs, Hu. split_and!; [apply Hb..|lia|done].
Qed.

(** The driver and its state agree on the safe head. *)
Definition heads_agree d : Prop :=
  safe_head (dr_state d) = ed_safe_head (engine_driver d) /\ safe_epoch (dr_state d) = ed_safe_epoch (engine_driver d).

Definition heads_ordered d : Prop :=
  bi_number (ed_safe_head (engine_driver d)) <= bi_number (unsafe_head (engine_driver d)).

(** What the derivation leaves alone. *)
Definition other_parts d :=
  (finalized_l1_block_number d, future_unsafe_blocks d, chain_watcher d, shutdown_recv d, unsafe_block_recv d,
   unsafe_block_signer_sender d, network_service d, dr_channel_timeout d).

(** The blocks that a run of the loop of [advance_safe_head] handles: one entry for each
    attributes that the pipeline yields, until it yields none. *)
Inductive drained : Driver E P B -> list Unfinalized -> Driver E P B -> Prop :=
| drained_end d p : Pipeline_next (dr_state d) (pipeline d) = (Ok None, p) -> drained d [] (set_pipeline p d)
| drained_step d a p ed inclusion seq l d' :
    Pipeline_next (dr_state d) (pipeline d) = (Ok (Some a), p) ->
    pa_l1_inclusion_block a = Some inclusion -> pa_seq_number a = Some seq ->
    handle_attributes a (engine_driver d) = (Ok tt, ed) ->
    drained (record_safe_head inclusion seq (set_engine_driver ed (set_pipeline p d))) l d' ->
    drained d ((ed_safe_head ed, ed_safe_epoch ed, inclusion, seq) :: l) d'.

Lemma apply_attributes_Ok a d d' :
  apply_attributes a d = (Ok tt, d') <->
  exists inclusion seq ed, pa_l1_inclusion_block a = Some inclusion /\ pa_seq_number a = Some seq /\
    handle_attributes a (engine_driver d) = (Ok tt, ed) /\
    d' = record_safe_head inclusion seq (set_engine_driver ed d).
Proof.
  unfold apply_attributes. run_M. unfold map_err. destruct (pa_l1_inclusion_block a) as [n|]; cbn [ok_or]; [|naive_solver].
  destruct (pa_seq_number a) as [m|]; cbn [ok_or]; [|naive_solver].
  destruct (handle_attributes a (engine_driver d)) as [[[]| | |] ed]; naive_solver.
Qed.

Lemma drain_S fuel d :
  drain (S fuel) d =
    let '(r, p) := Pipeline_next (dr_state d) (pipeline d) in
    match r with
    | Ok None => (Ok tt, set_pipeline p d)
    | Ok (Some a) =>
        let '(r, d1) := apply_attributes a (set_pipeline p d) in
        match r with
        | Ok _ => drain fuel d1
        | Err e => (Err e, d1)
        | Panic => (Panic, d1)
        | Diverge => (Diverge, d1)
        end
    | Err e => (Err e, set_pipeline p d)
    | Panic => (Panic, set_pipeline p d)
    | Diverge => (Diverge, set_pipeline p d)
    end.
Proof.
  cbn [drain]. unfold next_attributes. run_M. destruct (Pipeline_next (dr_state d) (pipeline d)) as [[[a|]| | |] p]; done.
Qed.

(** A unit of fuel for each block, and one for the end, are enough. *)
Lemma drained_drain d l d' : drained d l d' -> forall fuel, (length l < fuel)%nat -> drain fuel d = (Ok tt, d').
Proof.
  induction 1 as [d p En|d a p ed n m l d' En Hn Hm Hh _ IH]; intros [|fuel] Hf; cbn in Hf; try lia.
  - by rewrite drain_S, En.
  - rewrite drain_S, En.
    assert (Ha : apply_attributes a (set_pipeline p d) =
      (Ok tt, record_safe_head n m (set_engine_driver ed (set_pipeline p d))))
      by (apply apply_attributes_Ok; by exists n, m, ed). rewrite Ha. apply IH. lia.
Qed.

(** The loop with fuel and its big-step description. *)
Lemma drain_drained d d' : (exists fuel, drain fuel d = (Ok tt, d')) <-> (exists l, drained d l d').
Proof.
  split.
  - intros [fuel Ef]. revert d Ef. induction fuel as [|fuel IH]; intros d Ef; [done|]. rewrite drain_S in Ef.
    destruct (Pipeline_next (dr_state d) (pipeline d)) as [[[a|]| | |] p] eqn:En; try done.
    + destruct (apply_attributes a (set_pipeline p d)) as [[[]| | |] d1] eqn:Ea; try done.
      apply apply_attributes_Ok in Ea as (n & m & ed & Hn & Hm & Hh & ->). destruct (IH _ Ef) as [l Hl].
      eexists. by eapply drained_step.
    + injection Ef as <-. exists []. by constructor.
  - intros [l Hl]. exists (S (length l)). apply (drained_drain _ _ _ Hl). lia.
Qed.

(** What the loop does, whatever the client answers. *)
Lemma drained_spec d l d' :
  drained d l d' -> heads_agree d ->
  heads_agree d' /\ same_base (engine_driver d) (engine_driver d') /\ (heads_ordered d -> heads_ordered d') /\
  dr_unfinalized_blocks d' = dr_unfinalized_blocks d ++ l /\ other_parts d' = other_parts d /\
  (exists p, Pipeline_next (dr_state d') p = (Ok None, pipeline d')) /\
  match last l with
  | Some (head, epoch, _, _) => ed_safe_head (engine_driver d') = head /\ ed_safe_epoch (engine_driver d') = epoch /\
      forkchoice_set (engine_driver d')
  | None => engine_driver d' = engine_driver d
  end.
Proof.
  induction 1 as [d p En|d a p ed n m l d' En Hn Hm Hh _ IH]; intros Hd.
  - split; [done|]. split; [apply same_base_refl|]. split; [done|]. split; [by rewrite app_nil_r|]. split; [done|].
    split; [by exists (pipeline d)|done].
  - apply handle_attributes_base in Hh as (Hb & Ho & Hf).
    destruct IH as (Ha & Hb' & Ho' & Hu & Hp & Hx & Hlast); [done|]. cbn in Hb', Hu.
    split; [done|]. split; [unfold same_base in *; naive_solver congruence|].
    split; [intros Hd'; by apply Ho', Ho|]. split; [by rewrite Hu, <- app_assoc|]. split; [by rewrite Hp|].
    split; [done|]. rewrite last_cons. destruct (last l) as [[[[h e] i] q]|]; [done|]. rewrite Hlast. cbn.
    by split_and!; [..|apply Hf].
Qed.

Lemma update_l1_info_heads i s s' :
  update_l1_info i s = Ok s' ->
  safe_head s' = safe_head s /\ safe_epoch s' = safe_epoch s /\ st_config s' = st_config s.
Proof.
  rewrite update_l1_info_eq. intros Hu.
  destruct (decide (blocktime (chain (st_config (with_l1_info i s))) = 0)) as [Hz|Hz].
  - by rewrite prune_zero in Hu.
  - destruct (prune_Ok _ Hz) as (s1 & Hp & Hpr). rewrite Hp in Hu. injection Hu as <-.
    destruct (pruned_rest _ _ Hpr) as (Hh & He & Hrest). split_and!; [done..|]. apply Hrest.
Qed.

(** The update at the front of the watcher's channel. *)
Definition next_update d : option BlockUpdate :=
  match block_update_receiver (chain_watcher d) with Some (u :: _) => Some u | _ => None end.

(** A new block whose data is of a size that the bank can count. *)
Definition update_fits (config : Config) (u : option BlockUpdate) : Prop :=
  match u with
  | Some (NewBlock info) => msg_fits (max_channel_size (chain config))
      {| msg_txs := batcher_transactions info; msg_l1_origin := l1b_number (block_info info) |}
  | _ => True
  end.

Record driver_inv (config : Config) d : Prop := {
  driver_heads : heads_agree d;
  driver_order : heads_ordered d;
  driver_finalized : Forall (fun '(_, _, inclusion, _) => finalized_l1_block_number d < inclusion) (dr_unfinalized_blocks d);
  driver_pipeline : pipeline_inv config (pipeline d);
  driver_config : cw_config (chain_watcher d) = config /\ st_config (dr_state d) = config /\
    dr_channel_timeout d = channel_timeout (chain config)
}.

(** The invariant but for the finalized blocks, which the end of a turn restores. *)
Record turn_inv (config : Config) d : Prop := {
  turn_heads : heads_agree d;
  turn_order : heads_ordered d;
  turn_pipeline : pipeline_inv config (pipeline d);
  turn_config : cw_config (chain_watcher d) = config /\ st_config (dr_state d) = config /\
    dr_channel_timeout d = channel_timeout (chain config)
}.

Lemma try_recv_eq (w : ChainWatcher P B) :
  exists r w', try_recv_from_channel w = (r, w') /\ cw_config w' = cw_config w /\ handle w' = handle w /\
    match block_update_receiver w with
    | Some (u :: q) => r = Ok u /\ block_update_receiver w' = Some q
    | _ => w' = w /\ forall u, r <> Ok u
    end.
Proof. unfold try_recv_from_channel. destruct (block_update_receiver w) as [[|u q]|]; by eexists _, _. Qed.

Lemma on_new_block_Ok info d d' :
  on_new_block info d = (Ok tt, d') ->
  exists s, network_service d <> Closed /\ update_l1_info info (dr_state d) = Ok s /\
    d' = set_dr_state s (set_pipeline
      (push_batcher_transactions (batcher_transactions info) (l1b_number (block_info info)) (pipeline d))
      (set_signer (unsafe_block_signer (l1i_system_config info)) d)).
Proof.
  unfold on_new_block, send_signer. run_M.
  destruct (network_service d) eqn:Hn; [| |done];
    change (dr_state (set_pipeline _ (set_signer _ d))) with (dr_state d);
    destruct (update_l1_info info (dr_state d)) as [s| | |] eqn:Es; try done;
    intros [= <-]; by exists s.
Qed.

Lemma handle_next_block_update_inv config d d' :
  turn_inv config d -> update_fits config (next_update d) -> handle_next_block_update d = (Ok tt, d') ->
  turn_inv config d'.
Proof.
  intros [Hh Ho Hp (Hc1 & Hc2 & Hc3)] Hfits. unfold handle_next_block_update, next_update in *.
  destruct (try_recv_eq (chain_watcher d)) as (r & w' & -> & Hw & _ & Hr).
  assert (Hsame : turn_inv config (set_chain_watcher w' d)) by (split; [done..|cbn; by rewrite Hw]).
  destruct (block_update_receiver (chain_watcher d)) as [[|u q]|].
  - destruct Hr as [_ Hr]. destruct r as [u| | |]; [by destruct (Hr u)|..]; by intros [= <-].
  - destruct Hr as [-> _]. destruct u as [info|num|].
    + intros (s & _ & Hs & ->)%on_new_block_Ok. cbn in Hs. apply update_l1_info_heads in Hs as (Hs1 & Hs2 & Hs3).
      split; unfold heads_agree, heads_ordered in *; cbn; rewrite ?Hs1, ?Hs2, ?Hs3, ?Hw; [done..| |done].
      by apply push_inv.
    + intros [= <-]; destruct Hsame; by split.
    + intros [= <-]. split; cbn; [done|unfold heads_ordered; cbn; lia|by apply Pipeline_purge_inv|by rewrite Hw].
  - destruct Hr as [_ Hr]. destruct r as [u| | |]; [by destruct (Hr u)|..]; by intros [= <-].
Qed.

Lemma drained_inv config d l d' : drained d l d' -> turn_inv config d -> turn_inv config d'.
Proof.
  induction 1 as [d p En|d a p ed n m l d' En Hn Hm Hh _ IH]; intros [Ha Ho Hp Hc].
  - apply (Pipeline_next_inv _ config) in En as (Hp' & _); [|done]. by split.
  - apply (Pipeline_next_inv _ config) in En as (Hp' & _); [|done]. apply handle_attributes_base in Hh as (_ & Ho' & _).
    apply IH. split; [done|by apply Ho'|done|done].
Qed.

Lemma advance_safe_head_inv config fuel d d' :
  turn_inv config d -> update_fits config (next_update d) -> advance_safe_head fuel d = (Ok tt, d') ->
  turn_inv config d'.
Proof.
  intros Hd Hf Ea. unfold advance_safe_head in Ea.
  apply M_bind_cases in Ea as [([] & d1 & E1 & Ea)|(? & _ & _ & Hr)]; [|by destruct (Hr tt)].
  apply (handle_next_block_update_inv config) in E1; [|done..]. run_M in Ea.
  destruct (proj1 (drain_drained (update_state_head d1) d')) as [l Hl]; [by exists fuel|].
  apply (drained_inv config) in Hl; [done|]. destruct E1 as [Hh Ho Hp Hc]. by split.
Qed.

Lemma handle_unsafe_payload_spec p (ed : EngineDriver E) r ed' :
  handle_unsafe_payload p ed = (r, ed') ->
  same_base ed ed' /\ ed_safe_head ed' = ed_safe_head ed /\ ed_safe_epoch ed' = ed_safe_epoch ed /\
  (unsafe_head ed' = unsafe_head ed \/ unsafe_head ed' = BlockInfo_from_payload p /\
   exists e, payload_taken_at p (engine ed) e).
Proof.
  unfold handle_unsafe_payload. run_M. intros Eu.
  destruct (push_payload p ed) as [o ed1] eqn:Ep. apply push_payload_frame in Ep as (e1 & -> & Ht).
  destruct o as [[]| | |]; try (injection Eu as <- <-; cbn; split; [done|auto]).
  apply update_forkchoice_frame in Eu as [[e2 ->] _]. cbn. split; [done|]. split; [done|]. split; [done|].
  right. split; [done|]. exists e1. by apply Ht.
Qed.

Lemma advance_unsafe_head_spec d r d' :
  advance_unsafe_head d = (r, d') ->
  unsafe_block_recv d' = [] /\
  future_unsafe_blocks d' =
    filter (fun p => in_unsafe_window d p) (future_unsafe_blocks d ++ unsafe_block_recv d) /\
  same_base (engine_driver d) (engine_driver d') /\
  ed_safe_head (engine_driver d') = ed_safe_head (engine_driver d) /\
  ed_safe_epoch (engine_driver d') = ed_safe_epoch (engine_driver d) /\
  (unsafe_head (engine_driver d') = unsafe_head (engine_driver d) \/
   exists p, p ∈ future_unsafe_blocks d' /\ pl_parent_hash p = bi_hash (unsafe_head (engine_driver d)) /\
     (exists e, payload_taken_at p (engine (engine_driver d)) e) /\
     unsafe_head (engine_driver d') = BlockInfo_from_payload p) /\
  (pipeline d', dr_unfinalized_blocks d', finalized_l1_block_number d', dr_state d', chain_watcher d') =
  (pipeline d, dr_unfinalized_blocks d, finalized_l1_block_number d, dr_state d, chain_watcher d) /\
  (network_service d', dr_channel_timeout d', shutdown_recv d') = (network_service d, dr_channel_timeout d, shutdown_recv d).
Proof.
  unfold advance_unsafe_head. run_M. set (d1 := collect_unsafe d). intros Ea.
  destruct (find _ (future_unsafe_blocks d1)) as [p|] eqn:Ef.
  - unfold ignore_err in Ea. destruct (handle_unsafe_payload p (engine_driver d1)) as [o ed] eqn:Eh.
    apply handle_unsafe_payload_spec in Eh as (Hb & Hs & He & Hu).
    assert (Hd' : d' = set_engine_driver ed d1) by (by destruct o as [[]| | |]; injection Ea as _ <-). subst d'.
    apply find_some in Ef as [Hin Hp]. apply bool_decide_eq_true in Hp. cbn.
    split_and!; try done. destruct Hu as [Hu|[Hu Ht]]; [by left|right]. exists p.
    split; [by apply list_elem_of_In|done].
  - injection Ea as _ <-. cbn. split_and!; try done. by left.
Qed.

Lemma in_unsafe_window_after d p :
  in_unsafe_window d p = true -> bi_number (unsafe_head (engine_driver d)) < pl_block_number p.
Proof. unfold in_unsafe_window. rewrite andb_true_iff, !Z.ltb_lt. by intros [? _]. Qed.

Lemma advance_unsafe_head_inv config d r d' :
  turn_inv config d -> advance_unsafe_head d = (r, d') -> turn_inv config d'.
Proof.
  intros [[Hh1 Hh2] Ho Hp Hc] Ea. apply advance_unsafe_head_spec in Ea as (_ & Hf & _ & Hs & He & Hu & Hrest & Hrest2).
  injection Hrest as Hr1 Hr2 Hr3 Hr4 Hr5. injection Hrest2 as _ Hr6 _.
  unfold heads_agree, heads_ordered in *. split.
  - unfold heads_agree. by rewrite Hr4, Hs, He.
  - unfold heads_ordered. rewrite Hs. destruct Hu as [->|(p & Hin & _ & _ & ->)]; [done|]. cbn.
    rewrite Hf in Hin. apply list_elem_of_filter in Hin as [Hw _].
    apply Is_true_true, in_unsafe_window_after in Hw. lia.
  - by rewrite Hr1.
  - by rewrite Hr4, Hr5, Hr6.
Qed.

(** Finalizing: the last block that can be, and the blocks kept. *)
Lemma update_finalized_inv config d : turn_inv config d -> driver_inv config (update_finalized d).
Proof.
  intros [Hh Ho Hp Hc]. unfold update_finalized. cbn zeta.
  assert (Hin : forall n l, Forall (fun '(_, _, inclusion, _) => n < inclusion)
    (filter (fun u : Unfinalized => n < (let '(_, _, inclusion, _) := u in inclusion)) l)).
  { intros n l. apply Forall_forall. intros [[[h e] i] q] [Hi _]%list_elem_of_filter. done. }
  destruct (last _) as [[[[h e] i] q]|]; (split; cbn; [done|done|apply Hin|done|done]).
Qed.

Lemma try_start_networking_inv config d r d' :
  driver_inv config d -> try_start_networking d = (r, d') -> driver_inv config d'.
Proof.
  intros Hd. unfold try_start_networking. destruct (synced d); [|by intros [= _ <-]].
  destruct (network_service d) as [s| |]; [|by intros [= _ <-]..].
  destruct (service_start s); intros [= _ <-]; destruct Hd; by split.
Qed.

Lemma turn_driver_inv config fuel d d' :
  driver_inv config d -> update_fits config (next_update d) -> turn fuel d = (Ok tt, d') -> driver_inv config d'.
Proof.
  intros [Hh Ho Hf Hp Hc] Hfits Et. unfold turn in Et.
  apply M_bind_cases in Et as [([] & d1 & E1 & Et)|(? & _ & _ & Hr)]; [|by destruct (Hr tt)].
  unfold check_shutdown in E1. destruct (shutdown_recv d); [done|]. injection E1 as <-.
  unfold shutdown_on_err in Et. destruct (advance fuel d) as [[[]| | |] d2] eqn:Ea; try done. injection Et as <-.
  unfold advance in Ea.
  apply M_bind_cases in Ea as [([] & d3 & E3 & Ea)|(? & _ & _ & Hr)]; [|by destruct (Hr tt)].
  apply (advance_safe_head_inv config) in E3; [|done..].
  apply M_bind_cases in Ea as [([] & d4 & E4 & Ea)|(? & _ & _ & Hr)]; [|by destruct (Hr tt)].
  apply (advance_unsafe_head_inv config) in E4; [|done]. run_M in Ea.
  eapply try_start_networking_inv; [by apply update_finalized_inv|done].
Qed.

Lemma from_config_inv head l2_block (engine : E) config shutdown d :
  limits_ok config -> from_config head l2_block engine config shutdown = Ok d -> driver_inv config d.
Proof.
  intros Hl Hf. unfold from_config in Hf. apply bind_Ok in Hf as (s & Hs & Hf). injection Hf as <-.
  unfold State_new in Hs. apply bind_Ok in Hs as (refs & _ & Hs). injection Hs as <-.
  split; cbn; [done|unfold heads_ordered; cbn; lia|constructor|by apply Pipeline_new_inv|done].
Qed.
End lemmas.
