(* ===== verification/Node.v ===== *)
(** The node: the driver together with the tasks that run beside it, the watcher of L1
    and the gossip service, whose steps interleave with the turns of the driver.

    No definition of this file is code of its own, apart from the relation of the steps:
    the file states what the components promise together, from an L1 block and a gossip
    message to the heads of the L2 chain. *)
From S2P Require Import Prelude Purgeable Codecs Common Concrete Config Deposits L1Info HeadInfo State BatcherTransactions.
From S2P Require Import Channels SingleBatch SpanBatch Batches Engine Ecotone Attributes EngineDriver.
From S2P Require Import Json Blobs ChainWatcher Gossip Pipeline Driver.

(** ** The steps *)

Section node.
Context {E P B : Type} `{Engine E, BlockProvider E, Keccak, Codec, RlpDecoder, Varint, Zlib, TransactionRlp, ToBeBytes8}.
Context `{ServiceStart, Snappy, Ssz, Ecdsa, L1Provider P, Http P, BlockProvider P, Beacon B}.
Implicit Types d : Driver E P B.

(** A turn that does not end the process, a turn of the watcher's task with its client,
    a gossip message at a time, and the signal to stop. *)
Inductive node_step (config : Config) : Driver E P B -> Driver E P B -> Prop :=
| step_turn fuel d d' :
    update_fits config (next_update d) -> turn fuel d = (Ok tt, d') -> node_step config d d'
| step_watcher client d : node_step config d (set_chain_watcher (run_task client (chain_watcher d)) d)
| step_gossip now msg d : node_step config d (gossip now msg d)
| step_shutdown d : node_step config d (set_shutdown true d).

(** ** Lemmas *)

Lemma run_task_config client (w : ChainWatcher P B) : cw_config (run_task client w) = cw_config w.
Proof.
  unfold run_task. destruct (handle w) as [t|]; [|done]. destruct (block_update_receiver w) as [q|]; [|done].
  by destruct (task_step client t q).
Qed.

(** What a message of the network can change. *)
Lemma gossip_frame now msg d :
  (pipeline (gossip now msg d), engine_driver (gossip now msg d), dr_unfinalized_blocks (gossip now msg d),
   finalized_l1_block_number (gossip now msg d), dr_state (gossip now msg d), chain_watcher (gossip now msg d),
   dr_channel_timeout (gossip now msg d)) =
  (pipeline d, engine_driver d, dr_unfinalized_blocks d, finalized_l1_block_number d, dr_state d, chain_watcher d,
   dr_channel_timeout d).
Proof. unfold gossip. destruct (network_service d); [done| |done]. by destruct (Event_handle _ _ _) as [[o| | |] l]. Qed.

Lemma driver_inv_frame config d d' :
  (pipeline d', engine_driver d', dr_unfinalized_blocks d', finalized_l1_block_number d', dr_state d',
   cw_config (chain_watcher d'), dr_channel_timeout d') =
  (pipeline d, engine_driver d, dr_unfinalized_blocks d, finalized_l1_block_number d, dr_state d,
   cw_config (chain_watcher d), dr_channel_timeout d) ->
  driver_inv config d -> driver_inv config d'.
Proof.
  intros [= Hp He Hu Hf Hs Hw Hc] [Ha Ho Hf' Hp' Hc']. unfold heads_agree, heads_ordered in *.
  split; unfold heads_agree, heads_ordered; rewrite ?Hp, ?He, ?Hu, ?Hf, ?Hs, ?Hw, ?Hc; done.
Qed.

Lemma node_step_inv config d d' : node_step config d d' -> driver_inv config d -> driver_inv config d'.
Proof.
  intros [fuel d1 d2 Hf Ht|client d1|now msg d1|d1] Hd.
  - by eapply turn_driver_inv.
  - revert Hd. apply driver_inv_frame. cbn. by rewrite run_task_config.
  - revert Hd. apply driver_inv_frame. pose proof (gossip_frame now msg d1) as Hg.
    injection Hg as -> -> -> -> -> -> ->. done.
  - revert Hd. by apply driver_inv_frame.
Qed.

Lemma await_engine_ready_frame fuel d r d' :
  await_engine_ready fuel d = (r, d') -> exists e, d' = set_engine_driver (set_engine e (engine_driver d)) d.
Proof.
  revert d. induction fuel as [|fuel IH]; intros d Ea.
  - injection Ea as _ <-. exists (engine (engine_driver d)). by destruct d as [? []].
  - cbn [await_engine_ready] in Ea. run_M in Ea. destruct (engine_ready (engine_driver d)) as [o ed] eqn:Er.
    assert (Hed : exists e, ed = set_engine e (engine_driver d)).
    { unfold engine_ready in Er. destruct (call _ (engine_driver d)) as [o' d1] eqn:Ec.
      apply call_eq in Ec as (e & _ & ->). exists e. by destruct o'; injection Er as _ <-. }
    destruct Hed as [e ->]. destruct o as [[]| | |]; try (injection Ea as _ <-; by exists e).
    unfold check_shutdown in Ea. cbn in Ea. destruct (shutdown_recv d); [injection Ea as _ <-; by exists e|].
    apply IH in Ea as [e' ->]. by exists e'.
Qed.

Lemma start_up_inv config fuel d d' : start_up fuel d = (Ok tt, d') -> driver_inv config d -> driver_inv config d'.
Proof.
  intros Es. unfold start_up in Es. run_M in Es. destruct (await_engine_ready fuel d) as [o d1] eqn:Ea.
  apply await_engine_ready_frame in Ea as [e ->]. destruct o; try done. injection Es as <-.
  intros [Ha Ho Hf Hp Hc]. by split.
Qed.

(** The update at the front of the channel, taken. *)
Lemma next_update_queue d u :
  next_update d = Some u <-> exists q, block_update_receiver (chain_watcher d) = Some (u :: q).
Proof.
  unfold next_update. destruct (block_update_receiver (chain_watcher d)) as [[|u' q]|]; naive_solver.
Qed.

(** The driver after [handle_next_block_update] has taken an update. *)
Lemma handle_next_block_update_eq d u q :
  block_update_receiver (chain_watcher d) = Some (u :: q) ->
  let d1 := set_chain_watcher (set_receiver (Some q) (chain_watcher d)) d in
  handle_next_block_update d =
    match u with
    | NewBlock l1_info => on_new_block l1_info d1
    | Reorg => (Ok tt, on_reorg d1)
    | FinalityUpdate num => (Ok tt, set_finalized_l1 num d1)
    end.
Proof. intros Hq. unfold handle_next_block_update, try_recv_from_channel. by rewrite Hq. Qed.

Lemma handle_next_block_update_none d :
  next_update d = None -> handle_next_block_update d = (Ok tt, d).
Proof.
  unfold next_update, handle_next_block_update, try_recv_from_channel.
  destruct (block_update_receiver (chain_watcher d)) as [[|u q]|]; [by destruct d|done|by destruct d].
Qed.

(** A turn that goes on, taken apart. *)
Lemma turn_Ok fuel d d' :
  turn fuel d = (Ok tt, d') <->
  shutdown_recv d = false /\
  exists d1 l d2 d3, handle_next_block_update d = (Ok tt, d1) /\ drain fuel (update_state_head d1) = (Ok tt, d2) /\
    drained (update_state_head d1) l d2 /\ advance_unsafe_head d2 = (Ok tt, d3) /\
    try_start_networking (update_finalized d3) = (Ok tt, d').
Proof.
  unfold turn, advance, advance_safe_head. rewrite M_bind_Ok. unfold check_shutdown, shutdown_on_err, shutdown.
  assert (Ha : forall d2, (match advance fuel d with (Err _, d2) => (Err "exit 0", d2) | r => r end) = (Ok tt, d2) <->
    advance fuel d = (Ok tt, d2)) by (intros d2; destruct (advance fuel d) as [[[]| | |] d3]; naive_solver).
  split.
  - intros ([] & d0 & E0 & Et). destruct (shutdown_recv d); [done|]. injection E0 as <-. split; [done|].
    apply Ha in Et. unfold advance, advance_safe_head in Et.
    apply M_bind_Ok in Et as ([] & d2 & E2 & Et). apply M_bind_Ok in E2 as ([] & d1 & E1 & E2).
    apply M_bind_Ok in Et as ([] & d3 & E3 & Et). run_M in E2. run_M in Et.
    destruct (proj1 (drain_drained (update_state_head d1) d2)) as [l Hl]; [by exists fuel|].
    by exists d1, l, d2, d3.
  - intros (Hs & d1 & l & d2 & d3 & E1 & E2 & _ & E3 & Et). exists tt, d. rewrite Hs. split; [done|].
    apply Ha. unfold advance, advance_safe_head. apply M_bind_Ok. exists tt, d2. split.
    + apply M_bind_Ok. exists tt, d1. split; [done|]. by run_M.
    + apply M_bind_Ok. exists tt, d3. split; [done|]. by run_M.
Qed.

(** Once the receiver of the signer is gone, it stays gone. *)
Lemma on_reorg_network d : network_service (on_reorg d) = network_service d.
Proof. done. Qed.

Lemma handle_next_block_update_network d d' :
  handle_next_block_update d = (Ok tt, d') -> network_service d' = network_service d.
Proof.
  destruct (next_update d) as [u|] eqn:Eu; [|rewrite handle_next_block_update_none by done; by intros [= <-]].
  apply next_update_queue in Eu as [q Hq]. rewrite (handle_next_block_update_eq d u q Hq).
  destruct u as [info|n|]; [|by intros [= <-]..]. intros (s & _ & _ & ->)%on_new_block_Ok. done.
Qed.

Lemma drained_network d l d' : drained d l d' -> network_service d' = network_service d.
Proof. by induction 1. Qed.

Lemma drained_none d l d' :
  (Pipeline_next (dr_state d) (pipeline d)).1 = Ok None -> drained d l d' -> l = [].
Proof. intros Hn. destruct 1 as [d p|d a p ed n m l d' En]; [done|]. by rewrite En in Hn. Qed.

Lemma turn_closed fuel d d' :
  turn fuel d = (Ok tt, d') -> network_service d = Closed -> network_service d' = Closed.
Proof.
  intros (_ & d1 & l & d2 & d3 & E1 & _ & Hl & E3 & Et)%turn_Ok Hc.
  apply handle_next_block_update_network in E1. rewrite Hc in E1.
  assert (Hn2 : network_service d2 = Closed).
  { apply drained_network in Hl. by rewrite Hl. }
  apply advance_unsafe_head_spec in E3 as (_ & _ & _ & _ & _ & _ & _ & Hrest). injection Hrest as Hn _ _.
  rewrite Hn2 in Hn. unfold try_start_networking in Et.
  assert (Hu : network_service (update_finalized d3) = Closed).
  { unfold update_finalized. cbn zeta. by destruct (last _) as [[[[h e] i] q]|]. }
  destruct (synced _); [|by injection Et as <-]. rewrite Hu in Et. by injection Et as <-.
Qed.

Lemma node_step_closed config d d' :
  node_step config d d' -> network_service d = Closed -> network_service d' = Closed.
Proof.
  intros [fuel d1 d2 _ Ht|client d1|now msg d1|d1] Hc; [by eapply turn_closed|done| |done].
  unfold gossip. by rewrite Hc.
Qed.

Lemma closed_new_block fuel d info :
  network_service d = Closed -> next_update d = Some (NewBlock info) -> (turn fuel d).1 = Err "exit 0".
Proof.
  intros Hc Hu. apply next_update_queue in Hu as [q Hq]. unfold turn, check_shutdown, shutdown. run_M.
  destruct (shutdown_recv d); [done|]. unfold shutdown_on_err, advance, advance_safe_head. run_M.
  rewrite (handle_next_block_update_eq d _ q Hq). unfold on_new_block, send_signer. run_M.
  cbn [network_service set_chain_watcher]. by rewrite Hc.
Qed.

Lemma update_l1_finalized d d' :
  handle_next_block_update d = (Ok tt, d') ->
  finalized_head (engine_driver d') = finalized_head (engine_driver d) /\
  finalized_epoch (engine_driver d') = finalized_epoch (engine_driver d).
Proof.
  destruct (next_update d) as [u|] eqn:Eu; [|rewrite handle_next_block_update_none by done; by intros [= <-]].
  apply next_update_queue in Eu as [q Hq]. rewrite (handle_next_block_update_eq d u q Hq).
  destruct u as [info|n|]; [|by intros [= <-]..]. intros (s & _ & _ & ->)%on_new_block_Ok. done.
Qed.

Lemma try_start_networking_frame d r d' :
  try_start_networking d = (r, d') ->
  engine_driver d' = engine_driver d /\ finalized_l1_block_number d' = finalized_l1_block_number d /\
  dr_unfinalized_blocks d' = dr_unfinalized_blocks d.
Proof.
  unfold try_start_networking. destruct (synced d); [|by intros [= _ <-]].
  destruct (network_service d) as [s| |]; [|by intros [= _ <-]..]. by destruct (service_start s); intros [= _ <-].
Qed.

Lemma finalizable_spec d (u : Unfinalized) :
  finalizable d u = true <-> u.1.2 <= finalized_l1_block_number d /\ u.2 = 0.
Proof. destruct u as [[[h e] i] q]. cbn. rewrite andb_true_iff, Z.leb_le, Z.eqb_eq. done. Qed.

Lemma filter_none d (l : list Unfinalized) :
  Forall (fun u : Unfinalized => finalized_l1_block_number d < u.1.2 \/ u.2 <> 0) l ->
  filter (fun u => finalizable d u) l = [].
Proof.
  induction 1 as [|u l Hu _ IH]; [done|]. rewrite filter_cons_False; [done|].
  intros Hf%Is_true_true%finalizable_spec. lia.
Qed.

Lemma update_finalized_spec d :
  let d' := update_finalized d in
  let n := finalized_l1_block_number d in
  finalized_l1_block_number d' = n /\
  dr_unfinalized_blocks d' = filter (fun u : Unfinalized => n < u.1.2) (dr_unfinalized_blocks d) /\
  (forall before head epoch inclusion after,
     dr_unfinalized_blocks d = before ++ (head, epoch, inclusion, 0) :: after ->
     inclusion <= n -> Forall (fun u : Unfinalized => n < u.1.2 \/ u.2 <> 0) after ->
     finalized_head (engine_driver d') = head /\ finalized_epoch (engine_driver d') = epoch) /\
  (Forall (fun u : Unfinalized => n < u.1.2 \/ u.2 <> 0) (dr_unfinalized_blocks d) ->
     finalized_head (engine_driver d') = finalized_head (engine_driver d) /\
     finalized_epoch (engine_driver d') = finalized_epoch (engine_driver d)).
Proof.
  cbn zeta. unfold update_finalized. cbn zeta. split_and!.
  - by destruct (last _) as [[[[h e] i] q]|].
  - by destruct (last _) as [[[[h e] i] q]|]; cbn; apply list_filter_iff; intros [[[? ?] ?] ?].
  - intros before head epoch inclusion after Hb Hi Ha. rewrite Hb, filter_app, filter_cons_True, (filter_none d after), last_snoc; [done..|].
    apply Is_true_true, finalizable_spec. done.
  - intros Hall. by rewrite filter_none.
Qed.

Lemma in_unsafe_window_spec d p :
  let head := unsafe_head (engine_driver d) in
  0 <= bi_number head -> in_u64 (pl_block_number p) ->
  in_unsafe_window d p = true <-> bi_number head < pl_block_number p < bi_number head + 1024.
Proof.
  intros head Hn Hr. unfold in_unsafe_window. fold head. rewrite andb_true_iff, !Z.ltb_lt.
  unfold in_u64 in Hr. split; intros Hw; rewrite u64_sub_small in * by (unfold in_u64; lia); lia.
Qed.

Lemma new_block_Ok info d s d' :
  network_service d <> Closed -> update_l1_info info (dr_state d) = Ok s ->
  d' = set_dr_state s (set_pipeline
    (push_batcher_transactions (batcher_transactions info) (l1b_number (block_info info)) (pipeline d))
    (set_signer (unsafe_block_signer (l1i_system_config info)) d)) ->
  on_new_block info d = (Ok tt, d').
Proof.
  intros Hn Hs ->. unfold on_new_block, send_signer. run_M. destruct (network_service d); [| |done];
    change (dr_state (set_pipeline _ (set_signer _ d))) with (dr_state d); by rewrite Hs.
Qed.

(** As long as the sequencing window of the safe epoch is open, no empty block is forced. *)
Lemma window_open state config :
  current_epoch_num state <= u64_add (ep_number (safe_epoch state)) (seq_window_size (chain config)) ->
  empty_input state config = None.
Proof.
  intros Hw. unfold empty_input. destruct (epoch_by_number state _) as [e|]; [|done].
  by rewrite (proj2 (Z.ltb_ge _ _)).
Qed.
End node.

(** ** Properties *)

Section properties.
Context {E P B : Type} `{Engine E, BlockProvider E, Keccak, Codec, RlpDecoder, Varint, Zlib, TransactionRlp, ToBeBytes8}.
Context `{ServiceStart, Snappy, Ssz, Ecdsa, L1Provider P, Http P, BlockProvider P, Beacon B}.
Implicit Types d : Driver E P B.

(** C3. The node in every reachable state.  Whatever the client, the L1 node and the
    peers answer, and however the tasks interleave, as long as no turn has ended the
    process: the driver's state and the engine driver agree on the safe head and
    its epoch; the safe head is not ahead of the unsafe head; every unfinalized block
    was included after the finalized L1 block; and the attributes that the pipeline
    yields next have what the driver and the engine driver unwrap. *)
Theorem node_reachable config head l2_block (engine : E) shutdown n d0 d1 d :
  limits_ok config -> from_config head l2_block engine config shutdown = Ok d0 ->
  start_up n d0 = (Ok tt, d1) -> rtc (node_step config) d1 d ->
  safe_head (dr_state d) = ed_safe_head (engine_driver d) /\ safe_epoch (dr_state d) = ed_safe_epoch (engine_driver d) /\
  bi_number (ed_safe_head (engine_driver d)) <= bi_number (unsafe_head (engine_driver d)) /\
  Forall (fun '(_, _, inclusion, _) => finalized_l1_block_number d < inclusion) (dr_unfinalized_blocks d) /\
  (forall a p, Pipeline_next (dr_state d) (pipeline d) = (Ok (Some a), p) -> attributes_complete a).
Proof.
  intros Hl H0' H1' Hsteps. assert (Hd : driver_inv config d).
  { apply from_config_inv in H0'; [|done]. eapply start_up_inv in H1'; [|done].
    clear - Hsteps H1'. induction Hsteps as [|x y z Hxy _ IH]; [done|]. apply IH. by eapply node_step_inv. }
  destruct Hd as [[Hs1 Hs2] Ho Hf Hp _]. split_and!; try done. intros a p En.
  by destruct (Pipeline_next_inv _ _ _ _ _ Hp En) as (_ & _ & ?).
Qed.

(** C4. How the safe head advances.  The call takes at most one update of the watcher,
    then runs until the pipeline has no attributes left, and appends one unfinalized
    block for each attributes handled, in their order; its last block is the safe
    head of both the engine driver and the state, and the client holds that
    forkchoice; without attributes no head moves.  The loop with enough fuel succeeds
    exactly when such a run exists. *)
Theorem advance_safe_head_spec d d1 d' :
  handle_next_block_update d = (Ok tt, d1) ->
  ((exists fuel, advance_safe_head fuel d = (Ok tt, d')) <-> (exists l, drained (update_state_head d1) l d')) /\
  (forall l, drained (update_state_head d1) l d' ->
     dr_unfinalized_blocks d' = dr_unfinalized_blocks d1 ++ l /\
     safe_head (dr_state d') = ed_safe_head (engine_driver d') /\
     safe_epoch (dr_state d') = ed_safe_epoch (engine_driver d') /\
     finalized_head (engine_driver d') = finalized_head (engine_driver d1) /\
     (exists p, Pipeline_next (dr_state d') p = (Ok None, pipeline d')) /\
     match last l with
     | Some (head, epoch, _, _) => ed_safe_head (engine_driver d') = head /\ ed_safe_epoch (engine_driver d') = epoch /\
         forkchoice_set (engine_driver d')
     | None => engine_driver d' = engine_driver d1
     end).
Proof.
  intros E1. split.
  - rewrite <- drain_drained. unfold advance_safe_head. split; intros [fuel Ef]; exists fuel.
    + apply M_bind_Ok in Ef as ([] & d2 & E2 & Ef). run_M in Ef. congruence.
    + apply M_bind_Ok. exists tt, d1. split; [done|]. by run_M.
  - intros l Hl. apply drained_spec in Hl as ([Hs1 Hs2] & Hb & _ & Hu & _ & Hn & Hlast); [|done].
    split_and!; try done. apply Hb.
Qed.

(** C5. What a turn finalizes.  Of the blocks that were unfinalized and those that the turn
    adds, in this order, the last one that starts an epoch and was included at or
    before the finalized L1 block becomes the finalized head; without such a block the
    finalized head stays; and the blocks included later, and only these, stay
    unfinalized. *)
Theorem turn_finalizes fuel d d' :
  turn fuel d = (Ok tt, d') ->
  exists d1 l d2, handle_next_block_update d = (Ok tt, d1) /\ drained (update_state_head d1) l d2 /\
    let blocks := dr_unfinalized_blocks d1 ++ l in
    let n := finalized_l1_block_number d1 in
    finalized_l1_block_number d' = n /\
    dr_unfinalized_blocks d' = filter (fun u : Unfinalized => n < u.1.2) blocks /\
    (forall before head epoch inclusion after, blocks = before ++ (head, epoch, inclusion, 0) :: after ->
       inclusion <= n -> Forall (fun u : Unfinalized => n < u.1.2 \/ u.2 <> 0) after ->
       finalized_head (engine_driver d') = head /\ finalized_epoch (engine_driver d') = epoch) /\
    (Forall (fun u : Unfinalized => n < u.1.2 \/ u.2 <> 0) blocks ->
       finalized_head (engine_driver d') = finalized_head (engine_driver d) /\
       finalized_epoch (engine_driver d') = finalized_epoch (engine_driver d)).
Proof.
  intros (_ & d1 & l & d2 & d3 & E1 & _ & Hl & E3 & Et)%turn_Ok. exists d1, l, d2. split; [done|]. split; [done|].
  apply update_l1_finalized in E1. apply drained_spec in Hl as (_ & (_ & Hf1 & Hf2) & _ & Hu & Hrest & _); [|done].
  apply advance_unsafe_head_spec in E3 as (_ & _ & (_ & Hf3 & Hf4) & _ & _ & _ & Hrest3 & _).
  injection Hrest as Hn2. injection Hrest3 as _ Hu3 Hn3 _ _. cbn in Hf1, Hf2, Hu, Hn2. destruct E1 as [E1 E2].
  apply try_start_networking_frame in Et as (Ht1 & Ht2 & Ht3). rewrite Ht1, Ht2, Ht3.
  cbn zeta. rewrite <- Hn2, <- Hn3, <- Hu, <- Hu3. rewrite <- E1, <- E2, <- Hf1, <- Hf2, <- Hf3, <- Hf4.
  apply update_finalized_spec.
Qed.

(** C6. A reorg of L1 restarts the derivation.  The watcher, the stages of the pipeline and
    the record of L1 are then as a driver has them that starts from the finalized
    head, at position 0 of its epoch; no block is unfinalized, and all heads are the
    finalized one.  What is not reset: the references to L2 blocks, which the head
    only joins, the blocks from gossip and the finalized L1 block. *)
Theorem reorg_restarts config d q :
  driver_inv config d -> block_update_receiver (chain_watcher d) = Some (Reorg :: q) ->
  let head := finalized_head (engine_driver d) in
  let epoch := finalized_epoch (engine_driver d) in
  exists d', handle_next_block_update d = (Ok tt, d') /\
    chain_watcher d' = start (ChainWatcher_new
      (get_l1_start_block (ep_number epoch) (channel_timeout (chain config))) (bi_number head) config) /\
    attributes (pipeline d') = attributes (Pipeline_new (dr_state d') config 0) /\
    dr_state d' = {| l1_info := ∅; l1_hashes := ∅; l2_refs := <[bi_number head := (head, epoch)]> (l2_refs (dr_state d));
      safe_head := head; safe_epoch := epoch; current_epoch_num := 0; st_config := config |} /\
    unsafe_head (engine_driver d') = head /\ ed_safe_head (engine_driver d') = head /\
    ed_safe_epoch (engine_driver d') = epoch /\
    finalized_head (engine_driver d') = head /\ finalized_epoch (engine_driver d') = epoch /\
    dr_unfinalized_blocks d' = [] /\ finalized_l1_block_number d' = finalized_l1_block_number d /\
    future_unsafe_blocks d' = future_unsafe_blocks d /\ unsafe_block_recv d' = unsafe_block_recv d.
Proof.
  intros [_ _ _ [Hst _] (Hc1 & Hc2 & Hc3)] Hq head epoch. rewrite (handle_next_block_update_eq d _ q Hq). cbn zeta.
  eexists. split; [reflexivity|]. split_and!; try done.
  - cbn. unfold restart, start, ChainWatcher_new. cbn. by rewrite Hc1, Hc3.
  - cbn [on_reorg pipeline set_engine_driver set_pipeline]. unfold Pipeline_purge. cbn [attributes set_attributes].
    by apply purge_stages.
  - cbn. unfold State_purge, State_update_safe_head, set_l1, set_current_epoch_num. cbn. by rewrite Hc2.
Qed.

(** C28. Blocks from gossip only extend the unsafe head.  The call receives all blocks
    that arrived and keeps those less than 1024 ahead of the unsafe head; it never
    fails; it does not touch the safe and finalized heads; and it moves the unsafe
    head, if at all, to a kept block that is a child of the unsafe head and that the
    client, given it, took. *)
Theorem advance_unsafe_head_safe d r d' :
  0 <= bi_number (unsafe_head (engine_driver d)) ->
  (forall p, p ∈ future_unsafe_blocks d ++ unsafe_block_recv d -> in_u64 (pl_block_number p)) ->
  advance_unsafe_head d = (r, d') ->
  let head := unsafe_head (engine_driver d) in
  (forall e, r <> Err e) /\ unsafe_block_recv d' = [] /\
  (forall p, p ∈ future_unsafe_blocks d' <->
     p ∈ future_unsafe_blocks d ++ unsafe_block_recv d /\
     bi_number head < pl_block_number p < bi_number head + 1024) /\
  ed_safe_head (engine_driver d') = ed_safe_head (engine_driver d) /\
  finalized_head (engine_driver d') = finalized_head (engine_driver d) /\
  dr_state d' = dr_state d /\ pipeline d' = pipeline d /\
  (unsafe_head (engine_driver d') = head \/
   exists p, p ∈ future_unsafe_blocks d' /\ pl_parent_hash p = bi_hash head /\
     (exists e, payload_taken_at p (engine (engine_driver d)) e) /\ unsafe_head (engine_driver d') = BlockInfo_from_payload p).
Proof.
  intros Hn Hr Ea head. assert (He : forall e, r <> Err e).
  { unfold advance_unsafe_head in Ea. run_M in Ea. intros e ->. destruct (find _ _) as [p|]; [|done].
    unfold ignore_err in Ea. by destruct (handle_unsafe_payload p _) as [[[]| | |] ed]. }
  apply advance_unsafe_head_spec in Ea as (Hrecv & Hf & (_ & Hfin & _) & Hs & _ & Hu & Hrest & _).
  injection Hrest as Hp _ _ Hst _. split_and!; try done. intros p. rewrite Hf, list_elem_of_filter.
  split; intros [Hw Hin]; (split; [done|]) || (split; [|done]).
  - by apply Is_true_true, in_unsafe_window_spec in Hw; [..|by apply Hr].
  - apply Is_true_true, in_unsafe_window_spec; [done|by apply Hr|done].
Qed.

(** C31. Any peer can stop the node.  A message that is short or whose base fee does not
    fit, on a topic the handler listens to, ends the gossip task, with it the receiver
    of the signer; whatever happens then, the turn that takes the next new L1 block
    fails to send the signer, which is a fatal error: the process exits, with code 0. *)
Theorem gossip_stops_node config now msg h d :
  network_service d = Listening [h] ->
  msg_topic msg ∈ BlockHandler_topics h -> blocks_v1_topic h <> blocks_v2_topic h ->
  (exists data, decompress_vec (msg_data msg) = Some data /\ len data < 65) \/
  (exists data sig block value, decompress_vec (msg_data msg) = Some data /\ data = sig ++ block /\ len sig = 65 /\
     msg_topic msg = blocks_v1_topic h /\ deserialize_v1 block = Some value /\
     18446744073709551616 <= v1_base_fee_per_gas value) ->
  network_service (gossip now msg d) = Closed /\
  forall d', rtc (node_step config) (gossip now msg d) d' ->
    network_service d' = Closed /\
    forall fuel info, next_update d' = Some (NewBlock info) -> (turn fuel d').1 = Err "exit 0".
Proof.
  intros Hn Ht Hne Hbad. assert (Hc : network_service (gossip now msg d) = Closed).
  { unfold gossip. rewrite Hn. cbn [fmap list_fmap Event_handle]. set (h' := with_channels _ _ h).
    rewrite bool_decide_eq_true_2 by done.
    change (handler_handle now msg h') with (BlockHandler_handle now msg h').
    by rewrite (BlockHandler_handle_panics now msg h'). }
  split; [done|]. intros d' Hsteps.
  assert (Hc' : network_service d' = Closed).
  { induction Hsteps as [|x y z Hxy _ IH]; [done|]. apply IH. by eapply node_step_closed. }
  split; [done|]. intros fuel info. by apply closed_new_block.
Qed.

End properties.

(** ** Witnesses

    A client that remembers the attributes it was asked to build, and builds them at the
    number of their timestamp. *)

#[local] Existing Instances example_keccak example_codec rlp_decoder example_varint example_zlib
  example_rlp example_to_be_bytes_8 example_snappy example_ssz example_ecdsa example_l1 example_l1_blocks
  example_http example_beacon.

#[local] Instance example_service_start : ServiceStart := { service_start := fun _ => Ok tt }.

Definition example_built (a : PayloadAttributes) : ExecutionPayload :=
  let n := (pa_timestamp a - 1686789347) / 2 in
  {| pl_parent_hash := to_be 32 (n - 1); pl_fee_recipient := pa_suggested_fee_recipient a;
     pl_state_root := to_be 32 1; pl_receipts_root := to_be 32 2; pl_logs_bloom := [];
     pl_prev_randao := pa_prev_randao a; pl_block_number := n; pl_gas_limit := pa_gas_limit a; pl_gas_used := 21000;
     pl_timestamp := pa_timestamp a; pl_extra_data := []; pl_base_fee_per_gas := 50; pl_block_hash := to_be 32 n;
     pl_transactions := default [] (pa_transactions a); pl_withdrawals := None; pl_blob_gas_used := None;
     pl_excess_blob_gas := None |}.

#[local] Instance example_client : Engine (option PayloadAttributes) := {
  forkchoice_updated := fun _ attributes e =>
    (Ok {| payload_status := example_status; payload_id := match attributes with Some _ => Some 1 | None => None end |},
     match attributes with Some a => Some a | None => e end);
  new_payload := fun _ e => (Ok example_status, e);
  get_payload := fun _ e => (match e with Some a => Ok (example_built a) | None => Err "unknown payload" end, e)
}.

#[local] Instance example_client_blocks : BlockProvider (option PayloadAttributes) :=
  {| get_block_with_txs := fun _ e => (Ok None, e) |}.

#[local] Instance example_client_builds : Builder (option PayloadAttributes) (fun a p => p = example_built a).
Proof.
  split.
  - intros fc e. by eexists _, _.
  - intros fc a e. by eexists _, 1, (Some a), (example_built a), (Some a).
  - intros p e. by eexists _, _.
  - intros n e. by eexists.
Qed.

(** A driver on the example of a chain, with these updates in the channel. *)
Definition example_node_on (c : ChainConfig) (network : Network) (unfinalized : list Unfinalized) (queue : list BlockUpdate)
    : Driver (option PayloadAttributes) unit (list (outcome Value)) :=
  let config := example_config c in
  let tip := example_tip c in
  let epoch := epoch_of_info (example_origin c 0) in
  {| pipeline := Pipeline_new (example_origins c 0) config 3;
     engine_driver := EngineDriver_new None tip epoch config;
     dr_unfinalized_blocks := unfinalized; finalized_l1_block_number := 0; future_unsafe_blocks := [];
     dr_state := example_origins c 0;
     chain_watcher := set_receiver (Some queue) (start (ChainWatcher_new 19399700 (bi_number tip) config));
     shutdown_recv := false; unsafe_block_recv := [];
     unsafe_block_signer_sender := unsafe_block_signer (system_config c);
     network_service := network; dr_channel_timeout := channel_timeout c |}.

Definition example_node := example_node_on base.

(** The L1 block with a number, which carries a frame. *)
Definition example_l1_posted (c : ChainConfig) (n : Z) (f : Frame) : L1Info :=
  {| block_info :=
       {| l1b_number := n; l1b_hash := to_be 32 n; l1b_timestamp := bi_timestamp (example_tip c) + 593 - (19400050 - n) * 12;
          l1b_base_fee := 7; l1b_mix_hash := to_be 32 5; l1b_parent_beacon_block_root := None |};
     l1i_system_config := system_config c; user_deposits := [];
     batcher_transactions := [0 :: encode_frame f]; finalized := false |}.

Definition example_posted : L1Info := example_l1_posted base 19400050 example_batch_frame.

Lemma example_node_inv network queue : driver_inv (example_config base) (example_node network [] queue).
Proof.
  split; [done|unfold heads_ordered; cbn; lia|constructor|apply Pipeline_new_inv, example_limits|done].
Qed.

(** A turn of the driver that takes that block. *)
Definition example_turn : outcome unit * Driver (option PayloadAttributes) unit (list (outcome Value)) :=
  advance_safe_head 2 (example_node (Listening [example_handler]) [] [NewBlock example_posted]).

Lemma advance_safe_head_spec_witness :
  exists l, length l = 1%nat /\ dr_unfinalized_blocks example_turn.2 = l /\
    bi_number (ed_safe_head (engine_driver example_turn.2)) = 12000001.
Proof.
  set (d := example_node (Listening [example_handler]) [] [NewBlock example_posted]).
  destruct (handle_next_block_update d) as [r d1] eqn:E1.
  assert (Hr : r = Ok tt) by (replace r with (handle_next_block_update d).1 by (by rewrite E1); by vm_compute). subst r.
  destruct (advance_safe_head_spec d d1 example_turn.2 E1) as [Hiff Hspec].
  destruct (proj1 Hiff) as [l Hl]; [exists 2%nat; by vm_compute|].
  destruct (Hspec l Hl) as (Hu & _). exists l.
  assert (Hd1 : dr_unfinalized_blocks d1 = []).
  { replace d1 with (handle_next_block_update d).2 by (by rewrite E1). by vm_compute. }
  rewrite Hd1 in Hu. split; [|split; [exact Hu|by vm_compute]].
  change l with ([] ++ l). rewrite <- Hu. by vm_compute.
Defined.

Definition example_genesis_head : HeadInfo :=
  {| l2_block_info := l2_genesis base; l1_epoch := l1_start_epoch base; sequence_number := 0 |}.

(** Two turns of the watcher, a message on an unknown topic and a turn of the driver. *)
Definition example_run (d : Driver (option PayloadAttributes) unit (list (outcome Value)))
    : Driver (option PayloadAttributes) unit (list (outcome Value)) :=
  let watch d := set_chain_watcher (run_task [] (chain_watcher d)) d in
  gossip 0 {| msg_topic := ""; msg_data := [] |} (watch (watch d)).

Lemma node_reachable_witness :
  exists d0 d1 d : Driver (option PayloadAttributes) unit (list (outcome Value)),
    from_config example_genesis_head example_no_blocks None (example_config base) false = Ok d0 /\
    start_up 1 d0 = (Ok tt, d1) /\ rtc (node_step (example_config base)) d1 d /\
    finalized_l1_block_number d = 10 /\ safe_head (dr_state d) = ed_safe_head (engine_driver d).
Proof.
  destruct (from_config (E := option PayloadAttributes) (P := unit) (B := list (outcome Value))
    example_genesis_head example_no_blocks None (example_config base) false) as [d0| | |] eqn:E0; [|by vm_compute in E0..].
  destruct (start_up 1 d0) as [r d1] eqn:E1.
  assert (Hr : r = Ok tt /\ turn 1 (example_run d1) = (Ok tt, (turn 1 (example_run d1)).2) /\
    update_fits (example_config base) (next_update (example_run d1)) /\
    finalized_l1_block_number (turn 1 (example_run d1)).2 = 10).
  { clear - E0 E1. vm_compute in E0. injection E0 as <-. vm_compute in E1. injection E1 as <- <-.
    split; [done|]. split; [by vm_compute|]. split; by vm_compute. }
  destruct Hr as (-> & Ht & Hf & Hfin).
  assert (Hsteps : rtc (node_step (example_config base)) d1 (turn 1 (example_run d1)).2).
  { eapply rtc_l; [apply (step_watcher _ [])|]. eapply rtc_l; [apply (step_watcher _ [])|].
    eapply rtc_l; [apply (step_gossip _ 0 {| msg_topic := ""; msg_data := [] |})|].
    apply rtc_once. eapply step_turn; [exact Hf|exact Ht]. }
  exists d0, d1, (turn 1 (example_run d1)).2. split; [reflexivity|]. split; [exact E1|]. split; [exact Hsteps|].
  split; [exact Hfin|].
  apply (node_reachable (example_config base) example_genesis_head example_no_blocks None false 1 d0 d1 _
    example_limits E0 E1 Hsteps).
Defined.

Lemma turn_finalizes_witness :
  let tip := example_tip base in
  let epoch := epoch_of_info (example_origin base 0) in
  let d := example_node (Listening [example_handler])
    [(l2_genesis base, epoch, 99, 1); (tip, epoch, 100, 0); (tip, epoch, 101, 0)] [FinalityUpdate 100] in
  exists d', turn 1 d = (Ok tt, d') /\ dr_unfinalized_blocks d' = [(tip, epoch, 101, 0)] /\
    finalized_head (engine_driver d') = tip.
Proof.
  intros tip epoch d. destruct (turn 1 d) as [r d'] eqn:Et.
  assert (Hr : r = Ok tt) by (replace r with (turn 1 d).1 by (by rewrite Et); by vm_compute). subst r.
  exists d'. split; [reflexivity|].
  destruct (turn_finalizes 1 d d' Et) as (d1 & l & d2 & E1 & Hl & _ & Hu & Hf & _).
  assert (Hd1 : d1 = (handle_next_block_update d).2) by (by rewrite E1). subst d1.
  apply drained_none in Hl as ->; [|by vm_compute].
  assert (Hb : dr_unfinalized_blocks (handle_next_block_update d).2 =
    [(l2_genesis base, epoch, 99, 1); (tip, epoch, 100, 0); (tip, epoch, 101, 0)]) by (by vm_compute).
  assert (Hn : finalized_l1_block_number (handle_next_block_update d).2 = 100) by (by vm_compute).
  rewrite Hb, Hn, app_nil_r in *. split; [exact Hu|].
  apply (Hf [(l2_genesis base, epoch, 99, 1)] tip epoch 100 [(tip, epoch, 101, 0)]); [reflexivity|lia|].
  constructor; [left; by_compute|constructor].
Defined.

Lemma reorg_restarts_witness :
  let d := example_node (Listening [example_handler]) [] [Reorg; FinalityUpdate 100] in
  exists d', handle_next_block_update d = (Ok tt, d') /\
    block_update_receiver (chain_watcher d') = Some [] /\ ed_safe_head (engine_driver d') = example_tip base.
Proof.
  intros d. destruct (reorg_restarts (example_config base) d [FinalityUpdate 100] (example_node_inv _ _) eq_refl)
    as (d' & E & Hw & _ & _ & _ & Hs & _).
  exists d'. split; [exact E|]. split; [by rewrite Hw|exact Hs].
Defined.

(** A child of the tip, and a block too far ahead. *)
Definition example_unsafe (n : Z) (parent : bytes) : ExecutionPayload :=
  {| pl_parent_hash := parent; pl_fee_recipient := []; pl_state_root := []; pl_receipts_root := []; pl_logs_bloom := [];
     pl_prev_randao := []; pl_block_number := n; pl_gas_limit := 30000000; pl_gas_used := 0; pl_timestamp := 0;
     pl_extra_data := []; pl_base_fee_per_gas := 50; pl_block_hash := to_be 32 n; pl_transactions := [];
     pl_withdrawals := None; pl_blob_gas_used := None; pl_excess_blob_gas := None |}.

Lemma advance_unsafe_head_safe_witness :
  let near := example_unsafe 12000001 (bi_hash (example_tip base)) in
  let far := example_unsafe 12001024 (bi_hash (example_tip base)) in
  let d := set_future [far] [near] (example_node (Listening [example_handler]) [] []) in
  exists d', advance_unsafe_head d = (Ok tt, d') /\ near ∈ future_unsafe_blocks d' /\ far ∉ future_unsafe_blocks d' /\
    bi_number (unsafe_head (engine_driver d')) = 12000001.
Proof.
  intros near far d. destruct (advance_unsafe_head d) as [r d'] eqn:E.
  assert (Hr : r = Ok tt /\ bi_number (unsafe_head (engine_driver d')) = 12000001).
  { replace r with (advance_unsafe_head d).1 by (by rewrite E). replace d' with (advance_unsafe_head d).2 by (by rewrite E).
    split; by vm_compute. }
  destruct Hr as [-> Hu]. exists d'. split; [reflexivity|].
  assert (Hrange : forall p, p ∈ future_unsafe_blocks d ++ unsafe_block_recv d -> in_u64 (pl_block_number p)).
  { intros p Hp. apply list_elem_of_In in Hp as [<-|[<-|[]]]; by_compute. }
  destruct (advance_unsafe_head_safe d (Ok tt) d' ltac:(by_compute) Hrange E) as (_ & _ & Hin & _).
  split; [|split; [|exact Hu]].
  - apply Hin. split; [apply list_elem_of_In; right; by left|by_compute].
  - intros [_ Hw]%Hin. vm_compute in Hw. by destruct Hw.
Defined.

Lemma gossip_stops_node_witness :
  let d := example_node (Listening [example_handler]) [] [NewBlock example_posted] in
  let msg := {| msg_topic := "/optimism/8453/1/blocks"; msg_data := [1; 2; 3] |} in
  (turn 2 (gossip 1700000010 msg d)).1 = Err "exit 0".
Proof.
  intros d msg. destruct (gossip_stops_node (example_config base) 1700000010 msg example_handler d) as [_ Hx];
    [reflexivity|apply list_elem_of_In; right; by left|by vm_compute|left; by exists [1; 2; 3]|].
  apply (proj2 (Hx _ (rtc_refl _ _)) 2%nat example_posted). reflexivity.
Defined.
