(* ===== verification/SafeChain.v ===== *)
(** A span of blocks that a batcher posts on L1 becomes the safe chain.

    The file joins [Derivation.v], what the pipeline makes of a posted span batch, with the
    loop of the driver, which hands one block after the other to the execution client
    and moves the safe head between them. *)
From S2P Require Import Prelude Purgeable Codecs Common Concrete Config Deposits L1Info HeadInfo State BatcherTransactions.
From S2P Require Import Channels SingleBatch SpanBatch SpanEncoding Batches Engine Ecotone Attributes Pipeline Assembly Derivation.
From S2P Require Import EngineDriver Json Blobs ChainWatcher Gossip Driver Node.

#[local] Existing Instances rlp_decoder leb128 rlp_codec.

(** ** The specification *)

Section spec.
Context (built : PayloadAttributes -> ExecutionPayload -> Prop).

End spec.



(** The sequencing window of an epoch is open. *)
Definition window_is_open (config : Config) (state : State) (e : Epoch) : Prop :=
  current_epoch_num state <= u64_add (ep_number e) (seq_window_size (chain config)).

#[export] Instance window_is_open_dec config state e : Decision (window_is_open config state e) := Z.le_dec _ _.

(** ** The loop of the driver *)

Section driver.
Context {E P B : Type} `{Engine E, BlockProvider E, Keccak, Zlib, TransactionRlp, ToBeBytes8, ServiceStart}.
Context `{Snappy, Ssz, Ecdsa, L1Provider P, Http P, BlockProvider P, Beacon B}.
Implicit Types d : Driver E P B.








End driver.

(** ** The rounds in which the frames come in *)

Section rounds.
Context {E P B : Type} `{Engine E, BlockProvider E, Keccak, Zlib, TransactionRlp, ToBeBytes8, ServiceStart}.
Context `{Snappy, Ssz, Ecdsa, L1Provider P, Http P, BlockProvider P, Beacon B}.
Implicit Types d : Driver E P B.














End rounds.

(** ** The property *)

Section properties.
Context {E P B : Type} `{Engine E, BlockProvider E, Keccak, Zlib, TransactionRlp, ToBeBytes8, ServiceStart}.
Context `{Snappy, Ssz, Ecdsa, L1Provider P, Http P, BlockProvider P, Beacon B}.
Implicit Types d : Driver E P B.




End properties.

(** ** Witness *)

#[local] Existing Instances example_keccak example_zlib example_rlp example_to_be_bytes_8 example_snappy example_ssz
  example_ecdsa example_l1 example_l1_blocks example_http example_beacon
  Node.example_service_start Node.example_client Node.example_client_blocks Node.example_client_builds.










