(* ===== verification/Liveness.v ===== *)
(** Liveness: every turn of the driver ends.

    With a client that answers and builds blocks with the time it is asked for, the
    loop that drains the pipeline stops: its rank decreases with every attributes it
    handles.  No definition of this file is code; it puts the measures of [Progress.v]
    together for the driver and the node. *)
From Stdlib Require Import Relation_Operators Lexicographic_Product.
From S2P Require Import Prelude Purgeable Codecs Common Concrete Config Deposits L1Info HeadInfo State BatcherTransactions.
From S2P Require Import Channels SingleBatch SpanBatch Batches Engine Ecotone Attributes EngineDriver.
From S2P Require Import Json Blobs ChainWatcher Gossip Pipeline Progress Driver Node.

(** ** The client

    A client that answers every call, and that builds blocks with the time of the
    attributes, as the engine API asks of it. *)
Class Punctual (E : Type) `{Engine E, BlockProvider E} := {
  forkchoice_updated_ends : forall fc a, ends (S := E) (forkchoice_updated fc a);
  new_payload_ends : forall p, ends (S := E) (new_payload p);
  get_payload_ends : forall id, ends (S := E) (get_payload id);
  get_block_ends : forall n, ends (S := E) (get_block_with_txs n);
  payload_built_timestamp : forall fc a p, payload_built (E := E) fc a p -> pl_timestamp p = pa_timestamp a
}.

#[export] Hint Resolve forkchoice_updated_ends new_payload_ends get_payload_ends get_block_ends : magi.

(** The start of the network stack answers. *)
Class ServiceStartEnds `{ServiceStart} := {
  service_start_ends : forall s, service_start s <> Diverge
}.

(** ** The engine driver *)

Section engine.
Context {E : Type} `{Punctual E, Keccak}.
Implicit Types d : EngineDriver E.

Lemma call_ends {A} (m : M E A) : ends m -> ends (S := EngineDriver E) (call m).
Proof. apply ends_zoom. Qed.

#[local] Hint Resolve call_ends : magi.

Lemma update_forkchoice_ends : ends (update_forkchoice (E := E)).
Proof. unfold update_forkchoice. ends. Qed.

Lemma push_payload_ends payload : ends (push_payload (E := E) payload).
Proof. unfold push_payload. ends. Qed.

Lemma build_payload_ends a : ends (build_payload (E := E) a).
Proof. unfold build_payload. ends. Qed.

#[local] Hint Resolve update_forkchoice_ends push_payload_ends build_payload_ends : magi.

Lemma process_attributes_ends a : ends (process_attributes (E := E) a).
Proof. unfold process_attributes. ends. Qed.

Lemma BlockInfo_try_from_not_Diverge block : BlockInfo_try_from block <> Diverge.
Proof. unfold BlockInfo_try_from, as_u64. not_Diverge. Qed.

#[local] Hint Resolve BlockInfo_try_from_not_Diverge : magi.

Lemma skip_attributes_ends a block : ends (skip_attributes (E := E) a block).
Proof. unfold skip_attributes. ends. Qed.

Lemma and_then_not_Diverge a b : a <> Diverge -> b <> Diverge -> and_then a b <> Diverge.
Proof. intros Ha Hb. unfold and_then. apply bind_not_Diverge; [done|]. by intros [] _. Qed.

Lemma should_skip_not_Diverge block a : should_skip block a <> Diverge.
Proof.
  assert (Hu : forall z, as_u64 z <> Diverge) by (intros z; unfold as_u64; by destruct (_ <? _)).
  unfold should_skip. apply bind_not_Diverge; [auto with magi|]. intros l _.
  repeat (apply and_then_not_Diverge; [by auto with magi|]). by auto with magi.
Qed.

#[local] Hint Resolve should_skip_not_Diverge process_attributes_ends skip_attributes_ends : magi.

Lemma block_at_ends t : ends (block_at (E := E) t).
Proof.
  intros d. unfold block_at. destruct (block_num_at t d) as [n| | |] eqn:En; [|done..|].
  - pose proof (call_ends _ (get_block_ends n) d) as Hc. by destruct (call (get_block_with_txs n) d) as [[]].
  - exfalso. revert En. unfold block_num_at, i64_div. not_Diverge.
Qed.

#[local] Hint Resolve block_at_ends : magi.

Lemma handle_attributes_ends a : ends (handle_attributes (E := E) a).
Proof. unfold handle_attributes. ends. Qed.

Lemma handle_unsafe_payload_ends p : ends (handle_unsafe_payload (E := E) p).
Proof. unfold handle_unsafe_payload. ends. Qed.

(** A successful call puts the safe head at the time of the attributes. *)
Lemma handle_attributes_time a epoch d d' :
  in_u64 (pa_timestamp a) -> pa_epoch a = Some epoch -> handle_attributes a d = (Ok tt, d') ->
  bi_timestamp (ed_safe_head d') = pa_timestamp a /\
  (bi_timestamp (ed_safe_head d) <> pa_timestamp a -> ed_safe_epoch d' = epoch).
Proof.
  intros Ht Hepoch Eh%handle_attributes_handled. remember (Ok tt) as r eqn:Hr0.
  destruct Eh as [r d' _ Hr _ _ _|r d' block e0 head ep e _ Hdesc Hh He -> _
                 |r d' reply e0 payload e1 e2 ep e _ _ Hbuilt Ht' He -> _]; [done|..];
    rewrite Hepoch in He; injection He as <-.
  - pose proof (update_safe_head_spec head epoch false d) as (_ & _ & Hs & Hep & _).
    cbn [ed_safe_head ed_safe_epoch set_engine]. rewrite Hs, Hep.
    assert (Hts : bi_timestamp head = pa_timestamp a).
    { apply (describes_timestamp _ _ Hdesc) in Ht. unfold BlockInfo_try_from in Hh. simpl_outcome.
      match goal with Hx : as_u64 _ = Ok _ |- _ => apply as_u64_Ok in Hx as [<- _] end. done. }
    split; [done|]. intros Hne. by rewrite decide_False by congruence.
  - pose proof (update_safe_head_spec (BlockInfo_from_payload payload) epoch true (set_unsafe_head (build_base reply d) d))
      as (_ & _ & Hs & Hep & _). cbn [ed_safe_head ed_safe_epoch set_engine]. rewrite Hs, Hep.
    specialize (payload_built_timestamp _ _ _ (ex_intro _ e0 (ex_intro _ e1 Hbuilt))) as Hpt. split; [done|]. intros Hne. rewrite decide_False; [done|].
    cbn. intros Hd. rewrite Hd in Hne. by apply Hne.
Qed.
End engine.

#[export] Hint Resolve handle_attributes_ends handle_unsafe_payload_ends : magi.

(** ** The loop *)

Lemma rank_le_cases x y : rank_le x y -> x = y \/ rank_lt x y.
Proof.
  destruct x as [a [b c]], y as [a' [b' c']]. intros [Ha Hb]. cbn in *.
  destruct (decide (a = a')) as [->|]; [|right; apply left_slex; lia]. destruct (Hb eq_refl) as [Hb' Hc].
  destruct (decide (b = b')) as [->|]; [|right; apply right_slex, left_slex; lia]. specialize (Hc eq_refl).
  destruct (decide (c = c')) as [->|]; [by left|]. right. do 2 apply right_slex. lia.
Qed.

Lemma empty_input_time config s x :
  0 < blocktime (chain config) < 2 ^ 63 -> empty_input s config = Some x ->
  in_u64 (bin_timestamp x) /\ bin_timestamp x <> bi_timestamp (safe_head s).
Proof.
  intros Hb Hx. unfold empty_input in Hx. cbn zeta in Hx.
  destruct (epoch_by_number s _) as [next|]; [|done]. destruct (_ <? current_epoch_num s); [|done].
  assert (Ht : bin_timestamp x = u64_add (bi_timestamp (safe_head s)) (blocktime (chain config))).
  { destruct (_ <? ep_timestamp next); [by injection Hx as <-|]. destruct (_ <? _); [by injection Hx as <-|done]. }
  rewrite Ht. split; [apply u64_range|]. change (2 ^ 63) with 9223372036854775808 in Hb.
  unfold u64_add, u64. intros Heq.
  pose proof (Z.div_mod (bi_timestamp (safe_head s) + blocktime (chain config)) 18446744073709551616). lia.
Qed.

Section driver.
Context {E P B : Type} `{Punctual E, Keccak, Codec, RlpDecoder, Varint, Zlib, TransactionRlp, ToBeBytes8Ends}.
Context `{ServiceStartEnds}.
Implicit Types d : Driver E P B.

Lemma apply_attributes_ends a : ends (apply_attributes (E := E) (P := P) (B := B) a).
Proof.
  unfold apply_attributes. apply ends_bind; [eauto with magi|]. intros n. apply ends_bind; [eauto with magi|]. intros m.
  apply ends_bind; [|eauto with magi]. intros d. unfold map_err.
  pose proof (ends_zoom engine_driver set_engine_driver _ (handle_attributes_ends a) d) as Hz.
  by destruct (zoom engine_driver set_engine_driver (handle_attributes a) d) as [[]].
Qed.

Definition driver_rank d : (nat * Rank) * (nat * nat) := (pipeline_rank (pipeline d), clock_rank (dr_state d)).

Definition driver_rank_lt : (nat * Rank) * (nat * nat) -> (nat * Rank) * (nat * nat) -> Prop :=
  slexprod (nat * Rank) (nat * nat) pipeline_rank_lt (slexprod nat nat lt lt).

Lemma driver_rank_lt_wf : well_founded driver_rank_lt.
Proof. apply wf_slexprod; [apply slex_wf, rank_lt_wf|apply slex_wf, Nat.lt_wf_0]. Qed.

(** The attributes of the pipeline, handled: the invariants stay and the rank goes down. *)
Lemma drain_step config d a p d1 :
  turn_inv config d -> clock_ok config (dr_state d) ->
  Pipeline_next (dr_state d) (pipeline d) = (Ok (Some a), p) -> apply_attributes a (set_pipeline p d) = (Ok tt, d1) ->
  turn_inv config d1 /\ clock_ok config (dr_state d1) /\ driver_rank_lt (driver_rank d1) (driver_rank d).
Proof.
  intros [[Ha1 Ha2] Ho Hp Hc] Hk En (n & m & ed & _ & _ & Hh & ->)%apply_attributes_Ok.
  pose proof (Pipeline_next_inv _ _ _ _ _ Hp En) as (Hp' & _).
  pose proof (handle_attributes_base _ _ _ _ Hh) as (_ & Ho' & _).
  split; [split; [done|by apply Ho'|done|done]|]. split; [by destruct Hk; split|].
  unfold driver_rank. apply (Pipeline_next_rank config) in En; [|done].
  cbn [pipeline dr_state record_safe_head set_unfinalized set_dr_state set_engine_driver set_pipeline engine_driver] in *.
  destruct En as [Hlt|(Hfst & Hle & x & Hx & e & Hepoch & He & Hat)]; [by apply left_slex|].
  destruct (empty_input_time config _ _ (clock_blocktime _ _ Hk) Hx) as [Hr Hne].
  rewrite <- Hat in Hr, Hne. rewrite Ha1 in Hne.
  destruct (handle_attributes_time a e _ _ Hr Hepoch Hh) as [Ht Hep]. rewrite Hat in Ht. specialize (Hep (not_eq_sym Hne)).
  assert (Heq : pipeline_rank p = pipeline_rank (pipeline d) \/ pipeline_rank_lt (pipeline_rank p) (pipeline_rank (pipeline d))).
  { destruct (pipeline_rank p) as [n1 r1], (pipeline_rank (pipeline d)) as [n2 r2]. cbn in Hfst, Hle. subst n1.
    apply rank_le_cases in Hle as [->|Hlt]; [by left|]. right. by apply right_slex. }
  destruct Heq as [->|Hlt]; [apply right_slex|by apply left_slex].
  by eapply (empty_input_clock config _ x e).
Qed.

Lemma drain_terminates config d :
  turn_inv config d -> clock_ok config (dr_state d) -> terminates drain d.
Proof.
  remember (driver_rank d) as rank eqn:Hrank. revert d Hrank.
  induction rank as [rank IH] using (well_founded_induction driver_rank_lt_wf). intros d -> Hd Hk.
  pose proof (Pipeline_next_ends config (dr_state d) (pipeline d) (turn_pipeline _ _ Hd)) as Hn.
  destruct (Pipeline_next (dr_state d) (pipeline d)) as [[[a|]|e| |] p] eqn:En; [| | | |done];
    try (eexists 1%nat, _, _; split; [|intros [|fuel] Hf; [lia|]; rewrite drain_S, En; reflexivity]; done).
  pose proof (apply_attributes_ends a (set_pipeline p d)) as Ha.
  destruct (apply_attributes a (set_pipeline p d)) as [[[]|e| |] d1] eqn:Ea; [| | |done];
    try (eexists 1%nat, _, _; split; [|intros [|fuel] Hf; [lia|]; rewrite drain_S, En, Ea; reflexivity]; done).
  destruct (drain_step config d a p d1 Hd Hk En Ea) as (Hd1 & Hk1 & Hlt).
  destruct (IH _ Hlt d1 eq_refl Hd1 Hk1) as (n & r & d' & Hr & Hf). exists (S n), r, d'. split; [done|].
  intros [|fuel] Hle; [lia|]. rewrite drain_S, En, Ea. apply Hf. lia.
Qed.
End driver.

(** ** The times of L1

    [num_of] gives the number of the L1 block with a hash. *)

(** The bounds of the chain that the clock of the empty blocks needs. *)
Record clock_config (config : Config) : Prop := {
  clock_config_blocktime : 0 < blocktime (chain config) < 2 ^ 63;
  clock_config_window : in_u64 (seq_window_size (chain config))
}.

(** An L1 block whose number and time leave room for the window and a block. *)
Record info_timely (num_of : bytes -> Z) (config : Config) (info : L1Info) : Prop := {
  timely_hash : l1b_number (block_info info) = num_of (l1b_hash (block_info info));
  timely_number : 0 <= l1b_number (block_info info) /\
    l1b_number (block_info info) + seq_window_size (chain config) < 2 ^ 64;
  timely_timestamp : 0 <= l1b_timestamp (block_info info) /\
    l1b_timestamp (block_info info) + blocktime (chain config) <= 2 ^ 64
}.

Definition update_timely (num_of : bytes -> Z) (config : Config) (u : option BlockUpdate) : Prop :=
  match u with Some (NewBlock info) => info_timely num_of config info | _ => True end.

Record state_timely (num_of : bytes -> Z) (config : Config) (s : State) : Prop := {
  timely_ok : state_ok num_of s;
  timely_infos : forall h i, l1_info s !! h = Some i -> info_timely num_of config i;
  timely_current : 0 <= current_epoch_num s /\ current_epoch_num s + seq_window_size (chain config) < 2 ^ 64
}.

Section timely.
Context (num_of : bytes -> Z) (config : Config).
Implicit Types s : State.

Lemma state_timely_clock s : clock_config config -> state_timely num_of config s -> clock_ok config s.
Proof.
  intros [Hb Hw] [[Hh Hi _] Hinfo Hc]. split; [done|unfold in_u64 in Hw; lia|]. intros n e He.
  unfold epoch_by_number, l1_info_by_number in He. destruct (l1_hashes s !! n) as [h|] eqn:Eh; [|done]. cbn in He.
  destruct (l1_info s !! h) as [i|] eqn:Ei; [|done]. injection He as <-.
  destruct (Hh n h Eh) as [Hn _]. destruct (Hi h i Ei) as [_ Hnum]. destruct (Hinfo h i Ei) as [_ _ Ht].
  cbn. split; [congruence|exact Ht].
Qed.

Lemma state_timely_update_safe_head head epoch s :
  state_timely num_of config s -> state_timely num_of config (State_update_safe_head head epoch s).
Proof. intros [Hok Hi Hc]. split; [by apply state_ok_update_safe_head|exact Hi|exact Hc]. Qed.

Lemma state_timely_purge head epoch s :
  clock_config config -> state_timely num_of config s -> state_timely num_of config (State_purge head epoch s).
Proof.
  intros [_ Hw] [Hok _ _]. unfold in_u64 in Hw. split.
  - eapply state_ok_step; [apply State.step_purge|exact Hok].
  - intros h i Hh. cbn in Hh. by rewrite lookup_empty in Hh.
  - cbn. lia.
Qed.

Lemma update_l1_info_pruned i s s' : update_l1_info i s = Ok s' -> pruned (with_l1_info i s) s'.
Proof.
  rewrite update_l1_info_eq. intros Hu.
  destruct (decide (blocktime (chain (st_config (with_l1_info i s))) = 0)) as [Hz|Hz]; [by rewrite prune_zero in Hu|].
  destruct (prune_Ok _ Hz) as (s1 & Hp & Hpr). rewrite Hp in Hu. by injection Hu as <-.
Qed.

Lemma state_timely_update_l1_info i s s' :
  info_timely num_of config i -> update_l1_info i s = Ok s' -> state_timely num_of config s ->
  state_timely num_of config s'.
Proof.
  intros Ht Hu [Hok Hi Hc]. split.
  - eapply state_ok_step; [|exact Hok]. eapply step_update_l1_info; [apply Ht|exact Hu].
  - apply update_l1_info_pruned in Hu. intros h j Hj. destruct (pruned_info _ _ Hu h) as [Hdrop Hkeep].
    assert (Hj' : l1_info (with_l1_info i s) !! h = Some j).
    { rewrite <- Hj. symmetry. apply Hkeep. intros Hx. by rewrite (Hdrop Hx) in Hj. }
    cbn in Hj'. apply lookup_insert_Some in Hj' as [[_ <-]|[_ Hj']]; [done|by eapply Hi].
  - apply update_l1_info_pruned, pruned_rest in Hu as (_ & _ & -> & _). apply Ht.
Qed.

Lemma State_new_timely `{Keccak} get_block head epoch s :
  clock_config config -> State_new get_block head epoch config = Ok s -> state_timely num_of config s.
Proof.
  intros [_ Hw] Hs. unfold in_u64 in Hw. split.
  - by eapply State_new_ok.
  - unfold State_new in Hs. apply bind_Ok in Hs as (refs & _ & [= <-]). intros h i Hh. cbn in Hh.
    by rewrite lookup_empty in Hh.
  - unfold State_new in Hs. apply bind_Ok in Hs as (refs & _ & [= <-]). cbn. lia.
Qed.
End timely.

Lemma update_l1_info_not_Diverge i s : update_l1_info i s <> Diverge.
Proof.
  rewrite update_l1_info_eq. destruct (decide (blocktime (chain (st_config (with_l1_info i s))) = 0)) as [Hz|Hz].
  - by rewrite prune_zero.
  - by destruct (prune_Ok _ Hz) as (s1 & -> & _).
Qed.

#[export] Hint Resolve update_l1_info_not_Diverge : magi.

(** ** The turn *)

Section turn.
Context {E P B : Type} `{Punctual E, Keccak, Codec, RlpDecoder, Varint, Zlib, TransactionRlp, ToBeBytes8Ends}.
Context `{ServiceStartEnds}.
Context (num_of : bytes -> Z) (config : Config).
Implicit Types d : Driver E P B.

Lemma handle_next_block_update_ends : ends (handle_next_block_update (E := E) (P := P) (B := B)).
Proof.
  intros d. unfold handle_next_block_update. destruct (try_recv_from_channel (chain_watcher d)) as [[u|e| |] w]; [|done..].
  destruct u as [info|n|]; [|done..]. unfold on_new_block.
  assert (Hs : forall a, ends (send_signer (E := E) (P := P) (B := B) a)) by (intros a d1; unfold send_signer; by destruct (network_service d1)).
  revert w. assert (Hm : ends (on_new_block (E := E) (P := P) (B := B) info)); [|intros w; apply Hm].
  unfold on_new_block. ends.
Qed.

Lemma advance_unsafe_head_ends : ends (advance_unsafe_head (E := E) (P := P) (B := B)).
Proof.
  unfold advance_unsafe_head. apply ends_bind; [auto with magi|]. intros _. apply ends_bind; [auto with magi|].
  intros [p|]; [|auto with magi]. intros d. unfold ignore_err.
  pose proof (ends_zoom engine_driver set_engine_driver _ (handle_unsafe_payload_ends p) d) as Hz.
  by destruct (zoom engine_driver set_engine_driver (handle_unsafe_payload p) d) as [[]].
Qed.

Lemma try_start_networking_ends : ends (try_start_networking (E := E) (P := P) (B := B)).
Proof.
  intros d. unfold try_start_networking. destruct (synced d); [|done]. destruct (network_service d) as [s| |]; [|done..].
  pose proof (service_start_ends s). by destruct (service_start s).
Qed.

#[local] Hint Resolve handle_next_block_update_ends advance_unsafe_head_ends try_start_networking_ends : magi.

(** The update of the watcher, taken. *)
Lemma handle_next_block_update_timely d d' :
  clock_config config -> update_timely num_of config (next_update d) -> handle_next_block_update d = (Ok tt, d') ->
  state_timely num_of config (dr_state d) -> state_timely num_of config (dr_state d').
Proof.
  intros Hc Hu Eu Hs. destruct (next_update d) as [u|] eqn:En.
  - apply next_update_queue in En as [q Hq]. rewrite (handle_next_block_update_eq d u q Hq) in Eu.
    destruct u as [info|n|]; [|by injection Eu as <-|injection Eu as <-; by apply state_timely_purge].
    apply on_new_block_Ok in Eu as (s & _ & Hs' & ->). by eapply state_timely_update_l1_info.
  - rewrite handle_next_block_update_none in Eu by done. by injection Eu as <-.
Qed.

Lemma drained_timely d l d' :
  drained d l d' -> state_timely num_of config (dr_state d) -> state_timely num_of config (dr_state d').
Proof. induction 1 as [|d a p ed n m l d' _ _ _ _ _ IH]; [done|]. intros Hs. by apply IH, state_timely_update_safe_head. Qed.

Lemma turn_timely fuel d d' :
  clock_config config -> update_timely num_of config (next_update d) -> turn fuel d = (Ok tt, d') ->
  state_timely num_of config (dr_state d) -> state_timely num_of config (dr_state d').
Proof.
  intros Hc Hu (_ & d1 & l & d2 & d3 & E1 & _ & Hl & E3 & Et)%turn_Ok Hs.
  apply handle_next_block_update_timely in E1; [|done..]. apply drained_timely in Hl; [|by apply state_timely_update_safe_head].
  apply advance_unsafe_head_spec in E3 as (_ & _ & _ & _ & _ & _ & Hrest & _). injection Hrest as _ _ _ Hst _.
  rewrite <- Hst in Hl. unfold try_start_networking in Et.
  assert (Hf : dr_state (update_finalized d3) = dr_state d3).
  { unfold update_finalized. cbn zeta. by destruct (last _) as [[[[h e] i] q]|]. }
  rewrite <- Hf in Hl. destruct (synced _); [|by injection Et as <-].
  destruct (network_service _) as [s| |]; [|by injection Et as <-..]. by destruct (service_start s); simplify_eq.
Qed.

Lemma turn_terminates d :
  clock_config config -> turn_inv config d -> state_timely num_of config (dr_state d) ->
  update_fits config (next_update d) -> update_timely num_of config (next_update d) -> terminates turn d.
Proof.
  intros Hc Hd Hs Hfits Ht. unfold turn.
  apply (terminates_bind (fun _ => check_shutdown) (fun fuel _ => shutdown_on_err (advance fuel))).
  { apply terminates_const. intros d1. unfold check_shutdown. by destruct (shutdown_recv d1). }
  intros _ [] d0 E0. assert (d0 = d) as -> by (unfold check_shutdown, shutdown in E0; destruct (shutdown_recv d); [done|by injection E0]).
  assert (Ha : terminates advance d).
  { unfold advance, advance_safe_head.
    apply (terminates_bind (fun fuel => handle_next_block_update ;; modify update_state_head ;; drain fuel)
      (fun _ _ => advance_unsafe_head ;; modify update_finalized ;; try_start_networking)).
    - apply (terminates_bind (fun _ => handle_next_block_update) (fun fuel _ => modify update_state_head ;; drain fuel));
        [by apply terminates_const, handle_next_block_update_ends|]. intros _ [] d1 E1.
      pose proof (handle_next_block_update_timely _ _ Hc Ht E1 Hs) as Hs1.
      apply (handle_next_block_update_inv config) in E1; [|done..].
      apply (terminates_bind (fun _ => modify update_state_head) (fun fuel _ => drain fuel)); [by apply terminates_const|].
      intros _ [] d2 [= <-]. apply (drain_terminates config).
      + destruct E1 as [Hh Ho Hp Hcfg]. by split.
      + by apply (state_timely_clock num_of), state_timely_update_safe_head.
    - intros _ [] d1 _. apply terminates_const. ends. }
  destruct Ha as (n & r & d' & Hr & Hf). exists n. unfold shutdown_on_err.
  destruct r as [[]|e| |]; [exists (Ok tt), d'|exists (Err "exit 0"), d'|exists Panic, d'|done];
    (split; [done|]); intros fuel Hn; by rewrite (Hf fuel Hn).
Qed.
End turn.

(** ** Properties *)

Section properties.
Context {E P B : Type} `{Punctual E, Keccak, Codec, RlpDecoder, Varint, Zlib, TransactionRlp, ToBeBytes8Ends}.
Context `{ServiceStartEnds, Snappy, Ssz, Ecdsa, L1Provider P, Http P, BlockProvider P, Beacon B}.
Implicit Types d : Driver E P B.

(** The steps of the node on an L1 chain whose blocks are timely. *)
Definition timely_step (num_of : bytes -> Z) (config : Config) d d' : Prop :=
  node_step config d d' /\ update_timely num_of config (next_update d).

(** C2. The loop of the driver always ends.  Take any state that the node reaches on a
    timely L1 chain, however its tasks interleave, with a client that answers its calls
    and gives the blocks it builds the time it was asked for.  Then the drain of the
    pipeline stops and the turn has a result: from some amount of fuel on, every fuel gives
    this one result, and it is not [Diverge]. *)
Theorem turn_ends num_of config head l2_block (engine : E) shutdown n d0 d1 d :
  limits_ok config -> clock_config config -> from_config head l2_block engine config shutdown = Ok d0 ->
  start_up n d0 = (Ok tt, d1) -> rtc (timely_step num_of config) d1 d ->
  update_fits config (next_update d) -> update_timely num_of config (next_update d) ->
  exists fuel0 r d', r <> Diverge /\ forall fuel, (fuel0 <= fuel)%nat -> turn fuel d = (r, d').
Proof.
  intros Hl Hc Hd0 Hd1 Hsteps Hfits Htimely.
  assert (Hd : driver_inv config d /\ state_timely num_of config (dr_state d)).
  { assert (Hs0 : state_timely num_of config (dr_state d0)).
    { unfold from_config in Hd0. apply bind_Ok in Hd0 as (s & Hs & [= <-]). by eapply State_new_timely. }
    assert (Hs1 : state_timely num_of config (dr_state d1)).
    { unfold start_up in Hd1. run_M in Hd1. destruct (await_engine_ready n d0) as [o d2] eqn:Ea.
      apply await_engine_ready_frame in Ea as [e ->]. destruct o; try done. by injection Hd1 as <-. }
    apply from_config_inv in Hd0; [|done]. eapply start_up_inv in Hd1; [|done].
    clear - Hc Hsteps Hd1 Hs1. induction Hsteps as [|x y z [Hxy Hu] _ IH]; [done|].
    apply IH; [|by eapply node_step_inv].
    destruct Hxy as [fuel x y _ Ht|client x|now msg x|x]; [by eapply turn_timely|done| |done].
    pose proof (gossip_frame now msg x) as Hg. injection Hg as _ _ _ _ -> _ _. done. }
  destruct Hd as [[Hh Ho _ Hp Hcfg] Hs]. by apply (turn_terminates num_of config d).
Qed.
End properties.

(** ** Witnesses *)

#[local] Existing Instances example_keccak example_codec rlp_decoder example_varint example_zlib
  example_rlp example_to_be_bytes_8 example_snappy example_ssz example_ecdsa example_l1 example_l1_blocks
  example_http example_beacon example_service_start example_client example_client_blocks.

#[local] Instance example_client_punctual : Punctual (option PayloadAttributes).
Proof.
  split; [done|done|by intros id [a|]|done|].
  intros fc a p (e & update & e1 & id & e2 & Hu & _ & _ & Hp). injection Hu as _ <-. by injection Hp as <-.
Qed.

#[local] Instance example_to_be_bytes_8_ends : ToBeBytes8Ends.
Proof. split. done. Qed.

#[local] Instance example_service_start_ends : ServiceStartEnds.
Proof. split. done. Qed.

(** The turn after two turns of the watcher and a message. *)
Lemma turn_ends_witness :
  exists d1 : Driver (option PayloadAttributes) unit (list (outcome Value)),
    next_update (example_run d1) <> None /\
    exists fuel0 r d', r <> Diverge /\ forall fuel, (fuel0 <= fuel)%nat -> turn fuel (example_run d1) = (r, d').
Proof.
  destruct (from_config (E := option PayloadAttributes) (P := unit) (B := list (outcome Value))
    example_genesis_head example_no_blocks None (example_config base) false) as [d0| | |] eqn:E0; [|by vm_compute in E0..].
  destruct (start_up 1 d0) as [r d1] eqn:E1.
  set (watch := fun d : Driver (option PayloadAttributes) unit (list (outcome Value)) =>
    set_chain_watcher (run_task [] (chain_watcher d)) d).
  assert (Hr : r = Ok tt /\ next_update (example_run d1) <> None /\
    update_fits (example_config base) (next_update (example_run d1)) /\
    Forall (fun d => update_timely from_be (example_config base) (next_update d))
      [d1; watch d1; watch (watch d1); example_run d1]).
  { clear - E0 E1. vm_compute in E0. injection E0 as <-. vm_compute in E1. injection E1 as <- <-.
    split; [done|]. split; [by vm_compute|]. split; [by vm_compute|]. repeat constructor; by vm_compute. }
  destruct Hr as (-> & Hn & Hf & Hu). rewrite !Forall_cons in Hu. destruct Hu as (Hu1 & Hu2 & Hu3 & Hu4 & _).
  exists d1. split; [exact Hn|].
  apply (turn_ends from_be (example_config base) example_genesis_head example_no_blocks None false 1 d0 d1);
    [exact example_limits|by split; by_compute|exact E0|exact E1| |exact Hf|exact Hu4].
  eapply rtc_l; [split; [apply (step_watcher _ [])|exact Hu1]|].
  eapply rtc_l; [split; [apply (step_watcher _ [])|exact Hu2]|].
  apply rtc_once. split; [apply step_gossip|exact Hu3].
Defined.
