(* ===== verification/Network.v ===== *)
(** The network service (src/src/network/service/mod.rs) and the discovery of peers
    (src/src/network/service/discovery.rs): how [Service::start] sets up gossip and
    discovery, and the two tasks it spawns.

    The libp2p swarm and the discv5 service are library code: types of which the tasks
    use the operations of the classes [Libp2p] and [Discv5].  The tasks share the
    channel of the peers that were found; one step of a task is a step of the relation
    [network_step], which also says what the step asked of the swarm. *)
From S2P Require Import Prelude Codecs Common Concrete Config Deposits Engine Gossip Driver Liveness.

(** ** Addresses *)

(** [libp2p::Multiaddr] with the protocols that are used. *)
Inductive Protocol := Ip4 (ip : bytes) | Tcp (port : Z).

Abbreviation Multiaddr := (list Protocol) (only parsing).

Definition Multiaddr_from_address (value : NetworkAddress) : Multiaddr :=
  let multiaddr := [] in
  let multiaddr := multiaddr ++ [Ip4 (na_ip value)] in
  multiaddr ++ [Tcp (na_port value)].

Definition Multiaddr_from_peer (value : Peer) : Multiaddr := Multiaddr_from_address (peer_addr value).

(** ** Libraries *)

Inductive ValidationMode := Strict | Permissive | Anonymous | NoValidation.

(** [gossipsub::Config]; times are in milliseconds. *)
Record GossipsubConfig := {
  mesh_n : Z;
  mesh_n_low : Z;
  mesh_n_high : Z;
  gossip_lazy : Z;
  heartbeat_interval : Z;
  fanout_ttl : Z;
  history_length : Z;
  history_gossip : Z;
  duplicate_cache_time : Z;
  validation_mode : ValidationMode;
  validate_messages : bool;
  message_id_fn : Message -> bytes
}.

(** libp2p: the identity of a node, the gossipsub behaviour of type [G] and the swarm of
    type [W]. *)
Class Libp2p (G W : Type) := {
  generate_secp256k1 : bytes;
  noise_config : bytes -> outcome unit;
  gossipsub_config_build : GossipsubConfig -> outcome GossipsubConfig;
  gossipsub_new : GossipsubConfig -> outcome G;
  subscribe : string -> M G bool;
  swarm_build : bytes -> G -> W;
  listen_on : Multiaddr -> M W unit;
  dial : Multiaddr -> M W unit;
  report_message_validation_result : bytes -> bytes -> MessageAcceptance -> M W bool
}.

(** discv5 and the records of nodes: [build_enr key value] is the record of this node
    with one entry. *)
Class Discv5 (D : Type) := {
  Enr_from_str : string -> option Enr;
  build_enr : string -> bytes -> outcome Enr;
  discv5_new : Enr -> outcome D;
  add_enr : Enr -> M D unit;
  disc_start : SocketAddr -> M D unit;
  find_node : bytes -> M D (list Enr)
}.

(** [Result::map_err] with another error, and a result that is kept as a value. *)
Definition replace_err {S A} (error : string) (m : M S A) : M S A := fun s =>
  match m s with
  | (Err _, s) => (Err error, s)
  | r => r
  end.

Definition try_call {S A} (m : M S A) : M S (outcome A) := fun s =>
  match m s with
  | (Ok a, s) => (Ok (Ok a), s)
  | (Err e, s) => (Ok (Err e), s)
  | (Panic, s) => (Panic, s)
  | (Diverge, s) => (Diverge, s)
  end.

(** The same for a call without state. *)
Definition or_err {A} (error : string) (o : outcome A) : outcome A :=
  match o with Err _ => Err error | o => o end.

(** ** Gossip *)

Section behaviour.
Context {G W H : Type} `{Libp2p G W, Handler H, Snappy, Sha256}.

Definition gossipsub_config : GossipsubConfig :=
  {| mesh_n := 8; mesh_n_low := 6; mesh_n_high := 12; gossip_lazy := 6; heartbeat_interval := 500;
     fanout_ttl := 24 * 1000; history_length := 12; history_gossip := 3; duplicate_cache_time := 65 * 1000;
     validation_mode := NoValidation; validate_messages := true; message_id_fn := compute_message_id |}.

(** The inner [collect]: every topic of one handler is subscribed to. *)
Fixpoint subscribe_topics (topics : list string) : M G (list (outcome bool)) :=
  match topics with
  | [] => mret []
  | topic :: topics =>
      r ← try_call (replace_err "subscription failed" (subscribe topic));
      rs ← subscribe_topics topics;
      mret (r :: rs)
  end.

(** [collect] into a [Result]: the first error is the result. *)
Fixpoint collect_results {A} (l : list (outcome A)) : outcome (list A) :=
  match l with
  | [] => Ok []
  | r :: l => a ← r; rest ← collect_results l; Ok (a :: rest)
  end.

(** The outer [collect], which stops at the first error. *)
Fixpoint subscribe_handlers (l : list H) : M G (list bool) :=
  match l with
  | [] => mret []
  | handler :: l =>
      rs ← subscribe_topics (handler_topics handler);
      bs ← lift (collect_results rs);
      rest ← subscribe_handlers l;
      mret (bs ++ rest)
  end.

(** [Behaviour::new]; the ping behaviour keeps nothing. *)
Definition Behaviour_new (handlers : list H) : outcome G :=
  config ← or_err "gossipsub config creation failed" (gossipsub_config_build gossipsub_config);
  gossipsub ← or_err "gossipsub behaviour creation failed" (gossipsub_new config);
  match subscribe_handlers handlers gossipsub with
  | (Ok _, gossipsub) => Ok gossipsub
  | (Err e, _) => Err e
  | (Panic, _) => Panic
  | (Diverge, _) => Diverge
  end.

Definition create_swarm (keypair : bytes) (handlers : list H) : outcome W :=
  _ ← noise_config keypair;
  behaviour ← Behaviour_new handlers;
  Ok (swarm_build keypair behaviour).

(** ** Events *)

(** [gossipsub::Event] and the [Event] of the behaviour. *)
Inductive GossipsubEvent :=
| GossipMessage (propagation_source message_id : bytes) (message : Message)
| GossipOther.

Inductive Event := EventPing | EventGossipsub (e : GossipsubEvent).

(** The conversions of the events of the two behaviours; nothing of a ping is used. *)
Definition Event_from_ping : Event := EventPing.
Definition Event_from_gossipsub (value : GossipsubEvent) : Event := EventGossipsub value.

Inductive SwarmEvent := SwarmBehaviour (e : Event) | SwarmOther.

(** What a step asks of the swarm. *)
Inductive NetworkAction :=
| Dialed (addr : Multiaddr)
| Reported (message_id source : bytes) (status : MessageAcceptance).

(** [Event::handle], with the report it makes. *)
Definition handle_event (now : Z) (e : Event) (swarm : W) (handlers : list H)
    : outcome (option NetworkAction) * W * list H :=
  match e with
  | EventGossipsub (GossipMessage source id msg) =>
      match Event_handle now msg handlers with
      | (Ok (Some status), handlers) =>
          match report_message_validation_result id source status swarm with
          | (Panic, swarm) => (Panic, swarm, handlers)
          | (Diverge, swarm) => (Diverge, swarm, handlers)
          | (_, swarm) => (Ok (Some (Reported id source status)), swarm, handlers)
          end
      | (Ok None, handlers) => (Ok None, swarm, handlers)
      | (Err e, handlers) => (Err e, swarm, handlers)
      | (Panic, handlers) => (Panic, swarm, handlers)
      | (Diverge, handlers) => (Diverge, swarm, handlers)
      end
  | _ => (Ok None, swarm, handlers)
  end.
End behaviour.

(** ** Discovery *)

Definition bootnode_records : list string := [
  "enr:-J64QBbwPjPLZ6IOOToOLsSjtFUjjzN66qmBZdUexpO32Klrc458Q24kbty2PdRaLacHM5z-cZQr8mjeQu3pik6jPSOGAYYFIqBfgmlkgnY0gmlwhDaRWFWHb3BzdGFja4SzlAUAiXNlY3AyNTZrMaECmeSnJh7zjKrDSPoNMGXoopeDF4hhpj5I0OsQUUt4u8uDdGNwgiQGg3VkcIIkBg";
  "enr:-J64QAlTCDa188Hl1OGv5_2Kj2nWCsvxMVc_rEnLtw7RPFbOfqUOV6khXT_PH6cC603I2ynY31rSQ8sI9gLeJbfFGaWGAYYFIrpdgmlkgnY0gmlwhANWgzCHb3BzdGFja4SzlAUAiXNlY3AyNTZrMaECkySjcg-2v0uWAsFsZZu43qNHppGr2D5F913Qqs5jDCGDdGNwgiQGg3VkcIIkBg";
  "enr:-J24QGEzN4mJgLWNTUNwj7riVJ2ZjRLenOFccl2dbRFxHHOCCZx8SXWzgf-sLzrGs6QgqSFCvGXVgGPBkRkfOWlT1-iGAYe6Cu93gmlkgnY0gmlwhCJBEUSHb3BzdGFja4OkAwCJc2VjcDI1NmsxoQLuYIwaYOHg3CUQhCkS-RsSHmUd1b_x93-9yQ5ItS6udIN0Y3CCIyuDdWRwgiMr";
  "enr:-J24QNz9lbrKbN4iSmmjtnr7SjUMk4zB7f1krHZcTZx-JRKZd0kA2gjufUROD6T3sOWDVDnFJRvqBBo62zuF-hYCohOGAYiOoEyEgmlkgnY0gmlwhAPniryHb3BzdGFja4OFQgCJc2VjcDI1NmsxoQKNVFlCxh_B-716tTs-h1vMzZkSs1FTu_OYTNjgufplG4N0Y3CCJAaDdWRwgiQG";
  "enr:-J24QH-f1wt99sfpHy4c0QJM-NfmsIfmlLAMMcgZCUEgKG_BBYFc6FwYgaMJMQN5dsRBJApIok0jFn-9CS842lGpLmqGAYiOoDRAgmlkgnY0gmlwhLhIgb2Hb3BzdGFja4OFQgCJc2VjcDI1NmsxoQJ9FTIv8B9myn1MWaC_2lJ-sMoeCDkusCsk4BYHjjCq04N0Y3CCJAaDdWRwgiQG";
  "enr:-J24QDXyyxvQYsd0yfsN0cRr1lZ1N11zGTplMNlW4xNEc7LkPXh0NAJ9iSOVdRO95GPYAIc6xmyoCCG6_0JxdL3a0zaGAYiOoAjFgmlkgnY0gmlwhAPckbGHb3BzdGFja4OFQgCJc2VjcDI1NmsxoQJwoS7tzwxqXSyFL7g0JM-KWVbgvjfB8JA__T7yY_cYboN0Y3CCJAaDdWRwgiQG";
  "enr:-J24QHmGyBwUZXIcsGYMaUqGGSl4CFdx9Tozu-vQCn5bHIQbR7On7dZbU61vYvfrJr30t0iahSqhc64J46MnUO2JvQaGAYiOoCKKgmlkgnY0gmlwhAPnCzSHb3BzdGFja4OFQgCJc2VjcDI1NmsxoQINc4fSijfbNIiGhcgvwjsjxVFJHUstK9L1T8OTKUjgloN0Y3CCJAaDdWRwgiQG";
  "enr:-J24QG3ypT4xSu0gjb5PABCmVxZqBjVw9ca7pvsI8jl4KATYAnxBmfkaIuEqy9sKvDHKuNCsy57WwK9wTt2aQgcaDDyGAYiOoGAXgmlkgnY0gmlwhDbGmZaHb3BzdGFja4OFQgCJc2VjcDI1NmsxoQIeAK_--tcLEiu7HvoUlbV52MspE0uCocsx1f_rYvRenIN0Y3CCJAaDdWRwgiQG"
].

(** The task of the discovery: before [disc.start], in its loop with the peers of the
    last lookup that it still has to send, or gone after a panic. *)
Inductive DiscoveryTask (D : Type) :=
| DiscStarting (disc : D)
| DiscRunning (disc : D) (peers : list Peer)
| DiscGone.

Arguments DiscStarting {D}.
Arguments DiscRunning {D}.
Arguments DiscGone {D}.

Section discovery.
Context {D : Type} `{Discv5 D, Codec, RlpDecoder, Varint, VarintEncode}.

Definition bootnodes : list Enr := omap Enr_from_str bootnode_records.

Definition create_disc (chain_id : Z) : outcome D :=
  let opstack := {| enr_chain_id := chain_id; enr_version := 0 |} in
  let opstack_data := OpStackEnrData_into opstack in
  enr ← build_enr "opstack" opstack_data;
  or_err "could not create disc service" (discv5_new enr).

(** The [for_each] that adds the boot nodes. *)
Fixpoint add_enrs (l : list Enr) : M D unit :=
  match l with
  | [] => mret tt
  | enr :: l => try_call (add_enr enr) ;; add_enrs l
  end.

(** The capacity of the channel of the peers. *)
Definition peer_channel : Z := 256.

(** One step of the task, with the channel and whether its receiver is there: the start, a
    lookup of the node [target], or a peer that is sent; a full channel makes the task wait,
    and without a receiver the send fails at once. *)
Definition discovery_step (addr : NetworkAddress) (chain_id : Z) (target : bytes) (receiver : bool) (t : DiscoveryTask D)
    (channel : list Peer) : DiscoveryTask D * list Peer :=
  match t with
  | DiscStarting disc =>
      match (add_enrs bootnodes ;; disc_start (SocketAddr_from addr)) disc with
      | (Ok _, disc) => (DiscRunning disc [], channel)
      | _ => (DiscGone, channel)
      end
  | DiscRunning disc [] =>
      match find_node target disc with
      | (Ok nodes, disc) => (DiscRunning disc (discovered_peers nodes chain_id), channel)
      | (Err _, disc) => (DiscRunning disc [], channel)
      | _ => (DiscGone, channel)
      end
  | DiscRunning disc (peer :: peers) =>
      if negb receiver then (DiscRunning disc peers, channel)
      else if len channel <? peer_channel then (DiscRunning disc peers, channel ++ [peer]) else (t, channel)
  | DiscGone => (DiscGone, channel)
  end.

(** [discovery::start]: the task that is spawned. *)
Definition discovery_start (chain_id : Z) : outcome (DiscoveryTask D) :=
  disc ← create_disc chain_id;
  Ok (DiscStarting disc).
End discovery.

(** ** The service *)

(** The two tasks that [Service::start] leaves running; the channel of the peers is
    between them. *)
Record NetworkTasks (D W H : Type) := {
  discovery : DiscoveryTask D;
  peer_recv : list Peer;
  swarm : W;
  nt_handlers : list H;
  listening : bool
}.

Arguments Build_NetworkTasks {D W H}.
Arguments discovery {D W H}.
Arguments peer_recv {D W H}.
Arguments swarm {D W H}.
Arguments nt_handlers {D W H}.
Arguments listening {D W H}.

Section service.
Context {D G W H : Type} `{Libp2p G W, Discv5 D, Handler H, Snappy, Sha256}.
Context `{Codec, RlpDecoder, Varint, VarintEncode}.
Implicit Types t : NetworkTasks D W H.

(** [Service::start], up to the tasks it spawns; [Keypair::generate_secp256k1] gives the
    identity where none was set. *)
Definition Service_start (s : Service H) : outcome (NetworkAddress * NetworkTasks D W H) :=
  addr ← NetworkAddress_try_from (srv_addr s);
  let keypair := default generate_secp256k1 (srv_keypair s) in
  swarm ← create_swarm keypair (handlers s);
  task ← discovery_start (srv_chain_id s);
  let multiaddr := Multiaddr_from_address addr in
  match replace_err "swarm listen failed" (listen_on multiaddr) swarm with
  | (Ok _, swarm) =>
      Ok (addr, {| discovery := task; peer_recv := []; swarm := swarm; nt_handlers := handlers s; listening := true |})
  | (Err e, _) => Err e
  | (Panic, _) => Panic
  | (Diverge, _) => Diverge
  end.

(** The branch of the [select] that takes a peer: it is ready when a peer is in the
    channel, or its sender is gone. *)
Definition peer_ready t : bool :=
  negb (bool_decide (peer_recv t = [])) || match discovery t with DiscGone => true | _ => false end.

Definition on_peer t : option NetworkAction * NetworkTasks D W H :=
  match peer_recv t with
  | [] => (None, t)
  | peer :: peers =>
      let peer := Multiaddr_from_peer peer in
      match dial peer (swarm t) with
      | (Panic, w) | (Diverge, w) =>
          (Some (Dialed peer), {| discovery := discovery t; peer_recv := peers; swarm := w;
             nt_handlers := nt_handlers t; listening := false |})
      | (_, w) =>
          (Some (Dialed peer), {| discovery := discovery t; peer_recv := peers; swarm := w;
             nt_handlers := nt_handlers t; listening := listening t |})
      end
  end.

(** The branch that takes an event of the swarm; a panic ends the task. *)
Definition on_swarm_event (now : Z) (event : SwarmEvent) t : option NetworkAction * NetworkTasks D W H :=
  match event with
  | SwarmBehaviour event =>
      let '(r, w, l) := handle_event now event (swarm t) (nt_handlers t) in
      let t' b := {| discovery := discovery t; peer_recv := peer_recv t; swarm := w; nt_handlers := l; listening := b |} in
      match r with
      | Ok action => (action, t' (listening t))
      | _ => (None, t' false)
      end
  | SwarmOther => (None, t)
  end.

(** What drives a step: a step of the discovery with the target it drew, a peer in the
    channel, an event of the swarm, or the owners of the other ends of the handlers'
    channels. *)
Inductive NetworkInput :=
| InDiscovery (target : bytes)
| InPeer
| InSwarm (now : Z) (event : SwarmEvent)
| InHandlers.

(** A step of one of the two tasks, or of the owners of the other ends of the handlers'
    channels, which may change a handler as [env] says.  The service's task owns the receiver
    of the peers. *)
Inductive network_step (env : H -> H -> Prop) (addr : NetworkAddress) (chain_id : Z)
    : NetworkTasks D W H -> NetworkInput -> option NetworkAction -> NetworkTasks D W H -> Prop :=
| step_discovery target t task channel :
    discovery_step addr chain_id target (listening t) (discovery t) (peer_recv t) = (task, channel) ->
    network_step env addr chain_id t (InDiscovery target) None
      {| discovery := task; peer_recv := channel; swarm := swarm t; nt_handlers := nt_handlers t; listening := listening t |}
| step_peer t action t' :
    listening t = true -> peer_ready t = true -> on_peer t = (action, t') ->
    network_step env addr chain_id t InPeer action t'
| step_swarm now event t action t' :
    listening t = true -> on_swarm_event now event t = (action, t') ->
    network_step env addr chain_id t (InSwarm now event) action t'
| step_handlers t l :
    Forall2 env (nt_handlers t) l ->
    network_step env addr chain_id t InHandlers None
      {| discovery := discovery t; peer_recv := peer_recv t; swarm := swarm t; nt_handlers := l; listening := listening t |}.

(** One entry of a run: what the step started from, what drove it, what it asked of the
    swarm, and what it left. *)
Record NetworkTurn := {
  nt_before : NetworkTasks D W H;
  nt_input : NetworkInput;
  nt_action : option NetworkAction;
  nt_after : NetworkTasks D W H
}.

(** The runs, with their steps in order. *)
Inductive network_run (env : H -> H -> Prop) (addr : NetworkAddress) (chain_id : Z)
    : NetworkTasks D W H -> list NetworkTurn -> NetworkTasks D W H -> Prop :=
| run_refl t : network_run env addr chain_id t [] t
| run_step t1 input action t2 l t3 :
    network_step env addr chain_id t1 input action t2 -> network_run env addr chain_id t2 l t3 ->
    network_run env addr chain_id t1 ({| nt_before := t1; nt_input := input; nt_action := action; nt_after := t2 |} :: l) t3.
End service.

(** ** Lemmas *)

Section subscriptions.
Context {G W H : Type} `{Libp2p G W, Handler H, Snappy, Sha256}.

Lemma collect_results_Ok {A} (l : list (outcome A)) bs : collect_results l = Ok bs <-> l = Ok <$> bs.
Proof.
  revert bs. induction l as [|r l IH]; intros bs; cbn [collect_results].
  - destruct bs; split; naive_solver.
  - rewrite bind_Ok. setoid_rewrite bind_Ok. setoid_rewrite IH. destruct bs as [|b bs]; naive_solver.
Qed.

(** A run without an error subscribes to the topics one by one. *)
Lemma subscribe_topics_Ok topics g bs g' :
  subscribe_topics topics g = (Ok (Ok <$> bs), g') -> mapM subscribe topics g = (Ok bs, g').
Proof.
  revert g bs. induction topics as [|t topics IH]; intros g bs.
  - intros [= Hb <-]. by destruct bs.
  - cbn [subscribe_topics mapM]. intros ([b|e| |] & g1 & Hs & (rs & g2 & Hr & [= Hb <-])%M_bind_Ok)%M_bind_Ok;
      (destruct bs as [|b' bs]; [done|]); injection Hb as Hb Hrs; [subst b' rs|done..].
    apply M_bind_Ok. exists b, g1. split.
    + unfold try_call, replace_err in Hs. by destruct (subscribe t g) as [[]]; simplify_eq.
    + apply M_bind_Ok. exists bs, g2. split; [by apply IH|done].
Qed.

Lemma mapM_app {S A B} (f : A -> M S B) (l k : list A) s bs cs s1 s2 :
  mapM f l s = (Ok bs, s1) -> mapM f k s1 = (Ok cs, s2) -> mapM f (l ++ k) s = (Ok (bs ++ cs), s2).
Proof.
  revert s bs. induction l as [|x l IH]; intros s bs.
  - intros [= <- <-]. done.
  - cbn [mapM app]. intros (b & s3 & Hb & (bs' & s4 & Hl & [= <- <-])%M_bind_Ok)%M_bind_Ok Hk.
    apply M_bind_Ok. exists b, s3. split; [done|]. apply M_bind_Ok. exists (bs' ++ cs), s2. split; [by eapply IH|done].
Qed.

Lemma subscribe_handlers_Ok l g bs g' :
  subscribe_handlers l g = (Ok bs, g') -> mapM subscribe (mjoin (handler_topics <$> l)) g = (Ok bs, g').
Proof.
  revert g bs. induction l as [|h l IH]; intros g bs; [by intros [= <- <-]|]. cbn [subscribe_handlers].
  intros (rs & g1 & Hr & (cs & g2 & Hc & (rest & g3 & Hrest & [= <- <-])%M_bind_Ok)%M_bind_Ok)%M_bind_Ok.
  injection Hc as Hc <-. apply collect_results_Ok in Hc as ->. apply subscribe_topics_Ok in Hr.
  change (mjoin (handler_topics <$> h :: l)) with (handler_topics h ++ mjoin (handler_topics <$> l)).
  eapply mapM_app; [exact Hr|by apply IH].
Qed.

Lemma or_err_Ok {A} e (o : outcome A) a : or_err e o = Ok a -> o = Ok a.
Proof. by destruct o. Qed.

(** The swarm that is created has subscribed to the topics of the handlers. *)
Lemma create_swarm_Ok keypair (l : list H) (w : W) :
  create_swarm keypair l = Ok w ->
  exists config g bs g', gossipsub_config_build gossipsub_config = Ok config /\ gossipsub_new config = Ok g /\
    mapM subscribe (mjoin (handler_topics <$> l)) g = (Ok bs, g') /\ w = swarm_build keypair g'.
Proof.
  unfold create_swarm, Behaviour_new.
  intros (_ & _ & (g' & (config & Hc%or_err_Ok & (g & Hg%or_err_Ok & Hs)%bind_Ok)%bind_Ok & [= <-])%bind_Ok)%bind_Ok.
  destruct (subscribe_handlers l g) as [[bs| | |] g2] eqn:E; [|done..]. injection Hs as ->.
  apply subscribe_handlers_Ok in E. by exists config, g, bs, g'.
Qed.
End subscriptions.

Lemma Event_handle_found {H} `{Handler H} now msg (l : list H) a l' :
  Event_handle now msg l = (Ok (Some a), l') ->
  exists h h' l1 l2, l = l1 ++ h :: l2 /\ l' = l1 ++ h' :: l2 /\ msg_topic msg ∈ handler_topics h /\
    handler_handle now msg h = (Ok a, h').
Proof.
  revert l'. induction l as [|h l IH]; intros l'; cbn [Event_handle]; [done|].
  destruct (bool_decide_reflect (msg_topic msg ∈ handler_topics h)) as [Hin|_].
  - destruct (handler_handle now msg h) as [[b| | |] h'] eqn:Eh; [|done..]. intros [= -> <-].
    by exists h, h', [], l.
  - destruct (Event_handle now msg l) as [r l1] eqn:E. intros [= -> <-].
    destruct (IH l1 eq_refl) as (h1 & h' & k1 & k2 & -> & -> & ? & ?). by exists h1, h', (h :: k1), k2.
Qed.

Lemma Event_handle_length {H} `{Handler H} now msg (l : list H) r l' :
  Event_handle now msg l = (r, l') -> length l' = length l.
Proof.
  revert r l'. induction l as [|h l IH]; intros r l'; cbn [Event_handle]; [by intros [= _ <-]|]. destruct (bool_decide _).
  - destruct (handler_handle now msg h) as [b h']. by intros [= _ <-].
  - destruct (Event_handle now msg l) as [b l1] eqn:E. intros [= _ <-]. cbn. f_equal. by eapply IH.
Qed.

(** What the handlers keep of themselves, they keep in the list. *)
Lemma Event_handle_keeps {H} `{Handler H} (P : H -> Prop) now msg (l : list H) r l' :
  (forall h r h', P h -> handler_handle now msg h = (r, h') -> P h') -> Forall P l ->
  Event_handle now msg l = (r, l') -> Forall P l'.
Proof.
  intros Hk Hl. revert r l'. induction Hl as [|h l Hh Hl IH]; intros r l'; cbn [Event_handle]; [by intros [= _ <-]|].
  destruct (bool_decide _).
  - destruct (handler_handle now msg h) as [b h'] eqn:Eh. intros [= _ <-]. constructor; [by eapply Hk|done].
  - destruct (Event_handle now msg l) as [b l1] eqn:E. intros [= _ <-]. constructor; [done|by eapply IH].
Qed.

Section run.
Context {D G W H : Type} `{Libp2p G W, Discv5 D, Handler H, Snappy, Sha256}.
Context `{Codec, RlpDecoder, Varint, VarintEncode}.
Context (env : H -> H -> Prop) (P : H -> Prop).
Context (P_env : forall h h', P h -> env h h' -> P h').
Context (P_handle : forall now msg h r h', P h -> handler_handle now msg h = (r, h') -> P h').
Implicit Types t : NetworkTasks D W H.

(** A peer of the chain that one of these steps found: the discovery looked up the target it
    drew, and the client of discv5 answered a record with the network of the chain and this
    address. *)
Definition found_peer (chain_id : Z) (past : list (NetworkTurn (D := D) (W := W) (H := H))) (peer : Peer) : Prop :=
  exists turn target d d' nodes node, turn ∈ past /\ nt_input turn = InDiscovery target /\
    discovery (nt_before turn) = DiscRunning d [] /\ find_node target d = (Ok nodes, d') /\ node ∈ nodes /\
    is_valid_node node chain_id = true /\ Peer_try_from node = Ok peer.

Lemma found_peer_later chain_id past more peer : found_peer chain_id past peer -> found_peer chain_id (past ++ more) peer.
Proof.
  intros (turn & target & d & d' & nodes & node & Ht & Hrest). exists turn, target, d, d', nodes, node.
  split; [|done]. rewrite elem_of_app. by left.
Qed.

(** The peers that are on their way. *)
Definition peers_found (chain_id : Z) past (task : DiscoveryTask D) (channel : list Peer) : Prop :=
  Forall (found_peer chain_id past) channel /\
  match task with DiscRunning _ peers => Forall (found_peer chain_id past) peers | _ => True end.

Lemma peers_found_later chain_id past more task channel :
  peers_found chain_id past task channel -> peers_found chain_id (past ++ more) task channel.
Proof.
  intros [Hc Ht]. split.
  - eapply Forall_impl; [exact Hc|]. intros peer. apply found_peer_later.
  - destruct task; try done. eapply Forall_impl; [exact Ht|]. intros peer. apply found_peer_later.
Qed.

Lemma discovered_peers_found chain_id past turn d d' target nodes :
  turn ∈ past -> nt_input turn = InDiscovery target -> discovery (nt_before turn) = DiscRunning d [] ->
  find_node target d = (Ok nodes, d') -> Forall (found_peer chain_id past) (discovered_peers nodes chain_id).
Proof.
  intros Hin Hi Hd Hf. apply Forall_forall. intros peer (node & [Hv Hn]%list_elem_of_filter & Hp)%list_elem_of_omap.
  exists turn, target, d, d', nodes, node. split_and!; [done..|by apply Is_true_true|].
  destruct (Peer_try_from node); cbn in Hp; by simplify_eq.
Qed.

Lemma discovery_step_found addr chain_id past turn target receiver task channel task' channel' :
  turn ∈ past -> nt_input turn = InDiscovery target -> discovery (nt_before turn) = task ->
  peers_found chain_id past task channel -> discovery_step addr chain_id target receiver task channel = (task', channel') ->
  peers_found chain_id past task' channel'.
Proof.
  intros Hin Hi Hd [Hc Ht] E. unfold discovery_step in E. destruct task as [disc|disc [|peer peers]|].
  - destruct ((add_enrs bootnodes ;; disc_start (SocketAddr_from addr)) disc) as [[[]| | |] d]; injection E as <- <-; by split.
  - destruct (find_node target disc) as [[nodes| | |] d] eqn:Ef; injection E as <- <-; (split; [done|]); [|done..].
    by eapply discovered_peers_found.
  - apply Forall_cons in Ht as [Hp Hps]. destruct receiver; cbn [negb] in E; [|by injection E as <- <-].
    destruct (_ <? _); injection E as <- <-; split; [|done|done|by constructor].
    apply Forall_app. split; [done|]. by constructor.
  - injection E as <- <-. by split.
Qed.

(** What a step asks of the swarm, after the steps [past]: it dials a peer that was found; it
    reports, under the id and the source of the message of its own event, the verdict of one
    of its handlers on this message. *)
Definition turn_ok (chain_id : Z) past (turn : NetworkTurn (D := D) (W := W) (H := H)) : Prop :=
  match nt_action turn with
  | None => True
  | Some (Dialed addr) => exists peer, found_peer chain_id past peer /\ addr = Multiaddr_from_peer peer /\
      swarm (nt_after turn) = (dial addr (swarm (nt_before turn))).2
  | Some (Reported id source status) => exists now msg h h' l1 l2,
      nt_input turn = InSwarm now (SwarmBehaviour (EventGossipsub (GossipMessage source id msg))) /\
      nt_handlers (nt_before turn) = l1 ++ h :: l2 /\ nt_handlers (nt_after turn) = l1 ++ h' :: l2 /\
      P h /\ msg_topic msg ∈ handler_topics h /\ handler_handle now msg h = (Ok status, h') /\
      swarm (nt_after turn) = (report_message_validation_result id source status (swarm (nt_before turn))).2
  end.

(** The invariant of the tasks. *)
Definition tasks_ok (chain_id : Z) past t : Prop :=
  peers_found chain_id past (discovery t) (peer_recv t) /\ Forall P (nt_handlers t).

Lemma on_swarm_event_ok chain_id past now event t action t' :
  Forall P (nt_handlers t) -> on_swarm_event now event t = (action, t') ->
  discovery t' = discovery t /\ peer_recv t' = peer_recv t /\ Forall P (nt_handlers t') /\
  turn_ok chain_id past {| nt_before := t; nt_input := InSwarm now event; nt_action := action; nt_after := t' |}.
Proof.
  intros Hl E. unfold on_swarm_event in E. destruct event as [e|]; [|by injection E as <- <-].
  unfold handle_event in E. destruct e as [|[source id msg|]]; [by injection E as <- <-| |by injection E as <- <-].
  destruct (Event_handle now msg (nt_handlers t)) as [rv l1] eqn:Ev.
  pose proof (Event_handle_keeps P now msg _ rv l1 (P_handle now msg) Hl Ev) as Hl1.
  destruct rv as [[status|]| | |]; try (by injection E as <- <-).
  apply Event_handle_found in Ev as (h & h' & k1 & k2 & Hk & -> & Ht & Hh).
  assert (HP : P h) by (rewrite Hk in Hl; by apply Forall_app in Hl as [_ [? _]%Forall_cons]).
  destruct (report_message_validation_result id source status (swarm t)) as [[b|e| |] w] eqn:Er; cbn in E;
    injection E as <- <-; split_and!; try done; exists now, msg, h, h', k1, k2; cbn [nt_before nt_after swarm]; by rewrite Er.
Qed.

Lemma on_peer_ok chain_id past t action t' :
  peers_found chain_id past (discovery t) (peer_recv t) -> on_peer t = (action, t') ->
  discovery t' = discovery t /\ nt_handlers t' = nt_handlers t /\ Forall (found_peer chain_id past) (peer_recv t') /\
  turn_ok chain_id past {| nt_before := t; nt_input := InPeer; nt_action := action; nt_after := t' |}.
Proof.
  intros [Hp Ht] E. unfold on_peer in E. destruct (peer_recv t) as [|peer peers] eqn:Er.
  { injection E as <- <-. by rewrite Er. }
  apply Forall_cons in Hp as [Hpeer Hpeers].
  destruct (dial _ (swarm t)) as [[[]|e| |] w] eqn:Ed; injection E as <- <-; split_and!; try done;
    exists peer; cbn [nt_before nt_after swarm]; by rewrite Ed.
Qed.

Lemma network_step_ok addr chain_id past t input action t' :
  tasks_ok chain_id past t -> network_step env addr chain_id t input action t' ->
  let turn := {| nt_before := t; nt_input := input; nt_action := action; nt_after := t' |} in
  tasks_ok chain_id (past ++ [turn]) t' /\ turn_ok chain_id past turn.
Proof.
  intros [Hp Hh] Hs turn. assert (Hin : turn ∈ past ++ [turn]) by (rewrite elem_of_app, list_elem_of_singleton; by right).
  pose proof (peers_found_later chain_id past [turn] _ _ Hp) as Hp1.
  destruct Hs as [target t task channel E|t action t' _ _ E|now event t action t' _ E|t l Hl].
  - split; [|done]. split; [|done]. by eapply discovery_step_found.
  - apply (on_peer_ok chain_id past) in E as (Hd & Hhs & Hf & Ht); [|done]. split; [|done].
    split; [|by rewrite Hhs]. rewrite Hd. split; [|apply Hp1].
    eapply Forall_impl; [exact Hf|]. intros peer. apply found_peer_later.
  - apply (on_swarm_event_ok chain_id past) in E as (Hd & Hr & Hl & Ht); [|done]. split; [|done].
    split; [by rewrite Hd, Hr|done].
  - split; [|done]. split; [done|]. cbn. clear - P_env Hh Hl. revert Hh.
    induction Hl as [|h h' l l' He _ IH]; intros Hh; [constructor|]. apply Forall_cons in Hh as [Hh Hl].
    constructor; [by eapply P_env|by apply IH].
Qed.

Lemma network_run_ok addr chain_id past t l t' :
  network_run env addr chain_id t l t' -> tasks_ok chain_id past t ->
  forall l1 turn l2, l = l1 ++ turn :: l2 -> turn_ok chain_id (past ++ l1) turn.
Proof.
  intros Hrun. revert past. induction Hrun as [t|t1 input action t2 l t3 Hs _ IH]; intros past Hp l1 turn l2 Hl; [by destruct l1|].
  destruct (network_step_ok _ _ _ _ _ _ _ Hp Hs) as [Hp' Ha]. destruct l1 as [|turn1 l1]; injection Hl as <- Hl.
  - by rewrite app_nil_r.
  - specialize (IH _ Hp' _ _ _ Hl). by rewrite <- app_assoc in IH.
Qed.

(** The handlers stay as many as they are. *)
Lemma network_step_count addr chain_id t input action t' :
  network_step env addr chain_id t input action t' -> length (nt_handlers t') = length (nt_handlers t).
Proof.
  intros Hs. destruct Hs as [target t task channel E|t action t' _ _ E|now event t action t' _ E|t l Hl]; [done|..].
  - unfold on_peer in E. destruct (peer_recv t); [by injection E as _ <-|].
    by destruct (dial _ (swarm t)) as [[]]; injection E as _ <-.
  - unfold on_swarm_event, handle_event in E. destruct event as [[|[source id msg|]]|]; try by injection E as _ <-.
    destruct (Event_handle now msg (nt_handlers t)) as [rv l] eqn:Ev. apply Event_handle_length in Ev.
    destruct rv as [[status|]| | |]; try (by injection E as _ <-).
    by destruct (report_message_validation_result _ _ _ _) as [[]]; injection E as _ <-.
  - symmetry. by eapply Forall2_length.
Qed.

Lemma network_run_count addr chain_id t l t' :
  network_run env addr chain_id t l t' ->
  forall turn, turn ∈ l -> length (nt_handlers (nt_before turn)) = length (nt_handlers t) /\
    length (nt_handlers (nt_after turn)) = length (nt_handlers t).
Proof.
  induction 1 as [t|t1 input action t2 l t3 Hs _ IH]; intros turn Hin; [by apply not_elem_of_nil in Hin|].
  apply network_step_count in Hs. apply elem_of_cons in Hin as [->|Hin]; [done|]. rewrite <- Hs. by apply IH.
Qed.

(** A service starts on an IPv4 address only, with the topics of its handlers and an
    empty channel. *)
Lemma Service_start_Ok (s : Service H) addr t :
  Service_start s = Ok (addr, t) ->
  srv_addr s = SocketAddr_from addr /\ nt_handlers t = handlers s /\ peer_recv t = [] /\
  (exists d, discovery t = DiscStarting d) /\
  exists g bs g' w, mapM subscribe (mjoin (handler_topics <$> handlers s)) g = (Ok bs, g') /\
    w = swarm_build (default generate_secp256k1 (srv_keypair s)) g' /\
    listen_on (Multiaddr_from_address addr) w = (Ok tt, swarm t).
Proof.
  unfold Service_start. intros (a & Ha & (w & Hw & (task & Ht & E)%bind_Ok)%bind_Ok)%bind_Ok.
  apply create_swarm_Ok in Hw as (config & g & bs & g' & _ & _ & Hsub & Hw).
  unfold discovery_start in Ht. apply bind_Ok in Ht as (d & _ & [= <-]).
  unfold NetworkAddress_try_from in Ha. destruct (srv_addr s) as [[ip|ip] port] eqn:Hs; [|done]. injection Ha as <-.
  cbv zeta in E. unfold replace_err in E. destruct (listen_on _ w) as [[[]| | |] w'] eqn:El; try done. injection E as <- <-.
  split_and!; [done|done|done|by exists d|]. by exists g, bs, g', w.
Qed.
End run.

(** Once discovery is gone, the branch of the peers is always ready and does nothing: the
    task of the service turns without waiting. *)
Lemma discovery_gone_spins {D G W H : Type} `{Libp2p G W} (t : NetworkTasks D W H) :
  discovery t = DiscGone -> peer_recv t = [] -> peer_ready t = true /\ on_peer t = (None, t).
Proof. intros Hd Hr. unfold peer_ready, on_peer. rewrite Hd, Hr. done. Qed.

(** ** The interface of the driver *)

Section start.
Context {D G W : Type} `{Libp2p G W, Discv5 D, Keccak, Snappy, Sha256, Ssz, Ecdsa}.
Context `{Codec, RlpDecoder, Varint, VarintEncode}.

(** What the driver sees of the start. *)
Definition Service_start_driver : ServiceStart := {|
  service_start := fun s =>
    (fun _ => tt) <$> Service_start (D := D) (G := G) (W := W) (H := BlockHandler) s
|}.

(** The library calls of the start answer. *)
Class NetworkEnds := {
  noise_config_ends : forall k, noise_config (W := W) k <> Diverge;
  config_build_ends : forall c, gossipsub_config_build (W := W) c <> Diverge;
  gossipsub_new_ends : forall c, gossipsub_new (W := W) c <> Diverge;
  subscribe_ends : forall topic, ends (subscribe (W := W) topic);
  listen_on_ends : forall addr, ends (listen_on (W := W) addr);
  build_enr_ends : forall k v, build_enr (D := D) k v <> Diverge;
  discv5_new_ends : forall enr, discv5_new (D := D) enr <> Diverge
}.

Context `{!NetworkEnds}.

Lemma or_err_not_Diverge {A} e (o : outcome A) : o <> Diverge -> or_err e o <> Diverge.
Proof. by destruct o. Qed.

Lemma try_call_ends {S A} (m : M S A) : ends m -> ends (try_call m).
Proof. intros Hm s. specialize (Hm s). unfold try_call. by destruct (m s) as [[]]. Qed.

Lemma replace_err_ends {S A} e (m : M S A) : ends m -> ends (replace_err e m).
Proof. intros Hm s. specialize (Hm s). unfold replace_err. by destruct (m s) as [[]]. Qed.

Lemma collect_results_not_Diverge {A} (l : list (outcome A)) : Forall (.≠ Diverge) l -> collect_results l <> Diverge.
Proof.
  induction 1 as [|r l Hr _ IH]; [done|]. cbn. apply bind_not_Diverge; [done|]. intros a _.
  by apply bind_not_Diverge.
Qed.

Lemma subscribe_topics_results topics (g g' : G) rs :
  subscribe_topics (W := W) topics g = (Ok rs, g') -> Forall (.≠ Diverge) rs.
Proof.
  revert g rs. induction topics as [|t topics IH]; intros g rs; [by intros [= <- _]|]. cbn [subscribe_topics].
  intros (r & g1 & Hr & (rs' & g2 & Hrs & [= <- <-])%M_bind_Ok)%M_bind_Ok. constructor; [|by eapply IH].
  unfold try_call in Hr. by destruct (replace_err _ _ g) as [[]]; simplify_eq.
Qed.

Lemma subscribe_topics_ends topics : ends (subscribe_topics (W := W) topics).
Proof.
  induction topics as [|t topics IH]; [apply ends_ret|]. cbn [subscribe_topics].
  apply ends_bind; [apply try_call_ends, replace_err_ends, subscribe_ends|]. intros r.
  apply ends_bind; [exact IH|]. intros rs. apply ends_ret.
Qed.

Lemma subscribe_handlers_ends (l : list BlockHandler) : ends (subscribe_handlers (W := W) l).
Proof.
  induction l as [|h l IH]; [apply ends_ret|]. cbn [subscribe_handlers]. intros g. run_M.
  pose proof (subscribe_topics_ends (handler_topics h) g) as Ht.
  destruct (subscribe_topics (handler_topics h) g) as [[rs| | |] g1] eqn:E; try done.
  apply subscribe_topics_results, collect_results_not_Diverge in E. destruct (collect_results rs) as [bs| | |]; try done.
  specialize (IH g1). by destruct (subscribe_handlers l g1) as [[]].
Qed.

(** The start that the driver calls answers. *)
Lemma Service_start_ends : @ServiceStartEnds Service_start_driver.
Proof.
  split. intros s. cbn [service_start Service_start_driver]. apply fmap_not_Diverge. unfold Service_start.
  apply bind_not_Diverge; [unfold NetworkAddress_try_from; by destruct (sa_ip _)|]. intros addr _. cbv zeta.
  apply bind_not_Diverge.
  { unfold create_swarm. apply bind_not_Diverge; [apply noise_config_ends|]. intros _ _.
    apply bind_not_Diverge; [|done]. unfold Behaviour_new.
    apply bind_not_Diverge; [apply or_err_not_Diverge, config_build_ends|]. intros config _.
    apply bind_not_Diverge; [apply or_err_not_Diverge, gossipsub_new_ends|]. intros g _.
    pose proof (subscribe_handlers_ends (handlers s) g). by destruct (subscribe_handlers (handlers s) g) as [[]]. }
  intros w _. apply bind_not_Diverge.
  { unfold discovery_start, create_disc. apply bind_not_Diverge; [|done]. cbv zeta.
    apply bind_not_Diverge; [apply build_enr_ends|]. intros enr _. apply or_err_not_Diverge, discv5_new_ends. }
  intros task _. pose proof (replace_err_ends "swarm listen failed" _ (listen_on_ends (Multiaddr_from_address addr)) w).
  by destruct (replace_err _ _ w) as [[]].
Qed.
End start.

(** ** Properties *)

Section properties.
Context {D G W : Type} `{Libp2p G W, Discv5 D, Keccak, Snappy, Sha256, Ssz, Ecdsa}.
Context `{Codec, RlpDecoder, Varint, VarintEncode}.

(** The driver writes the signer and drains the payloads of a handler. *)
Definition driver_env (h h' : BlockHandler) : Prop := exists signer queue, h' = with_channels signer queue h.

(** C30. What the network service does to others.  Take any run of the two tasks that
    [Service::start] leaves running, however they interleave, whatever peers and
    libraries answer, with the handler of the blocks of a chain, and any step of it.  If the step
    dials, it dials the address of a node that an earlier step of the discovery found when it
    looked up the target it had drawn, and whose record names this chain at version 0.  If it
    reports a verdict, the step was driven by a gossip message, and the verdict is reported to
    the swarm under the id and the source of this very message; the message is on
    one of the two topics of the chain, and the verdict is the one of the handler as it was at
    that time: it accepts, which lets gossipsub pass the message on, only if the message holds
    an envelope that decodes, is recent, and whose signature verifies for the chain and the
    signer of that time, and then the payload goes to the driver; it rejects otherwise and
    keeps nothing; it ignores none. *)
Theorem network_run_safe chain_id signer s addr (t t' : NetworkTasks D W BlockHandler) l1 turn l2 :
  handlers s = [BlockHandler_new chain_id signer] -> srv_chain_id s = chain_id ->
  Service_start s = Ok (addr, t) -> network_run driver_env addr chain_id t (l1 ++ turn :: l2) t' ->
  match nt_action turn with
  | None => True
  | Some (Dialed a) => exists earlier target d d' nodes node ip port, earlier ∈ l1 /\
      nt_input earlier = InDiscovery target /\ discovery (nt_before earlier) = DiscRunning d [] /\
      find_node target d = (Ok nodes, d') /\ node ∈ nodes /\ is_valid_node node chain_id = true /\
      enr_ip4 node = Some ip /\ enr_tcp4 node = Some port /\ a = [Ip4 ip; Tcp port] /\
      swarm (nt_after turn) = (dial a (swarm (nt_before turn))).2
  | Some (Reported id source status) => exists now msg h h',
      nt_input turn = InSwarm now (SwarmBehaviour (EventGossipsub (GossipMessage source id msg))) /\
      swarm (nt_after turn) = (report_message_validation_result id source status (swarm (nt_before turn))).2 /\
      nt_handlers (nt_before turn) = [h] /\ nt_handlers (nt_after turn) = [h'] /\
      msg_topic msg ∈ [blocks_topic chain_id "0"; blocks_topic chain_id "1"] /\
      match status with
      | Accept => exists env, decode_for h msg = Some (Ok env) /\ block_valid now env h = true /\
          signature_verify (signature env) (signature_message (hash env) chain_id) (unsafe_signer_recv h) = true /\
          h' = send_block (payload env) h
      | Reject => h' = h /\ forall env, decode_for h msg = Some (Ok env) -> block_valid now env h = false
      | Ignore => False
      end
  end.
Proof.
  intros Hh Hc Hstart Hrun.
  set (P := fun h => bh_chain_id h = chain_id /\ BlockHandler_topics h = [blocks_topic chain_id "0"; blocks_topic chain_id "1"]).
  assert (P_env : forall h h', P h -> driver_env h h' -> P h') by (by intros h h' Hp (sg & q & ->)).
  assert (P_handle : forall now msg h r h', P h -> handler_handle now msg h = (r, h') -> P h').
  { intros now msg h r h' Hp E. change (BlockHandler_handle now msg h = (r, h')) in E. unfold BlockHandler_handle in E.
    destruct (decode_for h msg) as [[env| | |]|]; try (by injection E as <- <-).
    destruct (block_valid now env h); by injection E as <- <-. }
  apply Service_start_Ok in Hstart as (_ & Hhs & Hr & [d0 Hd] & _).
  assert (Hok : tasks_ok P chain_id [] t).
  { split; [rewrite Hr, Hd; by split|]. rewrite Hhs, Hh. by repeat constructor. }
  pose proof (network_run_ok driver_env P P_env P_handle _ _ _ _ _ _ Hrun Hok l1 turn l2 eq_refl) as Hturn. cbn [app] in Hturn.
  destruct (network_run_count driver_env _ _ _ _ _ Hrun turn) as [Hcount _]; [rewrite elem_of_app, elem_of_cons; auto|].
  rewrite Hhs, Hh in Hcount. unfold turn_ok in Hturn. destruct (nt_action turn) as [[a|id source status]|]; [|..|done].
  - destruct Hturn as (peer & (earlier & target & d & d' & nodes & node & He & Hi & Hdisc & Hf & Hn & Hv & Hp) & -> & Hsw).
    unfold Peer_try_from, NetworkAddress_try_from_enr in Hp. exists earlier, target, d, d', nodes, node.
    destruct (enr_ip4 node) as [ip|], (enr_tcp4 node) as [port|]; [|done..]. injection Hp as <-. by exists ip, port.
  - destruct Hturn as (now & msg & h & h' & k1 & k2 & Hi & Hb & Haft & [Hch Htop] & Ht & E & Hsw).
    rewrite Hb, length_app in Hcount. cbn in Hcount. destruct k1, k2; cbn in Hcount; try lia.
    exists now, msg, h, h'. change (msg_topic msg ∈ BlockHandler_topics h) in Ht. rewrite Htop in Ht.
    split_and!; try done. change (BlockHandler_handle now msg h = (Ok status, h')) in E. unfold BlockHandler_handle in E.
    destruct (decode_for h msg) as [[env| | |]|] eqn:Ed; [|by injection E as <- <-|done|done|by injection E as <- <-].
    destruct (block_valid now env h) eqn:Ev; injection E as <- <-.
    + exists env. split_and!; try done. unfold block_valid in Ev. apply andb_true_iff in Ev as [_ Ev]. by rewrite Hch in Ev.
    + split; [done|]. by intros env' [= <-].
Qed.

(** The start fails on an IPv6 address; a service that starts listens on its address with
    the given or a new identity, subscribed to the topics of its handlers in their order and to nothing else. *)
Theorem Service_start_spec (s : Service BlockHandler) :
  ((exists ip, sa_ip (srv_addr s) = IpV6 ip) -> exists e, Service_start (D := D) (W := W) s = Err e) /\
  (forall addr t, Service_start (D := D) s = Ok (addr, t) ->
     srv_addr s = SocketAddr_from addr /\
     exists g bs g', mapM subscribe (mjoin (BlockHandler_topics <$> handlers s)) g = (Ok bs, g') /\
       listen_on (Multiaddr_from_address addr) (swarm_build (default generate_secp256k1 (srv_keypair s)) g') =
         (Ok tt, swarm t)).
Proof.
  split.
  - intros [ip Hip]. unfold Service_start, NetworkAddress_try_from. rewrite Hip. by eexists.
  - intros addr t (Ha & _ & _ & _ & g & bs & g' & w & Hs & -> & Hl)%Service_start_Ok. split; [done|]. by exists g, bs, g'.
Qed.
End properties.

(** ** Witnesses

    A swarm that does nothing, and a lookup that finds one node of the chain 10. *)

#[local] Existing Instances example_keccak rlp_codec example_snappy example_ssz example_ecdsa
  rlp_decoder leb128 leb128_encode.

#[local] Instance example_sha256 : Sha256 := { sha256 := fun _ => to_be 32 7 }.

#[local] Instance example_libp2p : Libp2p (list string) unit := {
  generate_secp256k1 := to_be 32 9;
  noise_config := fun _ => Ok tt;
  gossipsub_config_build := Ok;
  gossipsub_new := fun _ => Ok [];
  subscribe := fun topic l => (Ok true, l ++ [topic]);
  swarm_build := fun _ _ => tt;
  listen_on := fun _ w => (Ok tt, w);
  dial := fun _ w => (Err "refused", w);
  report_message_validation_result := fun _ _ _ w => (Ok true, w)
}.

#[local] Instance example_discv5 : Discv5 unit := {
  Enr_from_str := fun _ => None;
  build_enr := fun _ v => Ok {| enr_ip4 := None; enr_tcp4 := None; enr_opstack := Some v |};
  discv5_new := fun _ => Ok tt;
  add_enr := fun _ d => (Ok tt, d);
  disc_start := fun _ d => (Ok tt, d);
  find_node := fun _ d => (Ok [example_enr], d)
}.

Definition example_service : Service BlockHandler :=
  add_handler (BlockHandler_new 10 (to_be 20 5)) (Service_new {| sa_ip := IpV4 [0; 0; 0; 0]; sa_port := 9876 |} 10).

Definition example_gossip_event : SwarmEvent :=
  SwarmBehaviour (EventGossipsub (GossipMessage [2] [1]
    (example_message "/optimism/10/0/blocks" 10 5 example_block_bytes))).

Lemma Service_start_spec_witness :
  exists addr (t : NetworkTasks unit unit BlockHandler), Service_start example_service = Ok (addr, t) /\ na_port addr = 9876 /\
    exists g bs g', mapM subscribe ["/optimism/10/0/blocks"; "/optimism/10/1/blocks"] g = (Ok bs, g').
Proof.
  destruct (Service_start (D := unit) (W := unit) example_service) as [[addr t]| | |] eqn:E; [|by vm_compute in E..].
  exists addr, t. split; [reflexivity|]. split; [vm_compute in E; by injection E as <- _|].
  destruct (proj2 (Service_start_spec example_service) addr t E) as (_ & g & bs & g' & Hs & _).
  exists g, bs, g'. exact Hs.
Defined.

(** Discovery starts, looks up, sends the peer; the peer is dialed, and a message comes. *)
Lemma network_run_safe_witness :
  exists addr (t t' : NetworkTasks unit unit BlockHandler) l turn, Service_start example_service = Ok (addr, t) /\
    network_run driver_env addr 10 t (l ++ [turn]) t' /\
    (nt_action <$> l) = [None; None; None; Some (Dialed [Ip4 [10; 0; 0; 1]; Tcp 9222])] /\
    nt_action turn = Some (Reported [1] [2] Accept) /\
    exists now msg h env, nt_input turn = InSwarm now (SwarmBehaviour (EventGossipsub (GossipMessage [2] [1] msg))) /\
      decode_for h msg = Some (Ok env) /\ nt_handlers (nt_after turn) = [send_block (payload env) h].
Proof.
  destruct (Service_start (D := unit) (W := unit) example_service) as [[addr t]| | |] eqn:E; [|by vm_compute in E..].
  assert (Hrun : exists t' l turn, network_run driver_env addr 10 t (l ++ [turn]) t' /\
    (nt_action <$> l) = [None; None; None; Some (Dialed [Ip4 [10; 0; 0; 1]; Tcp 9222])] /\
    nt_action turn = Some (Reported [1] [2] Accept)).
  { clear - E. vm_compute in E. injection E as <- <-. eexists _, [_; _; _; _], _. split.
    - eapply run_step; [apply (step_discovery _ _ _ []); by vm_compute|].
      eapply run_step; [apply (step_discovery _ _ _ []); by vm_compute|].
      eapply run_step; [apply (step_discovery _ _ _ []); by vm_compute|].
      eapply run_step; [eapply step_peer; by vm_compute|].
      eapply run_step; [apply (step_swarm _ _ _ 1700000010 example_gossip_event); by vm_compute|].
      apply run_refl.
    - split; by vm_compute. }
  destruct Hrun as (t' & l & turn & Hrun & Hl & Hturn). exists addr, t, t', l, turn. split; [reflexivity|].
  split; [exact Hrun|]. split; [exact Hl|]. split; [exact Hturn|].
  pose proof (network_run_safe 10 (to_be 20 5) example_service addr t t' l turn [] eq_refl eq_refl E Hrun) as Hr.
  rewrite Hturn in Hr. destruct Hr as (now & msg & h & h' & Hi & _ & _ & Ha & _ & env & Hd & _ & _ & ->).
  exists now, msg, h, env. by split_and!.
Defined.
