(* ===== verification/Rpc.v ===== *)
(** The RPC server (src/src/rpc/mod.rs) and the version (src/src/version/mod.rs).

    The L2 node is an interface: the queries for a block and for the storage hash of an
    account at a block.  The server that takes requests is of a library. *)
From S2P Require Import Prelude Common Config Deposits.

(** ** The version *)

Record Version := {
  ver_name : string;
  ver_version : string;
  ver_meta : string
}.

(** [Version::build], with or without debug assertions; the names are those of
    Cargo.toml. *)
Definition Version_build (debug_assertions : bool) : Version :=
  let meta := if debug_assertions then "dev" else "release" in
  {| ver_name := "magi"; ver_version := "0.1.0"; ver_meta := meta |}.

Definition Version_fmt (v : Version) : string := ver_name v +:+ ver_version v +:+ "-" +:+ ver_meta v.

(** ** The server *)

Record OutputRootResponse := {
  output_root : bytes;
  or_version : bytes;
  state_root : bytes;
  withdrawal_storage_root : bytes
}.

(** [Middleware::get_block] by number, and the storage hash of [Middleware::get_proof]
    for an address, storage locations and a block. *)
Class ProofProvider (P : Type) := {
  provider_try_from : string -> outcome P;
  query_block : Z -> M P (option Block);
  query_storage_hash : bytes -> list bytes -> option bytes -> M P bytes
}.

Record RpcServerImpl := {
  rpc_version : Version;
  rpc_config : Config
}.

(** [convert_err]: the error of a query as an error of the server. *)
Definition convert_err {A} (res : outcome A) : outcome A :=
  match res with
  | Err err => Err ("Custom: " +:+ err)
  | r => r
  end.

Section rpc.
Context {P : Type} `{Keccak, ProofProvider P}.

Definition compute_l2_output_root (block : Block) (storage_root : bytes) : outcome bytes :=
  let version := H256_zero in
  hash ← unwrap (blk_hash block);
  Ok (keccak256 (version ++ blk_state_root block ++ storage_root ++ hash)).

(** [RpcServerImpl::output_at_block]; the provider made for a request is dropped after
    it. *)
Definition output_at_block (s : RpcServerImpl) (block_number : Z) : outcome OutputRootResponse :=
  let config := rpc_config s in
  l2_provider ← convert_err (provider_try_from (l2_rpc_url config));
  let '(block, l2_provider) := query_block block_number l2_provider in
  block ← convert_err block;
  block ← ok_or block "unable to get block";
  let state_root := blk_state_root block in
  block_hash ← ok_or (blk_hash block) "block hash not found";
  let locations := [] in
  let block_id := Some block_hash in
  let '(state_proof, _) := query_storage_hash (l2_to_l1_message_passer (chain config)) locations block_id l2_provider in
  withdrawal_storage_root ← convert_err state_proof;
  output_root ← compute_l2_output_root block withdrawal_storage_root;
  let version := H256_zero in
  Ok {| output_root := output_root; or_version := version; state_root := state_root;
        withdrawal_storage_root := withdrawal_storage_root |}.

Definition rollup_config (s : RpcServerImpl) : outcome ExternalChainConfig :=
  ExternalChainConfig_from_chain (chain (rpc_config s)).

Definition rpc_version_string (s : RpcServerImpl) : string := Version_fmt (rpc_version s).

(** The server that [run_server] starts. *)
Definition rpc_impl (debug_assertions : bool) (config : Config) : RpcServerImpl :=
  {| rpc_version := Version_build debug_assertions; rpc_config := config |}.

(** The bytes that an output root is the hash of. *)
Definition output_preimage (state_root storage_root hash : bytes) : bytes :=
  H256_zero ++ state_root ++ storage_root ++ hash.

(** ** Lemmas *)

Lemma convert_err_Ok {A} (r : outcome A) a : convert_err r = Ok a -> r = Ok a.
Proof. by destruct r. Qed.

(** What the queries of a request gave, and the response made of it: a provider of the
    configured L2 URL gives [block] for the number [n], the block has the hash [hash], and
    the provider then gives the storage root of the message passer of the chain at the block
    of that hash. *)
Record output_from (s : RpcServerImpl) (n : Z) (block : Block) (hash : bytes) (r : OutputRootResponse) : Prop := {
  output_queries : exists p p' p'', provider_try_from (l2_rpc_url (rpc_config s)) = Ok p /\
    query_block n p = (Ok (Some block), p') /\
    query_storage_hash (l2_to_l1_message_passer (chain (rpc_config s))) [] (Some hash) p' =
      (Ok (withdrawal_storage_root r), p'');
  output_hash : blk_hash block = Some hash;
  output_state : state_root r = blk_state_root block;
  output_version : or_version r = H256_zero;
  output_digest : output_root r = keccak256 (output_preimage (state_root r) (withdrawal_storage_root r) hash)
}.

Lemma output_at_block_Ok s n r :
  output_at_block s n = Ok r <-> exists block hash, output_from s n block hash r.
Proof.
  unfold output_at_block, compute_l2_output_root. cbn zeta. split.
  - intros (p & Hp%convert_err_Ok & E)%bind_Ok. destruct (query_block n p) as [o p'] eqn:Eb.
    apply bind_Ok in E as (ob & ->%convert_err_Ok & E). apply bind_Ok in E as (block & Hob & E).
    destruct ob as [block0|]; [|discriminate Hob]. injection Hob as ->.
    apply bind_Ok in E as (hash & Hh & E). destruct (blk_hash block) as [hash0|] eqn:Eh; [|discriminate Hh]. injection Hh as ->.
    destruct (query_storage_hash _ [] (Some hash) p') as [o p''] eqn:Er.
    apply bind_Ok in E as (root & ->%convert_err_Ok & E). injection E as <-.
    exists block, hash. split; [by exists p, p', p''|done..].
  - intros (block & hash & [(p & p' & p'' & Hp & Hb & Hr) Hh Hst Hv Hd]). rewrite Hp. cbn [convert_err].
    rewrite bind_ret, Hb. cbn [convert_err]. rewrite bind_ret. cbn [ok_or]. rewrite bind_ret, Hh. cbn [ok_or].
    rewrite bind_ret, Hr. cbn [convert_err unwrap]. rewrite !bind_ret.
    destruct r. cbn in *. by subst.
Qed.
End rpc.

(** ** Properties *)

Section properties.
Context {P : Type} `{Keccak, ProofProvider P}.

(** C37. An output root is for one state.  The response to a request for a block number is
    made of the block that the L2 node gives for that number and of the storage root that
    it gives for the chain's L2-to-L1 message passer at the hash of that block: the state
    root is the block's, the withdrawal storage root is the message passer's, and the
    output root is the hash of version zero, the two and the hash of the block.  Two
    responses with one output root are equal and come from blocks with one hash, unless
    the two inputs that were hashed collide under keccak256; the roots that the nodes
    give have 32 bytes. *)
Theorem output_at_block_binds s1 s2 n1 n2 r1 r2 :
  (forall (p : P) n block p', query_block n p = (Ok (Some block), p') -> len (blk_state_root block) = 32) ->
  (forall (p : P) a l id root p', query_storage_hash a l id p = (Ok root, p') -> len root = 32) ->
  output_at_block s1 n1 = Ok r1 -> output_at_block s2 n2 = Ok r2 -> output_root r1 = output_root r2 ->
  exists b1 h1 b2 h2, output_from s1 n1 b1 h1 r1 /\ output_from s2 n2 b2 h2 r2 /\
    (r1 = r2 /\ h1 = h2 \/
     collides (output_preimage (state_root r1) (withdrawal_storage_root r1) h1)
       (output_preimage (state_root r2) (withdrawal_storage_root r2) h2)).
Proof.
  intros Hs Hr (b1 & h1 & F1)%output_at_block_Ok (b2 & h2 & F2)%output_at_block_Ok E.
  exists b1, h1, b2, h2. split; [done|]. split; [done|].
  destruct F1 as [(p1 & p1' & q1 & _ & Hb1 & Hr1) _ S1 V1 D1], F2 as [(p2 & p2' & q2 & _ & Hb2 & Hr2) _ S2 V2 D2].
  rewrite D1, D2 in E. destruct (collides_or_eq _ _ E) as [E1|?]; [left|by right]. apply app_inv_head in E1.
  pose proof (Hs _ _ _ _ Hb1) as L1'. pose proof (Hs _ _ _ _ Hb2) as L2'.
  pose proof (Hr _ _ _ _ _ _ Hr1) as L3'. pose proof (Hr _ _ _ _ _ _ Hr2) as L4'. rewrite <- S1 in L1'. rewrite <- S2 in L2'.
  unfold len in *. apply app_inj_1 in E1 as [Es E1]; [|lia]. apply app_inj_1 in E1 as [Et Eh]; [|lia].
  split; [|done]. destruct r1, r2. cbn [output_root state_root withdrawal_storage_root or_version] in *. congruence.
Qed.
End properties.

(** ** Witnesses *)

#[local] Existing Instance example_keccak.

Definition example_rpc_block (n : Z) : Block :=
  {| blk_number := Some n; blk_hash := Some (to_be 32 n); blk_parent_hash := to_be 32 (n - 1);
     blk_timestamp := 0; blk_transactions := []; blk_mix_hash := None; blk_author := None; blk_gas_limit := 0;
     blk_gas_used := 0; blk_base_fee_per_gas := None; blk_parent_beacon_block_root := None;
     blk_state_root := to_be 32 (7 * n); blk_receipts_root := []; blk_logs_bloom := None; blk_extra_data := [];
     blk_blob_gas_used := None; blk_excess_blob_gas := None |}.

#[local] Instance example_proofs : ProofProvider unit := {
  provider_try_from := fun _ => Ok tt;
  query_block := fun n _ => (Ok (Some (example_rpc_block n)), tt);
  query_storage_hash := fun _ _ _ _ => (Ok (to_be 32 9), tt)
}.

Definition optimism_config : Config :=
  {| l1_rpc_url := ""; l1_beacon_url := ""; l2_rpc_url := ""; l2_engine_url := ""; chain := optimism;
     jwt_secret := ""; checkpoint_sync_url := None; rpc_port := 9545; rpc_addr := "127.0.0.1"; devnet := false |}.

Lemma example_state_roots (p : unit) n block p' :
  query_block n p = (Ok (Some block), p') -> len (blk_state_root block) = 32.
Proof.
  change (query_block n p) with (Ok (Some (example_rpc_block n)) : outcome (option Block), tt).
  intros E. injection E as <- _. unfold example_rpc_block, blk_state_root. by rewrite len_to_be.
Qed.

Lemma example_storage_roots (p : unit) a l id root p' :
  query_storage_hash a l id p = (Ok root, p') -> len root = 32.
Proof.
  change (query_storage_hash a l id p) with (Ok (to_be 32 9) : outcome bytes, tt).
  intros E. injection E as <- _. by rewrite len_to_be.
Qed.

Lemma output_at_block_binds_witness :
  exists r h1 h2, output_at_block (P := unit) (rpc_impl false optimism_config) 5 = Ok r /\
    withdrawal_storage_root r = to_be 32 9 /\
    (r = r /\ h1 = h2 \/ collides (output_preimage (state_root r) (withdrawal_storage_root r) h1)
       (output_preimage (state_root r) (withdrawal_storage_root r) h2)).
Proof.
  destruct (output_at_block_binds (P := unit) (rpc_impl false optimism_config) (rpc_impl true optimism_config) 5 5 _ _
    example_state_roots example_storage_roots eq_refl eq_refl eq_refl)
    as (b1 & h1 & b2 & h2 & _ & _ & Hc).
  eexists. exists h1, h2. split; [reflexivity|]. split; [reflexivity|]. exact Hc.
Defined.
