(* ===== verification/Runner.v ===== *)
(** The start of a node (src/src/runner/mod.rs): the sync modes, and checkpoint sync,
    which picks the first block of an epoch, makes the execution client sync to it and
    starts the driver from there.

    The two L2 providers, the signal for the shutdown and the waits are an interface, as
    is the driver, whose own parts are in Driver.v.  [process::exit] is an error that
    names the exit code.  The loops that wait have fuel: they last as long as the nodes
    let them. *)
From S2P Require Import Prelude Codecs Common Config HeadInfo Engine Json EngineApi.

(** ** Data *)

Definition TRUSTED_PEER_ENODE : string :=
  "enode://e85ba0beec172b17f53b373b0ab72238754259aa39f1ae5290e3244e0120882f4cf95acd203661a27c8618b27ca014d4e193266cb3feae43655ed55358eedb06@3.86.143.120:30303?discport=21693".

(** The receiver of the signal for the shutdown is part of the world. *)
Record Runner := {
  rn_config : Config;
  rn_sync_mode : SyncMode;
  rn_checkpoint_hash : option string
}.

(** [BlockId], by hash, by number and by the tag of the finalized block. *)
Inductive BlockId := ByHash (hash : bytes) | ByNumber (number : Z) | FinalizedBlock.

(** [Provider::try_from] of a URL, and the queries to the provider of a URL. *)
Class Nodes (W : Type) := {
  provider_ok : string -> outcome unit;
  get_block : string -> BlockId -> M W (option Block);
  get_block_with_txs : string -> BlockId -> M W (option Block);
  get_block_number : string -> M W Z;
  add_peer : string -> string -> M W unit;
  shutdown_signal : M W bool;
  sleep : Z -> M W unit
}.

(** [Driver::from_config] and [Driver::start]. *)
Class DriverTask (W D : Type) := {
  driver_from_config : Config -> M W D;
  driver_start : D -> M W unit
}.

(** ** Operations *)

Definition Runner_from_config (config : Config) : Runner :=
  {| rn_config := config; rn_sync_mode := Full; rn_checkpoint_hash := None |}.

Definition with_sync_mode (sync_mode : SyncMode) (r : Runner) : Runner :=
  {| rn_config := rn_config r; rn_sync_mode := sync_mode; rn_checkpoint_hash := rn_checkpoint_hash r |}.

Definition with_checkpoint_hash (checkpoint_hash : option string) (r : Runner) : Runner :=
  {| rn_config := rn_config r; rn_sync_mode := rn_sync_mode r; rn_checkpoint_hash := checkpoint_hash |}.

(** [H256::from_str]. *)
Definition H256_from_str (s : string) : option bytes :=
  h ← hex_decode (default s (strip_prefix "0x" s));
  if len h =? 32 then Some h else None.

Definition is_invalid (s : Status) : bool :=
  match s with Invalid | InvalidBlockHash => true | _ => false end.

Definition is_epoch_boundary `{Keccak} (l2_block : Block) (config : Config) : outcome bool :=
  head_info ← try_from_l2_block config l2_block;
  let sequence_number := sequence_number head_info in
  Ok (sequence_number =? 0).

Section runner.
Context {W D : Type} `{Keccak, Nodes W, DriverTask W D, Transport W, Jwt, EthersSerde}.

Definition exit {A} (code : string) : M W A := lift (Err ("exit " +:+ code)).

Definition is_exit (e : string) : bool := bool_decide (e = "exit 0") || bool_decide (e = "exit 1").

(** A call of the client [api]. *)
Definition with_client {A} (api : EngineApi) (m : M (EngineClient W) A) : M W A := fun w =>
  let '(r, c) := m {| api := api; world := w |} in (r, world c).

Definition check_shutdown : M W unit :=
  stop ← shutdown_signal;
  if stop : bool then exit "0" else mret tt.

Definition start_driver (r : Runner) : M W unit := fun w =>
  match driver_from_config (rn_config r) w with
  | (Ok driver, w) =>
      match driver_start driver w with
      | (Err e, w) => if is_exit e then (Err e, w) else exit "1" w
      | res => res
      end
  | (Err e, w) => (Err e, w)
  | (Panic, w) => (Panic, w)
  | (Diverge, w) => (Diverge, w)
  end.

(** The checkpoint that is named by its hash. *)
Definition named_checkpoint (config : Config) (url checkpoint : string) : M W Block :=
  block_hash ← lift (unwrap (H256_from_str checkpoint));
  l2_block ← get_block_with_txs url (ByHash block_hash);
  l2_block ← lift (ok_or l2_block "could not find block");
  boundary ← lift (is_epoch_boundary l2_block config);
  if boundary : bool then
    block ← get_block_with_txs url (ByHash block_hash);
    lift (unwrap block)
  else exit "1".

(** The loop that looks for the latest boundary; [block_number] is a [U64], whose [-=]
    panics below zero in any build. *)
Fixpoint find_boundary (fuel : nat) (config : Config) (l2_block : Block) (block_number : Z) : M W Z :=
  match fuel with
  | O => lift Diverge
  | S fuel =>
      boundary ← lift (is_epoch_boundary l2_block config);
      if negb boundary then
        check_shutdown ;;
        block_number ← lift (if block_number =? 0 then Panic else Ok (block_number - 1));
        find_boundary fuel config l2_block block_number
      else mret block_number
  end.

Definition latest_checkpoint (fuel : nat) (config : Config) (url : string) : M W Block :=
  block_number ← get_block_number url;
  l2_block ← get_block_with_txs url (ByNumber block_number);
  l2_block ← lift (ok_or l2_block "could not find block");
  block_number ← find_boundary fuel config l2_block block_number;
  block ← get_block url (ByNumber block_number);
  block ← lift (unwrap block);
  hash ← lift (unwrap (blk_hash block));
  block ← get_block_with_txs url (ByHash hash);
  lift (unwrap block).

Fixpoint await_available (fuel : nat) (api : EngineApi) : M W unit :=
  match fuel with
  | O => lift Diverge
  | S fuel =>
      available ← with_client api is_available;
      if negb available then check_shutdown ;; sleep 3 ;; await_available fuel api else mret tt
  end.

Fixpoint await_synced (fuel : nat) (url : string) (block_number : Z) : M W unit :=
  match fuel with
  | O => lift Diverge
  | S fuel =>
      number ← get_block_number url;
      if number <? block_number then check_shutdown ;; sleep 3 ;; await_synced fuel url block_number else mret tt
  end.

(** The end of [checkpoint_sync], for a checkpoint that the execution client has not; it
    goes on with [start]. *)
Definition sync_to (fuel : nat) (r : Runner) (start : M W unit) (engine_api : EngineApi) (checkpoint_block : Block)
    (checkpoint_hash : bytes) : M W unit :=
  add_peer (l2_rpc_url (rn_config r)) TRUSTED_PEER_ENODE ;;
  checkpoint_payload ← lift (ExecutionPayload_try_from checkpoint_block);
  payload_res ← with_client engine_api (new_payload checkpoint_payload);
  if is_invalid (status payload_res) then exit "1" else
  let forkchoice_state := from_single_head checkpoint_hash in
  forkchoice_res ← with_client engine_api (forkchoice_updated forkchoice_state None);
  if is_invalid (status (payload_status forkchoice_res)) then exit "1" else
  await_synced fuel (l2_rpc_url (rn_config r)) (pl_block_number checkpoint_payload) ;;
  start.

(** [checkpoint_sync], with the action that it ends with on both of its ways. *)
Definition checkpoint_sync_then (fuel : nat) (r : Runner) (start : M W unit) : M W unit :=
  let config := rn_config r in
  _ ← lift (provider_ok (l2_rpc_url config));
  url ← lift (ok_or (checkpoint_sync_url config) "a checkpoint sync rpc url is required for checkpoint sync");
  _ ← lift (provider_ok url);
  checkpoint_block ←
    match rn_checkpoint_hash r with
    | Some checkpoint => named_checkpoint config url checkpoint
    | None => latest_checkpoint fuel config url
    end;
  checkpoint_hash ← lift (unwrap (blk_hash checkpoint_block));
  engine_api ← lift (EngineApi_new (l2_engine_url config) (jwt_secret config));
  await_available fuel engine_api ;;
  synced ← get_block (l2_rpc_url config) (ByHash checkpoint_hash);
  match synced with
  | Some _ => start
  | None => sync_to fuel r start engine_api checkpoint_block checkpoint_hash
  end.

Definition checkpoint_sync (fuel : nat) (r : Runner) : M W unit := checkpoint_sync_then fuel r (start_driver r).

Definition full_sync (r : Runner) : M W unit := start_driver r.
Definition fast_sync : M W unit := lift Panic.
Definition challenge_sync : M W unit := lift Panic.

Definition run (fuel : nat) (r : Runner) : M W unit :=
  match rn_sync_mode r with
  | Fast => fast_sync
  | Challenge => challenge_sync
  | Full => full_sync r
  | Checkpoint => checkpoint_sync fuel r
  end.
End runner.

(** ** Lemmas *)

Section lemmas.
Context {W D : Type} `{Keccak, Nodes W, DriverTask W D, Transport W, Jwt, EthersSerde}.
Implicit Types w : W.

Lemma exit_not_Ok {A} code w (a : A) w' : exit code w <> (Ok a, w').
Proof. done. Qed.

Lemma H256_from_str_length s h : H256_from_str s = Some h -> len h = 32.
Proof.
  unfold H256_from_str. destruct (hex_decode _) as [h0|]; [|done]. cbn [mbind option_bind].
  destruct (Z.eqb_spec (len h0) 32); [|done]. by intros [= <-].
Qed.

(** The loop compares one block: it ends at once or never with a number. *)
Lemma find_boundary_Ok fuel config block n w m w' :
  find_boundary fuel config block n w = (Ok m, w') ->
  is_epoch_boundary block config = Ok true /\ m = n /\ w' = w.
Proof.
  revert n w. induction fuel as [|fuel IH]; intros n w E; [done|]. cbn [find_boundary] in E.
  apply M_bind_Ok in E as (b & w1 & Eb & E). unfold lift in Eb. injection Eb as Hb <-.
  destruct b; cbn [negb] in E; [by injection E as <- <-|].
  apply M_bind_Ok in E as (u & w2 & _ & E). apply M_bind_Ok in E as (n2 & w3 & _ & E).
  apply IH in E as (Ht & _). congruence.
Qed.

Lemma find_boundary_panics fuel config block n w :
  (forall w, (shutdown_signal w).1 = Ok false) -> is_epoch_boundary block config = Ok false ->
  0 <= n -> (Z.to_nat n < fuel)%nat -> (find_boundary fuel config block n w).1 = Panic.
Proof.
  intros Hs Hb. revert n w. induction fuel as [|fuel IH]; intros n w Hn Hf; [lia|].
  cbn [find_boundary]. unfold check_shutdown. run_M. rewrite Hb. cbn [negb]. specialize (Hs w).
  destruct (shutdown_signal w) as [r w1]. cbn [fst] in Hs. subst r.
  destruct (Z.eqb_spec n 0); [done|]. apply IH; lia.
Qed.

Lemma await_available_Ok fuel api w w' :
  await_available fuel api w = (Ok tt, w') -> exists w0, with_client api is_available w0 = (Ok true, w').
Proof.
  revert w. induction fuel as [|fuel IH]; intros w E; [done|]. cbn [await_available] in E.
  apply M_bind_Ok in E as (b & w1 & Eb & E). destruct b; cbn [negb] in E; [injection E as <-; by exists w|].
  apply M_bind_Ok in E as (u1 & w2 & _ & E). apply M_bind_Ok in E as (u2 & w3 & _ & E). by apply IH in E.
Qed.

Lemma await_synced_Ok fuel url n w w' :
  await_synced fuel url n w = (Ok tt, w') -> exists m w0, get_block_number url w0 = (Ok m, w') /\ n <= m.
Proof.
  revert w. induction fuel as [|fuel IH]; intros w E; [done|]. cbn [await_synced] in E.
  apply M_bind_Ok in E as (m & w1 & Em & E). destruct (Z.ltb_spec m n); [|injection E as <-; by exists m, w].
  apply M_bind_Ok in E as (u1 & w2 & _ & E). apply M_bind_Ok in E as (u2 & w3 & _ & E). by apply IH in E.
Qed.

(** ** What a checkpoint is

    A chain that does not change while a node of it is asked. *)

Record stable_chain (url : string) (by_number : Z -> option Block) (by_hash : bytes -> option Block) : Prop := {
  stable_hash h w b w' : get_block_with_txs url (ByHash h) w = (Ok b, w') -> b = by_hash h;
  stable_number n w b w' : get_block_with_txs url (ByNumber n) w = (Ok b, w') -> b = by_number n;
  stable_header n w b w' : get_block url (ByNumber n) w = (Ok (Some b), w') ->
    exists b', by_number n = Some b' /\ blk_hash b = blk_hash b';
  stable_same n b h : by_number n = Some b -> blk_hash b = Some h -> by_hash h = Some b
}.

Lemma named_checkpoint_Ok config url by_number by_hash s w b w' :
  stable_chain url by_number by_hash -> named_checkpoint config url s w = (Ok b, w') ->
  is_epoch_boundary b config = Ok true /\ exists h, H256_from_str s = Some h /\ by_hash h = Some b.
Proof.
  intros Hc E. unfold named_checkpoint in E.
  apply M_bind_Ok in E as (h & w1 & Eh & E). unfold lift in Eh. injection Eh as Eh <-.
  apply M_bind_Ok in E as (o1 & w2 & E1 & E). apply (stable_hash _ _ _ Hc) in E1 as ->.
  apply M_bind_Ok in E as (b1 & w3 & E1 & E). unfold lift in E1. injection E1 as E1 <-.
  apply M_bind_Ok in E as (t & w4 & Et & E). unfold lift in Et. injection Et as Et <-.
  destruct t; [|done]. apply M_bind_Ok in E as (o2 & w5 & E2 & E). apply (stable_hash _ _ _ Hc) in E2 as ->.
  unfold lift in E. injection E as E <-. destruct (by_hash h) as [b0|] eqn:Hh; [|done].
  injection E1 as ->. injection E as ->. split; [done|]. exists h. by destruct (H256_from_str s); simplify_eq/=.
Qed.

Lemma latest_checkpoint_Ok fuel config url by_number by_hash w b w' :
  stable_chain url by_number by_hash -> latest_checkpoint fuel config url w = (Ok b, w') ->
  is_epoch_boundary b config = Ok true /\ exists n w0, get_block_number url w = (Ok n, w0) /\ by_number n = Some b.
Proof.
  intros Hc E. unfold latest_checkpoint in E.
  apply M_bind_Ok in E as (n & w1 & En & E).
  apply M_bind_Ok in E as (o1 & w2 & E1 & E). apply (stable_number _ _ _ Hc) in E1 as ->.
  apply M_bind_Ok in E as (b1 & w3 & E1 & E). unfold lift in E1. injection E1 as E1 <-.
  apply M_bind_Ok in E as (m & w4 & Em & E). apply find_boundary_Ok in Em as (Ht & -> & ->).
  apply M_bind_Ok in E as (o2 & w5 & E2 & E). apply M_bind_Ok in E as (b2 & w6 & Eb2 & E).
  unfold lift in Eb2. injection Eb2 as Eb2 <-. destruct o2 as [b3|]; [|done]. injection Eb2 as ->.
  apply (stable_header _ _ _ Hc) in E2 as (b4 & Hb4 & Heq).
  apply M_bind_Ok in E as (h & w7 & Eh & E). unfold lift in Eh. injection Eh as Eh <-.
  apply M_bind_Ok in E as (o3 & w8 & E3 & E). apply (stable_hash _ _ _ Hc) in E3 as ->.
  unfold lift in E. injection E as E <-. rewrite Hb4 in E1. injection E1 as ->.
  destruct (blk_hash b2) as [h2|]; [|done]. injection Eh as ->.
  rewrite (stable_same _ _ _ Hc n b1 h Hb4 (eq_sym Heq)) in E. injection E as ->.
  split; [done|]. by exists n, w1.
Qed.

(** The execution client has a block: it says so, or it accepted the block as payload
    and as all three heads and then reached its number. *)
Inductive client_has (config : Config) (api : EngineApi) (b : Block) (h : bytes) : W -> Prop :=
| has_already w0 b' w : get_block (l2_rpc_url config) (ByHash h) w0 = (Ok (Some b'), w) -> client_has config api b h w
| made_to_sync payload w1 ps w2 w3 fcu w4 n w5 w :
    ExecutionPayload_try_from b = Ok payload ->
    with_client api (new_payload payload) w1 = (Ok ps, w2) -> is_invalid (status ps) = false ->
    with_client api (forkchoice_updated (from_single_head h) None) w3 = (Ok fcu, w4) ->
    is_invalid (status (payload_status fcu)) = false ->
    get_block_number (l2_rpc_url config) w5 = (Ok n, w) -> pl_block_number payload <= n ->
    client_has config api b h w.

Lemma sync_to_Ok fuel r start api b h w w' :
  sync_to fuel r start api b h w = (Ok tt, w') ->
  exists w1, client_has (rn_config r) api b h w1 /\ start w1 = (Ok tt, w').
Proof.
  intros E. unfold sync_to in E. apply M_bind_Ok in E as (u & w1 & _ & E).
  apply M_bind_Ok in E as (payload & w2 & Ep & E). unfold lift in Ep. injection Ep as Ep <-.
  apply M_bind_Ok in E as (ps & w3 & Eps & E). destruct (is_invalid (status ps)) eqn:Hps; [done|]. cbn zeta in E.
  apply M_bind_Ok in E as (fcu & w4 & Ef & E). destruct (is_invalid (status (payload_status fcu))) eqn:Hf; [done|].
  apply M_bind_Ok in E as ([] & w5 & Es & E). apply await_synced_Ok in Es as (n & w6 & En & Hn).
  exists w5. split; [|done]. by eapply made_to_sync.
Qed.

(** Two actions that differ in how they go on. *)
Lemma M_bind_then {S A} (m : M S A) (k k' : A -> M S unit) (start : M S unit) s :
  (forall a s, k a s = (k' a ;; start) s) -> (m ≫= k) s = ((m ≫= k') ;; start) s.
Proof. intros Hk. run_M. destruct (m s) as [[a| | |] s']; [|done..]. rewrite Hk. by run_M. Qed.

Lemma sync_to_start fuel r start api b h w :
  sync_to fuel r start api b h w = (sync_to fuel r (mret tt) api b h ;; start) w.
Proof.
  unfold sync_to. apply M_bind_then. intros _ w1. apply M_bind_then. intros payload w2.
  apply M_bind_then. intros ps w3. destruct (is_invalid _); [done|]. cbn zeta.
  apply M_bind_then. intros fcu w4. destruct (is_invalid _); [done|]. by apply M_bind_then.
Qed.

(** The driver is the last thing that checkpoint sync starts. *)
Lemma checkpoint_sync_start fuel r start w :
  checkpoint_sync_then fuel r start w = (checkpoint_sync_then fuel r (mret tt) ;; start) w.
Proof.
  unfold checkpoint_sync_then. cbn zeta. repeat (apply M_bind_then; intros ? ?).
  destruct (_ : option Block); [done|]. apply sync_to_start.
Qed.
End lemmas.

(** ** Properties *)

Section properties.
Context {W D : Type} `{Keccak, Nodes W, DriverTask W D, Transport W, Jwt, EthersSerde}.
Implicit Types w : W.

(** C34. What checkpoint sync starts the driver from.  Checkpoint sync is what it does
    before it starts the driver, and then the driver: when the first part does not end
    well, its error is the error of the run and the driver is not started.  When it ends
    well, the checkpoint is the first block of an epoch, is the block that was named or
    the head of the trusted node, and the execution client had the block: it answered the
    query for it, or it took its payload, took it as its head, and reached its number. *)
Theorem checkpoint_sync_safe fuel r url by_number by_hash w o w1 :
  rn_sync_mode r = Checkpoint -> checkpoint_sync_url (rn_config r) = Some url ->
  stable_chain url by_number by_hash -> checkpoint_sync_then fuel r (mret tt) w = (o, w1) ->
  (o <> Ok tt -> run fuel r w = (o, w1)) /\
  (o = Ok tt -> run fuel r w = start_driver r w1 /\
   exists b h api, is_epoch_boundary b (rn_config r) = Ok true /\ blk_hash b = Some h /\
    match rn_checkpoint_hash r with
    | Some s => exists named, H256_from_str s = Some named /\ by_hash named = Some b
    | None => exists n w2 w3, get_block_number url w2 = (Ok n, w3) /\ by_number n = Some b
    end /\
    EngineApi_new (l2_engine_url (rn_config r)) (jwt_secret (rn_config r)) = Ok api /\
    client_has (rn_config r) api b h w1).
Proof.
  intros Hm Hu Hc E. unfold run, checkpoint_sync. rewrite Hm, checkpoint_sync_start.
  unfold mbind at 1 2, M_bind at 1 2. rewrite E.
  split; [by destruct o as [[]| | |]|]. intros ->. split; [done|].
  unfold checkpoint_sync_then in E. cbn zeta in E. rewrite Hu in E.
  apply M_bind_Ok in E as (u1 & w2 & _ & E). apply M_bind_Ok in E as (url' & w3 & Eu & E).
  unfold lift in Eu. cbn [ok_or] in Eu. injection Eu as <- <-. apply M_bind_Ok in E as (u3 & w4 & _ & E).
  apply M_bind_Ok in E as (b & w5 & Eb & E). apply M_bind_Ok in E as (h & w6 & Eh & E).
  unfold lift in Eh. injection Eh as Eh <-. apply M_bind_Ok in E as (api & w7 & Ea & E).
  unfold lift in Ea. injection Ea as Ea <-. apply M_bind_Ok in E as ([] & w8 & _ & E).
  apply M_bind_Ok in E as (synced & w9 & Es & E).
  assert (Hh : blk_hash b = Some h) by (destruct (blk_hash b); simplify_eq/=; done).
  assert (Hhas : client_has (rn_config r) api b h w1).
  { destruct synced as [b'|]; [injection E as <-; by eapply has_already|].
    by apply sync_to_Ok in E as (w10 & Hhas & [= <-]). }
  exists b, h, api. destruct (rn_checkpoint_hash r) as [s|].
  - apply (named_checkpoint_Ok _ _ by_number by_hash) in Eb as (Ht & named & Hn & Hb); [|done].
    split_and!; try done. by exists named.
  - apply (latest_checkpoint_Ok _ _ _ by_number by_hash) in Eb as (Ht & n & w0 & Hn & Hb); [|done].
    split_and!; try done. by exists n, w4, w0.
Qed.

(** C35. The search for a checkpoint does not search.  It asks for the head of the trusted
    node once and compares this block in each round, while it counts the number down:
    when the head does not start an epoch no checkpoint is ever found, the driver is not
    started, and unless the node is stopped the number passes zero, which panics, after
    as many rounds as the head has blocks below it. *)
Theorem checkpoint_search_stuck fuel r url n block w w1 w2 :
  rn_sync_mode r = Checkpoint -> rn_checkpoint_hash r = None -> checkpoint_sync_url (rn_config r) = Some url ->
  provider_ok (l2_rpc_url (rn_config r)) = Ok tt -> provider_ok url = Ok tt ->
  get_block_number url w = (Ok n, w1) -> 0 <= n ->
  get_block_with_txs url (ByNumber n) w1 = (Ok (Some block), w2) ->
  is_epoch_boundary block (rn_config r) = Ok false ->
  (run fuel r w).1 <> Ok tt /\
  ((forall w, (shutdown_signal w).1 = Ok false) -> (Z.to_nat n < fuel)%nat -> (run fuel r w).1 = Panic).
Proof.
  intros Hm Hs Hu Hp1 Hp2 Hn Hn0 Hb Hf.
  assert (Hrun : exists k : Block -> M W unit, run fuel r w =
    (find_boundary fuel (rn_config r) block n ≫= fun m => (get_block url (ByNumber m) ≫= fun b =>
       lift (unwrap b) ≫= fun b => lift (unwrap (blk_hash b)) ≫= fun h => get_block_with_txs url (ByHash h) ≫= fun b =>
       lift (unwrap b)) ≫= k) w2).
  { eexists. unfold run. rewrite Hm. unfold checkpoint_sync, checkpoint_sync_then. cbn zeta. rewrite Hs, Hu. cbn [ok_or].
    unfold latest_checkpoint. run_M. rewrite Hp1, Hp2, Hn, Hb. cbn [ok_or].
    destruct (find_boundary _ _ _ _ _) as [[m| | |] w3]; reflexivity. }
  destruct Hrun as [k ->]. split.
  - intros Eo. match type of Eo with (?m w2).1 = _ => destruct (m w2) as [o w'] eqn:E end. cbn [fst] in Eo.
    subst o. apply M_bind_Ok in E as (m & w3 & E & _).
    apply find_boundary_Ok in E as (Ht & _). congruence.
  - intros Hsig Hfuel. pose proof (find_boundary_panics fuel (rn_config r) block n w2 Hsig Hf Hn0 Hfuel) as Hpanic.
    run_M. by destruct (find_boundary _ _ _ _ _) as [o w3]; cbn [fst] in Hpanic; subst o.
Qed.
End properties.

(** ** Witnesses

    A trusted node whose blocks start an epoch every five numbers, and an execution
    client that has what it was told: the world is the head of the one and the height of
    the other. *)

#[local] Existing Instance example_keccak.
#[local] Existing Instance example_serde.
#[local] Existing Instance example_jwt.

Definition trusted_block (n : Z) : Block :=
  let call := {| call_number := 1000 + n / 5; call_timestamp := 1700000000; call_basefee := 7;
     call_hash := to_be 32 11; call_sequence_number := n mod 5; call_batcher_hash := to_be 32 12;
     call_fee_overhead := 188; call_fee_scalar := 684000;
     call_blob_base_fee_scalar := None; call_blob_base_fee := None |} in
  {| blk_number := Some n; blk_hash := Some (to_be 32 (n + 100)); blk_parent_hash := to_be 32 (n + 99);
     blk_timestamp := 1700000000;
     blk_transactions := [{| tx_input := encode_bedrock call; tx_from := []; tx_to := None; tx_type := None;
                             tx_hash := []; tx_rlp := [1]; tx_blob_hashes := [] |}];
     blk_mix_hash := Some (to_be 32 1); blk_author := None; blk_gas_limit := 30000000; blk_gas_used := 0;
     blk_base_fee_per_gas := None; blk_parent_beacon_block_root := None; blk_state_root := to_be 32 2;
     blk_receipts_root := to_be 32 3; blk_logs_bloom := Some []; blk_extra_data := []; blk_blob_gas_used := None;
     blk_excess_blob_gas := None |}.

Definition trusted_by_number (n : Z) : option Block :=
  if (0 <=? n) && (n <? 1000) then Some (trusted_block n) else None.

Definition trusted_by_hash (h : bytes) : option Block := trusted_by_number (from_be h - 100).

Definition trusted_query (id : BlockId) : option Block :=
  match id with
  | ByHash h => trusted_by_hash h
  | ByNumber n => trusted_by_number n
  | FinalizedBlock => None
  end.

#[local] Instance example_nodes : Nodes (Z * Z) := {
  provider_ok := fun _ => Ok tt;
  get_block := fun url id w =>
    (Ok (if bool_decide (url = "trusted") then trusted_query id
         else match id with ByHash h => if from_be h - 100 <=? w.2 then trusted_by_hash h else None | _ => None end), w);
  get_block_with_txs := fun _ id w => (Ok (trusted_query id), w);
  get_block_number := fun url w => (Ok (if bool_decide (url = "trusted") then w.1 else w.2), w);
  add_peer := fun _ _ w => (Ok tt, w);
  shutdown_signal := fun w => (Ok false, w);
  sleep := fun _ w => (Ok tt, w)
}.

#[local] Instance example_driver_task : DriverTask (Z * Z) unit := {
  driver_from_config := fun _ w => (Ok tt, w);
  driver_start := fun _ w => (Ok tt, w)
}.

Definition example_reply (result : Value) : Value :=
  VObject [("jsonrpc", VString "2.0"); ("id", VNumber 1); ("result", result)].

Definition valid_status : PayloadStatus := {| status := Valid; latest_valid_hash := None; validation_error := None |}.

#[local] Instance example_execution_client : Transport (Z * Z) := {
  system_time := fun w => (Ok 1710000000, w);
  send_request := fun req w =>
    match get (req_body req) "method" with
    | Some (VString m) =>
        if bool_decide (m = ENGINE_NEW_PAYLOAD_V2) then (Ok (example_reply (PayloadStatus_serialize valid_status)), w)
        else if bool_decide (m = ENGINE_FORKCHOICE_UPDATED_V2) then
          (Ok (example_reply (ForkChoiceUpdate_serialize {| payload_status := valid_status; payload_id := None |})),
           (w.1, w.1))
        else (Ok (example_reply (VString "0xa")), w)
    | _ => (Err "no method", w)
    end
}.

Definition example_runner : Runner :=
  with_sync_mode Checkpoint (Runner_from_config
    {| l1_rpc_url := ""; l1_beacon_url := ""; l2_rpc_url := "l2"; l2_engine_url := "http://127.0.0.1:8551"; chain := optimism;
       jwt_secret := hex_encode (replicate 32 7); checkpoint_sync_url := Some "trusted"; rpc_port := 9545;
       rpc_addr := "127.0.0.1"; devnet := false |}).

Lemma trusted_stable : stable_chain (W := Z * Z) "trusted" trusted_by_number trusted_by_hash.
Proof.
  split.
  - intros h w b w' E. by injection E.
  - intros n w b w' E. by injection E.
  - intros n w b w' E. injection E as E _. by exists b.
  - intros n b h Hn Hh. unfold trusted_by_hash, trusted_by_number in *.
    destruct (Z.leb_spec 0 n), (Z.ltb_spec n 1000); try done. injection Hn as <-. injection Hh as <-.
    rewrite (from_be_to_be_id 32) by (cbn; lia). replace (n + 100 - 100) with n by lia.
    by rewrite (proj2 (Z.leb_le 0 n)), (proj2 (Z.ltb_lt n 1000)) by done.
Qed.

Lemma checkpoint_sync_safe_witness :
  run (W := Z * Z) 9 example_runner (10, 0) = start_driver (W := Z * Z) example_runner (10, 10) /\
  exists b h api, is_epoch_boundary b (rn_config example_runner) = Ok true /\ blk_hash b = Some h /\
    client_has (rn_config example_runner) api b h (10, 10).
Proof.
  assert (E : checkpoint_sync_then (W := Z * Z) 9 example_runner (mret tt) (10, 0) = (Ok tt, (10, 10))) by by_compute.
  destruct (checkpoint_sync_safe 9 example_runner "trusted" trusted_by_number trusted_by_hash _ _ _ eq_refl eq_refl
    trusted_stable E) as (_ & Ho).
  destruct (Ho eq_refl) as (Hr & b & h & api & Hb & Hh & _ & _ & Hc).
  split; [exact Hr|]. exists b, h, api. split; [exact Hb|]. split; [exact Hh|exact Hc].
Defined.

Lemma checkpoint_search_stuck_witness :
  (run (W := Z * Z) (D := unit) 20 example_runner (12, 0)).1 = Panic /\ is_epoch_boundary (trusted_block 10) (rn_config example_runner) = Ok true.
Proof.
  split; [|by_compute].
  apply (checkpoint_search_stuck (W := Z * Z) (D := unit) 20 example_runner "trusted" 12 (trusted_block 12) (12, 0)
    (12, 0) (12, 0)); first [lia | by_compute | done].
Defined.
