(* ===== verification/Settings.v ===== *)
(** Where a configuration comes from: the serde forms of the chain parameters and of
    [rollup.json], the merge of the defaults, the chain, the TOML file and the command line
    (src/src/config/mod.rs), and the command line itself (src/bin/magi.rs).

    The merge and the parsers are of the libraries figment, toml, serde_json and clap: a
    provider is the dictionary it gives, the class [Figment] states how two are merged, and
    the parsed command line is a record.  The forms of hashes and addresses are those of
    [EthersSerde], the one of a [U256] is the class [AlloySerde]. *)
From S2P Require Import Prelude Common Config Json EngineApi Rpc Runner.

(** ** Libraries *)

Abbreviation Dict := (list (string * Value)) (only parsing).

Definition lookup_key (d : Dict) (key : string) : option Value := get (VObject d) key.

(** What a nested TOML file gives: its top-level tables are profiles, by names in which
    the case does not matter.  The program extracts the default profile; over it figment
    merges the global one of every figment. *)
Abbreviation Profiles := (list (string * Dict)) (only parsing).

Definition profile (name : string) (profiles : Profiles) : Dict :=
  default [] (snd <$> find (fun kv => bool_decide (to_lowercase kv.1 = name)) profiles).

(** [Figment::merge]: on a conflict the later provider wins, and dictionaries merge. *)
Class Figment := {
  merge : Dict -> Dict -> Dict;
  merge_lookup d1 d2 key : lookup_key (merge d1 d2) key =
    match lookup_key d1 key, lookup_key d2 key with
    | Some (VObject a), Some (VObject b) => Some (VObject (merge a b))
    | o, None => o
    | _, o => o
    end
}.

Class AlloySerde := {
  u256_to_json : Z -> Value;
  u256_from_json : Value -> option Z;
  u256_json z : in_u256 z -> u256_from_json (u256_to_json z) = Some z
}.

(** ** Data *)

Record CliConfig := {
  cc_l1_rpc_url : option string;
  cc_l1_beacon_url : option string;
  cc_l2_rpc_url : option string;
  cc_l2_engine_url : option string;
  cc_jwt_secret : option string;
  cc_checkpoint_sync_url : option string;
  cc_rpc_port : option Z;
  cc_rpc_addr : option string;
  cc_devnet : bool
}.

Record DefaultsProvider := {
  dp_l2_rpc_url : string;
  dp_l2_engine_url : string;
  dp_rpc_port : Z;
  dp_rpc_addr : string
}.

Definition DefaultsProvider_default : DefaultsProvider :=
  {| dp_l2_rpc_url := "http://127.0.0.1:8545";
     dp_l2_engine_url := "http://127.0.0.1:8551";
     dp_rpc_port := 9545;
     dp_rpc_addr := "127.0.0.1" |}.

(** The arguments of the program. *)
Record Cli := {
  cli_network : string;
  cli_l1_rpc_url : option string;
  cli_l1_beacon_url : option string;
  cli_l2_rpc_url : option string;
  cli_sync_mode : SyncMode;
  cli_l2_engine_url : option string;
  cli_jwt_secret : option string;
  cli_jwt_file : option string;
  cli_verbose : bool;
  cli_rpc_port : option Z;
  cli_rpc_addr : option string;
  cli_logs_dir : option string;
  cli_logs_rotation : option string;
  cli_checkpoint_hash : option string;
  cli_checkpoint_sync_url : option string;
  cli_devnet : bool
}.

(** ** Serde forms *)

Definition VU64 (z : Z) : Value := VNumber z.
Definition from_u64_number (v : Value) : outcome Z := from_integer 0 18446744073709551615 v.

Section serde.
Context `{EthersSerde, AlloySerde}.

Definition from_u256 (v : Value) : outcome Z := ok_or (u256_from_json v) "invalid number".

Definition Epoch_serialize (e : Epoch) : Value :=
  VObject [("number", VU64 (ep_number e)); ("hash", hash_to_json (ep_hash e)); ("timestamp", VU64 (ep_timestamp e))].

Definition Epoch_deserialize (v : Value) : outcome Epoch :=
  number ← required from_u64_number "number" v;
  hash ← required from_hash "hash" v;
  timestamp ← required from_u64_number "timestamp" v;
  Ok {| ep_number := number; ep_hash := hash; ep_timestamp := timestamp |}.

Definition BlockInfo_serialize (b : BlockInfo) : Value :=
  VObject [("hash", hash_to_json (bi_hash b)); ("number", VU64 (bi_number b));
           ("parent_hash", hash_to_json (bi_parent_hash b)); ("timestamp", VU64 (bi_timestamp b))].

Definition BlockInfo_deserialize (v : Value) : outcome BlockInfo :=
  hash ← required from_hash "hash" v;
  number ← required from_u64_number "number" v;
  parent_hash ← required from_hash "parent_hash" v;
  timestamp ← required from_u64_number "timestamp" v;
  Ok {| bi_hash := hash; bi_number := number; bi_parent_hash := parent_hash; bi_timestamp := timestamp |}.

Definition SystemConfig_serialize (s : SystemConfig) : Value :=
  VObject [("batch_sender", hash_to_json (batch_sender s)); ("gas_limit", u256_to_json (gas_limit s));
           ("l1_fee_overhead", u256_to_json (l1_fee_overhead s)); ("l1_fee_scalar", u256_to_json (l1_fee_scalar s));
           ("unsafe_block_signer", hash_to_json (unsafe_block_signer s))].

Definition SystemConfig_deserialize (v : Value) : outcome SystemConfig :=
  batch_sender ← required from_address "batch_sender" v;
  gas_limit ← required from_u256 "gas_limit" v;
  l1_fee_overhead ← required from_u256 "l1_fee_overhead" v;
  l1_fee_scalar ← required from_u256 "l1_fee_scalar" v;
  unsafe_block_signer ← required from_address "unsafe_block_signer" v;
  Ok {| batch_sender := batch_sender; gas_limit := gas_limit; l1_fee_overhead := l1_fee_overhead;
        l1_fee_scalar := l1_fee_scalar; unsafe_block_signer := unsafe_block_signer |}.

(** [default_blocktime]. *)
Definition default_blocktime : Z := 2.

(** A field with [#[serde(default = ...)]]. *)
Definition defaulted {A} (dec : Value -> outcome A) (d : A) (name : string) (v : Value) : outcome A :=
  match get v name with Some v => dec v | None => Ok d end.

Definition ChainConfig_serialize (c : ChainConfig) : Value :=
  VObject [
    ("network", VString (network c));
    ("l1_chain_id", VU64 (l1_chain_id c));
    ("l2_chain_id", VU64 (l2_chain_id c));
    ("l1_start_epoch", Epoch_serialize (l1_start_epoch c));
    ("l2_genesis", BlockInfo_serialize (l2_genesis c));
    ("system_config", SystemConfig_serialize (system_config c));
    ("batch_inbox", hash_to_json (batch_inbox c));
    ("deposit_contract", hash_to_json (deposit_contract c));
    ("system_config_contract", hash_to_json (system_config_contract c));
    ("max_channel_size", VU64 (max_channel_size c));
    ("channel_timeout", VU64 (channel_timeout c));
    ("seq_window_size", VU64 (seq_window_size c));
    ("max_seq_drift", VU64 (max_seq_drift c));
    ("regolith_time", VU64 (regolith_time c));
    ("canyon_time", VU64 (canyon_time c));
    ("delta_time", VU64 (delta_time c));
    ("ecotone_time", VU64 (ecotone_time c));
    ("blocktime", VU64 (blocktime c));
    ("l2_to_l1_message_passer", hash_to_json (l2_to_l1_message_passer c))].

Definition ChainConfig_deserialize (v : Value) : outcome ChainConfig :=
  network ← required from_string "network" v;
  l1_chain_id ← required from_u64_number "l1_chain_id" v;
  l2_chain_id ← required from_u64_number "l2_chain_id" v;
  l1_start_epoch ← required Epoch_deserialize "l1_start_epoch" v;
  l2_genesis ← required BlockInfo_deserialize "l2_genesis" v;
  system_config ← required SystemConfig_deserialize "system_config" v;
  batch_inbox ← required from_address "batch_inbox" v;
  deposit_contract ← required from_address "deposit_contract" v;
  system_config_contract ← required from_address "system_config_contract" v;
  max_channel_size ← required from_u64_number "max_channel_size" v;
  channel_timeout ← required from_u64_number "channel_timeout" v;
  seq_window_size ← required from_u64_number "seq_window_size" v;
  max_seq_drift ← required from_u64_number "max_seq_drift" v;
  regolith_time ← required from_u64_number "regolith_time" v;
  canyon_time ← required from_u64_number "canyon_time" v;
  delta_time ← required from_u64_number "delta_time" v;
  ecotone_time ← required from_u64_number "ecotone_time" v;
  blocktime ← defaulted from_u64_number default_blocktime "blocktime" v;
  l2_to_l1_message_passer ← required from_address "l2_to_l1_message_passer" v;
  Ok {| network := network; l1_chain_id := l1_chain_id; l2_chain_id := l2_chain_id; l1_start_epoch := l1_start_epoch;
        l2_genesis := l2_genesis; system_config := system_config; batch_inbox := batch_inbox;
        deposit_contract := deposit_contract; system_config_contract := system_config_contract;
        max_channel_size := max_channel_size; channel_timeout := channel_timeout; seq_window_size := seq_window_size;
        max_seq_drift := max_seq_drift; regolith_time := regolith_time; canyon_time := canyon_time;
        delta_time := delta_time; ecotone_time := ecotone_time; blocktime := blocktime;
        l2_to_l1_message_passer := l2_to_l1_message_passer |}.

(** [rollup.json]. *)
Definition ChainGenesisInfo_serialize (g : ChainGenesisInfo) : Value :=
  VObject [("hash", hash_to_json (gen_hash g)); ("number", VU64 (gen_number g))].

Definition ChainGenesisInfo_deserialize (v : Value) : outcome ChainGenesisInfo :=
  let v := as_struct ["hash"; "number"] v in
  hash ← required from_hash "hash" v;
  number ← required from_u64_number "number" v;
  Ok {| gen_hash := hash; gen_number := number |}.

Definition SystemConfigInfo_serialize (s : SystemConfigInfo) : Value :=
  VObject [("batcherAddr", hash_to_json (batcher_addr s)); ("overhead", hash_to_json (overhead s));
           ("scalar", hash_to_json (scalar s)); ("gasLimit", VU64 (ext_gas_limit s))].

Definition SystemConfigInfo_deserialize (v : Value) : outcome SystemConfigInfo :=
  let v := as_struct ["batcherAddr"; "overhead"; "scalar"; "gasLimit"] v in
  batcher_addr ← required from_address "batcherAddr" v;
  overhead ← required from_hash "overhead" v;
  scalar ← required from_hash "scalar" v;
  gas_limit ← required from_u64_number "gasLimit" v;
  Ok {| batcher_addr := batcher_addr; overhead := overhead; scalar := scalar; ext_gas_limit := gas_limit |}.

Definition ExternalGenesisInfo_serialize (g : ExternalGenesisInfo) : Value :=
  VObject [("l1", ChainGenesisInfo_serialize (gen_l1 g)); ("l2", ChainGenesisInfo_serialize (gen_l2 g));
           ("l2_time", VU64 (l2_time g)); ("system_config", SystemConfigInfo_serialize (gen_system_config g))].

Definition ExternalGenesisInfo_deserialize (v : Value) : outcome ExternalGenesisInfo :=
  let v := as_struct ["l1"; "l2"; "l2_time"; "system_config"] v in
  l1 ← required ChainGenesisInfo_deserialize "l1" v;
  l2 ← required ChainGenesisInfo_deserialize "l2" v;
  l2_time ← required from_u64_number "l2_time" v;
  system_config ← required SystemConfigInfo_deserialize "system_config" v;
  Ok {| gen_l1 := l1; gen_l2 := l2; l2_time := l2_time; gen_system_config := system_config |}.

Definition ExternalChainConfig_serialize (e : ExternalChainConfig) : Value :=
  VObject [
    ("genesis", ExternalGenesisInfo_serialize (genesis e));
    ("block_time", VU64 (block_time e));
    ("max_sequencer_drift", VU64 (max_sequencer_drift e));
    ("seq_window_size", VU64 (ext_seq_window_size e));
    ("channel_timeout", VU64 (ext_channel_timeout e));
    ("l1_chain_id", VU64 (ext_l1_chain_id e));
    ("l2_chain_id", VU64 (ext_l2_chain_id e));
    ("regolith_time", VU64 (ext_regolith_time e));
    ("canyon_time", VU64 (ext_canyon_time e));
    ("delta_time", VU64 (ext_delta_time e));
    ("ecotone_time", VU64 (ext_ecotone_time e));
    ("batch_inbox_address", hash_to_json (batch_inbox_address e));
    ("deposit_contract_address", hash_to_json (deposit_contract_address e));
    ("l1_system_config_address", hash_to_json (l1_system_config_address e))].

Definition ExternalChainConfig_deserialize (v : Value) : outcome ExternalChainConfig :=
  let v := as_struct
    ["genesis"; "block_time"; "max_sequencer_drift"; "seq_window_size"; "channel_timeout";
     "l1_chain_id"; "l2_chain_id"; "regolith_time"; "canyon_time"; "delta_time"; "ecotone_time";
     "batch_inbox_address"; "deposit_contract_address"; "l1_system_config_address"] v in
  genesis ← required ExternalGenesisInfo_deserialize "genesis" v;
  block_time ← required from_u64_number "block_time" v;
  max_sequencer_drift ← required from_u64_number "max_sequencer_drift" v;
  seq_window_size ← required from_u64_number "seq_window_size" v;
  channel_timeout ← required from_u64_number "channel_timeout" v;
  l1_chain_id ← required from_u64_number "l1_chain_id" v;
  l2_chain_id ← required from_u64_number "l2_chain_id" v;
  regolith_time ← required from_u64_number "regolith_time" v;
  canyon_time ← required from_u64_number "canyon_time" v;
  delta_time ← required from_u64_number "delta_time" v;
  ecotone_time ← required from_u64_number "ecotone_time" v;
  batch_inbox_address ← required from_address "batch_inbox_address" v;
  deposit_contract_address ← required from_address "deposit_contract_address" v;
  l1_system_config_address ← required from_address "l1_system_config_address" v;
  Ok {| genesis := genesis; block_time := block_time; max_sequencer_drift := max_sequencer_drift;
        ext_seq_window_size := seq_window_size; ext_channel_timeout := channel_timeout; ext_l1_chain_id := l1_chain_id;
        ext_l2_chain_id := l2_chain_id; ext_regolith_time := regolith_time; ext_canyon_time := canyon_time;
        ext_delta_time := delta_time; ext_ecotone_time := ecotone_time; batch_inbox_address := batch_inbox_address;
        deposit_contract_address := deposit_contract_address; l1_system_config_address := l1_system_config_address |}.
End serde.

Definition join (p q : string) : string :=
  if bool_decide (p = "") || ends_with p "/" then p +:+ q else p +:+ "/" +:+ q.

(** ** The merge of the providers *)

Section providers.
Context `{EthersSerde, AlloySerde, Figment}.

(** The dictionaries that the providers serialize to. *)
Definition ChainProvider_dict (chain : ChainConfig) : Dict := [("chain", ChainConfig_serialize chain)].

Definition DefaultsProvider_dict (p : DefaultsProvider) : Dict :=
  [("l2_rpc_url", VString (dp_l2_rpc_url p)); ("l2_engine_url", VString (dp_l2_engine_url p));
   ("rpc_port", VNumber (dp_rpc_port p)); ("rpc_addr", VString (dp_rpc_addr p))].

(** [Value::from] of a slice of bytes, of a [BlockInfo] and of an [Epoch]; a dictionary is
    ordered by its keys. *)
Definition Value_from_bytes (bs : bytes) : Value := VArray (VNumber <$> bs).

Definition Value_from_BlockInfo (value : BlockInfo) : Value :=
  VObject [("hash", Value_from_bytes (bi_hash value)); ("number", VNumber (bi_number value));
           ("parent_hash", Value_from_bytes (bi_parent_hash value)); ("timestamp", VNumber (bi_timestamp value))].

Definition Value_from_Epoch (value : Epoch) : Value :=
  VObject [("hash", Value_from_bytes (ep_hash value)); ("number", VNumber (ep_number value));
           ("timestamp", VNumber (ep_timestamp value))].

(** A setting that is not given is skipped, but [devnet] is always there. *)
Definition CliConfig_dict (c : CliConfig) : Dict :=
  some_field "l1_rpc_url" (VString <$> cc_l1_rpc_url c) ++
  some_field "l1_beacon_url" (VString <$> cc_l1_beacon_url c) ++
  some_field "l2_rpc_url" (VString <$> cc_l2_rpc_url c) ++
  some_field "l2_engine_url" (VString <$> cc_l2_engine_url c) ++
  some_field "jwt_secret" (VString <$> cc_jwt_secret c) ++
  some_field "checkpoint_sync_url" (VString <$> cc_checkpoint_sync_url c) ++
  some_field "rpc_port" (VNumber <$> cc_rpc_port c) ++
  some_field "rpc_addr" (VString <$> cc_rpc_addr c) ++
  [("devnet", VBool (cc_devnet c))].

Definition from_u16 (v : Value) : outcome Z := from_integer 0 65535 v.

Definition Config_deserialize (v : Value) : outcome Config :=
  l1_rpc_url ← required from_string "l1_rpc_url" v;
  l1_beacon_url ← required from_string "l1_beacon_url" v;
  l2_rpc_url ← required from_string "l2_rpc_url" v;
  l2_engine_url ← required from_string "l2_engine_url" v;
  chain ← required ChainConfig_deserialize "chain" v;
  jwt_secret ← required from_string "jwt_secret" v;
  checkpoint_sync_url ← optional from_string "checkpoint_sync_url" v;
  rpc_port ← required from_u16 "rpc_port" v;
  rpc_addr ← required from_string "rpc_addr" v;
  devnet ← required from_bool "devnet" v;
  Ok {| l1_rpc_url := l1_rpc_url; l1_beacon_url := l1_beacon_url; l2_rpc_url := l2_rpc_url;
        l2_engine_url := l2_engine_url; chain := chain; jwt_secret := jwt_secret;
        checkpoint_sync_url := checkpoint_sync_url; rpc_port := rpc_port; rpc_addr := rpc_addr; devnet := devnet |}.

(** [Figment::extract]: all providers but the file give the default profile only. *)
Definition extract (toml : Profiles) (cli_config : CliConfig) (chain : ChainConfig) : Dict :=
  merge
    (merge (merge (merge (DefaultsProvider_dict DefaultsProvider_default) (ChainProvider_dict chain))
      (profile "default" toml)) (CliConfig_dict cli_config))
    (profile "global" toml).

(** [Config::new]: [toml] is what the file gives, nothing when there is no file and an
    error when it cannot be parsed.  Any error of the extraction is printed and ends the
    process. *)
Definition Config_new (toml : outcome Profiles) (cli_config : CliConfig) (chain : ChainConfig) : outcome Config :=
  let config_res :=
    toml ← toml;
    Config_deserialize (VObject (extract toml cli_config chain)) in
  match config_res with
  | Err _ => Err "exit 1"
  | r => r
  end.

(** ** The command line

    A path is a string; [join] is [Path::join] of a relative path, [read_file]
    [std::fs::read_to_string] and [read_toml] the TOML provider of a path. *)
Context (read_file : string -> option string) (current_dir home_dir : option string).
Context (read_toml : string -> outcome Profiles).

Definition default_jwt_secret : option string :=
  cur_dir ← current_dir;
  read_file (join cur_dir "jwt.hex").

Definition jwt_secret_from_file (cli : Cli) : option string :=
  jwt_file ← cli_jwt_file cli;
  match read_file jwt_file with
  | Some content => Some content
  | None => default_jwt_secret
  end.

Definition cli_secret (cli : Cli) : option string :=
  match cli_jwt_secret cli with
  | Some s => Some s
  | None => jwt_secret_from_file cli
  end.

Definition CliConfig_from (value : Cli) : CliConfig :=
  let jwt_secret := cli_secret value in
  {| cc_l1_rpc_url := cli_l1_rpc_url value; cc_l1_beacon_url := cli_l1_beacon_url value;
     cc_l2_rpc_url := cli_l2_rpc_url value; cc_l2_engine_url := cli_l2_engine_url value;
     cc_jwt_secret := jwt_secret; cc_checkpoint_sync_url := cli_checkpoint_sync_url value;
     cc_rpc_port := cli_rpc_port value; cc_rpc_addr := cli_rpc_addr value; cc_devnet := cli_devnet value |}.

(** [from_json] with the parser. *)
Definition read_external (read_json : string -> outcome Value) (path : string) : option ExternalChainConfig :=
  ok (v ← read_json path; ExternalChainConfig_deserialize v).

Context (read_json : string -> outcome Value).

Definition to_config (cli : Cli) : outcome Config :=
  chain ← from_network_name (read_external read_json) (cli_network cli);
  home ← unwrap home_dir;
  let config_path := join home ".magi/magi.toml" in
  let cli_config := CliConfig_from cli in
  Config_new (read_toml config_path) cli_config chain.

(** The runner that [main] makes. *)
Definition cli_runner (cli : Cli) : outcome Runner :=
  let sync_mode := cli_sync_mode cli in
  let checkpoint_hash := cli_checkpoint_hash cli in
  config ← to_config cli;
  Ok (with_checkpoint_hash checkpoint_hash (with_sync_mode sync_mode (Runner_from_config config))).
End providers.

(** ** Lemmas *)

Lemma from_u64_number_ok z : in_u64 z -> from_u64_number (VU64 z) = Ok z.
Proof.
  intros [H1 H2]. unfold from_u64_number, VU64, from_integer.
  by rewrite (proj2 (Z.leb_le 0 z)), (proj2 (Z.leb_le z 18446744073709551615)) by lia.
Qed.

Record epoch_ok (e : Epoch) : Prop := {
  epoch_ok_numbers : Forall in_u64 [ep_number e; ep_timestamp e];
  epoch_ok_hash : hash_ok 32 (ep_hash e)
}.

Record block_info_ok (b : BlockInfo) : Prop := {
  block_info_ok_numbers : Forall in_u64 [bi_number b; bi_timestamp b];
  block_info_ok_hashes : Forall (hash_ok 32) [bi_hash b; bi_parent_hash b]
}.

Record system_config_ok (s : SystemConfig) : Prop := {
  system_config_ok_addresses : Forall (hash_ok 20) [batch_sender s; unsafe_block_signer s];
  system_config_ok_numbers : Forall in_u256 [gas_limit s; l1_fee_overhead s; l1_fee_scalar s]
}.

Record chain_ok (c : ChainConfig) : Prop := {
  chain_ok_epoch : epoch_ok (l1_start_epoch c);
  chain_ok_genesis : block_info_ok (l2_genesis c);
  chain_ok_system : system_config_ok (system_config c);
  chain_ok_addresses : Forall (hash_ok 20)
    [batch_inbox c; deposit_contract c; system_config_contract c; l2_to_l1_message_passer c];
  chain_ok_numbers : Forall in_u64
    [l1_chain_id c; l2_chain_id c; max_channel_size c; channel_timeout c; seq_window_size c; max_seq_drift c;
     regolith_time c; canyon_time c; delta_time c; ecotone_time c; blocktime c]
}.

Ltac split_Foralls :=
  repeat match goal with F : Forall _ (_ :: _) |- _ => apply Forall_cons in F as [? F] end.

Section serde_lemmas.
Context `{EthersSerde, AlloySerde}.

Lemma from_u256_json z : in_u256 z -> from_u256 (u256_to_json z) = Ok z.
Proof. intros Hz. unfold from_u256. by rewrite u256_json. Qed.

(** Read the fields of a serialized record, in order. *)
Ltac read_fields :=
  repeat (eapply required_bind; [reflexivity
    |first [reflexivity | apply from_u64_number_ok; assumption | apply from_hash_json; assumption
           |apply from_address_json; assumption | apply from_u256_json; assumption | eassumption]|]).

Lemma Epoch_json e : epoch_ok e -> Epoch_deserialize (Epoch_serialize e) = Ok e.
Proof. intros [Hn Hh]. split_Foralls. unfold Epoch_deserialize. read_fields. by destruct e. Qed.

Lemma BlockInfo_json b : block_info_ok b -> BlockInfo_deserialize (BlockInfo_serialize b) = Ok b.
Proof. intros [Hn Hh]. split_Foralls. unfold BlockInfo_deserialize. read_fields. by destruct b. Qed.

Lemma SystemConfig_json s : system_config_ok s -> SystemConfig_deserialize (SystemConfig_serialize s) = Ok s.
Proof. intros [Ha Hn]. split_Foralls. unfold SystemConfig_deserialize. read_fields. by destruct s. Qed.

Lemma ChainConfig_json c : chain_ok c -> ChainConfig_deserialize (ChainConfig_serialize c) = Ok c.
Proof.
  intros [He%Epoch_json Hg%BlockInfo_json Hs%SystemConfig_json Ha Hn]. split_Foralls.
  unfold ChainConfig_deserialize. read_fields. unfold defaulted.
  change (get (ChainConfig_serialize c) "blocktime") with (Some (VU64 (blocktime c))). cbv iota beta.
  rewrite from_u64_number_ok, bind_ret by done. read_fields. by destruct c.
Qed.

Record rollup_ok (e : ExternalChainConfig) : Prop := {
  rollup_ok_hashes : Forall (hash_ok 32) [gen_hash (gen_l1 (genesis e)); gen_hash (gen_l2 (genesis e));
    overhead (gen_system_config (genesis e)); scalar (gen_system_config (genesis e))];
  rollup_ok_addresses : Forall (hash_ok 20) [batcher_addr (gen_system_config (genesis e)); batch_inbox_address e;
    deposit_contract_address e; l1_system_config_address e];
  rollup_ok_numbers : Forall in_u64
    [gen_number (gen_l1 (genesis e)); gen_number (gen_l2 (genesis e)); l2_time (genesis e);
     ext_gas_limit (gen_system_config (genesis e)); block_time e; max_sequencer_drift e; ext_seq_window_size e;
     ext_channel_timeout e; ext_l1_chain_id e; ext_l2_chain_id e; ext_regolith_time e; ext_canyon_time e;
     ext_delta_time e; ext_ecotone_time e]
}.

Lemma ExternalChainConfig_json e :
  rollup_ok e -> ExternalChainConfig_deserialize (ExternalChainConfig_serialize e) = Ok e.
Proof.
  intros [Hh Ha Hn]. split_Foralls. unfold ExternalChainConfig_deserialize.
  assert (Hg : forall g, g = genesis e -> ExternalGenesisInfo_deserialize (ExternalGenesisInfo_serialize g) = Ok g).
  { intros g ->. unfold ExternalGenesisInfo_deserialize.
    eapply required_bind; [reflexivity|unfold ChainGenesisInfo_deserialize; read_fields; reflexivity|].
    eapply required_bind; [reflexivity|unfold ChainGenesisInfo_deserialize; read_fields; reflexivity|].
    read_fields.
    eapply required_bind; [reflexivity|unfold SystemConfigInfo_deserialize; read_fields; reflexivity|].
    by destruct (genesis e) as [[] [] ? []]. }
  eapply required_bind; [reflexivity|by apply Hg|]. read_fields. by destruct e.
Qed.

(** The [rollup.json] of a chain is well formed. *)
Lemma rollup_ok_of_chain c e : chain_ok c -> ExternalChainConfig_from_chain c = Ok e -> rollup_ok e.
Proof.
  intros [[Hen Heh] [Hgn Hgh] [Hsa Hsn] Ha Hn] E. unfold ExternalChainConfig_from_chain in E.
  apply bind_Ok in E as (g & Hg & [= <-]). split_Foralls.
  assert (Hb : forall z, hash_ok 32 (to_be 32 z)) by (intros z; split; [apply length_to_be|apply bytes_ok_to_be]).
  apply as_u64_Ok in Hg as [<- Hlt].
  split; cbn; repeat (apply Forall_cons; split; [first [assumption | apply Hb | unfold in_u64, in_u256 in *; lia]|]).
  all: apply Forall_nil_2.
Qed.
End serde_lemmas.

(** ** What is looked up in a dictionary *)

Lemma lookup_key_app d1 d2 key :
  lookup_key (d1 ++ d2) key = match lookup_key d1 key with Some v => Some v | None => lookup_key d2 key end.
Proof.
  unfold lookup_key, get. induction d1 as [|[k v] d1 IH]; [done|]. cbn [app find fst].
  by case_bool_decide.
Qed.

Lemma lookup_some_field name o key : lookup_key (some_field name o) key = if bool_decide (name = key) then o else None.
Proof. destruct o as [v|]; unfold lookup_key, get; cbn; by case_bool_decide. Qed.

Definition or_else {A} (o o' : option A) : option A := match o with Some a => Some a | None => o' end.

(** A value that does not merge with another. *)
Definition scalar (o : option Value) : Prop := forall d, o <> Some (VObject d).

Section merge_lemmas.
Context `{EthersSerde, AlloySerde, Figment}.

Lemma merge_scalar d1 d2 key :
  scalar (lookup_key d1 key) -> lookup_key (merge d1 d2) key =
    match lookup_key d2 key with Some v => Some v | None => lookup_key d1 key end.
Proof.
  intros Hs. rewrite merge_lookup. destruct (lookup_key d1 key) as [[]|] eqn:E; try by destruct (lookup_key d2 key) as [[]|].
  by edestruct Hs.
Qed.

(** A setting: of the global profile, else of the command line, else of the default
    profile, else the default. *)
Lemma extract_scalar toml cli chain key :
  let D := lookup_key (DefaultsProvider_dict DefaultsProvider_default) key in
  let T := lookup_key (profile "default" toml) key in
  let L := lookup_key (CliConfig_dict cli) key in
  lookup_key (ChainProvider_dict chain) key = None -> scalar D -> scalar T -> scalar L ->
  lookup_key (extract toml cli chain) key =
    or_else (lookup_key (profile "global" toml) key) (or_else L (or_else T D)).
Proof.
  intros D T L Hc Hd Ht Hl. unfold extract, or_else.
  set (m1 := merge (DefaultsProvider_dict _) _). set (m2 := merge m1 _). set (m3 := merge m2 _).
  assert (E1 : lookup_key m1 key = D) by (unfold m1; rewrite merge_scalar, Hc by done; done).
  assert (E2 : lookup_key m2 key = or_else T D) by (unfold m2; rewrite merge_scalar, E1 by (by rewrite E1); done).
  assert (S2 : scalar (or_else T D)) by (unfold or_else; by destruct T).
  assert (E3 : lookup_key m3 key = or_else L (or_else T D)) by (unfold m3; rewrite merge_scalar, E2 by (by rewrite E2); done).
  rewrite merge_scalar, E3; [done|]. rewrite E3. unfold or_else at 1. by destruct L.
Qed.

(** Decide the equalities of literal keys. *)
Ltac decide_keys :=
  repeat match goal with |- context [bool_decide (?a = ?b)] =>
    let r := eval vm_compute in (bool_decide (a = b)) in change (bool_decide (a = b)) with r end; cbv iota.

Lemma lookup_cli (c : CliConfig) :
  lookup_key (CliConfig_dict c) "l1_rpc_url" = VString <$> cc_l1_rpc_url c /\
  lookup_key (CliConfig_dict c) "l1_beacon_url" = VString <$> cc_l1_beacon_url c /\
  lookup_key (CliConfig_dict c) "l2_rpc_url" = VString <$> cc_l2_rpc_url c /\
  lookup_key (CliConfig_dict c) "l2_engine_url" = VString <$> cc_l2_engine_url c /\
  lookup_key (CliConfig_dict c) "jwt_secret" = VString <$> cc_jwt_secret c /\
  lookup_key (CliConfig_dict c) "checkpoint_sync_url" = VString <$> cc_checkpoint_sync_url c /\
  lookup_key (CliConfig_dict c) "rpc_port" = VNumber <$> cc_rpc_port c /\
  lookup_key (CliConfig_dict c) "rpc_addr" = VString <$> cc_rpc_addr c /\
  lookup_key (CliConfig_dict c) "devnet" = Some (VBool (cc_devnet c)) /\
  lookup_key (CliConfig_dict c) "chain" = None.
Proof.
  unfold CliConfig_dict. rewrite !lookup_key_app, !lookup_some_field. split_and!; decide_keys; try reflexivity.
  all: match goal with |- match _ <$> ?o with _ => _ end = _ => by destruct o end.
Qed.

(** The value of a type that a setting has, without its default. *)
Definition setting {A} (as_a : Value -> option A) (cli : option A) (toml : Profiles) (key : string) : option A :=
  or_else (lookup_key (profile "global" toml) key ≫= as_a)
    (or_else cli (lookup_key (profile "default" toml) key ≫= as_a)).

Definition as_number (v : Value) : option Z := match v with VNumber z => Some z | _ => None end.
Definition as_bool (v : Value) : option bool := match v with VBool b => Some b | _ => None end.

(** A profile whose settings have their types, and that has no table of the chain. *)
Record profile_ok (t : Dict) : Prop := {
  profile_chain : lookup_key t "chain" = None;
  profile_strings : Forall (fun key => forall v, lookup_key t key = Some v -> exists s, v = VString s)
    ["l1_rpc_url"; "l1_beacon_url"; "l2_rpc_url"; "l2_engine_url"; "jwt_secret"; "checkpoint_sync_url"; "rpc_addr"];
  profile_port v : lookup_key t "rpc_port" = Some v -> exists z, v = VNumber z /\ in_u16 z;
  profile_devnet v : lookup_key t "devnet" = Some v -> exists b, v = VBool b
}.

Definition toml_ok (toml : Profiles) : Prop := profile_ok (profile "default" toml) /\ profile_ok (profile "global" toml).

(** A setting of one type in the extracted dictionary. *)
Lemma extract_setting {A} (as_a : Value -> option A) (to_v : A -> Value) chain toml c key cli dflt :
  (forall a, as_a (to_v a) = Some a) -> (forall a d, to_v a <> VObject d) ->
  (forall v, lookup_key (profile "default" toml) key = Some v -> exists a, v = to_v a) ->
  (forall v, lookup_key (profile "global" toml) key = Some v -> exists a, v = to_v a) ->
  lookup_key (ChainProvider_dict chain) key = None ->
  lookup_key (CliConfig_dict c) key = to_v <$> cli ->
  lookup_key (DefaultsProvider_dict DefaultsProvider_default) key = to_v <$> dflt ->
  lookup_key (extract toml c chain) key = to_v <$> or_else (setting as_a cli toml key) dflt.
Proof.
  intros Has Hobj Ht Hg Hc Hk Hd.
  assert (Hs : forall o, (forall v, o = Some v -> exists a, v = to_v a) -> scalar o).
  { intros o Ho d ->. destruct (Ho _ eq_refl) as [a Ha]. by apply (Hobj a d). }
  assert (Hf : forall (o : option A) v, to_v <$> o = Some v -> exists a, v = to_v a) by (intros [a|] v [= <-]; by exists a).
  rewrite extract_scalar; [|done|..].
  - rewrite Hk, Hd. unfold setting. destruct (lookup_key (profile "global" toml) key) as [v|] eqn:Eg.
    { destruct (Hg v eq_refl) as [a ->]. cbn. by rewrite Has. }
    destruct cli as [a|]; [done|]. destruct (lookup_key (profile "default" toml) key) as [v|] eqn:Et; [|done].
    destruct (Ht v eq_refl) as [a ->]. cbn. by rewrite Has.
  - apply Hs. rewrite Hd. apply Hf.
  - by apply Hs.
  - apply Hs. rewrite Hk. apply Hf.
Qed.

Lemma required_lookup {A} (dec : Value -> outcome A) d key :
  required dec key (VObject d) = (ok_or (lookup_key d key) "missing field" ≫= dec).
Proof. done. Qed.

Lemma required_string d key o :
  lookup_key d key = VString <$> o -> required from_string key (VObject d) = ok_or o "missing field".
Proof. rewrite required_lookup. intros ->. by destruct o. Qed.

Lemma from_u16_ok z : in_u16 z -> from_u16 (VNumber z) = Ok z.
Proof.
  intros [H1' H2']. unfold from_u16, from_integer.
  by rewrite (proj2 (Z.leb_le 0 z)), (proj2 (Z.leb_le z 65535)) by lia.
Qed.

Lemma required_port chain toml (c : CliConfig) :
  toml_ok toml -> (forall z, cc_rpc_port c = Some z -> in_u16 z) ->
  required from_u16 "rpc_port" (VObject (extract toml c chain)) =
    Ok (default 9545 (setting as_number (cc_rpc_port c) toml "rpc_port")).
Proof.
  intros [[_ _ Ht _] [_ _ Hg _]] Hc. pose proof (lookup_cli c) as (_ & _ & _ & _ & _ & _ & Hk & _).
  assert (Hn : forall t, (forall v, lookup_key t "rpc_port" = Some v -> exists z, v = VNumber z /\ in_u16 z) ->
    forall z, lookup_key t "rpc_port" ≫= as_number = Some z -> in_u16 z).
  { intros t H' z. destruct (lookup_key t "rpc_port") as [v|]; [|done]. destruct (H' v eq_refl) as (z' & -> & Hz). by intros [= <-]. }
  rewrite required_lookup, (extract_setting as_number VNumber _ _ _ _ (cc_rpc_port c) (Some 9545)); [|done|done|..|done|done|done].
  2, 3: intros v Hv; first [destruct (Ht v Hv) as (z & -> & _)|destruct (Hg v Hv) as (z & -> & _)]; by exists z.
  assert (Hz : in_u16 (default 9545 (setting as_number (cc_rpc_port c) toml "rpc_port"))).
  { unfold setting. destruct (lookup_key (profile "global" toml) "rpc_port" ≫= as_number) as [z|] eqn:E; [by apply (Hn _ Hg)|].
    destruct (cc_rpc_port c) as [z|]; [by apply Hc|].
    destruct (lookup_key (profile "default" toml) "rpc_port" ≫= as_number) as [z|] eqn:E'; [by apply (Hn _ Ht)|done]. }
  destruct (setting as_number (cc_rpc_port c) toml "rpc_port") as [z|]; by apply from_u16_ok.
Qed.

Lemma required_chain chain toml (c : CliConfig) :
  toml_ok toml -> chain_ok chain ->
  required ChainConfig_deserialize "chain" (VObject (extract toml c chain)) = Ok chain.
Proof.
  intros [[Ht _ _ _] [Hg _ _ _]] Hc. pose proof (lookup_cli c) as (_ & _ & _ & _ & _ & _ & _ & _ & _ & Hk).
  apply (required_Ok _ _ _ (ChainConfig_serialize chain)); [|by apply ChainConfig_json].
  change (get (VObject ?d) "chain") with (lookup_key d "chain"). unfold extract. by rewrite !merge_lookup, Hk, Ht, Hg.
Qed.

Lemma required_devnet chain toml (c : CliConfig) :
  toml_ok toml ->
  required from_bool "devnet" (VObject (extract toml c chain)) =
    Ok (default (cc_devnet c) (lookup_key (profile "global" toml) "devnet" ≫= as_bool)).
Proof.
  intros [[_ _ _ Ht] [_ _ _ Hg]]. pose proof (lookup_cli c) as (_ & _ & _ & _ & _ & _ & _ & _ & Hk & _).
  rewrite required_lookup, (extract_setting as_bool VBool _ _ _ _ (Some (cc_devnet c)) None) by done.
  unfold setting. by destruct (_ ≫= as_bool).
Qed.
End merge_lemmas.

(** ** Properties *)

Section properties.
Context `{EthersSerde, AlloySerde, Figment}.

(** C36. The configuration that a node runs with.  Each setting is the one of the file's
    global profile, else the one of the command line, else the one of the file's default
    profile, else the default; the two L1 URLs and the secret have no default, and without
    one of them the program exits.  A file without a table of the chain leaves the chain to
    the one that was named.  The devnet flag is the exception: the command line always gives
    it, so the default profile has no say in it.  The conditions: in both profiles the
    settings that are there have their types, and neither has a table of the chain, which
    would be merged into the named one and override it. *)
Theorem Config_new_spec toml cli chain :
  toml_ok toml -> chain_ok chain -> (forall z, cc_rpc_port cli = Some z -> in_u16 z) ->
  Config_new (Ok toml) cli chain =
    match setting as_str (cc_l1_rpc_url cli) toml "l1_rpc_url", setting as_str (cc_l1_beacon_url cli) toml "l1_beacon_url",
          setting as_str (cc_jwt_secret cli) toml "jwt_secret" with
    | Some l1, Some beacon, Some secret =>
        Ok {| l1_rpc_url := l1; l1_beacon_url := beacon;
              l2_rpc_url := default "http://127.0.0.1:8545" (setting as_str (cc_l2_rpc_url cli) toml "l2_rpc_url");
              l2_engine_url := default "http://127.0.0.1:8551" (setting as_str (cc_l2_engine_url cli) toml "l2_engine_url");
              chain := chain; jwt_secret := secret;
              checkpoint_sync_url := setting as_str (cc_checkpoint_sync_url cli) toml "checkpoint_sync_url";
              rpc_port := default 9545 (setting as_number (cc_rpc_port cli) toml "rpc_port");
              rpc_addr := default "127.0.0.1" (setting as_str (cc_rpc_addr cli) toml "rpc_addr");
              devnet := default (cc_devnet cli) (lookup_key (profile "global" toml) "devnet" ≫= as_bool) |}
    | _, _, _ => Err "exit 1"
    end.
Proof.
  intros Ht Hc Hp. pose proof (required_port chain toml cli Ht Hp) as Eport.
  pose proof (required_chain chain toml cli Ht Hc) as Echain. pose proof (required_devnet chain toml cli Ht) as Edev.
  pose proof (lookup_cli cli) as (K1 & K2 & K3 & K4 & K5 & K6 & _ & K8 & _). destruct Ht as [[_ Ht _ _] [_ Hg _ _]].
  split_Foralls. unfold Config_new. rewrite bind_ret. set (d := extract _ _ _) in *. unfold Config_deserialize.
  assert (M : forall key o dflt, (forall v, lookup_key (profile "default" toml) key = Some v -> exists s, v = VString s) ->
    (forall v, lookup_key (profile "global" toml) key = Some v -> exists s, v = VString s) ->
    lookup_key (ChainProvider_dict chain) key = None -> lookup_key (CliConfig_dict cli) key = VString <$> o ->
    lookup_key (DefaultsProvider_dict DefaultsProvider_default) key = VString <$> dflt ->
    lookup_key d key = VString <$> or_else (setting as_str o toml key) dflt) by (intros; by apply extract_setting).
  assert (N : forall key o dflt, (forall v, lookup_key (profile "default" toml) key = Some v -> exists s, v = VString s) ->
    (forall v, lookup_key (profile "global" toml) key = Some v -> exists s, v = VString s) ->
    lookup_key (ChainProvider_dict chain) key = None -> lookup_key (CliConfig_dict cli) key = VString <$> o ->
    lookup_key (DefaultsProvider_dict DefaultsProvider_default) key = VString <$> dflt ->
    required from_string key (VObject d) = ok_or (or_else (setting as_str o toml key) dflt) "missing field")
    by (intros; by apply required_string, M).
  rewrite (N "l1_rpc_url" (cc_l1_rpc_url cli) None), (N "l1_beacon_url" (cc_l1_beacon_url cli) None),
    (N "jwt_secret" (cc_jwt_secret cli) None), (N "l2_rpc_url" (cc_l2_rpc_url cli) (Some "http://127.0.0.1:8545")),
    (N "l2_engine_url" (cc_l2_engine_url cli) (Some "http://127.0.0.1:8551")),
    (N "rpc_addr" (cc_rpc_addr cli) (Some "127.0.0.1")) by first [assumption|reflexivity].
  rewrite Echain, Eport, Edev.
  assert (Esync : optional from_string "checkpoint_sync_url" (VObject d) =
    Ok (setting as_str (cc_checkpoint_sync_url cli) toml "checkpoint_sync_url")).
  { unfold optional. change (get (VObject d) ?k) with (lookup_key d k).
    rewrite (M "checkpoint_sync_url" (cc_checkpoint_sync_url cli) None) by first [assumption|reflexivity].
    destruct (setting as_str _ _ _); reflexivity. }
  rewrite Esync.
  destruct (setting as_str (cc_l1_rpc_url cli) _ _); [|done]. destruct (setting as_str (cc_l1_beacon_url cli) _ _); [|done].
  destruct (setting as_str (cc_jwt_secret cli) _ _); destruct (setting as_str (cc_l2_rpc_url cli) _ _),
    (setting as_str (cc_l2_engine_url cli) _ _), (setting as_str (cc_rpc_addr cli) _ _); reflexivity.
Qed.

(** A node can run with the configuration that another one serves.  The answer of the
    RPC method for the rollup configuration, stored as a JSON file, is read back by a node
    whose network is the path of that file, in lower case, as the chain of the first one:
    all the parameters of the derivation are kept, and what the format has no place for
    (the name, the time of the L1 start block, the parent of the L2 genesis block, the
    signer, the channel size limit and the message passer) is that of the format. *)
Theorem rollup_config_shared s e path read_json :
  chain_ok (chain (rpc_config s)) -> rollup_config s = Ok e ->
  ends_with (to_lowercase path) ".json" = true ->
  read_json (to_lowercase path) = Ok (ExternalChainConfig_serialize e) ->
  from_network_name (read_external read_json) path = Ok (forget (chain (rpc_config s))).
Proof.
  intros Hc He Hp Hf. unfold rollup_config in He. pose proof (rollup_ok_of_chain _ _ Hc He) as Hok.
  destruct (from_network_name_cases (read_external read_json) path) as [(c & Hin & Hn & _)|[_ ->]].
  - exfalso. rewrite Hn in Hp. unfold built_in in Hin. rewrite !elem_of_cons in Hin.
    destruct Hin as [->|[->|[->|[->|?%elem_of_nil]]]]; by vm_compute in Hp.
  - rewrite Hp. unfold from_json, read_external. rewrite Hf, bind_ret, ExternalChainConfig_json by done.
    cbn [ok unwrap]. rewrite bind_ret. f_equal. apply chain_of_external; [|done].
    destruct Hc as [_ _ [_ Hn] _ _]. split_Foralls. by split.
Qed.
End properties.

(** ** Witnesses *)

(** A merge on all levels, and numbers as hexadecimal strings. *)
Fixpoint example_merge_value (a b : Value) {struct a} : Value :=
  match a, b with
  | VObject fa, VObject fb =>
      VObject (map (fun kv : string * Value =>
        (kv.1, match lookup_key fb kv.1 with Some v => example_merge_value kv.2 v | None => kv.2 end)) fa ++ fb)
  | _, _ => b
  end.

Definition example_merge (d1 d2 : Dict) : Dict :=
  map (fun kv : string * Value =>
    (kv.1, match lookup_key d2 kv.1 with Some v => example_merge_value kv.2 v | None => kv.2 end)) d1 ++ d2.

Lemma lookup_key_map f d key :
  lookup_key (map (fun kv : string * Value => (kv.1, f kv.1 kv.2)) d) key = f key <$> lookup_key d key.
Proof.
  unfold lookup_key, get. induction d as [|[k v] d IH]; [done|]. cbn. by case_bool_decide; subst.
Qed.

#[local] Instance example_figment : Figment.
Proof.
  refine {| merge := example_merge |}. intros d1 d2 key. unfold example_merge. rewrite lookup_key_app.
  rewrite (lookup_key_map (fun k v => match lookup_key d2 k with Some v' => example_merge_value v v' | None => v end)).
  destruct (lookup_key d1 key) as [[]|]; cbn [fmap option_fmap option_map]; destruct (lookup_key d2 key) as [[]|]; done.
Defined.

#[local] Existing Instance example_serde.

#[local] Instance example_alloy : AlloySerde.
Proof.
  refine {| u256_to_json := fun z => VString ("0x" +:+ hex_encode (to_be 32 z));
            u256_from_json := fun v => from_be <$> example_from_hex v |}.
  intros z Hz. unfold example_from_hex. cbn [as_str mbind option_bind]. rewrite strip_prefix_app. cbn [mbind option_bind].
  rewrite hex_decode_encode by apply bytes_ok_to_be. cbn. f_equal. by apply (from_be_to_be_id 32).
Defined.

Lemma base_ok : chain_ok base.
Proof.
  split; [split|split|split|..]; repeat (apply Forall_cons; split; [first [by_compute | split; by_compute]|]);
    first [apply Forall_nil_2 | split; by_compute].
Qed.

(** A file that asks for a devnet, names the L1 nodes, and insists on the port. *)
Definition example_toml : Profiles :=
  [("default", [("devnet", VBool true); ("l1_rpc_url", VString "http://file"); ("l1_beacon_url", VString "http://beacon")]);
   ("Global", [("rpc_port", VNumber 7000)])].

Definition example_cli : CliConfig :=
  {| cc_l1_rpc_url := Some "http://cli"; cc_l1_beacon_url := None; cc_l2_rpc_url := None; cc_l2_engine_url := None;
     cc_jwt_secret := Some "f79a"; cc_checkpoint_sync_url := None; cc_rpc_port := Some 9000; cc_rpc_addr := None;
     cc_devnet := false |}.

Lemma example_toml_ok : toml_ok example_toml.
Proof.
  split; (split; [done| |intros v; vm_compute; first [done|intros [= <-]; by exists 7000]
    |intros v; vm_compute; first [done|intros [= <-]; by eexists]]).
  all: repeat (apply Forall_cons; split; [intros v; vm_compute; first [done|intros [= <-]; by eexists]|]); apply Forall_nil_2.
Qed.

Lemma Config_new_spec_witness :
  exists config, Config_new (Ok example_toml) example_cli base = Ok config /\
    l1_rpc_url config = "http://cli" /\ rpc_port config = 7000 /\ devnet config = false.
Proof.
  eexists. split; [|split; [|split]].
  - rewrite (Config_new_spec example_toml example_cli base example_toml_ok base_ok ltac:(by intros z [= <-])). reflexivity.
  - reflexivity.
  - reflexivity.
  - reflexivity.
Defined.

(** A table of the chain in the file is merged into the chain that was named. *)
Example file_chain_overrides :
  (fun config => (network (chain config), blocktime (chain config))) <$>
    Config_new (Ok [("default", [("chain", VObject [("blocktime", VNumber 1)]); ("l1_rpc_url", VString "http://file");
      ("l1_beacon_url", VString "http://beacon")])]) example_cli base = Ok ("base", 1).
Proof. by vm_compute. Qed.

Definition base_server : RpcServerImpl :=
  rpc_impl false {| l1_rpc_url := ""; l1_beacon_url := ""; l2_rpc_url := ""; l2_engine_url := ""; chain := base;
                    jwt_secret := ""; checkpoint_sync_url := None; rpc_port := 9545; rpc_addr := ""; devnet := false |}.

Lemma rollup_config_shared_witness :
  exists e, rollup_config base_server = Ok e /\
    from_network_name (read_external (fun _ => Ok (ExternalChainConfig_serialize e))) "/tmp/Rollup.JSON" = Ok (forget base).
Proof.
  destruct (rollup_config base_server) as [e|m| |] eqn:E; [|by vm_compute in E..].
  exists e. split; [reflexivity|].
  exact (rollup_config_shared base_server e "/tmp/Rollup.JSON" (fun _ => Ok (ExternalChainConfig_serialize e))
    base_ok E ltac:(by vm_compute) eq_refl).
Defined.
