(* ===== verification/Telemetry.v ===== *)
(** Telemetry (src/src/telemetry/): the log on the terminal and in files
    (logging.rs), and the Prometheus gauges (metrics.rs) with the place where the driver
    sets them (src/src/driver/mod.rs).

    tracing, its subscribers and appenders, the colours and the clock are library code; a
    print to the terminal is the text it writes. *)
From stdpp Require Import pretty.
From Stdlib Require Import Ascii.
From S2P Require Import Prelude Common Config Engine EngineDriver Driver.

(** ** Paths

    [std::path::Path] on Unix, as the list of its components; the root is the component
    ["/"].  Repeated separators and inner dots are no components. *)

Abbreviation Path := (list string) (only parsing).

(** [str::split] at a character. *)
Fixpoint split_at (c : Ascii.ascii) (s : string) : list string :=
  match s with
  | EmptyString => [""]
  | String a s =>
      if Ascii.eqb a c then "" :: split_at c s
      else match split_at c s with
           | [] => [String a ""]
           | x :: l => String a x :: l
           end
  end.

Definition Path_new (s : string) : Path :=
  let segments := split_at "/"%char s in
  let first :=
    match segments with
    | "" :: _ :: _ => ["/"]
    | "." :: _ => ["."]
    | _ => []
    end in
  first ++ filter (fun c => c <> "" /\ c <> ".") segments.

Fixpoint join_with (sep : string) (l : list string) : string :=
  match l with
  | [] => ""
  | [x] => x
  | x :: l => x +:+ sep +:+ join_with sep l
  end.

(** [Path::to_str]. *)
Definition Path_to_str (p : Path) : string :=
  match p with
  | "/" :: p => "/" +:+ join_with "/" p
  | p => join_with "/" p
  end.

(** [Path::parent]: none for the root and for the empty path. *)
Definition Path_parent (p : Path) : option Path :=
  if bool_decide (p = []) || bool_decide (p = ["/"]) then None else Some (take (length p - 1) p).

Fixpoint ancestors_fuel (fuel : nat) (p : Path) : list Path :=
  match fuel with
  | O => []
  | S fuel => p :: match Path_parent p with Some q => ancestors_fuel fuel q | None => [] end
  end.

(** [Path::ancestors]; every parent is shorter. *)
Definition Path_ancestors (p : Path) : list Path := ancestors_fuel (S (length p)) p.

(** [Path::strip_prefix]. *)
Fixpoint Path_strip_prefix (p base : Path) {struct base} : option Path :=
  match base, p with
  | [], p => Some p
  | b :: base, c :: p => if bool_decide (b = c) then Path_strip_prefix p base else None
  | _ :: _, [] => None
  end.

(** [str::strip_prefix] with a character. *)
Definition str_strip_char (c : Ascii.ascii) (s : string) : string :=
  match s with
  | String a rest => if Ascii.eqb a c then rest else s
  | EmptyString => s
  end.

(** [Iterator::take_while]. *)
Fixpoint take_while {A} (f : A -> bool) (l : list A) : list A :=
  match l with
  | [] => []
  | x :: l => if f x then x :: take_while f l else []
  end.

(** ** Log files *)

Inductive Rotation := NEVER | DAILY | HOURLY | MINUTELY.

(** [tracing_appender::rolling] and the filter of [tracing_subscriber]: appenders of
    type [A], filters of type [F]. *)
Class Tracing (A F : Type) := {
  rolling : Rotation -> string -> string -> A;
  EnvFilter_new : string -> F
}.

Definition LOG_FILE_NAME_PREFIX : string := "magi.log".
Definition DEFAULT_ROTATION : string := "daily".

(** With the lines it prints to the error output. *)
Definition get_rotation_strategy (val : string) : Rotation * list string :=
  if bool_decide (val = "never") then (NEVER, [])
  else if bool_decide (val = "daily") then (DAILY, [])
  else if bool_decide (val = "hourly") then (HOURLY, [])
  else if bool_decide (val = "minutely") then (MINUTELY, [])
  else (DAILY,
    ["Invalid log rotation strategy provided. Defaulting to rotating daily.";
     "Valid rotation options are: 'never', 'daily', 'hourly', 'minutely'."]).

Section logging.
Context {A F : Type} `{Tracing A F}.

Definition get_rolling_file_appender (directory : string) (rotation : Rotation) (file_name_prefix : string) : A :=
  match rotation with
  | NEVER => rolling NEVER directory file_name_prefix
  | DAILY => rolling DAILY directory file_name_prefix
  | HOURLY => rolling HOURLY directory file_name_prefix
  | MINUTELY => rolling MINUTELY directory file_name_prefix
  end.

(** The subscriber that is installed for the process: the filter of the terminal with
    its layer, and the appender with its filter. *)
Record Subscriber := {
  stdout_filter : F;
  stdout_verbose : bool;
  file_layer : option (A * F)
}.

(** The process has at most one subscriber; [init] of a second one panics. *)
Definition set_global (s : Subscriber) : M (option Subscriber) unit := fun global =>
  match global with
  | None => (Ok tt, Some s)
  | Some _ => (Panic, global)
  end.

(** [default_env] is the filter that the environment asks for, if it does and it is
    valid.  A guard is the appender it flushes. *)
Definition build_subscriber (default_env : option F) (verbose : bool) (appender : option A)
    : M (option Subscriber) (list A) :=
  let stdout_env_filter := default (EnvFilter_new
    (if verbose then "magi=debug,network=debug" else "magi=info,network=debug")) default_env in
  match appender with
  | Some appender =>
      let file_env_filter := EnvFilter_new "magi=debug,network=debug" in
      set_global {| stdout_filter := stdout_env_filter; stdout_verbose := verbose;
                    file_layer := Some (appender, file_env_filter) |} ;;
      mret [appender]
  | None =>
      set_global {| stdout_filter := stdout_env_filter; stdout_verbose := verbose; file_layer := None |} ;;
      mret []
  end.

(** [telemetry::init]. *)
Definition init (default_env : option F) (verbose : bool) (logs_dir logs_rotation : option string)
    : M (option Subscriber) (list A) :=
  match logs_dir with
  | Some dir =>
      let rotation := (get_rotation_strategy (default DEFAULT_ROTATION logs_rotation)).1 in
      let appender := Some (get_rolling_file_appender dir rotation LOG_FILE_NAME_PREFIX) in
      build_subscriber default_env verbose appender
  | None => build_subscriber default_env verbose None
  end.
End logging.

(** ** The terminal *)

(** [ansi_term::Colour] and the styled text. *)
Inductive Colour := Blue | Cyan | Purple | Red | Yellow.

Class AnsiTerm := {
  paint : Colour -> string -> string
}.

Inductive Level := ERROR | WARN | INFO | DEBUG | TRACE.

(** The value of a field: what [Display] or [Debug] of the types of other values shows is
    a string. *)
Inductive FieldValue :=
| FieldF64 (shown : string)
| FieldI64 (value : Z)
| FieldU64 (value : Z)
| FieldBool (value : bool)
| FieldStr (value : string)
| FieldError (shown : string)
| FieldDebug (shown : string).

(** [tracing::Event]: its metadata and its fields. *)
Record LogEvent := {
  ev_level : Level;
  ev_target : string;
  ev_name : string;
  ev_fields : list FieldValue
}.

Definition newline : string := String (Ascii.ascii_of_nat 10) "".

Definition println (s : string) : string := s +:+ newline.

(** The methods of [AnsiVisitor]. *)
Definition AnsiVisitor_record (value : FieldValue) : string :=
  match value with
  | FieldF64 value => println value
  | FieldI64 value => println (pretty value)
  | FieldU64 value => println (pretty value)
  | FieldBool value => println (if value then "true" else "false")
  | FieldStr value => println value
  | FieldError value => println value
  | FieldDebug value => println value
  end.

(** [str::find] of a character with the slice before it, and [str::trim_end] of the
    blanks of ASCII. *)
Fixpoint str_before (c : Ascii.ascii) (s : string) : string :=
  match s with
  | String a s => if Ascii.eqb a c then "" else String a (str_before c s)
  | EmptyString => ""
  end.

Definition is_space (a : Ascii.ascii) : bool :=
  let n := Ascii.nat_of_ascii a in (n =? 32)%nat || (9 <=? n)%nat && (n <=? 13)%nat.

Fixpoint trim_end (s : string) : string :=
  match s with
  | String a s =>
      let rest := trim_end s in
      if bool_decide (rest = "") && is_space a then "" else String a rest
  | EmptyString => ""
  end.

(** The longest common ancestor of the two paths, as the chain of adaptors finds it. *)
Definition common_prefix (location_path relative_path : Path) : Path :=
  default (Path_new "")
    (fst <$> last (take_while (fun ab : Path * Path => bool_decide (ab.1 = ab.2))
      (zip (reverse (Path_ancestors location_path)) (reverse (Path_ancestors relative_path))))).

(** The place of an event, below the working directory. *)
Definition event_location (current_dir : option string) (name : string) : string :=
  let original_location := default "" (last (split_at " "%char name)) in
  let relative_path := default "" current_dir in
  let location_path := Path_new original_location in
  let relative_path_path := Path_new relative_path in
  let common := common_prefix location_path relative_path_path in
  let location := Path_to_str (default location_path (Path_strip_prefix location_path common)) in
  str_strip_char "/"%char location.

Section terminal.
Context `{AnsiTerm}.

Definition level_prefix (l : Level) : string :=
  match l with
  | ERROR => paint Red "ERROR" +:+ ": "
  | WARN => paint Yellow "WARN" +:+ ": "
  | INFO => paint Blue "INFO" +:+ ": "
  | DEBUG => "DEBUG: "
  | TRACE => paint Purple "TRACE" +:+ ": "
  end.

(** [AnsiTermLayer::on_event], at the time [utc] in the format of RFC 2822. *)
Definition on_event (verbose : bool) (utc : string) (current_dir : option string) (event : LogEvent) : string :=
  let formatted_utc := trim_end (str_before "+"%char utc) in
  "[" +:+ paint Cyan formatted_utc +:+ "] " +:+
  level_prefix (ev_level event) +:+
  (if verbose then
     paint Purple (ev_target event) +:+ " at " +:+ paint Cyan (event_location current_dir (ev_name event)) +:+ " "
   else "") +:+
  String.concat "" (AnsiVisitor_record <$> ev_fields event).
End terminal.

(** ** Gauges *)

(** The gauges of the process. *)
Record Gauges := {
  FINALIZED_HEAD : Z;
  SAFE_HEAD : Z;
  SYNCED : Z
}.

(** [prometheus_exporter::start]. *)
Class PrometheusExporter := {
  exporter_start : string -> outcome unit
}.

Definition metrics_init `{PrometheusExporter} : outcome unit := exporter_start "0.0.0.0:9200".

(** [Driver::update_metrics]; a gauge holds an [i64]. *)
Definition update_metrics {E P B} (d : Driver E P B) (g : Gauges) : Gauges :=
  {| FINALIZED_HEAD := i64 (bi_number (finalized_head (engine_driver d)));
     SAFE_HEAD := i64 (bi_number (ed_safe_head (engine_driver d)));
     SYNCED := if synced d then 1 else 0 |}.

(** ** Lemmas *)

(** The prefixes of a list, the shortest first. *)
Fixpoint prefixes {A} (l : list A) : list (list A) :=
  match l with
  | [] => [[]]
  | x :: l => [] :: (cons x <$> prefixes l)
  end.

Lemma prefixes_snoc {A} (l : list A) x : prefixes (l ++ [x]) = prefixes l ++ [l ++ [x]].
Proof. induction l as [|y l IH]; [done|]. cbn. by rewrite IH, fmap_app. Qed.

Lemma Path_parent_snoc p x : p ++ [x] <> ["/"] -> Path_parent (p ++ [x]) = Some p.
Proof.
  intros Hne. unfold Path_parent. rewrite !bool_decide_eq_false_2 by (done || by destruct p). cbn [orb]. f_equal.
  rewrite length_app. cbn [length]. replace (length p + 1 - 1)%nat with (length p) by lia. by rewrite take_app_length.
Qed.

Lemma Path_ancestors_snoc p x :
  p ++ [x] <> ["/"] -> reverse (Path_ancestors (p ++ [x])) = reverse (Path_ancestors p) ++ [p ++ [x]].
Proof.
  intros Hne. unfold Path_ancestors at 1. cbn [ancestors_fuel]. rewrite Path_parent_snoc by done.
  rewrite length_app. cbn [length]. rewrite Nat.add_1_r. change (ancestors_fuel (S (length p)) p) with (Path_ancestors p).
  by rewrite reverse_cons.
Qed.

(** The ancestors from the first one: the prefixes, from the root on where there is one. *)
Lemma Path_ancestors_relative p : head p <> Some "/" -> reverse (Path_ancestors p) = prefixes p.
Proof.
  induction p as [|x p IH] using rev_ind; intros Hh; [done|].
  rewrite Path_ancestors_snoc, prefixes_snoc, IH; [done| |].
  - by destruct p.
  - intros E. by rewrite E in Hh.
Qed.

Lemma Path_ancestors_root p : reverse (Path_ancestors ("/" :: p)) = cons "/" <$> prefixes p.
Proof.
  induction p as [|x p IH] using rev_ind; [done|].
  change ("/" :: p ++ [x]) with (("/" :: p) ++ [x]). rewrite Path_ancestors_snoc by by destruct p.
  by rewrite IH, prefixes_snoc, fmap_app.
Qed.

Section prefix.
Context {A : Type} `{EqDecision A}.

Lemma take_while_fmap {B C} (g : B -> C) (f : C -> bool) (l : list B) :
  take_while f (g <$> l) = g <$> take_while (fun x => f (g x)) l.
Proof. induction l as [|x l IH]; [done|]. cbn. destruct (f (g x)); [|done]. cbn. by rewrite IH. Qed.

Lemma take_while_ext {B} (f g : B -> bool) (l : list B) : (forall x, f x = g x) -> take_while f l = take_while g l.
Proof. intros Hfg. induction l as [|x l IH]; [done|]. cbn. by rewrite Hfg, IH. Qed.

Abbreviation same := (fun ab : list A * list A => bool_decide (ab.1 = ab.2)).

Lemma zip_prefixes_cons x (l k : list A) :
  take_while same (zip (cons x <$> prefixes l) (cons x <$> prefixes k)) =
    prod_map (cons x) (cons x) <$> take_while same (zip (prefixes l) (prefixes k)).
Proof.
  assert (Hz : forall a b : list (list A), zip (cons x <$> a) (cons x <$> b) = prod_map (cons x) (cons x) <$> zip a b).
  { induction a as [|u a IH]; intros [|v b]; [done..|]. cbn. f_equal. apply IH. }
  rewrite Hz, take_while_fmap. f_equal. apply take_while_ext. intros [a b]. cbn. apply bool_decide_ext. naive_solver.
Qed.

Lemma last_common_prefix (l k : list A) :
  fst <$> last (take_while same (zip (prefixes l) (prefixes k))) = Some (max_prefix l k).2.
Proof.
  revert k. induction l as [|x l IH]; intros k.
  - destruct k; cbn; case_bool_decide; done.
  - destruct k as [|y k]; [cbn; case_bool_decide; [by destruct (cons x <$> prefixes l)|done]|]. cbn [prefixes zip zip_with].
    change (zip_with pair ?a ?b) with (zip a b). cbn [take_while]. rewrite bool_decide_eq_true_2 by done.
    cbn [max_prefix]. destruct (decide_rel (=) x y) as [->|Hne].
    + rewrite zip_prefixes_cons, last_cons, fmap_last. specialize (IH k).
      destruct (max_prefix l k) as [[l' k'] m]. destruct (last (take_while _ _)) as [[a b]|]; [|done].
      cbn in IH. injection IH as ->. done.
    + destruct l, k; cbn; repeat case_bool_decide; simplify_eq; done.
Qed.
End prefix.

(** The adaptors find the longest common prefix of the two paths. *)
Theorem common_prefix_longest p q : common_prefix p q = (max_prefix p q).2.
Proof.
  unfold common_prefix.
  assert (Hroot : forall l k : Path, head k <> Some "/" ->
    take_while (fun ab : Path * Path => bool_decide (ab.1 = ab.2)) (zip (cons "/" <$> prefixes l) (prefixes k)) = [] /\
    take_while (fun ab : Path * Path => bool_decide (ab.1 = ab.2)) (zip (prefixes k) (cons "/" <$> prefixes l)) = []).
  { intros l k Hk. destruct l, k; cbn; repeat case_bool_decide; done. }
  destruct (decide (head p = Some "/")) as [Hp|Hp], (decide (head q = Some "/")) as [Hq|Hq].
  - destruct p as [|x p]; [done|]. destruct q as [|y q]; [done|]. injection Hp as ->. injection Hq as ->.
    rewrite !Path_ancestors_root, zip_prefixes_cons, fmap_last. pose proof (last_common_prefix p q) as Hl.
    destruct (last _) as [[a b]|]; [|done]. cbn in Hl. injection Hl as ->. cbn.
    destruct (max_prefix p q) as [[? ?] ?]. by destruct (decide_rel (=) "/" "/") as [?|[]].
  - destruct p as [|x p]; [done|]. injection Hp as ->. rewrite Path_ancestors_root, Path_ancestors_relative by done.
    destruct (Hroot p q Hq) as [-> _]. destruct q as [|y q]; [done|]. cbn.
    by destruct (decide_rel (=) "/" y) as [<-|].
  - destruct q as [|y q]; [done|]. injection Hq as ->. rewrite Path_ancestors_root, Path_ancestors_relative by done.
    destruct (Hroot q p Hp) as [_ ->]. destruct p as [|x p]; [done|]. cbn.
    by destruct (decide_rel (=) x "/") as [->|].
  - rewrite !Path_ancestors_relative by done. by rewrite last_common_prefix.
Qed.

Lemma Path_strip_prefix_app p q : Path_strip_prefix (p ++ q) p = Some q.
Proof. induction p as [|x p IH]; [done|]. cbn. by rewrite bool_decide_eq_true_2. Qed.

(** The place that is printed for an event: what follows the longest common prefix of its
    path and the working directory. *)
Theorem event_location_spec dir name :
  let location := Path_new (default "" (last (split_at " "%char name))) in
  event_location (Some dir) name = str_strip_char "/"%char (Path_to_str (max_prefix location (Path_new dir)).1.1).
Proof.
  intros location. unfold event_location. cbn zeta. fold location. change (default "" (Some dir)) with dir.
  clearbody location. rewrite common_prefix_longest.
  destruct (max_prefix location (Path_new dir)) as [[rest r] m] eqn:E. apply max_prefix_fst_alt in E. cbn [fst snd].
  by rewrite E, Path_strip_prefix_app.
Qed.

(** The subscriber is installed once: the first [init] never fails, logs to the terminal and,
    in a directory, to files that rotate as asked for, each with one guard; every later one panics. *)
Theorem init_once {A F} `{Tracing A F} env verbose dir rotation :
  (exists s guards, init env verbose dir rotation None = (Ok guards, Some s) /\ stdout_verbose s = verbose /\
     guards = option_list (fst <$> file_layer s) /\ (is_Some (file_layer s) <-> is_Some dir) /\
     forall d, dir = Some d -> fst <$> file_layer s =
       Some (rolling (get_rotation_strategy (default "daily" rotation)).1 d "magi.log")) /\
  (forall s, init env verbose dir rotation (Some s) = (Panic, Some s)).
Proof.
  split; [|intros s; by destruct dir]. destruct dir as [d|]; eexists _, _; (split; [reflexivity|]); cbn; split_and!; try done.
  intros d' [= ->]. unfold get_rolling_file_appender, DEFAULT_ROTATION. by destruct (get_rotation_strategy _).1.
Qed.

(** A relative path stays, and a path below the working directory is made relative. *)
Example event_location_examples :
  event_location (Some "/home/magi") "event src/rpc/mod.rs:150" = "src/rpc/mod.rs:150" /\
  event_location (Some "/home/magi") "event /home/magi/src/lib.rs:3" = "src/lib.rs:3" /\
  event_location None "event /a/b.rs:1" = "a/b.rs:1".
Proof. by vm_compute. Qed.
