(* ===== verification/Program.v ===== *)
(** The programs (src/bin/magi.rs, src/bin/network.rs) and what they put together: the
    query for the head of the L2 node (src/src/driver/info.rs), the RPC server
    (src/src/rpc/mod.rs), [Driver::from_config] with all it builds (src/src/driver/mod.rs),
    and the driver as the task that the runner starts.

    The world [W] has the L2 node, the execution client and the signal for the shutdown.
    The driver takes it along in its client and gives it back. *)
From stdpp Require Import pretty.
From S2P Require Import Prelude Purgeable Codecs Common Concrete Config Deposits L1Info HeadInfo State BatcherTransactions.
From S2P Require Import Channels SingleBatch SpanBatch Batches Engine Ecotone Attributes EngineDriver.
From S2P Require Import Json EngineApi Blobs ChainWatcher Gossip Pipeline Driver Node Network Rpc Runner Settings Telemetry.

(** ** The query for the head *)

(** The trait [InnerProvider], for a provider of type [P]. *)
Class InnerProvider (P W : Type) := {
  inner_block_with_txs : P -> BlockId -> M W (option Block)
}.

(** [HeadInfoFetcher]; a [Provider] is known by its URL. *)
Record HeadInfoFetcher := { inner : string }.

Definition HeadInfoFetcher_from (inner : string) : HeadInfoFetcher := {| inner := inner |}.

#[export] Instance HeadInfoFetcher_provider {W} `{Nodes W} : InnerProvider HeadInfoFetcher W := {
  inner_block_with_txs := fun p block_id => Runner.get_block_with_txs (inner p) block_id
}.

(** The provider of the tests, which has one block. *)
Record MockProvider := { mock_block : option Block }.

Definition mock_provider (block : option Block) : MockProvider := {| mock_block := block |}.

#[export] Instance MockProvider_provider {W} : InnerProvider MockProvider W := {
  inner_block_with_txs := fun p _ => mret (mock_block p)
}.

(** [HeadInfoQuery::get_head_info], with the query. *)
Definition query_head_info {P W} `{InnerProvider P W, Keccak} (p : P) (config : Config) : M W HeadInfo := fun w =>
  let '(block, w) := inner_block_with_txs p FinalizedBlock w in
  (get_head_info block config, w).

(** ** The RPC server *)

Section rpc.
Context `{EthersSerde}.

Definition OutputRootResponse_serialize (r : OutputRootResponse) : Value :=
  VObject [
    ("outputRoot", hash_to_json (output_root r));
    ("version", hash_to_json (or_version r));
    ("stateRoot", hash_to_json (state_root r));
    ("withdrawalStorageRoot", hash_to_json (withdrawal_storage_root r))].

Definition OutputRootResponse_deserialize (v : Value) : outcome OutputRootResponse :=
  output_root ← required from_hash "outputRoot" v;
  version ← required from_hash "version" v;
  state_root ← required from_hash "stateRoot" v;
  withdrawal_storage_root ← required from_hash "withdrawalStorageRoot" v;
  Ok {| output_root := output_root; or_version := version; state_root := state_root;
        withdrawal_storage_root := withdrawal_storage_root |}.
End rpc.

(** The methods of the trait [Rpc], with their parameters. *)
Inductive RpcMethod := OutputAtBlock (block_number : Z) | RollupConfig | VersionOf.

(** The name of a method, in the namespace of the trait. *)
Definition rpc_name (m : RpcMethod) : string :=
  "optimism_" +:+
  match m with
  | OutputAtBlock _ => "outputAtBlock"
  | RollupConfig => "rollupConfig"
  | VersionOf => "version"
  end.

Definition rpc_answer {P} `{Keccak, ProofProvider P, EthersSerde, AlloySerde} (s : RpcServerImpl) (m : RpcMethod)
    : outcome Value :=
  match m with
  | OutputAtBlock block_number => OutputRootResponse_serialize <$> output_at_block (P := P) s block_number
  | RollupConfig => ExternalChainConfig_serialize <$> rollup_config s
  | VersionOf => Ok (VString (rpc_version_string s))
  end.

(** [jsonrpsee]: a server of type [S], its address and its start with an
    implementation. *)
Class RpcServer (S : Type) := {
  server_build : string -> outcome S;
  local_addr : S -> outcome SocketAddr;
  server_start : S -> RpcServerImpl -> outcome unit
}.

Definition run_server {S} `{RpcServer S} (debug_assertions : bool) (config : Config) : outcome SocketAddr :=
  let port := rpc_port config in
  let addr := rpc_addr config in
  server ← server_build (addr +:+ ":" +:+ pretty port);
  addr ← local_addr server;
  let rpc_impl := rpc_impl debug_assertions config in
  _ ← server_start server rpc_impl;
  Ok addr.

(** ** The driver's client

    [EngineDriver] has the engine API and a provider of the L2 node; both act on the
    world. *)

Record L2Client (W : Type) := {
  engine_client : EngineClient W;
  provider_url : string
}.

Arguments Build_L2Client {W}.
Arguments engine_client {W}.
Arguments provider_url {W}.

Section client.
Context {W : Type} `{Nodes W, Transport W, Jwt, EthersSerde}.

Definition set_engine_client (e : EngineClient W) (c : L2Client W) : L2Client W :=
  {| engine_client := e; provider_url := provider_url c |}.

Definition client_world (c : L2Client W) : W := world (engine_client c).

Definition set_client_world (w : W) (c : L2Client W) : L2Client W :=
  set_engine_client (set_world w (engine_client c)) c.

#[export] Instance L2Client_engine : Engine (L2Client W) := {
  forkchoice_updated := fun state attributes =>
    zoom engine_client set_engine_client (forkchoice_updated state attributes);
  new_payload := fun payload => zoom engine_client set_engine_client (new_payload payload);
  get_payload := fun id => zoom engine_client set_engine_client (get_payload id)
}.

#[export] Instance L2Client_blocks : BlockProvider (L2Client W) := {
  get_block_with_txs := fun n c =>
    zoom client_world set_client_world (Runner.get_block_with_txs (provider_url c) (ByNumber n)) c
}.
End client.

(** ** Driver::from_config *)

(** [reqwest::ClientBuilder::build] and [Url::parse]. *)
Class HttpClients := {
  client_build : outcome unit;
  url_parse : string -> outcome unit
}.

(** The queries of [State::new], in their order, and a reply by its number. *)
Fixpoint l2_replies {W} `{Nodes W} (url : string) (numbers : list Z) : M W (list (Z * outcome (option Block))) :=
  match numbers with
  | [] => mret []
  | n :: numbers =>
      block ← try_call (Runner.get_block_with_txs url (ByNumber n));
      rest ← l2_replies url numbers;
      mret ((n, block) :: rest)
  end.

Definition reply_to (replies : list (Z * outcome (option Block))) (n : Z) : outcome (option Block) :=
  match list_find (fun r : Z * outcome (option Block) => r.1 = n) replies with
  | Some (_, (_, block)) => block
  | None => Ok None
  end.

Section from_config.
Context {W P B S : Type} `{Nodes W, Transport W, Jwt, EthersSerde, HttpClients, RpcServer S, Keccak}.
Implicit Types w : W.

Definition Driver_from_config (debug_assertions : bool) (config : Config) : M W (Driver (L2Client W) P B) :=
  _ ← lift client_build;
  _ ← lift (url_parse (l2_rpc_url config));
  let provider := l2_rpc_url config in
  head ← query_head_info (HeadInfoFetcher_from provider) config;
  range ← lift (l2_refs_range (bi_number (l2_block_info head)) config);
  replies ← l2_replies provider range;
  engine_api ← lift (EngineApi_new (l2_engine_url config) (jwt_secret config));
  shutdown ← shutdown_signal;
  w ← gets id;
  let client := {| engine_client := {| api := engine_api; world := w |}; provider_url := provider |} in
  driver ← lift (from_config head (reply_to replies) client config shutdown);
  _addr ← lift (run_server debug_assertions config);
  mret driver.
End from_config.

(** ** The task of the driver *)

(** What happens while the driver runs: a turn of its loop, or a step of another task. *)
Inductive TaskEvent (B : Type) :=
| DriverTurn (fuel : nat)
| WatcherTurn (client : B)
| GossipMessageAt (now : Z) (msg : Message)
| ShutdownSignal.

Arguments DriverTurn {B}.
Arguments WatcherTurn {B}.
Arguments GossipMessageAt {B}.
Arguments ShutdownSignal {B}.

Section task.
Context {W P B S : Type} `{Nodes W, Transport W, Jwt, EthersSerde, HttpClients, RpcServer S}.
Context `{Keccak, Codec, RlpDecoder, Varint, Zlib, TransactionRlp, ToBeBytes8, ServiceStart}.
Context `{Snappy, Ssz, Ecdsa, L1Provider P, Http P, BlockProvider P, Beacon B}.
Implicit Types d : Driver (L2Client W) P B.

Definition task_event (e : TaskEvent B) : M (Driver (L2Client W) P B) unit :=
  match e with
  | DriverTurn fuel => turn fuel
  | WatcherTurn client => modify (fun d => set_chain_watcher (run_task client (chain_watcher d)) d)
  | GossipMessageAt now msg => modify (gossip now msg)
  | ShutdownSignal => modify (set_shutdown true)
  end.

(** The loop of [Driver::start], for as long as the list of events lasts. *)
Fixpoint driver_loop (events : list (TaskEvent B)) : M (Driver (L2Client W) P B) unit :=
  match events with
  | [] => lift Diverge
  | e :: events => task_event e ;; driver_loop events
  end.

(** [Driver::start], after at most [ready] attempts to reach the client. *)
Definition Driver_start (ready : nat) (events : list (TaskEvent B)) : M (Driver (L2Client W) P B) unit :=
  start_up ready ;;
  driver_loop events.

Definition driver_world d : W := client_world (engine (engine_driver d)).

Definition set_driver_world (w : W) d : Driver (L2Client W) P B :=
  set_engine_driver (set_engine (set_client_world w (engine (engine_driver d))) (engine_driver d)) d.

(** The driver as the task of the runner. *)
Definition driver_task (debug_assertions : bool) (ready : nat) (events : list (TaskEvent B))
    : DriverTask W (Driver (L2Client W) P B) := {|
  driver_from_config := Driver_from_config debug_assertions;
  driver_start := fun d w =>
    let '(r, d) := Driver_start ready events (set_driver_world w d) in
    (r, driver_world d)
|}.
End task.

(** ** bin/magi.rs *)

(** The process: its subscriber and the world. *)
Record Process (W A F : Type) := {
  subscriber : option (Subscriber (A := A) (F := F));
  outside : W
}.

Arguments Build_Process {W A F}.
Arguments subscriber {W A F}.
Arguments outside {W A F}.

Section magi.
Context {W D A F : Type} `{Nodes W, DriverTask W D, Transport W, Jwt, EthersSerde, AlloySerde, Figment, Keccak}.
Context `{Tracing A F, PrometheusExporter}.
Context (read_file : string -> option string) (current_dir home_dir : option string).
Context (read_toml : string -> outcome Profiles) (read_json : string -> outcome Value).

Definition set_subscriber (s : option (Subscriber (A := A) (F := F))) (p : Process W A F) : Process W A F :=
  {| subscriber := s; outside := outside p |}.

Definition set_outside (w : W) (p : Process W A F) : Process W A F :=
  {| subscriber := subscriber p; outside := w |}.

(** The exit code of an error: that of [process::exit], or 1, as when [main] returns an
    error. *)
Definition exit_code {S T} (m : M S T) : M S T := fun s =>
  match m s with
  | (Err e, s) => (Err (if is_exit e then e else "exit 1"), s)
  | r => r
  end.

(** [main], for a parsed command line. *)
Definition magi_main (fuel : nat) (default_env : option F) (cli : Cli) : M (Process W A F) unit :=
  let sync_mode := cli_sync_mode cli in
  let verbose := cli_verbose cli in
  let logs_dir := cli_logs_dir cli in
  let logs_rotation := cli_logs_rotation cli in
  let checkpoint_hash := cli_checkpoint_hash cli in
  config ← lift (to_config read_file current_dir home_dir read_toml read_json cli);
  _guards ← zoom subscriber set_subscriber (Telemetry.init default_env verbose logs_dir logs_rotation);
  exit_code (lift metrics_init) ;;
  let runner :=
    with_checkpoint_hash checkpoint_hash (with_sync_mode sync_mode (Runner_from_config config)) in
  exit_code (zoom outside set_outside (run fuel runner)).
End magi.

(** ** bin/network.rs *)

Section network.
Context {D G W A F : Type} `{Tracing A F, Libp2p G W, Discv5 D, Keccak, Snappy, Ssz, Ecdsa, Sha256}.
Context `{Codec, RlpDecoder, Varint, VarintEncode}.
Implicit Types t : NetworkTasks D W BlockHandler.

(** The address 0x715b7219d986641df9efd9c7ef01218d528e19ec. *)
Definition network_signer : bytes :=
  [113; 91; 114; 25; 217; 134; 100; 29; 249; 239; 217; 199; 239; 1; 33; 141; 82; 142; 25; 236].

Definition network_service : Service BlockHandler :=
  let addr := {| sa_ip := IpV4 [0; 0; 0; 0]; sa_port := 9876 |} in
  let chain_id := 420 in
  let block_handler := BlockHandler_new chain_id network_signer in
  add_handler block_handler (Service_new addr chain_id).

(** [main], up to the loop that receives. *)
Definition network_main (default_env : option F)
    : M (option (Subscriber (A := A) (F := F))) (NetworkAddress * NetworkTasks D W BlockHandler) :=
  _guards ← Telemetry.init default_env false None None;
  lift (Service_start network_service).

(** One receive of the loop: the hash that it logs. *)
Definition network_receive (t : NetworkTasks D W BlockHandler) : option bytes * NetworkTasks D W BlockHandler :=
  match nt_handlers t with
  | h :: l =>
      match block_sender h with
      | payload :: queue =>
          (Some (pl_block_hash payload),
           {| discovery := discovery t; peer_recv := peer_recv t; swarm := swarm t;
              nt_handlers := with_channels (unsafe_signer_recv h) queue h :: l; listening := listening t |})
      | [] => (None, t)
      end
  | [] => (None, t)
  end.
End network.

(** ** Lemmas *)

Section rpc_json.
Context `{EthersSerde}.

(** The hashes of a response are hashes. *)
Definition response_ok (r : OutputRootResponse) : Prop :=
  Forall (hash_ok 32) [output_root r; or_version r; state_root r; withdrawal_storage_root r].

(** A client reads back the response that the server serves. *)
Theorem OutputRootResponse_json r :
  response_ok r -> OutputRootResponse_deserialize (OutputRootResponse_serialize r) = Ok r.
Proof.
  intros Hr. unfold response_ok in Hr. split_Foralls. unfold OutputRootResponse_deserialize.
  repeat (eapply required_bind; [reflexivity|by apply from_hash_json|]). by destruct r.
Qed.
End rpc_json.

Section lemmas.
Context {W P B S : Type} `{Nodes W, Transport W, Jwt, EthersSerde, HttpClients, RpcServer S}.
Context `{Keccak, Codec, RlpDecoder, Varint, Zlib, TransactionRlp, ToBeBytes8, ServiceStart}.
Context `{Snappy, Ssz, Ecdsa, L1Provider P, Http P, BlockProvider P, Beacon B}.
Implicit Types d : Driver (L2Client W) P B.

Lemma query_head_info_Ok (p : HeadInfoFetcher) config (w w' : W) head :
  query_head_info p config w = (Ok head, w') ->
  (exists block, Runner.get_block_with_txs (inner p) FinalizedBlock w = (Ok (Some block), w') /\
     try_from_l2_block config block = Ok head) \/
  head = {| l2_block_info := l2_genesis (chain config); l1_epoch := l1_start_epoch (chain config); sequence_number := 0 |}.
Proof.
  unfold query_head_info. cbn [inner_block_with_txs HeadInfoFetcher_provider].
  destruct (Runner.get_block_with_txs _ _ w) as [r w1] eqn:Eq. unfold get_head_info. intros [= E <-].
  destruct r as [[block|]| | |]; cbn in E; try (by simplify_eq; right).
  destruct (try_from_l2_block config block) eqn:Eb; cbn in E; simplify_eq; [left; by exists block|by right].
Qed.

(** What is there when [Driver::from_config] ends well. *)
Lemma Driver_from_config_Ok dbg config (w w' : W) d :
  Driver_from_config (S := S) dbg config w = (Ok d, w') ->
  exists head l2_block api shutdown addr w1,
    query_head_info (HeadInfoFetcher_from (l2_rpc_url config)) config w = (Ok head, w1) /\
    EngineApi_new (l2_engine_url config) (jwt_secret config) = Ok api /\
    run_server (S := S) dbg config = Ok addr /\
    from_config head l2_block {| engine_client := {| api := api; world := w' |}; provider_url := l2_rpc_url config |}
      config shutdown = Ok d.
Proof.
  unfold Driver_from_config.
  intros (u1 & ? & [= _ <-] & (u2 & ? & [= _ <-] & E)%M_bind_Ok)%M_bind_Ok. cbv zeta in E.
  apply M_bind_Ok in E as (head & w1 & Eh & E). apply M_bind_Ok in E as (range & ? & [= _ <-] & E).
  apply M_bind_Ok in E as (replies & w2 & _ & E). apply M_bind_Ok in E as (api & ? & [= Ea <-] & E).
  apply M_bind_Ok in E as (shutdown & w3 & _ & E). apply M_bind_Ok in E as (w4 & ? & [= <- <-] & E).
  apply M_bind_Ok in E as (d' & ? & [= Ed <-] & E). apply M_bind_Ok in E as (addr & ? & [= Es <-] & [= <- <-]).
  by exists head, (reply_to replies), api, shutdown, addr, w1.
Qed.

Lemma from_config_client head l2_block (e : L2Client W) config shutdown d :
  from_config head l2_block e config shutdown = Ok d -> engine (engine_driver d) = e.
Proof. unfold from_config. by intros (s & _ & [= <-])%bind_Ok. Qed.

Lemma Driver_from_config_world dbg config (w w' : W) d :
  Driver_from_config (S := S) dbg config w = (Ok d, w') -> set_driver_world w' d = d.
Proof.
  intros (head & l2_block & api & shutdown & addr & w1 & _ & _ & _ & Hf)%Driver_from_config_Ok.
  apply from_config_client in Hf. unfold set_driver_world. rewrite Hf. cbn. unfold set_client_world. cbn.
  destruct d as [p ed]. cbn in *. destruct ed. cbn in *. by subst.
Qed.

(** Every new block that the loop takes is of a size that the bank can count. *)
Fixpoint loop_fits (config : Config) (events : list (TaskEvent B)) d : Prop :=
  match events with
  | [] => True
  | e :: events =>
      match e with DriverTurn _ => update_fits config (next_update d) | _ => True end /\
      (forall d', task_event e d = (Ok tt, d') -> loop_fits config events d')
  end.

Lemma task_event_step config e d d' :
  match e with DriverTurn _ => update_fits config (next_update d) | _ => True end ->
  task_event e d = (Ok tt, d') -> node_step config d d'.
Proof.
  destruct e as [fuel|client|now msg|]; intros Hf E; [by eapply step_turn|injection E as <-..].
  - apply step_watcher.
  - apply step_gossip.
  - apply step_shutdown.
Qed.

(** The events that the loop has taken, one after the other, each without an end. *)
Inductive task_run : list (TaskEvent B) -> Driver (L2Client W) P B -> Driver (L2Client W) P B -> Prop :=
| task_run_nil d : task_run [] d d
| task_run_cons e events d1 d2 d3 :
    task_event e d1 = (Ok tt, d2) -> task_run events d2 d3 -> task_run (e :: events) d1 d3.

Lemma task_run_inv config more events d d' :
  task_run events d d' -> loop_fits config (events ++ more) d -> driver_inv config d -> driver_inv config d'.
Proof.
  induction 1 as [d|e events d1 d2 d3 He _ IH]; [done|]. intros [Hf Hfs] Hd.
  apply (IH (Hfs _ He)). eapply node_step_inv; [|exact Hd]. by eapply task_event_step.
Qed.

(** A turn exits exactly when the signal has come or the driver fails to advance, and
    then with the code 0. *)
Lemma turn_exit fuel d r d' :
  turn fuel d = (r, d') ->
  (forall m, r = Err m -> m = "exit 0") /\
  (r = Err "exit 0" <-> shutdown_recv d = true \/ exists m, (advance fuel d).1 = Err m).
Proof.
  unfold turn. run_M. unfold Driver.check_shutdown, shutdown. destruct (shutdown_recv d) eqn:Hs.
  { intros [= <- <-]. split; [by intros m [= <-]|]. split; [by left|done]. }
  cbn. unfold shutdown_on_err, shutdown. destruct (advance fuel d) as [[[]|e'| |] d1] eqn:Ea; intros [= <- <-]; cbn.
  2: { split; [by intros m [= <-]|]. split; [eauto|done]. }
  all: split; [done|]; split; [done|]; by intros [?|[m ?]].
Qed.

(** How the loop of the driver ends: after the events before the [k]-th one, which is a turn
    that ends the run, or with the list. *)
Lemma driver_loop_run events d r d' :
  driver_loop events d = (r, d') ->
  exists k d1, task_run (take k events) d d1 /\
    match events !! k with
    | None => r = Diverge /\ d' = d1
    | Some e => r <> Ok tt /\ task_event e d1 = (r, d')
    end.
Proof.
  revert d. induction events as [|e events IH]; intros d E.
  - injection E as <- <-. exists 0%nat, d. by split; [constructor|].
  - cbn [driver_loop] in E. unfold mbind, M_bind in E. destruct (task_event e d) as [r1 d1] eqn:Ee.
    destruct r1 as [[]|m| |]; [|exists 0%nat, d; (split; [constructor|]); by injection E as <- <-..].
    destruct (IH d1 E) as (k & d2 & Hrun & Hk). exists (Datatypes.S k), d2. split; [by econstructor|exact Hk].
Qed.

Lemma await_engine_ready_exit fuel d r d' :
  await_engine_ready fuel d = (r, d') -> (forall m, r = Err m -> m = "exit 0" /\ shutdown_recv d' = true).
Proof.
  revert d. induction fuel as [|fuel IH]; intros d E; [by injection E as <- <-|]. cbn [await_engine_ready] in E.
  run_M in E. destruct (engine_ready (engine_driver d)) as [o ed] eqn:Er.
  destruct o as [[]|m| |]; try (by injection E as <- <-).
  - unfold Driver.check_shutdown, shutdown in E. destruct (shutdown_recv (set_engine_driver ed d)) eqn:Hs in E;
      cbn beta iota in E; [injection E as <- <-; by intros m [= <-]|by eapply IH].
  - unfold engine_ready in Er. by destruct (call _ (engine_driver d)) as [[]].
Qed.

Lemma start_up_exit fuel d r d' :
  start_up fuel d = (r, d') -> forall m, r = Err m -> m = "exit 0" /\ shutdown_recv d' = true.
Proof.
  unfold start_up. intros E m ->. apply M_bind_Err in E as [Ea|([] & d1 & _ & Es)]; [|done].
  by eapply await_engine_ready_exit.
Qed.
End lemmas.

(** ** Properties *)

Section properties.
Context {W P B S : Type} `{Nodes W, Transport W, Jwt, EthersSerde, HttpClients, RpcServer S}.
Context `{Keccak, Codec, RlpDecoder, Varint, Zlib, TransactionRlp, ToBeBytes8, ServiceStart}.
Context `{Snappy, Ssz, Ecdsa, L1Provider P, Http P, BlockProvider P, Beacon B}.
Implicit Types d : Driver (L2Client W) P B.

Abbreviation task dbg ready events := (driver_task (S := S) (P := P) (B := B) dbg ready events) (only parsing).

(** What [Driver::from_config] leaves when it succeeds: the three heads are the head that
    the finalized block of the L2 node encodes, or the genesis; the pipeline, the state
    and the watcher agree with the configuration; the client has the secret and the
    address of the configuration; the RPC server runs. *)
Theorem Driver_from_config_spec dbg config (w w' : W) d :
  limits_ok config -> Driver_from_config (S := S) dbg config w = (Ok d, w') ->
  driver_inv config d /\
  (exists addr, run_server (S := S) dbg config = Ok addr) /\
  EngineApi_new (l2_engine_url config) (jwt_secret config) = Ok (EngineApi.api (engine_client (engine (engine_driver d)))) /\
  exists head, (unsafe_head (engine_driver d), ed_safe_head (engine_driver d), finalized_head (engine_driver d)) =
      (l2_block_info head, l2_block_info head, l2_block_info head) /\
    finalized_epoch (engine_driver d) = l1_epoch head /\
    ((exists block w1, Runner.get_block_with_txs (l2_rpc_url config) FinalizedBlock w = (Ok (Some block), w1) /\
        try_from_l2_block config block = Ok head) \/
     head = {| l2_block_info := l2_genesis (chain config); l1_epoch := l1_start_epoch (chain config);
               sequence_number := 0 |}).
Proof.
  intros Hl (head & l2_block & api & shutdown & addr & w1 & Eq & Ea & Es & Hf)%Driver_from_config_Ok.
  split; [by eapply from_config_inv|]. split; [by exists addr|].
  pose proof (from_config_client _ _ _ _ _ _ Hf) as ->. split; [done|]. exists head.
  assert (Hd : engine_driver d = EngineDriver_new (engine (engine_driver d)) (l2_block_info head) (l1_epoch head) config).
  { unfold from_config in Hf. by apply bind_Ok in Hf as (s & _ & [= <-]). }
  rewrite Hd. split; [done|]. split; [done|].
  apply query_head_info_Ok in Eq as [(block & Hb & Ht)|Hg]; [left; by exists block, w1|by right].
Qed.

(** C32. A node that syncs in full.  The run of the node never ends well.  Where the driver
    could not be made, its error is the error of the run.  Where it was made, it satisfies
    the driver's invariant, and the run is that of its task: either the task ends while it
    waits for the client, by the signal to stop or a panic, or it runs the events of its loop
    one after the other, up to the first one that does not return, a turn, or to the end of
    the list; the state in which that turn starts is the one that the events before it lead to, it
    keeps the invariant, and the turn exits exactly when the signal has come there or the
    driver fails to advance from there.  The error of the run is then the exit with code 0:
    the code 1 that the runner has for a failure of the driver is never used. *)
Theorem full_sync_run dbg ready events fuel r w o w' :
  rn_sync_mode r = Full -> limits_ok (rn_config r) ->
  run (H1 := task dbg ready events) fuel r w = (o, w') ->
  o <> Ok tt /\
  match Driver_from_config (S := S) dbg (rn_config r) w with
  | (Ok d0, w0) => driver_inv (rn_config r) d0 /\ (forall m, o = Err m -> m = "exit 0") /\
      exists d', w' = driver_world d' /\
      (start_up ready d0 = (o, d') /\ (o = Err "exit 0" -> shutdown_recv d' = true) \/
       exists d1 k d2, start_up ready d0 = (Ok tt, d1) /\ task_run (take k events) d1 d2 /\
         (loop_fits (rn_config r) events d1 -> driver_inv (rn_config r) d2) /\
         match events !! k with
         | None => o = Diverge /\ d' = d2
         | Some e => exists fuel, e = DriverTurn fuel /\ turn fuel d2 = (o, d') /\
             (o = Err "exit 0" <-> shutdown_recv d2 = true \/ exists m, (advance fuel d2).1 = Err m)
         end)
  | (Err e, w0) => o = Err e
  | (Panic, w0) => o = Panic
  | (Diverge, w0) => o = Diverge
  end.
Proof.
  intros Hm Hl E. unfold run, full_sync, start_driver in E. rewrite Hm in E.
  cbn [driver_from_config driver_start driver_task] in E.
  destruct (Driver_from_config dbg (rn_config r) w) as [[d0|e| |] w0] eqn:Ed; try (by injection E as <- <-).
  rewrite (Driver_from_config_world dbg _ _ _ _ Ed) in E.
  apply Driver_from_config_spec in Ed as (Hd0 & _); [|done].
  destruct (Driver_start ready events d0) as [r1 d'] eqn:Es.
  assert (Hcase : (forall m, r1 = Err m -> m = "exit 0") /\ r1 <> Ok tt /\
    (start_up ready d0 = (r1, d') /\ (r1 = Err "exit 0" -> shutdown_recv d' = true) \/
     exists d1 k d2, start_up ready d0 = (Ok tt, d1) /\ task_run (take k events) d1 d2 /\
       (loop_fits (rn_config r) events d1 -> driver_inv (rn_config r) d2) /\
       match events !! k with
       | None => r1 = Diverge /\ d' = d2
       | Some e => exists fuel, e = DriverTurn fuel /\ turn fuel d2 = (r1, d') /\
           (r1 = Err "exit 0" <-> shutdown_recv d2 = true \/ exists m, (advance fuel d2).1 = Err m)
       end)).
  { unfold Driver_start, mbind, M_bind in Es. destruct (start_up ready d0) as [r2 d1] eqn:Eu.
    pose proof (start_up_exit _ _ _ _ Eu) as Hx.
    destruct r2 as [[]|m| |]; [|injection Es as <- <-; (split; [naive_solver|]); split; [done|]; left; naive_solver..].
    apply driver_loop_run in Es as (k & d2 & Hrun & Hk). destruct (events !! k) as [e|] eqn:Hek.
    - destruct Hk as [Hno He]. destruct e as [tf|client|now msg|]; [|by injection He as <-..].
      destruct (turn_exit _ _ _ _ He) as [Hex Hiff]. split; [done|]. split; [done|]. right. exists d1, k, d2.
      split; [done|]. split; [done|]. rewrite Hek. split; [|by exists tf]. intros Hfits. rewrite <- (take_drop k events) in Hfits.
      eapply task_run_inv; [done..|]. by eapply start_up_inv.
    - destruct Hk as [-> ->]. split; [done|]. split; [done|]. right. exists d1, k, d2.
      split; [done|]. split; [done|]. rewrite Hek. split; [|done]. intros Hfits. rewrite <- (take_drop k events) in Hfits.
      eapply task_run_inv; [done..|]. by eapply start_up_inv. }
  destruct Hcase as (Hx & Hno & Hcase). cbn in E.
  assert (o = r1 /\ w' = driver_world d') as [-> ->].
  { destruct r1 as [[]|m| |]; [by injection E as <- <-| |by injection E as <- <-..].
    rewrite (Hx m eq_refl) in *. by injection E as <- <-. }
  split; [done|]. split; [done|]. split; [done|]. by exists d'.
Qed.

End properties.

(** The program ends with a panic, or with one of two exit codes; a full sync never ends
    well. *)
Section exits.
Context {W D A F : Type} `{Nodes W, DriverTask W D, Transport W, Jwt, EthersSerde, AlloySerde, Figment, Keccak}.
Context `{Tracing A F, PrometheusExporter}.
Context (read_file : string -> option string) (current_dir home_dir : option string).
Context (read_toml : string -> outcome Profiles) (read_json : string -> outcome Value).

Lemma exit_code_exit {S T} (m : M S T) s e s' : exit_code m s = (Err e, s') -> is_exit e = true.
Proof.
  unfold exit_code. destruct (m s) as [[a|e'| |] s1]; intros [= <- _]. by destruct (is_exit e') eqn:Ee.
Qed.

Lemma to_config_exit cli e : to_config read_file current_dir home_dir read_toml read_json cli = Err e -> e = "exit 1".
Proof.
  unfold to_config. destruct (from_network_name _ _) as [c|e'| |] eqn:En; [|exfalso|done..].
  - rewrite bind_ret. destruct home_dir as [home|]; [|done]. cbn [unwrap]. rewrite bind_ret. cbv zeta.
    unfold Config_new. match goal with |- match ?m with _ => _ end = _ -> _ => destruct m end; by intros [= <-].
  - unfold from_network_name in En. repeat case_bool_decide; try done.
    destruct (ends_with _ _); [|done]. unfold from_json in En. by destruct (read_external _ _).
Qed.

Theorem magi_main_exit fuel default_env cli p o (p' : Process W A F) :
  magi_main read_file current_dir home_dir read_toml read_json fuel default_env cli p = (o, p') ->
  forall e, o = Err e -> e = "exit 0" \/ e = "exit 1".
Proof.
  intros E e ->. unfold magi_main in E. cbv zeta in E.
  assert (Hx : forall e, is_exit e = true -> e = "exit 0" \/ e = "exit 1").
  { intros c. unfold is_exit. by rewrite orb_true_iff, !bool_decide_eq_true. }
  apply M_bind_Err in E as [[= Ec _]|(config & p1 & _ & E)].
  { right. by eapply to_config_exit. }
  apply M_bind_Err in E as [E|(guards & p2 & _ & E)].
  { exfalso. unfold zoom, Telemetry.init, build_subscriber in E.
    destruct (cli_logs_dir cli), (subscriber p1); cbn in E; by simplify_eq. }
  apply M_bind_Err in E as [E|([] & p3 & _ & E)]; by apply Hx; eapply exit_code_exit.
Qed.
End exits.

(** ** Witnesses *)

#[local] Existing Instances example_keccak example_codec rlp_decoder example_varint example_zlib
  example_rlp example_to_be_bytes_8 example_snappy example_ssz example_ecdsa example_l1 example_l1_blocks
  example_http example_beacon example_service_start example_serde example_jwt example_nodes example_execution_client.

#[local] Instance example_http_clients : HttpClients := {
  client_build := Ok tt;
  url_parse := fun _ => Ok tt
}.

#[local] Instance example_rpc_server : RpcServer string := {
  server_build := fun addr => Ok addr;
  local_addr := fun _ => Ok {| sa_ip := IpV4 [127; 0; 0; 1]; sa_port := 9545 |};
  server_start := fun _ _ => Ok tt
}.

(** The driver is made, reaches the client, gets the signal and exits. *)
Definition example_events : list (TaskEvent (list (outcome Value))) := [ShutdownSignal; DriverTurn 1].

Definition example_task : DriverTask (Z * Z) (Driver (L2Client (Z * Z)) unit (list (outcome Value))) :=
  driver_task (S := string) false 3 example_events.

Definition example_full_runner : Runner := with_sync_mode Full example_runner.

Lemma example_fits d0 n d1 : start_up n d0 = (Ok tt, d1) -> loop_fits (rn_config example_full_runner) example_events d1.
Proof.
  intros Es. unfold start_up in Es. apply M_bind_Ok in Es as ([] & d2 & _ & [= <-]). split; [done|].
  intros d3 [= <-]. by split.
Qed.

(** The signal is there when the turn starts. *)
Lemma full_sync_run_witness :
  exists w', run (W := Z * Z) (H1 := example_task) 1 example_full_runner (10, 0) = (Err "exit 0", w') /\
    exists (d1 d2 : Driver (L2Client (Z * Z)) unit (list (outcome Value))),
      task_run [ShutdownSignal] d1 d2 /\ driver_inv (rn_config example_full_runner) d2 /\ shutdown_recv d2 = true /\
      (turn 1 d2).1 = Err "exit 0".
Proof.
  destruct (run (W := Z * Z) (H1 := example_task) 1 example_full_runner (10, 0)) as [o w'] eqn:E. exists w'.
  assert (Ho : o = Err "exit 0") by (by vm_compute in E; injection E as <- _).
  split; [by rewrite Ho|].
  destruct (full_sync_run (S := string) (P := unit) false 3 example_events 1 example_full_runner (10, 0) o w'
    eq_refl ltac:(by split; by_compute) E) as [_ Hm].
  destruct (Driver_from_config (S := string) (P := unit) (B := list (outcome Value)) false
    (rn_config example_full_runner) (10, 0)) as [[d0| | |] w0] eqn:Ed; [|by rewrite Ho in Hm..].
  destruct Hm as (_ & _ & d' & _ & [[Hs _]|(d1 & k & d2 & Hs & Hrun & Hinv & Hk)]).
  { exfalso. rewrite Ho in Hs. vm_compute in Ed. injection Ed as <- <-. by vm_compute in Hs. }
  pose proof (example_fits d0 _ d1 Hs) as Hfits.
  destruct k as [|[|k]]; cbn in Hk, Hrun; [by destruct Hk as (? & ? & _)| |].
  - exists d1, d2. split; [exact Hrun|]. split; [by apply Hinv|]. destruct Hk as (tf & [= <-] & Ht & _).
    rewrite Ho in Ht. rewrite Ht. split; [|done]. inversion Hrun as [|? ? ? ? ? He Hr]; subst. inversion Hr; subst. by injection He as <-.
  - destruct k; cbn in Hk; destruct Hk as [Hk _]; by rewrite Ho in Hk.
Defined.
